(* ===== verification/_CoqProject ===== *)
-Q . S2P
Prelude.v
Errors.v
GoStrings.v
Strconv.v
Encoding.v
Json.v
Token.v
Session.v
APIKey.v
CMap.v
MemoryStore.v
MemoryStoreFacts.v
MemoryStoreSpec.v
Lru.v
TokenService.v
NetIP.v
AuthService.v
AuthServiceSpec.v
JsonFacts.v
WalCodec.v
WalCodecSpec.v
SnapshotCrypt.v
WalLog.v
WalLogFacts.v
WalProgress.v
WalReadFacts.v
WalWriteFacts.v
WalLogSpec.v
WalFaults.v
SessionService.v
SessionServiceSpec.v
Snapshot.v
SnapshotSpec.v
SnapFaults.v
Engine.v
EngineFacts.v
EngineRepo.v
EngineSpec.v
EngineLimits.v
EngineRace.v
Float64.v
GoTime.v
Glob.v
Resp.v
RespSpec.v
Redis.v
RedisSpec.v
RedisClient.v
ShardMap.v
ShardMapSpec.v
Fsm.v
FsmSpec.v
Cluster.v
ClusterSpec.v
Rebalance.v
RebalanceSpec.v
HttpNet.v
HttpHandler.v
HttpServer.v
HttpSpec.v
HttpApiSpec.v
Logger.v
CliOutput.v
Cli.v
CliSpec.v
Program.v
ProgramSpec.v
Badger.v
BadgerSpec.v
ClusterNode.v
ClusterNodeSpec.v
ConfLoader.v
RedisServer.v
FileWatch.v
TlsRoots.v
Repl.v
LocalServer.v
SessionIndex.v
CliProgress.v
ClusterLoops.v
