(* ===== verification/Prelude.v ===== *)
(** * TokMesh: a verification development

    TokMesh is a session cache in Go.  Clients create sessions, get a secret token for
    each, and later ask whether a token is valid; they do so over HTTP or over the Redis
    protocol, with API keys of four roles.  Sessions live in memory, are logged to disk and
    snapshotted, and can be spread over a cluster.  This library models the code under
    [src/src/internal], [src/src/pkg] and [src/src/cmd] (paths below are relative to the first two) and proves
    what makes it correct, and where it is not.

    ** How the program is modelled

    A method is a function in the state monad [M S] of this file: [S] is the state of the
    object, [env] what the program reads from outside ([clk] the successive readings of the
    clock in nanoseconds, [rnd] the random source, [ulids] the identifiers).  [zoom] runs a
    method on a field of a larger state, as a call through a pointer does.  A method that
    runs under one lock is one step; where the code releases the lock between reading and
    writing, the parts are definitions of their own, and the theorems speak of any state in
    between.  An error is a value ([error], [Res]); a panic, or a call that does not return,
    is [None].  Integers are [Z] with the wrap-around of their width ([i64], [u64], [u32])
    where the code can leave the range; [float64] is IEEE 754 double precision; strings are
    byte strings; maps are [gmap]s.

    ** The parts, from the bottom up

    - Language and standard library: [GoStrings], [Strconv], [Encoding] (hex, Base64, CRC-32,
      SHA-256, written out), [Json]/[JsonFacts] ([encoding/json]: printing, parsing, assigning,
      and their round trip), [Float64], [GoTime], [NetIP], [HttpNet] (requests, responses and
      the [ServeMux] of [net/http]).
    - Domain ([core/domain]): [Errors], [Token] (and [pkg/token]), [Session], [APIKey].
    - [CMap] ([pkg/cmap]): the sharded map and its refinement of a finite map; the stores use
      the abstract map.
    - [MemoryStore] ([storage/memory/store.go], [index.go]) with [MemoryStoreFacts] and
      [MemoryStoreSpec]: the three indexes and their invariant [Inv]; [SessionIndex] ([index.go]):
      the sets of an index as objects, each method in steps, so that calls interleave.
    - [TokenService] ([core/service/token.go]): token validation against the class
      [TokenRepository], nonces in the recency list [Lru].
    - [AuthService] ([core/service/auth.go], [storage/memory/apikey.go]) with
      [AuthServiceSpec]: keys against the class [APIKeyRepository], the key
      cache, allowlists, rotation.
    - [SessionService] ([core/service/session.go], [session_lifecycle.go]) with
      [SessionServiceSpec]: against the class [SessionRepository]; its laws
      [SessionRepositoryLaws] hold of the memory store and, in [EngineRepo], of the engine.
    - The log ([storage/wal], [pkg/crypto/adaptive]): [WalCodec] (entries, frames, encryption),
      [WalLog] (segments, writer, reader, compactor), with [WalCodecSpec], [WalLogFacts],
      [WalReadFacts], [WalWriteFacts], [WalProgress], [WalLogSpec]; [WalFaults]: the writer again,
      with system calls that fail, and the proof that without failures it is that of [WalLog].
    - [Snapshot]/[SnapshotSpec] ([storage/snapshot/manager.go]), [SnapshotCrypt] (keys from
      passphrases, [encrypt.go]), [SnapFaults] (the writing of a snapshot call by call).
    - [Badger]/[BadgerSpec] ([storage/badger.go], [kv.go]): the key-value engine over a database
      with laws.
    - [Engine] ([storage/engine.go]) with [EngineFacts], [EngineSpec], [EngineLimits]: log first,
      then memory; recovery from a snapshot and the log.  [EngineRace]: a write as its two parts,
      between which other writes run.
    - The Redis server ([server/redisserver]): [Resp]/[RespSpec] (the protocol), [Glob] (SCAN
      patterns), [Redis] (commands, permissions, rate limiter, the loop of a connection),
      [RedisSpec], [RedisClient] (what a client sees), [RedisServer] (start and shutdown as
      interleavings of the goroutines).
    - The cluster ([server/clusterserver]): [ShardMap] (the hash ring), [Fsm] (the replicated
      state machine), [Cluster] (configuration, membership, commands, certificates),
      [Rebalance] (moving shards), [ClusterNode] (what a node opens and closes, the interceptors),
      each with a [Spec] file; [ClusterLoops] (the loops of a node and the callbacks of gossip).
    - The HTTP server ([server/httpserver], [cmd/tokmesh-server/main.go]): [HttpHandler] (the
      API), [HttpServer] (middleware, router, and what the program really serves), [HttpSpec],
      [HttpApiSpec].
    - The command line client ([cli]): [Cli] (connection and commands), [CliOutput] (tables and
      formatters), [CliSpec] (client and server together), [CliProgress] (bar and
      spinner), [Repl] (the interactive mode, its history and completion, the client's own file).
    - The program: [Logger] ([telemetry/logger]), [ConfLoader] and [FileWatch]
      ([infra/confloader]), [TlsRoots] ([infra/tlsroots]), [LocalServer] ([server/localserver]),
      [Program] ([server/config], [infra/shutdown], [cmd/tokmesh-server/main.go]) and [ProgramSpec].

    Each [X] holds definitions named after the code's; [XSpec] the theorems.

    ** What the theorems show

    - Storage: the log returns what was appended ([log_roundtrip]), a crash leaves a prefix
      ([crash_prefix]), a restart without a snapshot gives back the store as the log carries it
      ([recovery_rebuilds], [recovery_after_crash]), snapshots and frames round trip, compaction is safe, recovery
      ends on any directory; and the cases where acknowledged writes are lost
      ([recovery_drops_suffix], [append_after_torn_write_lost]).  Requests that write at once:
      the running store follows the order in which they reached it, a restart the order of the log
      ([restart_follows_log]), which can undo an acknowledged update ([concurrent_update_lost]) or
      redo a refused creation ([refused_creation_returns]).
    - Failing disks: the writer without failures is the one the theorems above speak of
      ([no_failure_same]); a rotation that fails loses what is acknowledged after it
      ([failed_rotation_loses]), a header that cannot be written stops every later start
      ([failed_header_blocks]), a refused entry is logged later ([refused_append_logged]), and
      entries behind a write cut short are never read ([short_write_loses]).  A snapshot is all or
      nothing, wherever its writing fails ([snapshot_atomic]).
    - Sessions: the indexes stay consistent, a read of an index that runs beside writers sees it as it
      was at some time since the read began ([index_linearizable]), the sharded map answers as one
      finite map ([operations_refine]), stale writes are refused or based on the stored version, a token validates from creation to expiry or revocation.
    - Keys: secrets verify, rotation has its grace period, disabling takes effect at once but
      for a race, allowlists admit what they say, nonces are not replayed.
    - Redis: the protocol round trips and is bounded, no command runs without its permission,
      every connection ends, SCAN with a COUNT from 1 to 100 returns each session once.
    - HTTP: who gets past the router, every request is answered once, the routing tables
      agree, a created session's token validates; and the API the program serves is open.
    - Cluster: a snapshot replaces the log, the ring moves no more hashes than it has to,
      a migration that reports no error has delivered the sessions with an expiry far enough
      ahead; and where it never returns.  A node that starts holds everything open, one that
      fails to start only what could not be closed.
    - Client: a command run against the server of this library, over HTTP as [CliSpec] puts the
      two together: what it revokes is revoked, what it enables is disabled.
    - Program: what the order of the shutdown does to requests still served ([shutdown_window]),
      that the shutdowns of the Redis and the local server drain them
      ([shutdown_drains], [local_shutdown]), exactly what the log gives away ([redaction_hides]),
      which entries the environment reaches ([environment_reach]), when a renewed certificate is
      served ([renewal_window]), what the interactive mode remembers ([history_persists]).

    ** Bounds and fuel

    Loops whose recursion is not structural take fuel, and a theorem shows the fuel given is
    enough: [ReadAll], [replayWAL] and the reader's loop get more than the bytes and the
    segments of the directory ([WalProgress], [recovery_terminates]), [readLine] and [serveConn] one more than
    the bytes not yet read ([ReadCommand_bounded], [serve_terminates]), the search of the ring
    the number of positions, the parser of JSON the length of the text.  [evict] of [Lru] runs
    out of fuel only where the code's loop never ends, and [nonpositive_capacity_hangs] says when.

    ** Outside the model

    Parameters, as classes with the documented behaviour as laws where a theorem needs it:
    Argon2id, the AEAD ciphers, the token bucket of [x/time/rate], ULIDs, MurmurHash3, gzip,
    raft, memberlist, X.509, RPC streams, the local time zone, HKDF, Badger, Koanf and YAML,
    [time.ParseDuration], the parsing of the command line, the text [fmt] gives arbitrary values.

    Not modelled: deadlines, signals, metrics and tracing (I/O around library code); what is
    logged; failures of file system calls outside the writer of the log and the writing of
    snapshots; the times at which tickers fire (their rounds come at arbitrary times); goroutines
    beyond the interleavings above; the [Scan] callback of the stores outside a migration; Unicode
    case mapping; fused multiply-add; the listener of the HTTP server and the command line program,
    which only call libraries; the generated RPC code. *)

From Stdlib Require Import ZArith Lia Ascii String List Sorting.Sorted.
From stdpp Require Import base tactics option list sorting strings gmap fin_maps.

Open Scope Z_scope.

(** ** Machine integers *)

(** Go's fixed-width integers are elements of [Z]; arithmetic that can leave
    the range is followed by the wrap-around of its width. *)
Definition two64 : Z := 2 ^ 64.
Definition u64 (z : Z) : Z := z mod two64.
Definition u32 (z : Z) : Z := z mod 2 ^ 32.
Definition i64 (z : Z) : Z := (z + 2 ^ 63) mod two64 - 2 ^ 63.

Definition in_i64 (z : Z) : Prop := - 2 ^ 63 <= z < 2 ^ 63.

Lemma i64_id (z : Z) : in_i64 z -> i64 z = z.
Proof. unfold in_i64, i64, two64; intros H; rewrite Z.mod_small; lia. Qed.

Lemma i64_range (z : Z) : in_i64 (i64 z).
Proof.
  unfold in_i64, i64, two64.
  pose proof (Z.mod_pos_bound (z + 2 ^ 63) (2 ^ 64)); lia.
Qed.

Lemma u64_id (z : Z) : 0 <= z < two64 -> u64 z = z.
Proof. apply Z.mod_small. Qed.

Lemma u32_id (z : Z) : 0 <= z < 2 ^ 32 -> u32 z = z.
Proof. apply Z.mod_small. Qed.

(** A decidable fact of every integer of a range, checked by evaluation. *)
Lemma forall_range (n : nat) (p : Z -> bool) (z : Z) :
  forallb (fun k => p (Z.of_nat k)) (seq 0 n) = true -> 0 <= z < Z.of_nat n -> p z = true.
Proof.
  intros H Hz; rewrite forallb_forall in H.
  rewrite <- (Z2Nat.id z) by lia; apply H, in_seq; lia.
Qed.

Lemma u64_range (z : Z) : 0 <= u64 z < two64.
Proof. apply Z.mod_pos_bound; unfold two64; lia. Qed.

Lemma u64_add_l (a b : Z) : u64 (u64 a + b) = u64 (a + b).
Proof. unfold u64, two64; apply Zplus_mod_idemp_l. Qed.

(** [len(s)] of a Go string or slice. *)
Definition slen (s : string) : Z := Z.of_nat (String.length s).
Definition llen {A} (l : list A) : Z := Z.of_nat (length l).

Lemma slen_nonneg (s : string) : 0 <= slen s.
Proof. unfold slen; lia. Qed.

(** ** Errors and results *)

(** Go error values: the [*domain.DomainError] of [core/domain/errors.go], a
    sentinel or formatted error without cause, [fmt.Errorf("...: %w")] and
    [fmt.Errorf("%w: ...")]. *)
#[warnings="-register-all"]
Inductive error :=
| DomainError (Code Message Details : string) (Cause : option error)
| SimpleError (msg : string)
| WrapError (msg : string) (cause : error)
| ErrorAfter (cause : error) (msg : string).

Inductive Res (A : Type) :=
| Ok (a : A)
| Err (e : error).
Arguments Ok {A} _.
Arguments Err {A} _.

Definition is_ok {A} (r : Res A) : bool :=
  match r with Ok _ => true | Err _ => false end.

(** ** Effects

    An operation works on a state [S] (the object the Go method mutates) and
    on the environment of the process: successive readings of the clock
    ([time.Now()], in nanoseconds since the Unix epoch), of the random source
    and of the ULID generator.  Each reading consumes the head of its
    stream, so two calls of [time.Now()] in one method may differ. *)
Record env := Env {
  clk : nat -> Z;
  rnd : nat -> nat -> Res (list Z);
  ulids : nat -> Res string;
}.

Definition M (S A : Type) : Type := S -> env -> A * S * env.

Definition ret {S A} (a : A) : M S A := fun s e => (a, s, e).
Definition bind {S A B} (m : M S A) (k : A -> M S B) : M S B :=
  fun s e => let '(a, s', e') := m s e in k a s' e'.
Definition get_st {S} : M S S := fun s e => (s, s, e).
Definition put_st {S} (s' : S) : M S unit := fun _ e => (tt, s', e).
Definition upd_st {S} (f : S -> S) : M S unit := fun s e => (tt, f s, e).

Definition time_now {S} : M S Z := fun s e =>
  (clk e 0%nat, s, Env (fun n => clk e (n + 1)%nat) (rnd e) (ulids e)).
Definition rand_read {S} (n : nat) : M S (Res (list Z)) := fun s e =>
  (rnd e 0%nat n, s, Env (clk e) (fun k => rnd e (k + 1)%nat) (ulids e)).
Definition ulid_new {S} : M S (Res string) := fun s e =>
  (ulids e 0%nat, s, Env (clk e) (rnd e) (fun k => ulids e (k + 1)%nat)).

(** [time.Time.UnixMilli] of a reading of the clock. *)
Definition unix_milli (ns : Z) : Z := ns / 1000000.
Definition now_milli {S} : M S Z := bind time_now (fun t => ret (unix_milli t)).

Declare Scope go_scope.
Delimit Scope go_scope with go.
Notation "x <- m ;; k" := (bind m (fun x => k))
  (at level 60, m at next level, right associativity) : go_scope.
Notation "m ;;; k" := (bind m (fun _ => k))
  (at level 60, right associativity) : go_scope.
(** [x, err := m; if err != nil { return err }]. *)
Notation "x <-? m ;; k" :=
  (bind m (fun r => match r with Ok x => k | Err err => ret (Err err) end))
  (at level 60, m at next level, right associativity) : go_scope.
Open Scope go_scope.

(** A Go [for range] loop whose body is effectful. *)
Fixpoint for_range {S A} (l : list A) (body : A -> M S unit) : M S unit :=
  match l with
  | [] => ret tt
  | x :: l' => body x ;;; for_range l' body
  end.

(** A loop that collects the values the body returns. *)
Fixpoint for_collect {S A B} (l : list A) (body : A -> M S (option B)) : M S (list B) :=
  match l with
  | [] => ret []
  | x :: l' =>
      r <- body x ;;
      rest <- for_collect l' body ;;
      ret (match r with Some b => b :: rest | None => rest end)
  end.

(** Running a method of a component that is a field of a larger state. *)
Definition zoom {S T A} (get : S -> T) (put : T -> S -> S) (m : M T A) : M S A :=
  fun s e => let '(a, t, e') := m (get s) e in (a, put t s, e').

(** Running a method of an object that lives in a local variable. *)
Definition with_local {S T A} (t : T) (m : M T A) : M S (A * T) :=
  fun s e => let '(a, t', e') := m t e in ((a, t'), s, e').

(** Running a sequence whose first part is known. *)
Lemma bind_run {S A B} (m : M S A) (k : A -> M S B) s e a s' e' :
  m s e = (a, s', e') -> bind m k s e = k a s' e'.
Proof. unfold bind; by intros ->. Qed.

(** ** Partial correctness of an effectful operation *)
Definition hoare {S A} (P : S -> Prop) (m : M S A) (Q : A -> S -> Prop) : Prop :=
  forall s e, P s -> let '(a, s', _) := m s e in Q a s'.

Definition preserves {S A} (I : S -> Prop) (m : M S A) : Prop :=
  hoare I m (fun _ s => I s).

Lemma hoare_ret {S A} (P : S -> Prop) (a : A) (Q : A -> S -> Prop) :
  (forall s, P s -> Q a s) -> hoare P (ret a) Q.
Proof. intros H s e Hs; simpl; auto. Qed.

Lemma hoare_bind {S A B} (P : S -> Prop) (m : M S A) (k : A -> M S B) R Q :
  hoare P m R -> (forall a, hoare (R a) (k a) Q) -> hoare P (bind m k) Q.
Proof.
  intros Hm Hk s e Hs; unfold bind; specialize (Hm s e Hs).
  destruct (m s e) as [[a s'] e']; apply (Hk a s' e' Hm).
Qed.

Lemma hoare_conseq {S A} (P P' : S -> Prop) (m : M S A) (Q Q' : A -> S -> Prop) :
  hoare P m Q -> (forall s, P' s -> P s) -> (forall a s, Q a s -> Q' a s) ->
  hoare P' m Q'.
Proof.
  intros Hm HP HQ s e Hs; specialize (Hm s e (HP s Hs)).
  destruct (m s e) as [[a s'] e']; auto.
Qed.

Lemma preserves_ret {S A} (I : S -> Prop) (a : A) : preserves I (ret a).
Proof. apply hoare_ret; auto. Qed.

Lemma preserves_bind {S A B} (I : S -> Prop) (m : M S A) (k : A -> M S B) :
  preserves I m -> (forall a, preserves I (k a)) -> preserves I (bind m k).
Proof. intros; eapply hoare_bind; eauto. Qed.

Lemma preserves_get_st {S} (I : S -> Prop) : preserves I get_st.
Proof. intros s e Hs; exact Hs. Qed.

Lemma preserves_time_now {S} (I : S -> Prop) : preserves I time_now.
Proof. intros s e Hs; exact Hs. Qed.

Lemma preserves_rand_read {S} (I : S -> Prop) n : preserves I (rand_read n).
Proof. intros s e Hs; exact Hs. Qed.

Lemma preserves_ulid_new {S} (I : S -> Prop) : preserves I ulid_new.
Proof. intros s e Hs; exact Hs. Qed.

Lemma preserves_upd_st {S} (I : S -> Prop) (f : S -> S) :
  (forall s, I s -> I (f s)) -> preserves I (upd_st f).
Proof. intros H s e Hs; apply H, Hs. Qed.

Lemma preserves_for_range {S A} (I : S -> Prop) (l : list A) body :
  (forall x, preserves I (body x)) -> preserves I (for_range l body).
Proof.
  intros H; induction l as [|x l IH]; simpl.
  - apply preserves_ret.
  - apply preserves_bind; auto.
Qed.

Lemma preserves_for_collect {S A B} (I : S -> Prop) (l : list A)
    (body : A -> M S (option B)) :
  (forall x, preserves I (body x)) -> preserves I (for_collect l body).
Proof.
  intros H; induction l as [|x l IH]; simpl; [apply preserves_ret|].
  apply preserves_bind; [auto|]; intros r; apply preserves_bind; [auto|].
  intros; apply preserves_ret.
Qed.

Lemma preserves_zoom {S T A} (get : S -> T) put (I : S -> Prop) (J : T -> Prop)
    (m : M T A) :
  (forall s, I s -> J (get s)) -> (forall t s, I s -> J t -> I (put t s)) ->
  preserves J m -> preserves I (zoom get put m).
Proof.
  intros Hg Hp Hm s e Hs; unfold zoom; specialize (Hm (get s) e (Hg s Hs)).
  destruct (m (get s) e) as [[a t] e']; auto.
Qed.

Create HintDb go.
#[export] Hint Resolve preserves_ret preserves_bind preserves_get_st
  preserves_time_now preserves_rand_read preserves_ulid_new preserves_upd_st
  preserves_for_range preserves_for_collect : go.

(** [now_milli] reads the clock once. *)
Lemma preserves_now_milli {S} (I : S -> Prop) : preserves I now_milli.
Proof. unfold now_milli; eauto with go. Qed.
#[export] Hint Resolve preserves_now_milli : go.

(** ** The clock only moves forward *)

(** [e'] is what is left of [e] after some readings of the clock. *)
Definition later (e e' : env) : Prop := exists n, forall k, clk e' k = clk e (n + k)%nat.
Definition advances {S A} (m : M S A) : Prop := forall s e, later e (snd (m s e)).

Lemma later_refl e : later e e.
Proof. by exists 0%nat. Qed.
Lemma later_trans e1 e2 e3 : later e1 e2 -> later e2 e3 -> later e1 e3.
Proof.
  intros [n H1] [m H2]; exists (n + m)%nat; intros k; rewrite H2, H1; f_equal; lia.
Qed.

Lemma advances_ret {S A} (a : A) : advances (S := S) (ret a).
Proof. intros s e; apply later_refl. Qed.
Lemma advances_bind {S A B} (m : M S A) (k : A -> M S B) :
  advances m -> (forall a, advances (k a)) -> advances (bind m k).
Proof.
  intros Hm Hk s e; unfold bind; specialize (Hm s e).
  destruct (m s e) as [[a s'] e']; eapply later_trans; [exact Hm|apply Hk].
Qed.
Lemma advances_get_st {S} : advances (S := S) get_st.
Proof. intros s e; apply later_refl. Qed.
Lemma advances_put_st {S} (s' : S) : advances (put_st s').
Proof. intros s e; apply later_refl. Qed.
Lemma advances_upd_st {S} (f : S -> S) : advances (upd_st f).
Proof. intros s e; apply later_refl. Qed.
Lemma advances_rand_read {S} n : advances (S := S) (rand_read n).
Proof. intros s e; by exists 0%nat. Qed.
Lemma advances_ulid_new {S} : advances (S := S) ulid_new.
Proof. intros s e; by exists 0%nat. Qed.
Lemma advances_time_now {S} : advances (S := S) time_now.
Proof. intros s e; exists 1%nat; intros k; simpl; f_equal; lia. Qed.
Lemma advances_for_range {S A} (l : list A) (body : A -> M S unit) :
  (forall x, advances (body x)) -> advances (for_range l body).
Proof.
  intros H; induction l; simpl; [apply advances_ret|by apply advances_bind].
Qed.
Lemma advances_for_collect {S A B} (l : list A) (body : A -> M S (option B)) :
  (forall x, advances (body x)) -> advances (for_collect l body).
Proof.
  intros H; induction l; simpl; [apply advances_ret|].
  repeat (apply advances_bind; [done|intros]); apply advances_ret.
Qed.
Lemma advances_zoom {S T A} (get : S -> T) put (m : M T A) :
  advances m -> advances (zoom get put m).
Proof. intros H s e; unfold zoom; specialize (H (get s) e); by destruct (m (get s) e) as [[??]?]. Qed.
#[export] Hint Resolve advances_ret advances_get_st advances_put_st advances_upd_st
  advances_rand_read advances_ulid_new advances_time_now : go.
Lemma advances_now_milli {S} : advances (S := S) now_milli.
Proof. apply advances_bind; eauto with go. Qed.
#[export] Hint Resolve advances_now_milli : go.

(** Case analysis on the scrutinee of the goal, the workhorse for methods that
    are sequences of guarded returns. *)
Ltac case_goal :=
  match goal with
  | |- context [match ?x with _ => _ end] => destruct x eqn:?
  end.
Ltac preserves_tac :=
  repeat first
    [ progress intros
    | apply preserves_bind
    | apply preserves_for_collect
    | apply preserves_for_range
    | solve [eauto with go]
    | case_goal ].

Ltac advances_tac :=
  repeat first
    [ progress intros
    | apply advances_bind
    | apply advances_for_collect
    | apply advances_for_range
    | apply advances_zoom
    | solve [eauto with go]
    | case_goal ].

(** Splits conjunctions only (not records or equivalences). *)
Ltac split_ands := repeat match goal with |- _ /\ _ => split end.

(** ** Sorting *)

(** [sort.Slice] as insertion sort (Go's own algorithm up to twelve elements;
    beyond, the order of elements the comparison does not separate is
    unspecified).  The prefix is kept reversed: its last element first. *)
Fixpoint insert_back {A} (less : A -> A -> bool) (x : A) (rprefix : list A) : list A :=
  match rprefix with
  | [] => [x]
  | y :: r => if less x y then y :: insert_back less x r else x :: rprefix
  end.
Definition sort_slice {A} (less : A -> A -> bool) (l : list A) : list A :=
  rev (fold_left (fun rp x => insert_back less x rp) l []).

Section Sorting.
Context {A : Type} (less : A -> A -> bool) (R : A -> A -> Prop).
Hypothesis R_trans : forall x y z, R x y -> R y z -> R x z.
Hypothesis less_true : forall x y, less x y = true -> R x y.
Hypothesis less_false : forall x y, less x y = false -> R y x.

Lemma insert_back_perm x l : insert_back less x l ≡ₚ x :: l.
Proof.
  induction l as [|y l IH]; simpl; [done|]. destruct (less x y); [|done].
  rewrite IH; constructor.
Qed.

Lemma insert_back_sorted x l :
  StronglySorted (flip R) l -> StronglySorted (flip R) (insert_back less x l).
Proof.
  induction 1 as [|y l Hl IH Hy]; simpl; [repeat constructor|].
  destruct (less x y) eqn:E; constructor; auto.
  - rewrite insert_back_perm; constructor; [|done]. by apply less_true.
  - by constructor.
  - apply less_false in E; constructor; [done|].
    eapply Forall_impl; [exact Hy|]; unfold flip; simpl; eauto.
Qed.

Lemma sorted_rev l : StronglySorted (flip R) l -> StronglySorted R (rev l).
Proof.
  induction 1 as [|y l Hl IH Hy]; simpl; [constructor|].
  apply StronglySorted_app_2; [|done|repeat constructor].
  intros a b Ha ->%list_elem_of_singleton; rewrite Forall_forall in Hy; apply Hy.
  by apply list_elem_of_In, in_rev, list_elem_of_In.
Qed.

Lemma sort_slice_spec l : sort_slice less l ≡ₚ l /\ StronglySorted R (sort_slice less l).
Proof.
  assert (forall acc, StronglySorted (flip R) acc ->
    fold_left (fun rp x => insert_back less x rp) l acc ≡ₚ l ++ acc /\
    StronglySorted (flip R) (fold_left (fun rp x => insert_back less x rp) l acc)) as H.
  { induction l as [|x l IH]; intros acc Hacc; simpl; [done|].
    destruct (IH (insert_back less x acc)) as [Hp Hs]; [by apply insert_back_sorted|].
    split; [|done]. rewrite Hp, insert_back_perm; symmetry; apply Permutation_middle. }
  destruct (H [] ltac:(constructor)) as [Hp Hs]; rewrite app_nil_r in Hp.
  unfold sort_slice; split; [by rewrite <- Permutation_rev|by apply sorted_rev].
Qed.
End Sorting.
Lemma sort_slice_perm {A} (less : A -> A -> bool) l : sort_slice less l ≡ₚ l.
Proof. by apply (sort_slice_spec less (fun _ _ => True)). Qed.

(** * Loops that end

    Operations that use up their input: termination of loops that read until an
    answer tells them to stop. *)

Section Progress.
Context {S : Type} (rel : S -> S -> Prop) (size : S -> nat).
Hypothesis rel_refl : forall s, rel s s.
Hypothesis rel_trans : forall a b c, rel a b -> rel b c -> rel a c.

(** [m] consumes something, unless it answers as [quiet] says. *)
Definition progress {A} (quiet : A -> Prop) (m : M S A) : Prop :=
  forall s e, let '(x, s', _) := m s e in
    rel s s' /\ (size s' <= size s)%nat /\ (quiet x \/ (size s' < size s)%nat).
(** [m] consumes nothing it does not have. *)
Definition frugal {A} (m : M S A) : Prop := progress (fun _ => True) m.

Lemma progress_weaken {A} (P Q : A -> Prop) m : progress P m -> (forall x, P x -> Q x) -> progress Q m.
Proof. intros H HPQ s e; specialize (H s e); destruct (m s e) as [[x s'] e']; intuition. Qed.

(** After a step that consumed, anything frugal follows; after a quiet answer
    the rest has to account for itself. *)
Lemma progress_bind {A B} (P : A -> Prop) (Q : B -> Prop) (m : M S A) (k : A -> M S B) :
  progress P m -> (forall x, frugal (k x)) -> (forall x, P x -> progress Q (k x)) -> progress Q (bind m k).
Proof.
  intros Hm Hk Hq s e; unfold bind; specialize (Hm s e); destruct (m s e) as [[x s1] e1].
  destruct Hm as (Hs & Hle & [Hx|Hlt]).
  - specialize (Hq x Hx s1 e1); destruct (k x s1 e1) as [[y s2] e2]; destruct Hq as (Hs2 & Hle2 & [?|?]);
      (split; [by eapply rel_trans|]); split; [lia|by left|lia|right; lia].
  - specialize (Hk x s1 e1); destruct (k x s1 e1) as [[y s2] e2]; destruct Hk as (Hs2 & Hle2 & _).
    split; [by eapply rel_trans|]; split; [lia|right; lia].
Qed.
Lemma frugal_bind {A B} (m : M S A) (k : A -> M S B) :
  frugal m -> (forall x, frugal (k x)) -> frugal (bind m k).
Proof. intros Hm Hk; exact (progress_bind _ _ m k Hm Hk (fun x _ => Hk x)). Qed.
Lemma progress_ret {A} (Q : A -> Prop) x : Q x -> progress Q (ret x).
Proof. intros H s e; cbn; split; [done|]; split; [lia|by left]. Qed.
Lemma progress_get_st (Q : S -> Prop) : (forall s, Q s) -> progress Q get_st.
Proof. intros H s e; cbn; split; [done|]; split; [lia|by left]. Qed.
Lemma frugal_ret {A} (x : A) : frugal (ret x).
Proof. by apply progress_ret. Qed.
Lemma progress_frugal {A} (P : A -> Prop) m : progress P m -> frugal m.
Proof. intros H; eapply progress_weaken; [exact H|done]. Qed.
Lemma frugal_upd (f : S -> S) :
  (forall s, rel s (f s) /\ (size (f s) <= size s)%nat) -> frugal (upd_st f).
Proof. intros H s e; cbn; destruct (H s); auto. Qed.
End Progress.
