(* ===== verification/Errors.v ===== *)
(** Domain errors: [internal/core/domain/errors.go].

    The structured error type with its [errors.Is]/[errors.As] behaviour, the
    constructors and copiers, and the sentinels every other component
    returns. *)

From stdpp Require Import strings.
From S2P Require Import Prelude.

(** [fmt.Sprintf("[%s] %s: %s", ...)] of [DomainError.Error]; for the other
    errors, the text they were created with ([%w] prints the cause). *)
Fixpoint Error (e : error) : string :=
  match e with
  | DomainError code message details _ =>
      if String.eqb details ""
      then "[" +:+ code +:+ "] " +:+ message
      else "[" +:+ code +:+ "] " +:+ message +:+ ": " +:+ details
  | SimpleError msg => msg
  | WrapError msg c => msg +:+ ": " +:+ Error c
  | ErrorAfter c msg => Error c +:+ ": " +:+ msg
  end%string.

Definition Unwrap (e : error) : option error :=
  match e with
  | DomainError _ _ _ cause => cause
  | SimpleError _ => None
  | WrapError _ c | ErrorAfter c _ => Some c
  end.

(** Method [Is] of a domain error: two domain errors match when their codes do. *)
Definition Is (e target : error) : bool :=
  match e, target with
  | DomainError c _ _ _, DomainError c' _ _ _ => String.eqb c c'
  | _, _ => false
  end.

Definition NewDomainError (code message : string) : error :=
  DomainError code message "" None.

Definition WithDetails (e : error) (details : string) : error :=
  match e with
  | DomainError c m _ cause => DomainError c m details cause
  | _ => e
  end.

Definition WithCause (e cause : error) : error :=
  match e with
  | DomainError c m d _ => DomainError c m d (Some cause)
  | _ => e
  end.

Definition Wrap (e cause : error) : error := WithCause e cause.

(** Package [errors]: [As] with a [*DomainError] target returns the first
    domain error of the chain; [Is] walks the chain, comparing by identity (a
    sentinel is known by its text) or by the error's own [Is] method. *)
Fixpoint errors_as_domain (e : error) : option error :=
  match e with
  | DomainError _ _ _ _ => Some e
  | SimpleError _ => None
  | WrapError _ c | ErrorAfter c _ => errors_as_domain c
  end.

Fixpoint errors_is (e target : error) : bool :=
  match e with
  | DomainError _ _ _ cause =>
      Is e target ||
      match cause with Some c => errors_is c target | None => false end
  | SimpleError m =>
      match target with SimpleError m' => String.eqb m m' | _ => false end
  | WrapError _ c | ErrorAfter c _ => errors_is c target
  end.

Definition IsDomainError (e : error) (code : string) : bool :=
  match errors_as_domain e with
  | Some (DomainError c _ _ _) => if String.eqb code "" then true else String.eqb c code
  | _ => false
  end.

Definition GetErrorCode (e : error) : string :=
  match errors_as_domain e with
  | Some (DomainError c _ _ _) => c
  | _ => ""
  end.

(** ** Sentinels *)

(** Of package [io]. *)
Definition EOF := SimpleError "EOF".
Definition ErrUnexpectedEOF := SimpleError "unexpected EOF".

Definition ErrSessionNotFound := NewDomainError "TM-SESS-4040" "session not found".
Definition ErrSessionExpired := NewDomainError "TM-SESS-4041" "session expired".
Definition ErrSessionConflict := NewDomainError "TM-SESS-4090" "session id conflict".
Definition ErrSessionVersionConflict :=
  NewDomainError "TM-SESS-4091" "version conflict, please retry".
Definition ErrSessionValidation := NewDomainError "TM-SESS-4001" "session validation failed".
Definition ErrSessionQuotaExceeded :=
  NewDomainError "TM-SESS-4002" "user session quota exceeded".
Definition ErrTokenMalformed := NewDomainError "TM-TOKN-4000" "malformed token".
Definition ErrTokenInvalid := NewDomainError "TM-TOKN-4010" "invalid token".
Definition ErrTokenExpired := NewDomainError "TM-TOKN-4011" "token expired".
Definition ErrTokenRevoked := NewDomainError "TM-TOKN-4012" "token revoked".
Definition ErrTokenHashConflict := NewDomainError "TM-TOKN-4090" "token hash conflict".
Definition ErrAPIKeyMissing := NewDomainError "TM-AUTH-4010" "api key not provided".
Definition ErrAPIKeyInvalid := NewDomainError "TM-AUTH-4011" "invalid api key".
Definition ErrAPIKeyDisabled := NewDomainError "TM-AUTH-4012" "api key disabled".
Definition ErrTimestampSkew :=
  NewDomainError "TM-AUTH-4014" "timestamp out of acceptable window".
Definition ErrNonceReplay := NewDomainError "TM-AUTH-4015" "nonce replay detected".
Definition ErrPermissionDenied := NewDomainError "TM-AUTH-4030" "permission denied".
Definition ErrIPNotAllowed := NewDomainError "TM-AUTH-4031" "ip not in allowlist".
Definition ErrAPIKeyValidation := NewDomainError "TM-AUTH-4001" "api key validation failed".
Definition ErrAPIKeyNotFound := NewDomainError "TM-AUTH-4040" "api key not found".
Definition ErrAPIKeyConflict := NewDomainError "TM-AUTH-4090" "api key id conflict".
Definition ErrInternalServer := NewDomainError "TM-SYS-5000" "internal server error".
Definition ErrStorageError := NewDomainError "TM-SYS-5001" "storage error".
Definition ErrServiceUnavailable := NewDomainError "TM-SYS-5030" "service unavailable".
Definition ErrBadRequest := NewDomainError "TM-SYS-4000" "bad request".
Definition ErrRateLimited := NewDomainError "TM-SYS-4290" "too many requests".
Definition ErrInvalidArgument := NewDomainError "TM-ARG-1001" "invalid argument".
Definition ErrMissingArgument := NewDomainError "TM-ARG-1002" "missing required argument".
Definition ErrArgumentConflict := NewDomainError "TM-ARG-1003" "argument conflict".
Definition ErrAdminPermissionDenied := NewDomainError "TM-ADMIN-4030" "admin role required".
Definition ErrAdminIPNotAllowed := NewDomainError "TM-ADMIN-4031" "admin ip not allowed".
Definition ErrAdminResourceNotFound := NewDomainError "TM-ADMIN-4041" "admin resource not found".
Definition ErrAdminOperationConflict := NewDomainError "TM-ADMIN-4091" "admin operation conflict".

(** ** Facts *)

(** A copy keeps the code, so it matches what the original matches. *)
Lemma GetErrorCode_WithDetails (e : error) (d : string) :
  GetErrorCode (WithDetails e d) = GetErrorCode e.
Proof. destruct e; reflexivity. Qed.

Lemma GetErrorCode_WithCause (e c : error) :
  GetErrorCode (WithCause e c) = GetErrorCode e.
Proof. destruct e; reflexivity. Qed.


(** The outermost domain error decides [IsDomainError], whatever the cause. *)
Lemma IsDomainError_WithCause (code message details : string) (o : option error) (c : error) (k : string) :
  IsDomainError (WithCause (DomainError code message details o) c) k =
  (if String.eqb k "" then true else String.eqb code k).
Proof. reflexivity. Qed.

Lemma errors_is_WithCause (code message details : string) (o : option error) (c t : error) :
  errors_is (WithCause (DomainError code message details o) c) t =
  Is (DomainError code message details o) t || errors_is c t.
Proof. destruct t; reflexivity. Qed.

(** [errors.Is] and [IsDomainError] differ exactly on what they see below the
    outermost domain error: a domain error found by [IsDomainError] is always
    found by [errors.Is]. *)
Lemma IsDomainError_errors_is (e : error) (code message : string) :
  code <> ""%string ->
  IsDomainError e code = true -> errors_is e (NewDomainError code message) = true.
Proof.
  intros Hne; unfold IsDomainError.
  induction e as [c m d cause|m|m c IH|c IH m]; simpl; intros H; try discriminate.
  - destruct (String.eqb_spec code ""); [contradiction|]. by rewrite H.
  - auto.
  - auto.
Qed.

(** All sentinels of the package. *)
Definition sentinels : list error :=
  [ ErrSessionNotFound; ErrSessionExpired; ErrSessionConflict; ErrSessionVersionConflict; ErrSessionValidation;
    ErrSessionQuotaExceeded; ErrTokenMalformed; ErrTokenInvalid; ErrTokenExpired; ErrTokenRevoked; ErrTokenHashConflict;
    ErrAPIKeyMissing; ErrAPIKeyInvalid; ErrAPIKeyDisabled; ErrTimestampSkew; ErrNonceReplay; ErrPermissionDenied;
    ErrIPNotAllowed; ErrAPIKeyValidation; ErrAPIKeyNotFound; ErrAPIKeyConflict; ErrInternalServer; ErrStorageError;
    ErrServiceUnavailable; ErrBadRequest; ErrRateLimited; ErrInvalidArgument; ErrMissingArgument; ErrArgumentConflict;
    ErrAdminPermissionDenied; ErrAdminIPNotAllowed; ErrAdminResourceNotFound; ErrAdminOperationConflict ].
(** Every sentinel has a code of its own: with whatever details and cause a copy of one was
    returned, [errors.Is] recognises it as that one, and as another only for the cause. *)
Lemma sentinels_distinct (i j : nat) (e1 e2 : error) (details : string) :
  sentinels !! i = Some e1 -> sentinels !! j = Some e2 -> errors_is (WithDetails e1 details) e2 = true -> i = j.
Proof.
  intros H1 H2 H; assert (NoDup (map GetErrorCode sentinels)) as Hd by (apply (bool_decide_unpack _); vm_compute; exact I).
  apply (NoDup_lookup _ _ _ (GetErrorCode e1) Hd); [by rewrite list_lookup_fmap, H1|rewrite list_lookup_fmap, H2; cbn; f_equal].
  assert (Forall (fun e => exists c m, e = NewDomainError c m) sentinels) as Hs by (repeat constructor; by eexists _, _).
  rewrite Forall_lookup in Hs; destruct (Hs i e1 H1) as (c1 & m1 & ->), (Hs j e2 H2) as (c2 & m2 & ->).
  cbn in H |- *; by destruct (String.eqb_spec c1 c2).
Qed.
