(* ===== verification/GoStrings.v ===== *)
(** Go's [strings], [encoding/hex] and [encoding/base64] as the sources use
    them, on byte strings.

    Case mapping is ASCII (identifiers, tokens and header names are ASCII).
    The Base64 decoder is the non-strict, unpadded one: it skips carriage
    returns and line feeds and does not check the unused low bits. *)

From Stdlib Require Import Ascii String.
From stdpp Require Import list strings.
From S2P Require Import Prelude.

Open Scope string_scope.
Open Scope Z_scope.

Abbreviation bytes := (list Z).
Definition is_byte (b : Z) : Prop := 0 <= b < 256.

Definition ascii_Z (a : ascii) : Z := Z.of_N (N_of_ascii a).
Definition Z_ascii (z : Z) : ascii := ascii_of_N (Z.to_N z).

(** [[]byte(s)] and [string(b)]. *)
Definition to_bytes (s : string) : bytes := map ascii_Z (list_ascii_of_string s).
Definition of_bytes (b : bytes) : string := string_of_list_ascii (map Z_ascii b).

Fixpoint smap (f : ascii -> ascii) (s : string) : string :=
  match s with
  | EmptyString => EmptyString
  | String a s' => String (f a) (smap f s')
  end.

Fixpoint sforall (p : ascii -> bool) (s : string) : bool :=
  match s with
  | EmptyString => true
  | String a s' => p a && sforall p s'
  end.

Definition lower_ascii (a : ascii) : ascii :=
  let z := ascii_Z a in if (65 <=? z) && (z <=? 90) then Z_ascii (z + 32) else a.
Definition upper_ascii (a : ascii) : ascii :=
  let z := ascii_Z a in if (97 <=? z) && (z <=? 122) then Z_ascii (z - 32) else a.

Definition ToLower (s : string) : string := smap lower_ascii s.
Definition ToUpper (s : string) : string := smap upper_ascii s.

Definition HasPrefix (s p : string) : bool := String.prefix p s.

(** [s[n:]] and [s[:n]], for [0 <= n <= len(s)]. *)
Fixpoint from (n : nat) (s : string) : string :=
  match n, s with
  | O, _ => s
  | S n', String _ s' => from n' s'
  | S _, EmptyString => EmptyString
  end.
Fixpoint upto (n : nat) (s : string) : string :=
  match n, s with
  | S n', String a s' => String a (upto n' s')
  | _, _ => EmptyString
  end.

Definition HasSuffix (s p : string) : bool :=
  (slen p <=? slen s) && String.eqb (from (String.length s - String.length p) s) p.

(** [strings.Index]: the first position of [p] in [s], if any. *)
Fixpoint Index (s p : string) : option nat :=
  if HasPrefix s p then Some O
  else match s with
       | EmptyString => None
       | String _ s' => option_map S (Index s' p)
       end.
Definition Contains (s p : string) : bool :=
  match Index s p with Some _ => true | None => false end.

(** [strings.LastIndex(s, sep)] for a one-byte separator. *)
Fixpoint LastIndex (s : string) (sep : ascii) : option nat :=
  match s with
  | EmptyString => None
  | String a s' =>
      match LastIndex s' sep with
      | Some i => Some (S i)
      | None => if Ascii.eqb a sep then Some O else None
      end
  end.

(** [strings.Split(s, sep)] for a one-byte separator. *)
Fixpoint Split (s : string) (sep : ascii) : list string :=
  match s with
  | EmptyString => [""]
  | String a s' =>
      if Ascii.eqb a sep then "" :: Split s' sep
      else match Split s' sep with
           | p :: ps => String a p :: ps
           | [] => [String a ""]
           end
  end.

(** [strings.SplitN(s, sep, 2)] for a one-byte separator. *)
Definition SplitN2 (s : string) (sep : ascii) : list string :=
  match Index s (String sep "") with
  | Some i => [upto i s; from (i + 1) s]
  | None => [s]
  end.

Fixpoint Join (l : list string) (sep : string) : string :=
  match l with
  | [] => ""
  | [s] => s
  | s :: l' => s +:+ sep +:+ Join l' sep
  end.

(** ** White space *)

(** The number of bytes of the Unicode space ([unicode.IsSpace]) a string starts
    with, zero when it starts with none. *)
Definition space_size (s : string) : nat :=
  match s with
  | EmptyString => O
  | String a s1 =>
      let c := ascii_Z a in
      if ((9 <=? c) && (c <=? 13)) || (c =? 32) then 1%nat
      else match s1 with
      | EmptyString => O
      | String b s2 =>
          let d := ascii_Z b in
          if (c =? 194) && ((d =? 133) || (d =? 160)) then 2%nat
          else match s2 with
          | EmptyString => O
          | String e _ =>
              let f := ascii_Z e in
              if ((c =? 225) && (d =? 154) && (f =? 128)) ||
                 ((c =? 226) && (d =? 128) && (((128 <=? f) && (f <=? 138)) || (f =? 168) || (f =? 169) || (f =? 175))) ||
                 ((c =? 226) && (d =? 129) && (f =? 159)) ||
                 ((c =? 227) && (d =? 128) && (f =? 128))
              then 3%nat else O
          end
      end
  end.

(** [strings.Fields]: [skip] bytes of the current space are left, [word] is the
    current field. *)
Fixpoint fields_from (s : string) (skip : nat) (word : string) : list string :=
  let flush (l : list string) := if String.eqb word "" then l else word :: l in
  match s with
  | EmptyString => flush []
  | String a s' =>
      match skip with
      | S k => fields_from s' k ""
      | O => match space_size s with
             | O => fields_from s' 0 (word +:+ String a "")
             | S k => flush (fields_from s' k "")
             end
      end
  end.
Definition Fields (s : string) : list string := fields_from s 0 "".

(** [strings.TrimSpace]: without leading spaces, up to the end of the last byte
    that is not part of a space. *)
Fixpoint trim_left_from (s : string) (skip : nat) : string :=
  match s with
  | EmptyString => ""
  | String _ s' =>
      match skip with
      | S k => trim_left_from s' k
      | O => match space_size s with O => s | S k => trim_left_from s' k end
      end
  end.
Fixpoint trim_right_from (s : string) (skip : nat) : string :=
  match s with
  | EmptyString => ""
  | String a s' =>
      let keep (rest : string) (space : bool) :=
        if String.eqb rest "" && space then "" else String a rest in
      match skip with
      | S k => keep (trim_right_from s' k) true
      | O => match space_size s with
             | O => keep (trim_right_from s' 0) false
             | S k => keep (trim_right_from s' k) true
             end
      end
  end.
Definition TrimSpace (s : string) : string := trim_right_from (trim_left_from s 0) 0.

(** ** Lengths *)
Lemma length_app_str (a b : string) :
  String.length (a +:+ b) = (String.length a + String.length b)%nat.
Proof. induction a; simpl; auto. Qed.

Lemma slen_app (a b : string) : slen (a +:+ b) = slen a + slen b.
Proof. unfold slen; rewrite length_app_str; lia. Qed.

Lemma length_smap f s : String.length (smap f s) = String.length s.
Proof. induction s; simpl; auto. Qed.

Lemma slen_ToLower s : slen (ToLower s) = slen s.
Proof. unfold slen, ToLower; by rewrite length_smap. Qed.

Lemma smap_app f a b : smap f (a +:+ b) = smap f a +:+ smap f b.
Proof.
  induction a as [|c a IH]; [reflexivity|].
  change (String (f c) (smap f (a +:+ b)) = String (f c) (smap f a +:+ smap f b)).
  by rewrite IH.
Qed.

Lemma smap_smap f g s : (forall a, f (g a) = g a) -> smap f (smap g s) = smap g s.
Proof. intros H; induction s; simpl; [auto|]. by rewrite H, IHs. Qed.

Lemma smap_id_on f p s :
  (forall a, p a = true -> f a = a) -> sforall p s = true -> smap f s = s.
Proof.
  intros H; induction s; simpl; [auto|].
  intros [Ha Hs]%andb_true_iff. by rewrite H, IHs.
Qed.

(** A property of all 256 characters, checked by computation. *)
Lemma forall_ascii (p : ascii -> bool) :
  forallb (fun n => p (ascii_of_nat n)) (seq 0 256) = true -> forall a, p a = true.
Proof.
  intros H a; rewrite forallb_forall in H.
  rewrite <- (ascii_nat_embedding a); apply H.
  rewrite in_seq; split; [lia|]; apply nat_ascii_bounded.
Qed.

Lemma lower_idem a : lower_ascii (lower_ascii a) = lower_ascii a.
Proof.
  apply Ascii.eqb_eq; revert a; apply forall_ascii; vm_compute; reflexivity.
Qed.

Lemma ToLower_idem s : ToLower (ToLower s) = ToLower s.
Proof. apply smap_smap, lower_idem. Qed.

Lemma from_app a b : from (String.length a) (a +:+ b) = b.
Proof. induction a; simpl; auto. Qed.

Lemma upto_app a b : upto (String.length a) (a +:+ b) = a.
Proof.
  induction a as [|c a IH]; [destruct b; reflexivity|].
  change (String c (upto (String.length a) (a +:+ b)) = String c a); by rewrite IH.
Qed.

Lemma upto_from n s : upto n s +:+ from n s = s.
Proof.
  revert s; induction n as [|n IH]; intros [|c s]; try reflexivity.
  change (String c (upto n s +:+ from n s) = String c s); by rewrite IH.
Qed.

Lemma length_upto n s : (n <= String.length s)%nat -> String.length (upto n s) = n.
Proof.
  revert s; induction n as [|n IH]; intros [|c s]; simpl; intros; try lia; auto.
  rewrite IH; lia.
Qed.

Lemma length_from n s : String.length (from n s) = (String.length s - n)%nat.
Proof.
  revert s; induction n as [|n IH]; intros [|c s]; simpl; try lia; auto.
Qed.

Lemma str_prefix_app p s : String.prefix p (p +:+ s) = true.
Proof.
  induction p as [|a p IH]; [destruct s; reflexivity|].
  change (String.prefix (String a p) (String a (p +:+ s)) = true); simpl.
  by destruct (ascii_dec a a).
Qed.

Lemma str_prefix_inv p s : String.prefix p s = true -> exists t, s = p +:+ t.
Proof.
  revert s; induction p as [|a p IH]; intros [|b s]; simpl; try discriminate.
  - intros _; by exists "".
  - intros _; by exists (String b s).
  - destruct (ascii_dec a b) as [->|]; [|discriminate].
    intros [t ->]%IH; by exists t.
Qed.

Lemma prefix_split s p :
  HasPrefix s p = true <-> exists t, s = p +:+ t.
Proof.
  split; [apply str_prefix_inv|]. intros [t ->]; apply str_prefix_app.
Qed.

Lemma app_assoc_str a b c : (a +:+ b) +:+ c = a +:+ (b +:+ c).
Proof.
  induction a as [|x a IH]; [reflexivity|].
  change (String x ((a +:+ b) +:+ c) = String x (a +:+ (b +:+ c))); by rewrite IH.
Qed.

Lemma app_nil_str a : a +:+ "" = a.
Proof. induction a as [|x a IH]; [done|]. change (String x (a +:+ "") = String x a); by rewrite IH. Qed.

Lemma sforall_app p a b : sforall p (a +:+ b) = sforall p a && sforall p b.
Proof.
  induction a as [|x a IH]; [done|].
  change (p x && sforall p (a +:+ b) = p x && sforall p a && sforall p b).
  by rewrite IH, andb_assoc.
Qed.
Lemma sforall_weaken p q s : (forall a, p a = true -> q a = true) -> sforall p s = true -> sforall q s = true.
Proof.
  intros H; induction s; simpl; [done|]. intros [? ?]%andb_true_iff; rewrite H by done; auto.
Qed.

(** ** Splitting at a byte *)
Definition without (sep : ascii) (s : string) : bool := sforall (fun a => negb (Ascii.eqb a sep)) s.

Lemma Split_app sep a s :
  without sep a = true -> Split (a +:+ String sep s) sep = a :: Split s sep.
Proof.
  unfold without; induction a as [|x a IH]; simpl; intros Ha.
  - by rewrite Ascii.eqb_refl.
  - apply andb_true_iff in Ha as [Hx Ha]; apply negb_true_iff in Hx; by rewrite Hx, IH.
Qed.

Lemma Split_single sep a : without sep a = true -> Split a sep = [a].
Proof.
  unfold without; induction a as [|x a IH]; simpl; intros Ha; [done|].
  apply andb_true_iff in Ha as [Hx Ha]; apply negb_true_iff in Hx; by rewrite Hx, IH.
Qed.

Lemma HasPrefix_byte a s c : HasPrefix (String a s) (String c "") = Ascii.eqb a c.
Proof.
  unfold HasPrefix; cbn [String.prefix]; destruct (ascii_dec c a) as [->|Hne]; [by rewrite Ascii.eqb_refl; destruct s|].
  by rewrite (proj2 (Ascii.eqb_neq a c)).
Qed.
Lemma Index_cons a s c : Index (String a s) (String c "") =
  if Ascii.eqb a c then Some 0%nat else option_map S (Index s (String c "")).
Proof. by rewrite <- HasPrefix_byte with (s := s). Qed.
Lemma Index_byte_none c s : without c s = true -> Index s (String c "") = None.
Proof.
  unfold without; induction s as [|a s IH]; [done|]; cbn [sforall]; intros [Ha Hs]%andb_true_iff.
  rewrite Index_cons, IH by done; by apply negb_true_iff in Ha as ->.
Qed.
Lemma Index_byte_app a c b : without c a = true -> Index (a +:+ String c b) (String c "") = Some (String.length a).
Proof.
  unfold without; induction a as [|x a IH]; cbn [sforall].
  - intros _; change ("" +:+ String c b) with (String c b); by rewrite Index_cons, Ascii.eqb_refl.
  - change (String x a +:+ String c b) with (String x (a +:+ String c b)); intros [Hx Ha]%andb_true_iff; rewrite Index_cons, IH by done; by apply negb_true_iff in Hx as ->.
Qed.
Lemma HasSuffix_inv s p : HasSuffix s p = true -> exists t, s = t +:+ p.
Proof.
  unfold HasSuffix; intros [_ H%String.eqb_eq]%andb_true_iff.
  exists (upto (String.length s - String.length p) s); by rewrite <- H at 2; rewrite upto_from.
Qed.
Lemma without_app c a b : without c (a +:+ b) = without c a && without c b.
Proof. apply sforall_app. Qed.
Lemma Join_cons a b l sep : Join (a :: b :: l) sep = a +:+ sep +:+ Join (b :: l) sep.
Proof. done. Qed.
Lemma without_Join c l sep : Forall (fun x => without c x = true) l -> without c sep = true -> without c (Join l sep) = true.
Proof.
  intros Hl Hs; induction Hl as [|x l Hx Hl IH]; [done|]; destruct l as [|y l]; [done|].
  by rewrite Join_cons, !without_app, Hx, Hs, IH.
Qed.
Lemma Split_Join c l : l <> [] -> Forall (fun x => without c x = true) l -> Split (Join l (String c "")) c = l.
Proof.
  intros Hne Hl; induction Hl as [|x l Hx Hl IH]; [done|]; destruct l as [|y l]; [by apply Split_single|].
  rewrite Join_cons; change (x +:+ String c "" +:+ ?r) with (x +:+ String c r); by rewrite Split_app, IH by done.
Qed.
