(* ===== verification/Strconv.v ===== *)
(** Decimal integers of Go's [strconv] and [fmt]: [FormatInt], [ParseInt],
    [ParseUint], [Atoi] and the [%0Nd] padding. *)

From Stdlib Require Import Ascii String.
From stdpp Require Import list strings.
From S2P Require Import Prelude GoStrings.

Open Scope string_scope.
Open Scope Z_scope.

Definition digit (n : Z) : ascii := Z_ascii (48 + n).
Definition is_digit (a : ascii) : bool := (48 <=? ascii_Z a) && (ascii_Z a <=? 57).

(** The digits of [n] (at most [fuel] of them) in front of [acc]. *)
Fixpoint print_digits (fuel : nat) (n : Z) (acc : string) : string :=
  match fuel with
  | O => acc
  | S fuel' =>
      let acc := String (digit (n mod 10)) acc in
      if n <? 10 then acc else print_digits fuel' (n / 10) acc
  end.

(** Twenty digits are enough for 64 bits. *)
Definition FormatUint (n : Z) : string := print_digits 20 n "".
Definition FormatInt (n : Z) : string :=
  if n <? 0 then String "-" (FormatUint (- n)) else FormatUint n.

Fixpoint zeros (n : nat) : string := match n with O => "" | S n' => String "0" (zeros n') end.
(** [fmt.Sprintf("%0<w>d", n)] for [n >= 0]. *)
Definition pad_uint (w : nat) (n : Z) : string :=
  let s := FormatUint n in zeros (w - String.length s) +:+ s.

Fixpoint parse_digits (s : string) (acc : Z) : option Z :=
  match s with
  | EmptyString => Some acc
  | String a s' =>
      if is_digit a then parse_digits s' (acc * 10 + (ascii_Z a - 48)) else None
  end.

(** Base 10, 64 bits; [None] is a syntax or range error. *)
Definition ParseUint (s : string) : option Z :=
  if String.eqb s "" then None
  else match parse_digits s 0 with
       | Some n => if n <? two64 then Some n else None
       | None => None
       end.
Definition ParseInt (s : string) : option Z :=
  match s with
  | EmptyString => None
  | String "-" s' =>
      match ParseUint s' with
      | Some n => if n <=? 2 ^ 63 then Some (- n) else None
      | None => None
      end
  | String "+" s' =>
      match ParseUint s' with
      | Some n => if n <? 2 ^ 63 then Some n else None
      | None => None
      end
  | _ =>
      match ParseUint s with
      | Some n => if n <? 2 ^ 63 then Some n else None
      | None => None
      end
  end.
Definition Atoi (s : string) : option Z := ParseInt s.

(** ** Facts *)
Lemma digit_ok n : 0 <= n < 10 ->
  is_digit (digit n) = true /\ ascii_Z (digit n) - 48 = n /\ digit n <> "-"%char /\ digit n <> "+"%char.
Proof.
  intros H; apply (forall_range 10 (fun n => bool_decide (is_digit (digit n) = true /\
    ascii_Z (digit n) - 48 = n /\ digit n <> "-"%char /\ digit n <> "+"%char))) in H;
    [by apply bool_decide_eq_true_1 in H | vm_compute; reflexivity].
Qed.

Lemma print_digits_app fuel n acc : print_digits fuel n acc = print_digits fuel n "" +:+ acc.
Proof.
  revert n acc; induction fuel as [|fuel IH]; intros n acc; simpl; [done|].
  destruct (n <? 10); [done|]. rewrite (IH (n / 10)), (IH (n / 10) (String _ "")).
  by rewrite app_assoc_str.
Qed.

Lemma parse_digits_app a b acc :
  parse_digits (a +:+ b) acc =
  match parse_digits a acc with Some n => parse_digits b n | None => None end.
Proof.
  revert acc; induction a as [|c a IH]; intros acc; [done|].
  change (parse_digits (String c (a +:+ b)) acc =
    match parse_digits (String c a) acc with Some n => parse_digits b n | None => None end).
  simpl; destruct (is_digit c); [apply IH|done].
Qed.

Lemma parse_print fuel n :
  0 <= n < 10 ^ Z.of_nat fuel -> parse_digits (print_digits fuel n "") 0 = Some n.
Proof.
  revert n; induction fuel as [|fuel IH]; intros n Hn; [simpl in *; f_equal; lia|].
  cbn [print_digits]; pose proof (Z.mod_pos_bound n 10 ltac:(lia)) as Hm.
  destruct (digit_ok _ Hm) as (Hd & Hv & _).
  destruct (Z.ltb_spec n 10).
  - simpl; rewrite Hd, Hv, Z.mod_small by lia; done.
  - rewrite print_digits_app, parse_digits_app, IH.
    + simpl; rewrite Hd, Hv; f_equal. pose proof (Z.div_mod n 10); lia.
    + rewrite Nat2Z.inj_succ, Z.pow_succ_r in Hn by lia.
      split; [apply Z.div_pos; lia|apply Z.div_lt_upper_bound; lia].
Qed.

Lemma print_digits_head fuel n :
  0 <= n -> (0 < fuel)%nat ->
  exists c s, print_digits fuel n "" = String c s /\ is_digit c = true /\ c <> "-"%char /\ c <> "+"%char.
Proof.
  intros Hn Hf; destruct fuel as [|fuel]; [lia|]; clear Hf; revert n Hn.
  assert (forall fuel n acc, 0 <= n -> exists c s, print_digits (S fuel) n acc = String c s /\
    is_digit c = true /\ c <> "-"%char /\ c <> "+"%char) as H; [|intros; by apply H].
  clear fuel; induction fuel as [|fuel IH]; intros n acc Hn; cbn [print_digits];
    pose proof (Z.mod_pos_bound n 10 ltac:(lia)) as Hm; destruct (digit_ok _ Hm) as (Hd & _ & H1 & H2);
    destruct (n <? 10); eauto 10.
  apply IH; apply Z.div_pos; lia.
Qed.

Lemma FormatUint_digits n : sforall is_digit (FormatUint n) = true.
Proof.
  unfold FormatUint; assert (forall fuel n acc, sforall is_digit acc = true ->
    sforall is_digit (print_digits fuel n acc) = true) as H; [|by apply H].
  clear n; induction fuel as [|fuel IH]; intros n acc Ha; cbn [print_digits]; [done|].
  pose proof (Z.mod_pos_bound n 10 ltac:(lia)) as Hm; destruct (digit_ok _ Hm) as (Hd & _).
  destruct (n <? 10); [|apply IH]; simpl; by rewrite Hd.
Qed.

Lemma ParseUint_Format n : 0 <= n < two64 -> ParseUint (FormatUint n) = Some n.
Proof.
  intros Hn; unfold ParseUint, FormatUint.
  destruct (print_digits_head 20 n ltac:(lia) ltac:(lia)) as (c & s & E & _).
  assert (String.eqb (print_digits 20 n "") "" = false) as -> by (rewrite E; reflexivity).
  rewrite parse_print by (unfold two64 in Hn; lia).
  by rewrite (proj2 (Z.ltb_lt _ _)) by lia.
Qed.

Lemma ParseInt_Format n : in_i64 n -> ParseInt (FormatInt n) = Some n.
Proof.
  unfold in_i64; intros Hn; unfold FormatInt; destruct (Z.ltb_spec n 0).
  - cbn [ParseInt]; rewrite ParseUint_Format by (unfold two64; lia).
    rewrite (proj2 (Z.leb_le _ _)) by lia; f_equal; lia.
  - pose proof (ParseUint_Format n ltac:(unfold two64; lia)) as Hp.
    assert (forall s, s = FormatUint n -> ParseInt s = Some n) as H'; [|by apply H'].
    unfold FormatUint in *; destruct (print_digits_head 20 n ltac:(lia) ltac:(lia))
      as (c & s & E & Hd & Hm & Hpl); rewrite E in *; intros ? ->.
    assert (ParseInt (String c s) = match ParseUint (String c s) with
      | Some n => if n <? 2 ^ 63 then Some n else None | None => None end) as ->.
    { unfold ParseInt; destruct c as [[] [] [] [] [] [] [] []]; try reflexivity; by exfalso. }
    rewrite Hp, (proj2 (Z.ltb_lt _ _)) by lia; done.
Qed.

Lemma zeros_parse k s : parse_digits (zeros k +:+ s) 0 = parse_digits s 0.
Proof. induction k as [|k IH]; [done|]. exact IH. Qed.

Lemma parse_pad_uint w n : 0 <= n < two64 -> parse_digits (pad_uint w n) 0 = Some n.
Proof.
  intros Hn; unfold pad_uint; rewrite zeros_parse; apply parse_print.
  unfold two64 in Hn; lia.
Qed.

Lemma pad_uint_digits w n : sforall is_digit (pad_uint w n) = true.
Proof.
  unfold pad_uint; set (k := (w - _)%nat); clearbody k.
  induction k as [|k IH]; [apply FormatUint_digits|exact IH].
Qed.
