(* ===== verification/Encoding.v ===== *)
(** Byte encodings and digests of Go's standard library, as the sources use
    them: [encoding/hex], [encoding/base64] (unpadded, URL alphabet),
    [encoding/binary] big-endian words, [hash/crc32] (IEEE polynomial) and
    [crypto/sha256].  All are executable; the SHA-256 of the sources is the
    function below, not an abstract one. *)

From Stdlib Require Import Ascii String.
From stdpp Require Import list strings.
From S2P Require Import Prelude GoStrings.

Open Scope Z_scope.

(** ** Hexadecimal *)
Definition hex_digit (n : Z) : ascii := Z_ascii (if n <? 10 then 48 + n else 87 + n).
Definition is_hex (a : ascii) : bool :=
  let z := ascii_Z a in
  ((48 <=? z) && (z <=? 57)) || ((97 <=? z) && (z <=? 102)) || ((65 <=? z) && (z <=? 70)).

Fixpoint hex_encode (b : bytes) : string :=
  match b with
  | [] => ""
  | x :: b' => String (hex_digit (x / 16)) (String (hex_digit (x mod 16)) (hex_encode b'))
  end.

(** [hex.DecodeString] succeeds on an even number of hex digits. *)
Definition hex_decodable (s : string) : bool :=
  Nat.even (String.length s) && sforall is_hex s.

(** ** Base64, URL alphabet, no padding *)
Definition b64_char (n : Z) : ascii :=
  Z_ascii (if n <? 26 then 65 + n
           else if n <? 52 then 71 + n
           else if n <? 62 then n - 4
           else if n =? 62 then 45 else 95).
Definition is_b64url (a : ascii) : bool :=
  let z := ascii_Z a in
  ((65 <=? z) && (z <=? 90)) || ((97 <=? z) && (z <=? 122)) ||
  ((48 <=? z) && (z <=? 57)) || (z =? 45) || (z =? 95).
Definition is_crlf (a : ascii) : bool := (ascii_Z a =? 10) || (ascii_Z a =? 13).

Fixpoint b64url_encode (b : bytes) : string :=
  match b with
  | x :: y :: z :: b' =>
      String (b64_char (x / 4))
        (String (b64_char (x mod 4 * 16 + y / 16))
          (String (b64_char (y mod 16 * 4 + z / 64))
            (String (b64_char (z mod 64)) (b64url_encode b'))))
  | [x; y] =>
      String (b64_char (x / 4))
        (String (b64_char (x mod 4 * 16 + y / 16)) (String (b64_char (y mod 16 * 4)) ""))
  | [x] => String (b64_char (x / 4)) (String (b64_char (x mod 4 * 16)) "")
  | [] => ""
  end.

Fixpoint skip_crlf (s : string) : string :=
  match s with
  | EmptyString => ""
  | String a s' => if is_crlf a then skip_crlf s' else String a (skip_crlf s')
  end.

(** [base64.RawURLEncoding.DecodeString] succeeds when what remains after
    skipping line breaks is in the alphabet and does not leave a lone
    character. *)
Definition b64url_decodable (s : string) : bool :=
  let t := skip_crlf s in
  sforall is_b64url t && negb (Nat.eqb (String.length t mod 4) 1).

(** ** Big-endian 32-bit words *)
Definition be32 (n : Z) : bytes :=
  [ Z.land (Z.shiftr n 24) 255; Z.land (Z.shiftr n 16) 255;
    Z.land (Z.shiftr n 8) 255; Z.land n 255 ].
Definition be32_get (b : bytes) : Z :=
  match b with
  | [a; b; c; d] => a * 16777216 + b * 65536 + c * 256 + d
  | _ => 0
  end.

Lemma be32_div (n : Z) :
  be32 n = [n / 16777216 mod 256; n / 65536 mod 256; n / 256 mod 256; n mod 256].
Proof.
  unfold be32; rewrite !Z.shiftr_div_pow2 by lia.
  change 255 with (Z.ones 8); rewrite !Z.land_ones by lia; reflexivity.
Qed.

Lemma be32_get_be32 (n : Z) : 0 <= n < 2 ^ 32 -> be32_get (be32 n) = n.
Proof.
  intros H; rewrite be32_div; unfold be32_get.
  replace (n / 16777216) with (n / 256 / 256 / 256) by (rewrite !Z.div_div by lia; reflexivity).
  replace (n / 65536) with (n / 256 / 256) by (rewrite Z.div_div by lia; reflexivity).
  pose proof (Z.div_mod n 256); pose proof (Z.div_mod (n / 256) 256).
  pose proof (Z.div_mod (n / 256 / 256) 256).
  rewrite (Z.mod_small (n / 256 / 256 / 256)); [lia|].
  rewrite !Z.div_div by lia; split; [apply Z.div_pos; lia|].
  apply Z.div_lt_upper_bound; lia.
Qed.

Lemma be32_length (n : Z) : length (be32 n) = 4%nat.
Proof. reflexivity. Qed.

(** ** CRC-32 (IEEE 802.3), bit by bit *)
Definition crc_bit (c : Z) : Z :=
  if Z.testbit c 0 then Z.lxor (Z.shiftr c 1) 0xEDB88320 else Z.shiftr c 1.
Definition crc_byte (c b : Z) : Z := Nat.iter 8 crc_bit (Z.lxor c b).
Definition crc32 (b : bytes) : Z :=
  Z.lxor (fold_left crc_byte b 0xFFFFFFFF) 0xFFFFFFFF.

(** ** SHA-256 *)
Module Sha256.
Definition rotr (x : Z) (n : Z) : Z :=
  Z.lor (Z.shiftr x n) (u32 (Z.shiftl x (32 - n))).
Definition ch x y z := Z.lxor (Z.land x y) (Z.land (Z.lxor x 0xFFFFFFFF) z).
Definition maj x y z := Z.lxor (Z.lxor (Z.land x y) (Z.land x z)) (Z.land y z).
Definition bsig0 x := Z.lxor (Z.lxor (rotr x 2) (rotr x 13)) (rotr x 22).
Definition bsig1 x := Z.lxor (Z.lxor (rotr x 6) (rotr x 11)) (rotr x 25).
Definition ssig0 x := Z.lxor (Z.lxor (rotr x 7) (rotr x 18)) (Z.shiftr x 3).
Definition ssig1 x := Z.lxor (Z.lxor (rotr x 17) (rotr x 19)) (Z.shiftr x 10).
(** The constants of crypto/sha256 are the first thirty-two bits of the fractional parts of the
    cube roots (round constants) and square roots (initial state) of the first primes; they are
    computed here from that definition. *)
Definition small_primes : list Z :=
  filter (fun p => forallb (fun d => negb (p mod d =? 0)) (seqZ 2 (p - 2))) (seqZ 2 310).
Definition icbrt (n : Z) : Z :=
  foldl (fun r k => let r' := Z.setbit r k in if r' * r' * r' <=? n then r' else r)
    0 (rev (seqZ 0 36)).
Definition K : list Z :=
  Eval vm_compute in map (fun p => u32 (icbrt (Z.shiftl p 96))) small_primes.

(** The working variables a..h. *)
Record state := St { sa : Z; sb : Z; sc : Z; sd : Z; se : Z; sf : Z; sg : Z; sh : Z }.
Definition init : state :=
  Eval vm_compute in
  match map (fun p => u32 (Z.sqrt (Z.shiftl p 64))) small_primes with
  | a :: b :: c :: d :: e :: f :: g :: h :: _ => St a b c d e f g h
  | _ => St 0 0 0 0 0 0 0 0
  end.

Fixpoint words (n : nat) (b : bytes) : list Z :=
  match n with
  | O => []
  | S n' => be32_get (firstn 4 b) :: words n' (skipn 4 b)
  end.
(** Message schedule, kept newest word first. *)
Fixpoint schedule (n : nat) (rw : list Z) : list Z :=
  match n with
  | O => rw
  | S n' =>
      let w k := nth k rw 0 in
      schedule n' (u32 (ssig1 (w 1%nat) + w 6%nat + ssig0 (w 14%nat) + w 15%nat) :: rw)
  end.
Definition round (s : state) (kw : Z * Z) : state :=
  let '(k, w) := kw in
  let t1 := u32 (sh s + bsig1 (se s) + ch (se s) (sf s) (sg s) + k + w) in
  let t2 := u32 (bsig0 (sa s) + maj (sa s) (sb s) (sc s)) in
  St (u32 (t1 + t2)) (sa s) (sb s) (sc s) (u32 (sd s + t1)) (se s) (sf s) (sg s).
Definition block (s : state) (b : bytes) : state :=
  let ws := rev (schedule 48 (rev (words 16 b))) in
  let r := fold_left round (combine K ws) s in
  St (u32 (sa s + sa r)) (u32 (sb s + sb r)) (u32 (sc s + sc r)) (u32 (sd s + sd r))
     (u32 (se s + se r)) (u32 (sf s + sf r)) (u32 (sg s + sg r)) (u32 (sh s + sh r)).
Definition pad (b : bytes) : bytes :=
  let n := llen b in
  b ++ [128] ++ repeat 0 (Z.to_nat ((55 - n) mod 64)) ++
  be32 (u32 (n * 8 / 2 ^ 32)) ++ be32 (u32 (n * 8)).
Fixpoint blocks (n : nat) (s : state) (b : bytes) : state :=
  match n with
  | O => s
  | S n' => blocks n' (block s (firstn 64 b)) (skipn 64 b)
  end.
Definition out (s : state) : bytes :=
  be32 (sa s) ++ be32 (sb s) ++ be32 (sc s) ++ be32 (sd s) ++
  be32 (se s) ++ be32 (sf s) ++ be32 (sg s) ++ be32 (sh s).
Definition sum (b : bytes) : bytes :=
  let p := pad b in out (blocks (length p / 64) init p).
End Sha256.

Definition sha256 (b : bytes) : bytes := Sha256.sum b.

Example sha256_abc :
  hex_encode (sha256 (to_bytes "abc")) =
  "ba7816bf8f01cfea414140de5dae2223b00361a396177a9cb410ff61f20015ad"%string.
Proof. vm_compute. reflexivity. Qed.

Example crc32_check : crc32 (to_bytes "123456789") = 0xCBF43926.
Proof. vm_compute. reflexivity. Qed.

(** ** Facts the clients use *)
Lemma be32_bytes (n : Z) : Forall is_byte (be32 n).
Proof.
  rewrite be32_div; unfold is_byte.
  repeat constructor; apply Z.mod_pos_bound; lia.
Qed.

Lemma sha256_length (b : bytes) : length (sha256 b) = 32%nat.
Proof. reflexivity. Qed.

Lemma sha256_bytes (b : bytes) : Forall is_byte (sha256 b).
Proof.
  unfold sha256, Sha256.sum, Sha256.out.
  repeat (apply Forall_app; split); apply be32_bytes.
Qed.

Lemma hex_digit_is_hex n : 0 <= n < 16 -> is_hex (hex_digit n) = true.
Proof.
  intros H; apply (forall_range 16 (fun z => is_hex (hex_digit z)));
    [vm_compute; reflexivity | lia].
Qed.

Lemma hex_digit_lower n : 0 <= n < 16 -> lower_ascii (hex_digit n) = hex_digit n.
Proof.
  intros H; apply Ascii.eqb_eq.
  apply (forall_range 16 (fun z => Ascii.eqb (lower_ascii (hex_digit z)) (hex_digit z)));
    [vm_compute; reflexivity | lia].
Qed.

Lemma byte_nibbles x : is_byte x -> 0 <= x / 16 < 16 /\ 0 <= x mod 16 < 16.
Proof.
  unfold is_byte; intros H; split; [split|apply Z.mod_pos_bound; lia].
  - apply Z.div_pos; lia.
  - apply Z.div_lt_upper_bound; lia.
Qed.

Lemma hex_encode_length b : String.length (hex_encode b) = (2 * length b)%nat.
Proof. induction b; simpl; [auto|]. rewrite IHb; lia. Qed.

Lemma hex_encode_hex b : Forall is_byte b -> sforall is_hex (hex_encode b) = true.
Proof.
  induction 1 as [|x b Hx Hb IH]; cbn [hex_encode sforall]; [auto|].
  destruct (byte_nibbles x Hx).
  rewrite !hex_digit_is_hex, IH by auto; reflexivity.
Qed.

Lemma hex_encode_lower b : Forall is_byte b -> ToLower (hex_encode b) = hex_encode b.
Proof.
  unfold ToLower; induction 1 as [|x b Hx Hb IH]; cbn [hex_encode smap]; [auto|].
  destruct (byte_nibbles x Hx).
  rewrite !hex_digit_lower, IH by auto; reflexivity.
Qed.

Lemma hex_decodable_encode b : Forall is_byte b -> hex_decodable (hex_encode b) = true.
Proof.
  intros H; unfold hex_decodable; rewrite hex_encode_hex by auto.
  rewrite hex_encode_length, Nat.even_mul; reflexivity.
Qed.

Lemma b64_char_alphabet n : 0 <= n < 64 -> is_b64url (b64_char n) = true.
Proof.
  intros H; apply (forall_range 64 (fun z => is_b64url (b64_char z)));
    [vm_compute; reflexivity | lia].
Qed.

(** Induction on a list three elements at a time. *)
Lemma list_ind3 {A} (P : list A -> Prop) :
  P [] -> (forall x, P [x]) -> (forall x y, P [x; y]) ->
  (forall x y z l, P l -> P (x :: y :: z :: l)) -> forall l, P l.
Proof.
  intros H0 H1 H2 H3.
  assert (forall n l, (length l <= n)%nat -> P l) as H; [|eauto].
  induction n as [|n IH]; intros [|x [|y [|z l]]]; simpl; intros; auto; try lia.
  apply H3, IH; lia.
Qed.

Lemma sextet_bounds x y z :
  is_byte x -> is_byte y -> is_byte z ->
  0 <= x / 4 < 64 /\ 0 <= x mod 4 * 16 + y / 16 < 64 /\
  0 <= y mod 16 * 4 + z / 64 < 64 /\ 0 <= z mod 64 < 64.
Proof.
  unfold is_byte; intros Hx Hy Hz.
  pose proof (Z.mod_pos_bound x 4); pose proof (Z.mod_pos_bound y 16);
  pose proof (Z.mod_pos_bound z 64).
  pose proof (Z.div_mod x 4); pose proof (Z.div_mod y 16); pose proof (Z.div_mod z 64).
  lia.
Qed.

Lemma b64url_encode_alphabet b :
  Forall is_byte b -> sforall is_b64url (b64url_encode b) = true.
Proof.
  assert (is_byte 0) as H0 by (unfold is_byte; lia).
  induction b as [|x|x y|x y z b IH] using list_ind3; intros Hb;
    cbn [b64url_encode sforall]; [auto| | |];
    repeat match goal with H : Forall _ (_ :: _) |- _ => inversion H; clear H; subst end.
  - destruct (sextet_bounds x 0 0) as (?&?&?&?); auto.
    change (0 / 16) with 0 in *; rewrite Z.add_0_r in *.
    rewrite !b64_char_alphabet by auto; reflexivity.
  - destruct (sextet_bounds x y 0) as (?&?&?&?); auto.
    change (0 / 64) with 0 in *; rewrite Z.add_0_r in *.
    rewrite !b64_char_alphabet by auto; reflexivity.
  - destruct (sextet_bounds x y z) as (?&?&?&?); auto.
    rewrite !b64_char_alphabet, IH by auto; reflexivity.
Qed.

Lemma b64url_encode_length b :
  (3 * String.length (b64url_encode b) = 4 * length b + 2 \/
   3 * String.length (b64url_encode b) = 4 * length b + 1 \/
   3 * String.length (b64url_encode b) = 4 * length b)%nat.
Proof.
  induction b as [|x|x y|x y z b IH] using list_ind3; cbn [b64url_encode String.length length];
    lia.
Qed.

Lemma skip_crlf_alphabet s : sforall is_b64url s = true -> skip_crlf s = s.
Proof.
  assert (forall a, implb (is_b64url a) (negb (is_crlf a)) = true) as Hd.
  { apply forall_ascii; vm_compute; reflexivity. }
  induction s as [|a s IH]; simpl; [auto|].
  intros [Ha Hs]%andb_true_iff; specialize (Hd a); rewrite Ha in Hd; simpl in Hd.
  destruct (is_crlf a); [discriminate|]. by rewrite IH.
Qed.

Lemma b64url_decodable_encode b : Forall is_byte b -> b64url_decodable (b64url_encode b) = true.
Proof.
  intros Hb; pose proof (b64url_encode_alphabet b Hb) as Ha.
  unfold b64url_decodable; rewrite skip_crlf_alphabet, Ha by auto.
  set (n := String.length (b64url_encode b)); pose proof (b64url_encode_length b) as Hl.
  fold n in Hl.
  assert (Nat.eqb (n mod 4) 1 = false) as ->; [|reflexivity].
  apply Nat.eqb_neq; intros E.
  pose proof (Nat.div_mod_eq n 4) as Hn; rewrite E in Hn. lia.
Qed.

(** ** Base64, standard alphabet, no padding *)
Definition b64std_char (n : Z) : ascii :=
  Z_ascii (if n <? 26 then 65 + n
           else if n <? 52 then 71 + n
           else if n <? 62 then n - 4
           else if n =? 62 then 43 else 47).
Definition b64std_val (a : ascii) : option Z :=
  let z := ascii_Z a in
  if (65 <=? z) && (z <=? 90) then Some (z - 65)
  else if (97 <=? z) && (z <=? 122) then Some (z - 71)
  else if (48 <=? z) && (z <=? 57) then Some (z + 4)
  else if z =? 43 then Some 62
  else if z =? 47 then Some 63 else None.

(** The sextets of a byte string, and back. *)
Fixpoint to_sextets (b : bytes) : list Z :=
  match b with
  | x :: y :: z :: b' =>
      x / 4 :: x mod 4 * 16 + y / 16 :: y mod 16 * 4 + z / 64 :: z mod 64 :: to_sextets b'
  | [x; y] => [x / 4; x mod 4 * 16 + y / 16; y mod 16 * 4]
  | [x] => [x / 4; x mod 4 * 16]
  | [] => []
  end.
Fixpoint of_sextets (l : list Z) : option bytes :=
  match l with
  | a :: b :: c :: d :: l' =>
      option_map (fun r => a * 4 + b / 16 :: b mod 16 * 16 + c / 4 :: c mod 4 * 64 + d :: r)
        (of_sextets l')
  | [a; b; c] => Some [a * 4 + b / 16; b mod 16 * 16 + c / 4]
  | [a; b] => Some [a * 4 + b / 16]
  | [_] => None
  | [] => Some []
  end.

Definition b64std_encode (b : bytes) : string :=
  string_of_list_ascii (map b64std_char (to_sextets b)).
(** [base64.RawStdEncoding.DecodeString]; [None] is a decoding error. *)
Definition b64std_decode (s : string) : option bytes :=
  match mapM b64std_val (list_ascii_of_string (skip_crlf s)) with
  | Some l => of_sextets l
  | None => None
  end.

Lemma of_to_sextets b : Forall is_byte b -> of_sextets (to_sextets b) = Some b.
Proof.
  induction b as [|x|x y|x y z b IH] using list_ind3; intros Hb; cbn [to_sextets of_sextets];
    repeat match goal with H : Forall _ (_ :: _) |- _ => inversion H; clear H; subst end;
    unfold is_byte in *; [auto| | |].
  - do 2 f_equal; Z.to_euclidean_division_equations; lia.
  - do 2 f_equal; [|f_equal]; Z.to_euclidean_division_equations; lia.
  - rewrite IH by auto; simpl; do 2 f_equal; [|f_equal; [|f_equal]];
      Z.to_euclidean_division_equations; lia.
Qed.

Lemma to_sextets_range b :
  Forall is_byte b -> Forall (fun n => 0 <= n < 64) (to_sextets b).
Proof.
  assert (is_byte 0) as H0 by (unfold is_byte; lia).
  induction b as [|x|x y|x y z b IH] using list_ind3; intros Hb; cbn [to_sextets];
    repeat match goal with H : Forall _ (_ :: _) |- _ => inversion H; clear H; subst end.
  - constructor.
  - destruct (sextet_bounds x 0 0) as (?&Hy&?&?); auto.
    change (0 / 16) with 0 in Hy; rewrite Z.add_0_r in Hy; auto.
  - destruct (sextet_bounds x y 0) as (?&?&Hz&?); auto.
    change (0 / 64) with 0 in Hz; rewrite Z.add_0_r in Hz; auto.
  - destruct (sextet_bounds x y z) as (?&?&?&?); auto 10.
Qed.

Lemma b64std_char_spec n :
  0 <= n < 64 -> b64std_val (b64std_char n) = Some n /\ is_crlf (b64std_char n) = false.
Proof.
  intros H.
  pose proof (forall_range 64 (fun z => match b64std_val (b64std_char z) with
     | Some m => (m =? z) && negb (is_crlf (b64std_char z)) | None => false end) n
     ltac:(vm_compute; reflexivity) ltac:(lia)) as Hn; cbv beta in Hn.
  destruct (b64std_val (b64std_char n)); [|discriminate].
  apply andb_true_iff in Hn as [->%Z.eqb_eq Hc]; split; [reflexivity|].
  by destruct (is_crlf (b64std_char n)).
Qed.

Lemma b64std_roundtrip b : Forall is_byte b -> b64std_decode (b64std_encode b) = Some b.
Proof.
  intros Hb; unfold b64std_decode, b64std_encode.
  assert (forall l, Forall (fun n => 0 <= n < 64) l ->
    mapM b64std_val (list_ascii_of_string (skip_crlf
      (string_of_list_ascii (map b64std_char l)))) = Some l) as H.
  { induction 1 as [|n l Hn Hl IH]; [reflexivity|]. simpl.
    destruct (b64std_char_spec n Hn) as [Hv ->]; simpl.
    rewrite Hv; simpl. by rewrite IH. }
  rewrite H by (by apply to_sextets_range). by apply of_to_sextets.
Qed.

(** No character of an encoding is a dollar sign, the field separator. *)
Lemma b64std_no_dollar b :
  Forall is_byte b -> sforall (fun a => negb (Ascii.eqb a "$")) (b64std_encode b) = true.
Proof.
  intros Hb; unfold b64std_encode; pose proof (to_sextets_range b Hb) as Hr.
  induction Hr as [|n l Hn Hl IH]; [reflexivity|]; simpl.
  rewrite (forall_range 64 (fun z => negb (Ascii.eqb (b64std_char z) "$")) n) by
    (first [vm_compute; reflexivity | lia]).
  exact IH.
Qed.

(** ** The range of a CRC *)
Lemma lxor_bound a b n : 0 <= n -> 0 <= a < 2 ^ n -> 0 <= b < 2 ^ n -> 0 <= Z.lxor a b < 2 ^ n.
Proof.
  intros Hn Ha Hb; assert (0 <= Z.lxor a b) as H0 by (apply Z.lxor_nonneg; lia).
  split; [done|]. destruct (Z.eq_dec (Z.lxor a b) 0) as [->|Hne]; [lia|].
  apply Z.log2_lt_pow2; [lia|].
  assert (forall c, 0 <= c < 2 ^ n -> c = 0 \/ Z.log2 c < n) as Hl.
  { intros c Hc; destruct (Z.eq_dec c 0); [by left|right]. apply Z.log2_lt_pow2; lia. }
  pose proof (Z.log2_lxor a b ltac:(lia) ltac:(lia)).
  destruct (Hl a Ha) as [->|H1], (Hl b Hb) as [->|H2]; try (rewrite Z.lxor_0_l in * || rewrite Z.lxor_0_r in * ); lia.
Qed.

Lemma crc_byte_range c b : 0 <= c < 2 ^ 32 -> is_byte b -> 0 <= crc_byte c b < 2 ^ 32.
Proof.
  intros Hc Hb; unfold crc_byte; assert (0 <= Z.lxor c b < 2 ^ 32) as H
    by (apply lxor_bound; unfold is_byte in *; lia).
  revert H; generalize (Z.lxor c b); intros z Hz.
  assert (forall z, 0 <= z < 2 ^ 32 -> 0 <= crc_bit z < 2 ^ 32) as Hs.
  { clear; intros z Hz; unfold crc_bit; rewrite Z.shiftr_div_pow2 by lia.
    assert (0 <= z / 2 ^ 1 < 2 ^ 32) by (split; [apply Z.div_pos; lia|apply Z.div_lt_upper_bound; lia]).
    destruct (Z.testbit z 0); [apply lxor_bound; lia|done]. }
  generalize 8%nat; intros n; induction n as [|n IH]; simpl; auto.
Qed.

Lemma crc32_range b : Forall is_byte b -> 0 <= crc32 b < 2 ^ 32.
Proof.
  intros Hb; unfold crc32; apply lxor_bound; [lia| |lia].
  assert (forall c, 0 <= c < 2 ^ 32 -> 0 <= fold_left crc_byte b c < 2 ^ 32) as H; [|apply H; lia].
  induction Hb as [|x b Hx Hb IH]; intros c Hc; simpl; [done|]. apply IH, crc_byte_range; done.
Qed.
