(* ===== verification/Json.v ===== *)
(** Go's [encoding/json] as the log and the snapshots use it.

    A value is the tree of its text; [print] is [json.Marshal] (compact, HTML
    characters escaped, invalid UTF-8 replaced), [parse] is the syntax phase of
    [json.Unmarshal], and the [dec_*] functions are its assignment phase for
    the types the sources decode into: [null] assigns nothing, unknown members
    are ignored, member names match up to case, a later member overrides an
    earlier one, a value of the wrong type is an error. *)

From Stdlib Require Import Ascii String.
From stdpp Require Import list strings gmap fin_maps sorting.
From S2P Require Import Prelude GoStrings Strconv Encoding.

Open Scope string_scope.
Open Scope Z_scope.

#[warnings="-register-all"]
Inductive json :=
| JNull
| JBool (b : bool)
| JNum (lit : string)
| JStr (s : string)
| JArr (l : list json)
| JObj (m : list (string * json)).

Definition chr (z : Z) : string := String (Z_ascii z) "".
Definition quote : string := chr 34.

(** ** UTF-8 *)
Definition cont (a : ascii) : bool := (128 <=? ascii_Z a) && (ascii_Z a <=? 191).
Definition in_range (lo hi : Z) (a : ascii) : bool := (lo <=? ascii_Z a) && (ascii_Z a <=? hi).

(** The number of bytes of the rune at the start of a string whose first byte
    is not ASCII; [None] when the encoding is invalid. *)
Definition utf8_size (s : string) : option nat :=
  match s with
  | String a s1 =>
      let c := ascii_Z a in
      if (194 <=? c) && (c <=? 223) then
        match s1 with String b _ => if cont b then Some 2%nat else None | _ => None end
      else if (224 <=? c) && (c <=? 239) then
        match s1 with
        | String b (String d _) =>
            if (if c =? 224 then in_range 160 191 b else if c =? 237 then in_range 128 159 b
                else cont b) && cont d
            then Some 3%nat else None
        | _ => None
        end
      else if (240 <=? c) && (c <=? 244) then
        match s1 with
        | String b (String d (String e _)) =>
            if (if c =? 240 then in_range 144 191 b else if c =? 244 then in_range 128 143 b
                else cont b) && cont d && cont e
            then Some 4%nat else None
        | _ => None
        end
      else None
  | EmptyString => None
  end.

Definition utf8_encode (r : Z) : string :=
  if r <? 128 then chr r
  else if r <? 2048 then chr (192 + r / 64) +:+ chr (128 + r mod 64)
  else if r <? 65536 then
    chr (224 + r / 4096) +:+ chr (128 + r / 64 mod 64) +:+ chr (128 + r mod 64)
  else chr (240 + r / 262144) +:+ chr (128 + r / 4096 mod 64) +:+
    chr (128 + r / 64 mod 64) +:+ chr (128 + r mod 64).
Definition replacement : string := utf8_encode 65533.

(** ** Marshal *)
Definition esc_u (z : Z) : string :=
  "\u00" +:+ String (hex_digit (z / 16)) (String (hex_digit (z mod 16)) "").
Definition esc_ascii (a : ascii) : string :=
  let c := ascii_Z a in
  if c =? 34 then "\" +:+ quote
  else if c =? 92 then "\\"
  else if c =? 8 then "\b"
  else if c =? 12 then "\f"
  else if c =? 10 then "\n"
  else if c =? 13 then "\r"
  else if c =? 9 then "\t"
  else if (c <? 32) || (c =? 60) || (c =? 62) || (c =? 38) then esc_u c
  else String a "".

(** U+2028 and U+2029. *)
Definition is_line_sep (a b c : ascii) : bool :=
  (ascii_Z a =? 226) && (ascii_Z b =? 128) && ((ascii_Z c =? 168) || (ascii_Z c =? 169)).

Fixpoint escape (s : string) : string :=
  match s with
  | EmptyString => ""
  | String a s1 =>
      if ascii_Z a <? 128 then esc_ascii a +:+ escape s1
      else match utf8_size s, s1 with
      | Some 2%nat, String b s2 => String a (String b (escape s2))
      | Some 3%nat, String b (String c s3) =>
          if is_line_sep a b c
          then (if ascii_Z c =? 168 then "\u2028" else "\u2029") +:+ escape s3
          else String a (String b (String c (escape s3)))
      | Some 4%nat, String b (String c (String d s4)) =>
          String a (String b (String c (String d (escape s4))))
      | _, _ => "\ufffd" +:+ escape s1
      end
  end.
Definition print_str (s : string) : string := quote +:+ escape s +:+ quote.

Fixpoint print (v : json) : string :=
  match v with
  | JNull => "null"
  | JBool true => "true"
  | JBool false => "false"
  | JNum lit => lit
  | JStr s => print_str s
  | JArr l =>
      let fix elems (l : list json) : string :=
        match l with
        | [] => "]"
        | v :: l' => print v +:+ match l' with [] => "]" | _ => "," +:+ elems l' end
        end in
      "[" +:+ elems l
  | JObj m =>
      let fix members (m : list (string * json)) : string :=
        match m with
        | [] => "}"
        | (k, v) :: m' =>
            print_str k +:+ ":" +:+ print v +:+
            match m' with [] => "}" | _ => "," +:+ members m' end
        end in
      "{" +:+ members m
  end.

(** ** Syntax phase of Unmarshal *)
Definition is_ws (a : ascii) : bool :=
  let c := ascii_Z a in (c =? 32) || (c =? 9) || (c =? 10) || (c =? 13).
Fixpoint skip_ws (s : string) : string :=
  match s with
  | String a s' => if is_ws a then skip_ws s' else s
  | EmptyString => ""
  end.

Definition hex_val (a : ascii) : option Z :=
  let c := ascii_Z a in
  if (48 <=? c) && (c <=? 57) then Some (c - 48)
  else if (97 <=? c) && (c <=? 102) then Some (c - 87)
  else if (65 <=? c) && (c <=? 70) then Some (c - 55)
  else None.
Definition hex4 (a b c d : ascii) : option Z :=
  match hex_val a, hex_val b, hex_val c, hex_val d with
  | Some x, Some y, Some z, Some w => Some (((x * 16 + y) * 16 + z) * 16 + w)
  | _, _, _, _ => None
  end.
Definition simple_escape (a : ascii) : option Z :=
  let c := ascii_Z a in
  if (c =? 34) || (c =? 92) || (c =? 47) then Some c
  else if c =? 98 then Some 8
  else if c =? 102 then Some 12
  else if c =? 110 then Some 10
  else if c =? 114 then Some 13
  else if c =? 116 then Some 9
  else None.

Definition prepend (p : string) (r : option (string * string)) : option (string * string) :=
  match r with Some (s, rest) => Some (p +:+ s, rest) | None => None end.

(** The contents of a string after its opening quote, and what follows. *)
Fixpoint parse_str (s : string) : option (string * string) :=
  match s with
  | EmptyString => None
  | String a s1 =>
      let c := ascii_Z a in
      if c =? 34 then Some ("", s1)
      else if c =? 92 then
        match s1 with
        | EmptyString => None
        | String e s2 =>
            match simple_escape e with
            | Some z => prepend (chr z) (parse_str s2)
            | None =>
                if negb (ascii_Z e =? 117) then None
                else match s2 with
                | String h1 (String h2 (String h3 (String h4 s3))) =>
                    match hex4 h1 h2 h3 h4 with
                    | None => None
                    | Some r =>
                        if (55296 <=? r) && (r <=? 57343) then
                          match s3 with
                          | String b (String u (String g1 (String g2 (String g3 (String g4 s4))))) =>
                              match hex4 g1 g2 g3 g4 with
                              | Some r2 =>
                                  if (ascii_Z b =? 92) && (ascii_Z u =? 117) && (r <=? 56319) &&
                                     (56320 <=? r2) && (r2 <=? 57343)
                                  then prepend (utf8_encode
                                         (65536 + (r - 55296) * 1024 + (r2 - 56320))) (parse_str s4)
                                  else prepend replacement (parse_str s3)
                              | None => prepend replacement (parse_str s3)
                              end
                          | _ => prepend replacement (parse_str s3)
                          end
                        else prepend (utf8_encode r) (parse_str s3)
                    end
                | _ => None
                end
            end
        end
      else if c <? 32 then None
      else if c <? 128 then prepend (String a "") (parse_str s1)
      else match utf8_size s, s1 with
      | Some 2%nat, String b s2 => prepend (String a (String b "")) (parse_str s2)
      | Some 3%nat, String b (String d s3) => prepend (String a (String b (String d ""))) (parse_str s3)
      | Some 4%nat, String b (String d (String e s4)) =>
          prepend (String a (String b (String d (String e "")))) (parse_str s4)
      | _, _ => prepend replacement (parse_str s1)
      end
  end.

Definition is_num_char (a : ascii) : bool :=
  let c := ascii_Z a in
  is_digit a || (c =? 43) || (c =? 45) || (c =? 46) || (c =? 69) || (c =? 101).
Fixpoint take_num (s : string) : string * string :=
  match s with
  | String a s' =>
      if is_num_char a then let '(l, r) := take_num s' in (String a l, r) else ("", s)
  | EmptyString => ("", "")
  end.

Fixpoint drop_digits (s : string) : string :=
  match s with String a s' => if is_digit a then drop_digits s' else s | EmptyString => "" end.
(** At least one digit. *)
Definition digits1 (s : string) : option string :=
  match s with String a s' => if is_digit a then Some (drop_digits s') else None | _ => None end.
Definition valid_number (lit : string) : bool :=
  let s := match lit with String "-" s' => s' | _ => lit end in
  let int_part := match s with
    | String "0" s' => Some s'
    | _ => digits1 s
    end in
  let frac := match int_part with
    | Some (String "." s') => digits1 s'
    | r => r
    end in
  let exp := match frac with
    | Some (String "e" s') | Some (String "E" s') =>
        match s' with String "+" t | String "-" t => digits1 t | _ => digits1 s' end
    | r => r
    end in
  match exp with Some "" => true | _ => false end.

Definition parse_lit (lit : string) (v : json) (s : string) : option (json * string) :=
  if HasPrefix s lit then Some (v, from (String.length lit) s) else None.

(** [fuel] bounds the nesting and the number of elements; the length of the text is
    enough. *)
Fixpoint parse_value (fuel : nat) (s : string) : option (json * string) :=
  match fuel with
  | O => None
  | S fuel =>
    let s := skip_ws s in
    match s with
    | EmptyString => None
    | String a s' =>
      let c := ascii_Z a in
      if c =? 34 then
        match parse_str s' with Some (x, r) => Some (JStr x, r) | None => None end
      else if c =? 123 then
        match skip_ws s' with
        | String "}" r => Some (JObj [], r)
        | s1 => match parse_members fuel s1 with Some (m, r) => Some (JObj m, r) | None => None end
        end
      else if c =? 91 then
        match skip_ws s' with
        | String "]" r => Some (JArr [], r)
        | s1 => match parse_elems fuel s1 with Some (l, r) => Some (JArr l, r) | None => None end
        end
      else if c =? 116 then parse_lit "true" (JBool true) s
      else if c =? 102 then parse_lit "false" (JBool false) s
      else if c =? 110 then parse_lit "null" JNull s
      else
        let '(lit, r) := take_num s in
        if valid_number lit then Some (JNum lit, r) else None
    end
  end
with parse_elems (fuel : nat) (s : string) : option (list json * string) :=
  match fuel with
  | O => None
  | S fuel =>
    match parse_value fuel s with
    | None => None
    | Some (v, r) =>
        match skip_ws r with
        | String "]" r' => Some ([v], r')
        | String "," r' =>
            match parse_elems fuel r' with Some (l, r2) => Some (v :: l, r2) | None => None end
        | _ => None
        end
    end
  end
with parse_members (fuel : nat) (s : string) : option (list (string * json) * string) :=
  match fuel with
  | O => None
  | S fuel =>
    match skip_ws s with
    | String a s1 =>
      if ascii_Z a =? 34 then
        match parse_str s1 with
        | None => None
        | Some (k, r) =>
          match skip_ws r with
          | String ":" r1 =>
            match parse_value fuel r1 with
            | None => None
            | Some (v, r2) =>
                match skip_ws r2 with
                | String "}" r3 => Some ([(k, v)], r3)
                | String "," r3 =>
                    match parse_members fuel r3 with
                    | Some (m, r4) => Some ((k, v) :: m, r4)
                    | None => None
                    end
                | _ => None
                end
            end
          | _ => None
          end
        end
      else None
    | EmptyString => None
    end
  end.

(** The whole input is one value. *)
Definition parse (s : string) : option json :=
  match parse_value (S (String.length s)) s with
  | Some (v, r) => if String.eqb (skip_ws r) "" then Some v else None
  | None => None
  end.

(** ** Assignment phase *)
Definition dec_string (v : json) (old : string) : option string :=
  match v with JNull => Some old | JStr s => Some s | _ => None end.
Definition dec_bool (v : json) (old : bool) : option bool :=
  match v with JNull => Some old | JBool b => Some b | _ => None end.
(** [int64] and [uint64]/[uint32] fields. *)
Definition dec_int (v : json) (old : Z) : option Z :=
  match v with JNull => Some old | JNum lit => ParseInt lit | _ => None end.
Definition dec_uint (v : json) (old : Z) : option Z :=
  match v with JNull => Some old | JNum lit => ParseUint lit | _ => None end.
Definition dec_uint32 (v : json) (old : Z) : option Z :=
  match dec_uint v old with
  | Some n => if n <? 2 ^ 32 then Some n else None
  | None => None
  end.

(** [map[string]string]: an object is merged into the map, which is made if nil. *)
Fixpoint dec_entries (m : list (string * json)) (acc : gmap string string)
    : option (gmap string string) :=
  match m with
  | [] => Some acc
  | (k, v) :: m' =>
      match dec_string v "" with
      | Some s => dec_entries m' (<[k := s]> acc)
      | None => None
      end
  end.
Definition dec_map (v : json) (old : option (gmap string string))
    : option (option (gmap string string)) :=
  match v with
  | JNull => Some None
  | JObj m =>
      match dec_entries m (default ∅ old) with Some r => Some (Some r) | None => None end
  | _ => None
  end.

(** Assigning the members of an object one after the other. *)
Fixpoint dec_members {A} (assign : string -> json -> A -> option A) (m : list (string * json))
    (acc : A) : option A :=
  match m with
  | [] => Some acc
  | (k, v) :: m' =>
      match assign (ToLower k) v acc with
      | Some acc' => dec_members assign m' acc'
      | None => None
      end
  end.

(** [map[string]string] members are printed in key order. *)
Definition enc_map (d : option (gmap string string)) : json :=
  match d with
  | None => JNull
  | Some m => JObj (map (fun kv => (fst kv, JStr (snd kv)))
                (sort_slice (fun a b => String.ltb (fst a) (fst b)) (map_to_list m)))
  end.

(** [json.Unmarshal] into a fresh struct; [None] is an error. *)
Definition unmarshal {A} (assign : string -> json -> A -> option A) (zero : A) (v : json) : option A :=
  match v with JNull => Some zero | JObj m => dec_members assign m zero | _ => None end.

(** The decoder of [encoding/json] reads one value and not what follows it. *)
Definition decode_first (b : bytes) : option json :=
  let s := of_bytes b in option_map fst (parse_value (S (String.length s)) s).
