(* ===== verification/Token.v ===== *)
(** Session tokens: [internal/core/domain/token.go] and [pkg/token].

    A token is [tmtk_] and the Base64 form of 32 random bytes; the server
    keeps only its hash, [tmth_] and the hex form of the SHA-256. *)

From Stdlib Require Import Ascii String.
From stdpp Require Import list strings.
From S2P Require Import Prelude Errors GoStrings Encoding.

Open Scope string_scope.
Open Scope Z_scope.

Definition TokenPrefix : string := "tmtk_".
Definition TokenHashPrefix : string := "tmth_".
Definition TokenBytesLength : nat := 32.
Definition TokenBodyLength : Z := 43.
Definition TokenLength : Z := 5 + TokenBodyLength.
Definition TokenHashLength : Z := 5 + 64.

Definition HashToken (plaintext : string) : string :=
  TokenHashPrefix +:+ hex_encode (sha256 (to_bytes plaintext)).

(** Returns the plaintext and its hash. *)
Definition GenerateToken {S} : M S (Res (string * string)) :=
  r <- rand_read TokenBytesLength ;;
  match r with
  | Err err => ret (Err (WithCause ErrInternalServer err))
  | Ok b =>
      let plaintext := TokenPrefix +:+ b64url_encode b in
      ret (Ok (plaintext, HashToken plaintext))
  end.

Definition ValidateTokenFormat (token : string) : bool :=
  if negb (slen token =? TokenLength) then false
  else if negb (HasPrefix token TokenPrefix) then false
  else
    let body := from (String.length TokenPrefix) token in
    if negb (slen body =? TokenBodyLength) then false
    else b64url_decodable body.

Definition ValidateTokenHashFormat (hash : string) : bool :=
  if negb (slen hash =? TokenHashLength) then false
  else if negb (HasPrefix (ToLower hash) TokenHashPrefix) then false
  else
    let body := from (String.length TokenHashPrefix) hash in
    hex_decodable body.

Definition NormalizeTokenHash (hash : string) : string :=
  let normalized := ToLower hash in
  if ValidateTokenHashFormat normalized then normalized else "".

Record Token := MkToken { Token_Hash : string; Token_SessionID : string }.
Definition NewToken (hash sessionID : string) : Token := MkToken hash sessionID.
Definition IsValidHash (t : Token) : bool := ValidateTokenHashFormat (Token_Hash t).

Definition ExtractTokenBody (token : string) : string :=
  if HasPrefix token TokenPrefix then from (String.length TokenPrefix) token else "".
Definition ExtractHashBody (hash : string) : string :=
  if HasPrefix hash TokenHashPrefix then from (String.length TokenHashPrefix) hash else "".

Definition redacted : string := "***REDACTED***".

(** The shape shared by the masking functions: prefix, first three and last
    three characters of the body. *)
Definition mask_body (s : string) : string :=
  let prefix := upto 5 s in
  let body := from 5 s in
  if 6 <? slen body
  then prefix +:+ upto 3 body +:+ "..." +:+ from (String.length body - 3) body
  else prefix +:+ "***".

Definition MaskToken (token : string) : string :=
  if slen token <? 10 then redacted
  else if HasPrefix token TokenPrefix || HasPrefix token "tmas_" then mask_body token
  else redacted.

(** [pkg/token]: hashing without prefix, and constant-time verification, which
    computes string equality. *)
Definition Hash (token : string) : string := hex_encode (sha256 (to_bytes token)).
Definition HashBytes (data : bytes) : string := hex_encode (sha256 data).
Definition Verify (token expectedHash : string) : bool :=
  String.eqb (Hash token) expectedHash.
Definition VerifyBytes (data : bytes) (expectedHash : string) : bool :=
  String.eqb (HashBytes data) expectedHash.
Definition GenerateWithLength {S} (length : nat) : M S (Res string) :=
  r <- rand_read length ;;
  match r with
  | Err err => ret (Err err)
  | Ok b => ret (Ok (b64url_encode b))
  end.

(** The random source returns as many bytes as were asked for. *)
Definition rnd_ok (e : env) : Prop :=
  forall k n b, rnd e k n = Ok b -> length b = n /\ Forall is_byte b.

(** ** Facts *)
Lemma encoded_token_valid (b : bytes) :
  length b = TokenBytesLength -> Forall is_byte b ->
  ValidateTokenFormat (TokenPrefix +:+ b64url_encode b) = true.
Proof.
  intros Hl Hb; pose proof (b64url_encode_length b) as Hn; rewrite Hl in Hn.
  assert (String.length (b64url_encode b) = 43%nat) as H43.
  { unfold TokenBytesLength in Hn; lia. }
  unfold ValidateTokenFormat, HasPrefix.
  rewrite slen_app, str_prefix_app, from_app; unfold slen at 2 3; rewrite H43.
  by rewrite b64url_decodable_encode.
Qed.

Lemma slen_HashToken (t : string) : slen (HashToken t) = TokenHashLength.
Proof.
  unfold HashToken; rewrite slen_app; unfold slen at 2.
  rewrite hex_encode_length, sha256_length; reflexivity.
Qed.

Lemma ToLower_HashToken (t : string) : ToLower (HashToken t) = HashToken t.
Proof.
  unfold HashToken, ToLower; rewrite smap_app.
  f_equal; apply hex_encode_lower, sha256_bytes.
Qed.

Lemma HashToken_valid (t : string) : ValidateTokenHashFormat (HashToken t) = true.
Proof.
  unfold ValidateTokenHashFormat; rewrite slen_HashToken, ToLower_HashToken.
  unfold HasPrefix, HashToken; rewrite str_prefix_app, from_app.
  rewrite hex_decodable_encode; [reflexivity | apply sha256_bytes].
Qed.

Lemma HashToken_nonempty (t : string) : HashToken t <> "".
Proof. unfold HashToken; simpl; discriminate. Qed.

Lemma GenerateToken_run {S} (s s' : S) (e e' : env) (plaintext hash : string) :
  rnd_ok e -> GenerateToken s e = (Ok (plaintext, hash), s', e') ->
  ValidateTokenFormat plaintext = true /\ hash = HashToken plaintext /\ s' = s.
Proof.
  intros Hrnd; unfold GenerateToken, bind, rand_read.
  destruct (rnd e 0%nat TokenBytesLength) as [b|] eqn:Hb; [|discriminate].
  destruct (Hrnd _ _ _ Hb) as [Hl Hbytes]; intros [= <- <- <- _].
  split; [by apply encoded_token_valid|done].
Qed.

(** ** Properties *)

(** C38: A generated token passes the format check, its hash passes
    the hash-format check, is already in normal form, and is the hash the
    lookup computes from the plaintext. *)
Theorem GenerateToken_well_formed {S} (s s' : S) (e e' : env) (plaintext hash : string)
    (Hrnd : rnd_ok e) (Hgen : GenerateToken s e = (Ok (plaintext, hash), s', e')) :
  ValidateTokenFormat plaintext = true /\
  hash = HashToken plaintext /\
  ValidateTokenHashFormat hash = true /\
  NormalizeTokenHash hash = hash /\
  slen plaintext = TokenLength /\ slen hash = TokenHashLength.
Proof.
  unfold GenerateToken, bind, rand_read in Hgen.
  destruct (rnd e 0%nat TokenBytesLength) as [b|] eqn:Hb; [|discriminate].
  destruct (Hrnd _ _ _ Hb) as [Hl Hbytes].
  injection Hgen as <- <- <- <-.
  pose proof (encoded_token_valid b Hl Hbytes) as Hv.
  repeat split; auto using HashToken_valid, slen_HashToken.
  - unfold NormalizeTokenHash; rewrite ToLower_HashToken.
    by rewrite HashToken_valid.
  - unfold ValidateTokenFormat in Hv.
    destruct (slen _ =? TokenLength) eqn:E; [by apply Z.eqb_eq|discriminate].
Qed.

Lemma GenerateToken_well_formed_witness :
  let e := Env (fun _ => 0) (fun _ n => Ok (repeat 7 n)) (fun _ => Err (SimpleError "none")) in
  match GenerateToken tt e with
  | (Ok (plaintext, hash), _, _) =>
      ValidateTokenFormat plaintext = true /\ hash = HashToken plaintext /\
      ValidateTokenHashFormat hash = true /\ NormalizeTokenHash hash = hash /\
      slen plaintext = TokenLength /\ slen hash = TokenHashLength
  | _ => False
  end.
Proof.
  cbv zeta; set (e := Env _ _ _).
  refine (GenerateToken_well_formed tt tt e _ _ _ _ eq_refl).
  intros k n b [= <-]; split; [apply repeat_length|].
  apply Forall_forall; intros x Hx; apply list_elem_of_In, repeat_spec in Hx as ->; unfold is_byte; lia.
Defined.
