(* ===== verification/Session.v ===== *)
(** Sessions: [internal/core/domain/session.go].

    The session entity, its clock-dependent predicates, its validation and its
    identifiers.  [Clone] is the deep copy that separates the stored object
    from the ones handed out, so a stored session is a value of the model. *)

From Stdlib Require Import Ascii String.
From stdpp Require Import list strings gmap fin_maps.
From S2P Require Import Prelude Errors GoStrings.

Open Scope string_scope.
Open Scope Z_scope.

Definition MaxUserIDLength : Z := 128.
Definition MaxIPAddressLength : Z := 45.
Definition MaxUserAgentLength : Z := 512.
Definition MaxDeviceIDLength : Z := 128.
Definition MaxDataKeyLength : Z := 64.
Definition MaxDataValueLength : Z := 1024.
Definition MaxDataTotalSize : Z := 4096.
Definition MaxSessionsPerUser : Z := 50.
Definition SessionIDPrefix : string := "tmss-".

(** [Data] is [None] for a nil map. *)
Record Session := MkSession {
  ID : string;
  UserID : string;
  TokenHash : string;
  IPAddress : string;
  UserAgent : string;
  LastAccessIP : string;
  LastAccessUA : string;
  DeviceID : string;
  CreatedBy : string;
  CreatedAt : Z;
  ExpiresAt : Z;
  LastActive : Z;
  Data : option (gmap string string);
  Version : Z;
  ShardID : Z;
  TTL : Z;
  IsDeleted : bool;
}.

(** Field assignments. *)
Definition set_access (ip ua : string) (s : Session) : Session :=
  MkSession (ID s) (UserID s) (TokenHash s) (IPAddress s) (UserAgent s) ip ua
    (DeviceID s) (CreatedBy s) (CreatedAt s) (ExpiresAt s) (LastActive s) (Data s)
    (Version s) (ShardID s) (TTL s) (IsDeleted s).
Definition set_LastActive (t : Z) (s : Session) : Session :=
  MkSession (ID s) (UserID s) (TokenHash s) (IPAddress s) (UserAgent s) (LastAccessIP s)
    (LastAccessUA s) (DeviceID s) (CreatedBy s) (CreatedAt s) (ExpiresAt s) t (Data s)
    (Version s) (ShardID s) (TTL s) (IsDeleted s).
Definition SetVersion (v : Z) (s : Session) : Session :=
  MkSession (ID s) (UserID s) (TokenHash s) (IPAddress s) (UserAgent s) (LastAccessIP s)
    (LastAccessUA s) (DeviceID s) (CreatedBy s) (CreatedAt s) (ExpiresAt s) (LastActive s)
    (Data s) v (ShardID s) (TTL s) (IsDeleted s).
Definition set_expiry (at_ ttl : Z) (s : Session) : Session :=
  MkSession (ID s) (UserID s) (TokenHash s) (IPAddress s) (UserAgent s) (LastAccessIP s)
    (LastAccessUA s) (DeviceID s) (CreatedBy s) (CreatedAt s) at_ (LastActive s) (Data s)
    (Version s) (ShardID s) ttl (IsDeleted s).
Definition set_DeviceID (d : string) (s : Session) : Session :=
  MkSession (ID s) (UserID s) (TokenHash s) (IPAddress s) (UserAgent s) (LastAccessIP s)
    (LastAccessUA s) d (CreatedBy s) (CreatedAt s) (ExpiresAt s) (LastActive s) (Data s)
    (Version s) (ShardID s) (TTL s) (IsDeleted s).
Definition set_Data (d : option (gmap string string)) (s : Session) : Session :=
  MkSession (ID s) (UserID s) (TokenHash s) (IPAddress s) (UserAgent s) (LastAccessIP s)
    (LastAccessUA s) (DeviceID s) (CreatedBy s) (CreatedAt s) (ExpiresAt s) (LastActive s) d
    (Version s) (ShardID s) (TTL s) (IsDeleted s).

(** The one function the sources call from [github.com/oklog/ulid]: whether
    [ulid.Parse] accepts a string. *)
Class UlidLib := ulid_parse : string -> bool.

Definition GenerateSessionID {S} : M S (Res string) :=
  r <- ulid_new ;;
  match r with
  | Err err => ret (Err (WithCause ErrInternalServer err))
  | Ok id => ret (Ok (SessionIDPrefix +:+ ToLower id))
  end.

Definition NewSession {S} (userID : string) : M S (Res Session) :=
  if String.eqb userID "" then
    ret (Err (WithDetails ErrInvalidArgument "user_id is required"))
  else if MaxUserIDLength <? slen userID then
    ret (Err (WithDetails ErrInvalidArgument "user_id exceeds maximum length"))
  else
    id <-? GenerateSessionID ;;
    now <- now_milli ;;
    ret (Ok (MkSession id userID "" "" "" "" "" "" "" now 0 now (Some ∅) 1 0 0 false)).

Definition IsExpired {S} (s : Session) : M S bool :=
  if ExpiresAt s =? 0 then ret false
  else now <- now_milli ;; ret (ExpiresAt s <? now).

(** The verdict of [IsExpired] when the clock reads [now] (in milliseconds). *)
Definition expired_at (now : Z) (s : Session) : bool :=
  negb (ExpiresAt s =? 0) && (ExpiresAt s <? now).

Definition TTLDuration {S} (s : Session) : M S Z :=
  if ExpiresAt s =? 0 then ret 0
  else
    now <- now_milli ;;
    let remaining := i64 (ExpiresAt s - now) in
    if remaining <? 0 then ret 0 else ret (i64 (remaining * 1000000)).

Definition truncate (max : Z) (v : string) : string :=
  if max <? slen v then upto (Z.to_nat max) v else v.

Definition Touch {S} (ip userAgent : string) (s : Session) : M S Session :=
  now <- now_milli ;;
  let s := set_LastActive now s in
  let ip' := if String.eqb ip "" then LastAccessIP s else truncate MaxIPAddressLength ip in
  let ua' := if String.eqb userAgent "" then LastAccessUA s
             else truncate MaxUserAgentLength userAgent in
  ret (set_access ip' ua' s).

Definition GetVersion (s : Session) : Z := Version s.
Definition IncrVersion (s : Session) : Session := SetVersion (u64 (Version s + 1)) s.

(** The loop of [validateData] over one enumeration of the map (Go's map order
    is unspecified); [total] accumulates the sizes. *)
Fixpoint validate_entries (l : list (string * string)) (total : Z) : option error :=
  match l with
  | [] => if MaxDataTotalSize <? total
          then Some (WithDetails ErrSessionValidation "data total size exceeds 4KB")
          else None
  | (k, v) :: l' =>
      if MaxDataKeyLength <? slen k
      then Some (WithDetails ErrSessionValidation "data key exceeds 64 characters")
      else if MaxDataValueLength <? slen v
      then Some (WithDetails ErrSessionValidation "data value exceeds 1KB")
      else validate_entries l' (total + (slen k + slen v))
  end.

Definition validateData (s : Session) : option error :=
  match Data s with
  | None => None
  | Some d => validate_entries (map_to_list d) 0
  end.

Definition Validate (s : Session) : option error :=
  let violations :=
    ((if String.eqb (UserID s) "" then ["user_id is required"] else []) ++
    (if MaxUserIDLength <? slen (UserID s) then ["user_id exceeds 128 characters"] else []) ++
    (if MaxIPAddressLength <? slen (IPAddress s)
     then ["ip_address exceeds 45 characters"] else []) ++
    (if MaxUserAgentLength <? slen (UserAgent s)
     then ["user_agent exceeds 512 characters"] else []) ++
    (if MaxDeviceIDLength <? slen (DeviceID s)
     then ["device_id exceeds 128 characters"] else []) ++
    (match validateData s with Some err => [Error err] | None => [] end))%list in
  match violations with
  | [] => None
  | _ => Some (WithDetails ErrSessionValidation (Join violations "; "))
  end.

Definition entry_size (kv : string * string) : Z := slen (fst kv) + slen (snd kv).
Definition DataSize (s : Session) : Z :=
  match Data s with
  | None => 0
  | Some d => foldr (fun kv n => entry_size kv + n) 0 (map_to_list d)
  end.

Definition SetExpiration {S} (ttl : Z) (s : Session) : M S Session :=
  t <- time_now ;;
  ret (set_expiry (unix_milli (t + ttl)) (Z.quot ttl 1000000) s).

Definition ExtendExpiration (extension : Z) (s : Session) : Session :=
  if 0 <? ExpiresAt s
  then set_expiry (i64 (ExpiresAt s + Z.quot extension 1000000)) (TTL s) s
  else s.

(** A deep copy; values do not alias, so it is the identity of the model. *)
Definition Clone (s : Session) : Session :=
  MkSession (ID s) (UserID s) (TokenHash s) (IPAddress s) (UserAgent s) (LastAccessIP s)
    (LastAccessUA s) (DeviceID s) (CreatedBy s) (CreatedAt s) (ExpiresAt s) (LastActive s)
    (Data s) (Version s) (ShardID s) (TTL s) (IsDeleted s).

Definition IsValidSessionID `{UlidLib} (id : string) : bool :=
  let id := ToLower id in
  if negb (HasPrefix id SessionIDPrefix) then false
  else if negb (slen id =? 31) then false
  else ulid_parse (ToUpper (from (String.length SessionIDPrefix) id)).

Definition NormalizeSessionID `{UlidLib} (id : string) : string :=
  let normalized := ToLower id in
  if IsValidSessionID normalized then normalized else "".

(** ** Facts *)
Lemma Clone_id (s : Session) : Clone s = s.
Proof. destruct s; reflexivity. Qed.

Lemma preserves_IsExpired {S} (I : S -> Prop) s : preserves I (IsExpired s).
Proof. unfold IsExpired; preserves_tac. Qed.
Lemma preserves_Touch {S} (I : S -> Prop) ip ua s : preserves I (Touch ip ua s).
Proof. unfold Touch; preserves_tac. Qed.
Lemma preserves_SetExpiration {S} (I : S -> Prop) ttl s : preserves I (SetExpiration ttl s).
Proof. unfold SetExpiration; preserves_tac. Qed.
Lemma preserves_NewSession {S} (I : S -> Prop) u : preserves I (NewSession u).
Proof. unfold NewSession, GenerateSessionID; preserves_tac. Qed.
#[export] Hint Resolve preserves_IsExpired preserves_Touch preserves_SetExpiration
  preserves_NewSession : go.

Lemma advances_IsExpired {S} s : advances (S := S) (IsExpired s).
Proof. unfold IsExpired; advances_tac. Qed.
Lemma advances_Touch {S} ip ua s : advances (S := S) (Touch ip ua s).
Proof. unfold Touch; advances_tac. Qed.
#[export] Hint Resolve advances_IsExpired advances_Touch : go.

(** [IsExpired] leaves the state alone and answers [expired_at] of the clock. *)
Lemma IsExpired_run {S} (s : Session) (st : S) (e : env) :
  exists e', IsExpired s st e = (expired_at (unix_milli (clk e 0%nat)) s, st, e').
Proof.
  unfold IsExpired, expired_at; destruct (ExpiresAt s =? 0); simpl; eauto.
Qed.

(** The constraints [Validate] enforces. *)
Definition data_ok (l : list (string * string)) (total : Z) : Prop :=
  Forall (fun kv => slen (fst kv) <= MaxDataKeyLength /\
                    slen (snd kv) <= MaxDataValueLength) l /\
  total + foldr (fun kv n => entry_size kv + n) 0 l <= MaxDataTotalSize.

Definition session_ok (s : Session) : Prop :=
  UserID s <> "" /\ slen (UserID s) <= MaxUserIDLength /\
  slen (IPAddress s) <= MaxIPAddressLength /\
  slen (UserAgent s) <= MaxUserAgentLength /\
  slen (DeviceID s) <= MaxDeviceIDLength /\
  match Data s with None => True | Some d => data_ok (map_to_list d) 0 end.

Lemma validate_entries_ok (l : list (string * string)) (total : Z) :
  validate_entries l total = None <-> data_ok l total.
Proof.
  unfold data_ok; revert total; induction l as [|[k v] l IH]; intros total; simpl.
  - destruct (Z.ltb_spec MaxDataTotalSize total); split; intros H'; try discriminate;
      repeat split; try constructor; lia.
  - rewrite Forall_cons; simpl; unfold entry_size at 1; simpl.
    destruct (Z.ltb_spec MaxDataKeyLength (slen k));
      [split; [discriminate|lia]|].
    destruct (Z.ltb_spec MaxDataValueLength (slen v));
      [split; [discriminate|lia]|].
    rewrite IH; split; intros [HF Hs]; (split; [tauto || split; tauto|lia]).
Qed.

(** The order in which Go enumerates the map does not change the verdict. *)
Lemma validate_entries_perm (l l' : list (string * string)) (total : Z) :
  l ≡ₚ l' -> (validate_entries l total = None <-> validate_entries l' total = None).
Proof.
  intros Hp; rewrite !validate_entries_ok; unfold data_ok.
  assert (foldr (fun kv n => entry_size kv + n) 0 l =
          foldr (fun kv n => entry_size kv + n) 0 l') as ->.
  { induction Hp; simpl; try lia; congruence. }
  by rewrite Hp.
Qed.

Lemma ltb_nil {A} (a b : Z) (x : A) :
  (if a <? b then [x] else []) = [] <-> b <= a.
Proof. destruct (Z.ltb_spec a b); split; intros; try discriminate; auto; lia. Qed.

Lemma Validate_nil (s : Session) : Validate s = None <-> session_ok s.
Proof.
  unfold Validate, session_ok.
  match goal with |- context [match ?l with [] => None | _ => _ end] =>
    transitivity (l = []); [destruct l; split; intros; congruence|] end.
  rewrite !app_nil, !ltb_nil.
  assert ((if String.eqb (UserID s) "" then ["user_id is required"] else []) = [] <->
          UserID s <> "") as ->.
  { destruct (String.eqb_spec (UserID s) ""); split; intros; congruence. }
  assert (match validateData s with Some err => [Error err] | None => [] end = [] <->
          match Data s with None => True | Some d => data_ok (map_to_list d) 0 end) as ->;
    [|tauto].
  unfold validateData; destruct (Data s) as [d|]; [|tauto].
  rewrite <- validate_entries_ok.
  destruct (validate_entries _ _); split; intros; congruence.
Qed.

(** ** Properties *)

(** [Validate] accepts a session exactly when every documented bound
    holds (user id present and at most 128 bytes, address 45, agent 512,
    device 128, data keys 64, values 1024, 4096 in total), whatever order the
    data map is enumerated in; a refusal carries the code TM-SESS-4001. *)
Theorem Validate_characterised (s : Session) (order : list (string * string))
    (Horder : match Data s with Some d => order ≡ₚ map_to_list d | None => order = [] end) :
  (Validate s = None <->
     UserID s <> "" /\ slen (UserID s) <= 128 /\ slen (IPAddress s) <= 45 /\
     slen (UserAgent s) <= 512 /\ slen (DeviceID s) <= 128 /\
     validate_entries order 0 = None) /\
  (validate_entries order 0 = None <-> data_ok order 0) /\
  (forall err, Validate s = Some err -> GetErrorCode err = "TM-SESS-4001").
Proof.
  split; [|split; [apply validate_entries_ok|]].
  - rewrite Validate_nil; unfold session_ok.
    assert (match Data s with None => True | Some d => data_ok (map_to_list d) 0 end <->
            validate_entries order 0 = None) as ->; [|reflexivity].
    destruct (Data s) as [d|].
    + by rewrite <- validate_entries_ok, (validate_entries_perm _ _ 0 Horder).
    + by rewrite Horder.
  - intros err; unfold Validate.
    match goal with |- context [match ?l with [] => None | _ => _ end] => destruct l end;
      intros; simplify_eq; reflexivity.
Qed.

(** Identifier normalisation: it yields a lower-case 31-byte id that is valid,
    exactly for the strings [IsValidSessionID] accepts, and is idempotent. *)
Theorem NormalizeSessionID_spec `{UlidLib} (id : string) :
  (NormalizeSessionID id <> "" <-> IsValidSessionID id = true) /\
  NormalizeSessionID (NormalizeSessionID id) = NormalizeSessionID id /\
  (IsValidSessionID id = true ->
     NormalizeSessionID id = ToLower id /\ IsValidSessionID (NormalizeSessionID id) = true /\
     slen (NormalizeSessionID id) = 31).
Proof.
  assert (IsValidSessionID (ToLower id) = IsValidSessionID id) as He
    by (unfold IsValidSessionID; by rewrite ToLower_idem).
  assert (IsValidSessionID id = true -> slen (ToLower id) = 31) as Hl.
  { unfold IsValidSessionID; destruct (HasPrefix _ _); [|discriminate]; simpl.
    destruct (Z.eqb_spec (slen (ToLower id)) 31); [auto|discriminate]. }
  unfold NormalizeSessionID; rewrite He.
  destruct (IsValidSessionID id) eqn:Hv.
  - specialize (Hl eq_refl); rewrite ToLower_idem, He.
    repeat split; auto. intros _ E; rewrite E in Hl; discriminate.
  - repeat split; auto; try discriminate; congruence.
Qed.

Lemma Validate_characterised_witness :
  let s := MkSession "tmss-1" "u" "" "" "" "" "" "" "" 0 0 0 (Some {["k" := "v"]}) 1 0 0 false in
  Validate s = None <->
    UserID s <> "" /\ slen (UserID s) <= 128 /\ slen (IPAddress s) <= 45 /\
    slen (UserAgent s) <= 512 /\ slen (DeviceID s) <= 128 /\ validate_entries [("k", "v")] 0 = None.
Proof.
  cbv zeta; apply (Validate_characterised
    (MkSession "tmss-1" "u" "" "" "" "" "" "" "" 0 0 0 (Some {["k" := "v"]}) 1 0 0 false) [("k", "v")]).
  vm_compute; apply Permutation_refl.
Defined.
