(* ===== verification/APIKey.v ===== *)
(** API keys: [internal/core/domain/apikey.go].

    Roles and the permission matrix, the key entity with its rotation grace
    period, secret hashing and validation.  Argon2id is the third-party
    function [argon2.IDKey], an argument of the definitions that call it. *)

From Stdlib Require Import Ascii String.
From stdpp Require Import list strings gmap fin_maps.
From S2P Require Import Prelude Errors GoStrings Encoding Token Session.

Open Scope string_scope.
Open Scope Z_scope.

Definition APIKeyIDPrefix : string := "tmak-".
Definition APIKeySecretPrefix : string := "tmas_".
Definition Argon2Memory : Z := 16384.
Definition Argon2Time : Z := 2.
Definition Argon2Parallelism : Z := 2.
Definition Argon2KeyLen : Z := 32.
Definition Argon2SaltLen : nat := 16.
Definition SecretLength : nat := 32.
Definition MaxAllowlistEntries : Z := 100.
Definition MaxDescriptionLength : Z := 256.
Definition MinRateLimit : Z := 1.
Definition MaxRateLimit : Z := 1000000.
(** 24 hours, in nanoseconds. *)
Definition GracePeriodDuration : Z := 24 * 3600 * 1000000000.

(** [argon2.IDKey(password, salt, time, memory, threads, keyLen)]. *)
Class Argon2Lib := argon2_IDKey : bytes -> bytes -> Z -> Z -> Z -> Z -> bytes.

(** ** Roles and permissions; both are string types in the source. *)
Definition RoleMetrics : string := "metrics".
Definition RoleValidator : string := "validator".
Definition RoleIssuer : string := "issuer".
Definition RoleAdmin : string := "admin".

Definition ValidRoles : list string := [RoleMetrics; RoleValidator; RoleIssuer; RoleAdmin].
Definition IsValidRole (r : string) : bool :=
  String.eqb r RoleMetrics || String.eqb r RoleValidator ||
  String.eqb r RoleIssuer || String.eqb r RoleAdmin.

Definition KeyStatusActive : string := "active".
Definition KeyStatusDisabled : string := "disabled".
Definition ValidKeyStatuses : list string := [KeyStatusActive; KeyStatusDisabled].
Definition IsValidKeyStatus (s : string) : bool :=
  String.eqb s KeyStatusActive || String.eqb s KeyStatusDisabled.

Definition PermSessionCreate := "session.create".
Definition PermSessionRead := "session.read".
Definition PermSessionRenew := "session.renew".
Definition PermSessionRevoke := "session.revoke".
Definition PermSessionRevokeAll := "session.revoke_all".
Definition PermSessionList := "session.list".
Definition PermTokenValidate := "token.validate".
Definition PermAPIKeyCreate := "apikey.create".
Definition PermAPIKeyRead := "apikey.read".
Definition PermAPIKeyList := "apikey.list".
Definition PermAPIKeyDisable := "apikey.disable".
Definition PermAPIKeyEnable := "apikey.enable".
Definition PermAPIKeyRotate := "apikey.rotate".
Definition PermSystemStatus := "system.status".
Definition PermSystemHealth := "system.health".
Definition PermSystemGC := "system.gc".
Definition PermSystemBackup := "system.backup".
Definition PermSystemRestore := "system.restore".
Definition PermSystemConfig := "system.config".
Definition PermMetricsRead := "metrics.read".

Definition rolePermissions : gmap string (list string) := list_to_map [
  (RoleMetrics, [PermMetricsRead]);
  (RoleValidator, [PermTokenValidate; PermSessionRead; PermSessionList; PermMetricsRead]);
  (RoleIssuer, [PermTokenValidate; PermSessionCreate; PermSessionRead; PermSessionRenew;
     PermSessionRevoke; PermSessionList; PermMetricsRead]);
  (RoleAdmin, [PermSessionCreate; PermSessionRead; PermSessionRenew; PermSessionRevoke;
     PermSessionRevokeAll; PermSessionList; PermTokenValidate; PermAPIKeyCreate;
     PermAPIKeyRead; PermAPIKeyList; PermAPIKeyDisable; PermAPIKeyEnable; PermAPIKeyRotate;
     PermSystemStatus; PermSystemHealth; PermSystemGC; PermSystemBackup; PermSystemRestore;
     PermSystemConfig; PermMetricsRead])].

Definition HasPermission (role perm : string) : bool :=
  match rolePermissions !! role with
  | None => false
  | Some permissions => existsb (fun p => String.eqb p perm) permissions
  end.

Definition HasPermissionString (role action : string) : bool := HasPermission role action.

Definition GetPermissions (role : string) : list string :=
  match rolePermissions !! role with Some permissions => permissions | None => [] end.

Definition RoleHierarchy (role : string) : Z :=
  if String.eqb role RoleMetrics then 1
  else if String.eqb role RoleValidator then 2
  else if String.eqb role RoleIssuer then 3
  else if String.eqb role RoleAdmin then 4
  else 0.

Definition IsRoleAtLeast (role required : string) : bool :=
  RoleHierarchy required <=? RoleHierarchy role.

Definition IsValidAPIKeyID `{UlidLib} (id : string) : bool :=
  let id := ToLower id in
  if negb (HasPrefix id APIKeyIDPrefix) then false
  else if negb (slen id =? 31) then false
  else ulid_parse (ToUpper (from (String.length APIKeyIDPrefix) id)).

Definition NormalizeAPIKeyID `{UlidLib} (id : string) : string :=
  let normalized := ToLower id in
  if IsValidAPIKeyID normalized then normalized else "".

Definition MaskAPIKeySecret (secret : string) : string :=
  if slen secret <? 10 then redacted
  else if HasPrefix secret APIKeySecretPrefix then mask_body secret
  else redacted.

(** ** The key entity *)
Record APIKey := MkAPIKey {
  KeyID : string;
  Name : string;
  SecretHash : string;
  OldSecretHash : string;
  GracePeriodEnd : Z;
  Role : string;
  Allowlist : list string;
  RateLimit : Z;
  ExpiresAt : Z;
  Status : string;
  Description : string;
  CreatedAt : Z;
  CreatedBy : string;
  LastUsed : Z;
  Version : Z;
}.

Definition set_secrets (cur old : string) (grace : Z) (k : APIKey) : APIKey :=
  MkAPIKey (KeyID k) (Name k) cur old grace (Role k) (Allowlist k) (RateLimit k)
    (ExpiresAt k) (Status k) (Description k) (CreatedAt k) (CreatedBy k) (LastUsed k)
    (Version k).
Definition set_Status (st : string) (k : APIKey) : APIKey :=
  MkAPIKey (KeyID k) (Name k) (SecretHash k) (OldSecretHash k) (GracePeriodEnd k) (Role k)
    (Allowlist k) (RateLimit k) (ExpiresAt k) st (Description k) (CreatedAt k) (CreatedBy k)
    (LastUsed k) (Version k).
Definition set_Description (d : string) (k : APIKey) : APIKey :=
  MkAPIKey (KeyID k) (Name k) (SecretHash k) (OldSecretHash k) (GracePeriodEnd k) (Role k)
    (Allowlist k) (RateLimit k) (ExpiresAt k) (Status k) d (CreatedAt k) (CreatedBy k)
    (LastUsed k) (Version k).
Definition set_LastUsed (t : Z) (k : APIKey) : APIKey :=
  MkAPIKey (KeyID k) (Name k) (SecretHash k) (OldSecretHash k) (GracePeriodEnd k) (Role k)
    (Allowlist k) (RateLimit k) (ExpiresAt k) (Status k) (Description k) (CreatedAt k)
    (CreatedBy k) t (Version k).
Definition set_Version (v : Z) (k : APIKey) : APIKey :=
  MkAPIKey (KeyID k) (Name k) (SecretHash k) (OldSecretHash k) (GracePeriodEnd k) (Role k)
    (Allowlist k) (RateLimit k) (ExpiresAt k) (Status k) (Description k) (CreatedAt k)
    (CreatedBy k) (LastUsed k) v.

(** The encoded form of a salt and a key, [$argon2id$v=19$...$<salt>$<hash>]. *)
Definition argon2_prefix : string := "$argon2id$v=19$m=16384,t=2,p=2$".
Definition encode_hash (salt hash : bytes) : string :=
  argon2_prefix +:+ b64std_encode salt +:+ "$" +:+ b64std_encode hash.

Definition hashSecret `{Argon2Lib} {S} (secret : string) : M S (Res string) :=
  salt <-? rand_read Argon2SaltLen ;;
  let hash := argon2_IDKey (to_bytes secret) salt Argon2Time Argon2Memory
                Argon2Parallelism Argon2KeyLen in
  ret (Ok (encode_hash salt hash)).

Definition NewAPIKey `{Argon2Lib} {S} (name role : string) : M S (Res (APIKey * string)) :=
  id <- ulid_new ;;
  match id with
  | Err err => ret (Err (WithCause ErrInternalServer err))
  | Ok id =>
    let keyID := APIKeyIDPrefix +:+ ToLower id in
    r <- rand_read SecretLength ;;
    match r with
    | Err err => ret (Err (WithCause ErrInternalServer err))
    | Ok secretBytes =>
      let plainSecret := APIKeySecretPrefix +:+ b64url_encode secretBytes in
      h <- hashSecret plainSecret ;;
      match h with
      | Err err => ret (Err (WithCause ErrInternalServer err))
      | Ok secretHash =>
        now <- now_milli ;;
        ret (Ok (MkAPIKey keyID name secretHash "" 0 role [] 1000 0 KeyStatusActive "" now
                   "" 0 1, plainSecret))
      end
    end
  end.

Definition IsExpired {S} (k : APIKey) : M S bool :=
  if ExpiresAt k =? 0 then ret false
  else now <- now_milli ;; ret (ExpiresAt k <? now).

Definition IsActive {S} (k : APIKey) : M S bool :=
  if String.eqb (Status k) KeyStatusActive
  then expired <- IsExpired k ;; ret (negb expired)
  else ret false.

Definition IsInGracePeriod {S} (k : APIKey) : M S bool :=
  if (GracePeriodEnd k =? 0) || String.eqb (OldSecretHash k) "" then ret false
  else now <- now_milli ;; ret (now <? GracePeriodEnd k).

Definition Touch {S} (k : APIKey) : M S APIKey :=
  now <- now_milli ;; ret (set_LastUsed now k).

Definition IncrVersion (k : APIKey) : APIKey := set_Version (u64 (Version k + 1)) k.

(** Returns the rotated key and the new plaintext secret. *)
Definition RotateSecret `{Argon2Lib} {S} (k : APIKey) : M S (Res (APIKey * string)) :=
  r <- rand_read SecretLength ;;
  match r with
  | Err err => ret (Err (WithCause ErrInternalServer err))
  | Ok secretBytes =>
    let newSecret := APIKeySecretPrefix +:+ b64url_encode secretBytes in
    h <- hashSecret newSecret ;;
    match h with
    | Err err => ret (Err (WithCause ErrInternalServer err))
    | Ok newHash =>
      now <- now_milli ;;
      let k' := set_secrets newHash (SecretHash k)
                  (i64 (now + Z.quot GracePeriodDuration 1000000)) k in
      ret (Ok (IncrVersion k', newSecret))
    end
  end.

Definition Validate `{UlidLib} (k : APIKey) : option error :=
  let violations :=
    ((if String.eqb (KeyID k) "" then ["key_id is required"]
      else if negb (IsValidAPIKeyID (KeyID k)) then ["key_id format invalid"] else []) ++
     (if String.eqb (SecretHash k) "" then ["secret_hash is required"] else []) ++
     (if negb (IsValidRole (Role k)) then ["invalid role"] else []) ++
     (if negb (IsValidKeyStatus (Status k)) then ["invalid status"] else []) ++
     (if MaxAllowlistEntries <? llen (Allowlist k)
      then ["allowlist exceeds 100 entries"] else []) ++
     (if (RateLimit k <? MinRateLimit) || (MaxRateLimit <? RateLimit k)
      then ["rate_limit must be between 1 and 1,000,000"] else []) ++
     (if MaxDescriptionLength <? slen (Description k)
      then ["description exceeds 256 characters"] else []))%list in
  match violations with
  | [] => None
  | _ => Some (WithDetails ErrAPIKeyValidation (Join violations "; "))
  end.

(** A deep copy; the identity of the model. *)
Definition Clone (k : APIKey) : APIKey :=
  MkAPIKey (KeyID k) (Name k) (SecretHash k) (OldSecretHash k) (GracePeriodEnd k) (Role k)
    (Allowlist k) (RateLimit k) (ExpiresAt k) (Status k) (Description k) (CreatedAt k)
    (CreatedBy k) (LastUsed k) (Version k).

(** ** Facts *)
Lemma Clone_key_id (k : APIKey) : Clone k = k.
Proof. destruct k; reflexivity. Qed.

Lemma preserves_key_IsExpired {S} (I : S -> Prop) k : preserves I (IsExpired k).
Proof. unfold IsExpired; preserves_tac. Qed.
#[export] Hint Resolve preserves_key_IsExpired : go.
Lemma preserves_IsActive {S} (I : S -> Prop) k : preserves I (IsActive k).
Proof. unfold IsActive; preserves_tac. Qed.
Lemma preserves_IsInGracePeriod {S} (I : S -> Prop) k : preserves I (IsInGracePeriod k).
Proof. unfold IsInGracePeriod; preserves_tac. Qed.
Lemma preserves_key_Touch {S} (I : S -> Prop) k : preserves I (Touch k).
Proof. unfold Touch; preserves_tac. Qed.
#[export] Hint Resolve preserves_IsActive preserves_IsInGracePeriod preserves_key_Touch : go.

Lemma existsb_eqb (l : list string) (x : string) :
  existsb (fun p => String.eqb p x) l = true <-> In x l.
Proof.
  rewrite existsb_exists; split.
  - intros (y & Hy & ->%String.eqb_eq); auto.
  - intros; exists x; rewrite String.eqb_refl; auto.
Qed.

(** The role-permission table has exactly the four roles. *)
Lemma rolePermissions_lookup (role : string) :
  rolePermissions !! role =
    if String.eqb role RoleMetrics then rolePermissions !! RoleMetrics
    else if String.eqb role RoleValidator then rolePermissions !! RoleValidator
    else if String.eqb role RoleIssuer then rolePermissions !! RoleIssuer
    else if String.eqb role RoleAdmin then rolePermissions !! RoleAdmin
    else None.
Proof.
  repeat match goal with
  | |- context [if String.eqb ?a ?b then _ else _] =>
      destruct (String.eqb_spec a b) as [->|]; [reflexivity|]
  end.
  unfold rolePermissions; cbn [list_to_map foldr uncurry].
  by rewrite !lookup_insert_ne by (apply not_eq_sym; assumption).
Qed.

(** The checks accept what the lists name. *)
Lemma IsValidRole_In r : IsValidRole r = true <-> r ∈ ValidRoles.
Proof.
  unfold IsValidRole, ValidRoles; rewrite !orb_true_iff, !String.eqb_eq, !elem_of_cons, elem_of_nil; tauto.
Qed.
Lemma IsValidKeyStatus_In s : IsValidKeyStatus s = true <-> s ∈ ValidKeyStatuses.
Proof.
  unfold IsValidKeyStatus, ValidKeyStatuses; rewrite orb_true_iff, !String.eqb_eq, !elem_of_cons, elem_of_nil; tauto.
Qed.

Lemma HasPermission_In (role perm : string) :
  HasPermission role perm = true <-> In perm (GetPermissions role).
Proof.
  unfold HasPermission, GetPermissions; destruct (rolePermissions !! role).
  - apply existsb_eqb.
  - simpl; intuition discriminate.
Qed.

Lemma HasPermission_role (perm r : string) :
  HasPermission r perm = true ->
  r = RoleMetrics \/ r = RoleValidator \/ r = RoleIssuer \/ r = RoleAdmin.
Proof.
  unfold HasPermission; rewrite rolePermissions_lookup.
  repeat match goal with
  | |- context [if String.eqb ?a ?b then _ else _] =>
      destruct (String.eqb_spec a b); [auto|]
  end.
  discriminate.
Qed.

Lemma incl_b (l l' : list string) :
  forallb (fun p => existsb (fun q => String.eqb q p) l') l = true -> incl l l'.
Proof.
  rewrite forallb_forall; intros H x Hx; apply existsb_eqb, H, Hx.
Qed.

(** ** Properties *)

(** Higher roles inherit every permission of lower ones; a string that is not a
    role has none; only the administrator holds the key-management, system and
    bulk-revocation permissions, and it holds every permission of the table. *)
Theorem permissions_monotone (role required perm : string)
    (Hat : IsRoleAtLeast role required = true)
    (Hperm : HasPermission required perm = true) :
  HasPermission role perm = true /\ HasPermission RoleAdmin perm = true /\
  IsValidRole role = true /\
  (In perm [PermSessionRevokeAll; PermAPIKeyCreate; PermAPIKeyRead; PermAPIKeyList;
            PermAPIKeyDisable; PermAPIKeyEnable; PermAPIKeyRotate; PermSystemStatus;
            PermSystemHealth; PermSystemGC; PermSystemBackup; PermSystemRestore;
            PermSystemConfig] -> role = RoleAdmin).
Proof.
  assert (forall r, HasPermission r perm = true ->
            r = RoleMetrics \/ r = RoleValidator \/ r = RoleIssuer \/ r = RoleAdmin) as Hrole
    by exact (HasPermission_role perm).
  apply HasPermission_In in Hperm as Hin.
  assert (In role [RoleMetrics; RoleValidator; RoleIssuer; RoleAdmin] /\
          incl (GetPermissions required) (GetPermissions role)) as [Hr Hincl].
  { destruct (Hrole _ Hperm) as [->|[->|[->| ->]]];
      unfold IsRoleAtLeast, RoleHierarchy in Hat;
      repeat match type of Hat with
      | context [if String.eqb ?a ?b then _ else _] =>
          destruct (String.eqb_spec a b) as [->|]; simpl in Hat
      end; try discriminate; (split; [simpl; tauto|]); apply incl_b; vm_compute; reflexivity. }
  assert (HasPermission role perm = true) as Hp.
  { apply HasPermission_In, Hincl, Hin. }
  assert (incl (GetPermissions role) (GetPermissions RoleAdmin)) as Ha.
  { simpl in Hr; decompose [or] Hr; subst; try contradiction; apply incl_b;
      vm_compute; reflexivity. }
  repeat split.
  - exact Hp.
  - apply HasPermission_In, Ha, Hincl, Hin.
  - simpl in Hr; decompose [or] Hr; subst; try contradiction; reflexivity.
  - simpl in Hr; decompose [or] Hr; subst; try contradiction; auto;
      intros Hadm; exfalso; simpl in Hadm;
      decompose [or] Hadm; subst; try contradiction; vm_compute in Hp; discriminate.
Qed.

Lemma permissions_monotone_witness :
  HasPermission RoleIssuer PermSessionRead = true /\
  HasPermission RoleAdmin PermSessionRead = true /\ IsValidRole RoleIssuer = true.
Proof.
  destruct (permissions_monotone RoleIssuer RoleValidator PermSessionRead
              ltac:(vm_compute; reflexivity) ltac:(vm_compute; reflexivity))
    as (H1 & H2 & H3 & _).
  auto.
Defined.
