(* ===== verification/CMap.v ===== *)
(** The sharded concurrent map: [pkg/cmap] ([sharded.go], [iter.go]).

    A map is a slice of shards, each a Go map behind its own lock; a key lives
    in the shard its (seeded) hash selects.  Every method below runs under the
    lock of one shard, or of one shard at a time, so a method is one atomic
    step.  [to_gmap] is the abstract map a sharded map stands for, and the
    theorems show that every operation refines the one on the abstract map;
    the stores built on [cmap] are modelled on that abstract map. *)

From Stdlib Require Import Ascii String.
From stdpp Require Import list strings gmap fin_maps.
From S2P Require Import Prelude.

Open Scope Z_scope.

Definition DefaultShardCount : Z := 16.

(** The power-of-two test of [NewWithShards]. *)
Lemma land_pred_pow2 (n : Z) :
  0 < n -> Z.land n (n - 1) = 0 -> exists p : nat, n = 2 ^ Z.of_nat p.
Proof.
  intros Hn Hl; exists (Z.to_nat (Z.log2 n)).
  pose proof (Z.log2_nonneg n); rewrite Z2Nat.id by auto.
  pose proof (Z.log2_spec n Hn) as [Hlo Hhi].
  destruct (Z.eq_dec n (2 ^ Z.log2 n)) as [|Hne]; [auto|exfalso].
  assert (Z.log2 (n - 1) = Z.log2 n) as E by (apply Z.log2_unique; lia).
  assert (Z.testbit (Z.land n (n - 1)) (Z.log2 n) = true) as Hb.
  { rewrite Z.land_spec, Z.bit_log2 by lia; rewrite <- E; apply Z.bit_log2.
    assert (0 < 2 ^ Z.log2 n) by (apply Z.pow_pos_nonneg; lia); lia. }
  rewrite Hl, Z.bits_0 in Hb; discriminate.
Qed.

Section CMap.
Context {K V : Type} `{Countable K}.
(** [maphash] of the printed key under the map's seed, a 64-bit word. *)
Context (hash : K -> Z).

Record Map := MkMap { shards : list (gmap K V); shardMask : Z }.

Definition NewWithShards (shardCount : Z) : Map :=
  let n := if (shardCount <=? 0) || negb (Z.land shardCount (shardCount - 1) =? 0)
           then DefaultShardCount else shardCount in
  MkMap (repeat ∅ (Z.to_nat n)) (n - 1).
Definition New : Map := NewWithShards DefaultShardCount.

Definition shard_index (m : Map) (key : K) : nat :=
  Z.to_nat (Z.land (hash key) (shardMask m)).
Definition getShard (m : Map) (key : K) : gmap K V :=
  default ∅ (shards m !! shard_index m key).
Definition putShard (m : Map) (key : K) (items : gmap K V) : Map :=
  MkMap (<[shard_index m key := items]> (shards m)) (shardMask m).

Definition Get (m : Map) (key : K) : option V := getShard m key !! key.
Definition Set_ (m : Map) (key : K) (value : V) : Map :=
  putShard m key (<[key := value]> (getShard m key)).
Definition Delete (m : Map) (key : K) : Map :=
  putShard m key (delete key (getShard m key)).
Definition Has (m : Map) (key : K) : bool :=
  match Get m key with Some _ => true | None => false end.
Definition Count (m : Map) : Z :=
  fold_left (fun count items => count + Z.of_nat (size items)) (shards m) 0.
Definition Clear (m : Map) : Map :=
  MkMap (map (fun _ => ∅) (shards m)) (shardMask m).

(** Iteration visits the shards in order, and the entries of a shard in an
    order Go leaves open; [map_to_list] is one such order. *)
Definition entries (m : Map) : list (K * V) := mjoin (map_to_list <$> shards m).

(** [Range]: the callback works on a state and returns [false] to stop. *)
Fixpoint range_list {S} (l : list (K * V)) (fn : K -> V -> S -> bool * S) (s : S) : S :=
  match l with
  | [] => s
  | (k, v) :: l' =>
      match fn k v s with
      | (true, s') => range_list l' fn s'
      | (false, s') => s'
      end
  end.
Definition Range {S} (m : Map) (fn : K -> V -> S -> bool * S) (s : S) : S :=
  range_list (entries m) fn s.
Definition Keys (m : Map) : list K :=
  Range m (fun k _ keys => (true, keys ++ [k])) [].
Definition Values (m : Map) : list V :=
  Range m (fun _ v values => (true, values ++ [v])) [].
Definition Items (m : Map) : list (K * V) :=
  Range m (fun k v items => (true, items ++ [(k, v)])) [].

Definition GetOrSet (m : Map) (key : K) (value : V) : (V * bool) * Map :=
  match getShard m key !! key with
  | Some existing => ((existing, true), m)
  | None => ((value, false), putShard m key (<[key := value]> (getShard m key)))
  end.
Definition Update (m : Map) (key : K) (fn : option V -> V) : V * Map :=
  let newValue := fn (getShard m key !! key) in
  (newValue, putShard m key (<[key := newValue]> (getShard m key))).
Definition SetIfAbsent (m : Map) (key : K) (value : V) : bool * Map :=
  match getShard m key !! key with
  | Some _ => (false, m)
  | None => (true, putShard m key (<[key := value]> (getShard m key)))
  end.
Definition SetIfPresent (m : Map) (key : K) (value : V) : bool * Map :=
  match getShard m key !! key with
  | None => (false, m)
  | Some _ => (true, putShard m key (<[key := value]> (getShard m key)))
  end.
Definition Pop (m : Map) (key : K) : option V * Map :=
  match getShard m key !! key with
  | Some val => (Some val, putShard m key (delete key (getShard m key)))
  | None => (None, m)
  end.
Definition Upsert (m : Map) (key : K) (value : V) (fn : V -> bool -> V) : V * Map :=
  let value' := match getShard m key !! key with
                | Some existing => fn existing true
                | None => fn value false
                end in
  (value', putShard m key (<[key := value']> (getShard m key))).

Section Versioned.
(** The [Versioned] interface of the values. *)
Context (GetVersion : V -> Z) (SetVersion : Z -> V -> V).

Definition CompareAndSwap (m : Map) (key : K) (expectedVersion : Z) (newValue : V)
    : bool * Map :=
  match getShard m key !! key with
  | None => (false, m)
  | Some current =>
      if negb (GetVersion current =? expectedVersion) then (false, m)
      else (true, putShard m key
              (<[key := SetVersion (u64 (expectedVersion + 1)) newValue]> (getShard m key)))
  end.
Definition CompareAndDelete (m : Map) (key : K) (expectedVersion : Z) : bool * Map :=
  match getShard m key !! key with
  | None => (false, m)
  | Some current =>
      if negb (GetVersion current =? expectedVersion) then (false, m)
      else (true, putShard m key (delete key (getShard m key)))
  end.
End Versioned.

Definition ShardCount (m : Map) : Z := llen (shards m).
Definition Stats (m : Map) : list (Z * Z) :=
  imap (fun i items => (Z.of_nat i, Z.of_nat (size items))) (shards m).

(** [RangeWithLimit]; the counter is only raised by a callback that answers
    [true]. *)
Fixpoint range_limit {S} (l : list (K * V)) (limit count : Z)
    (fn : K -> V -> S -> bool * S) (s : S) : Z * S :=
  match l with
  | [] => (count, s)
  | (k, v) :: l' =>
      if limit <=? count then (count, s)
      else match fn k v s with
           | (false, s') => (count, s')
           | (true, s') => range_limit l' limit (count + 1) fn s'
           end
  end.
Definition RangeWithLimit {S} (m : Map) (limit : Z) (fn : K -> V -> S -> bool * S) (s : S)
    : Z * S := range_limit (entries m) limit 0 fn s.

(** ** The abstract map and the representation invariant *)
Definition to_gmap (m : Map) : gmap K V := foldr (∪) ∅ (shards m).

Record wf (m : Map) : Prop := {
  wf_mask : exists p : nat, shardMask m = 2 ^ Z.of_nat p - 1;
  wf_len : llen (shards m) = shardMask m + 1;
  wf_home : forall i items k, shards m !! i = Some items ->
    is_Some (items !! k) -> shard_index m k = i;
}.

Lemma shard_index_lt (m : Map) (k : K) : wf m -> (shard_index m k < length (shards m))%nat.
Proof.
  intros [[p Hp] Hl _]; unfold shard_index; rewrite Hp.
  replace (2 ^ Z.of_nat p - 1) with (Z.ones (Z.of_nat p)) by (rewrite Z.ones_equiv; lia).
  rewrite Z.land_ones by lia; unfold llen in Hl.
  pose proof (Z.mod_pos_bound (hash k) (2 ^ Z.of_nat p)); lia.
Qed.

Lemma shard_lookup (m : Map) (k : K) :
  wf m -> shards m !! shard_index m k = Some (getShard m k).
Proof.
  intros Hwf; unfold getShard.
  destruct (lookup_lt_is_Some_2 _ _ (shard_index_lt m k Hwf)) as [x Hx]; by rewrite Hx.
Qed.

Lemma lookup_foldr_union (l : list (gmap K V)) (i : nat) (items : gmap K V) (k : K) :
  l !! i = Some items ->
  (forall j items', l !! j = Some items' -> is_Some (items' !! k) -> j = i) ->
  foldr (∪) ∅ l !! k = items !! k.
Proof.
  revert i; induction l as [|x l IH]; intros i Hi Hu; [discriminate|]; simpl.
  rewrite lookup_union; destruct i as [|i]; simpl in Hi.
  - injection Hi as ->.
    assert (foldr (∪) ∅ l !! k = None) as ->; [|by destruct (items !! k)].
    clear IH; assert (forall j items', l !! j = Some items' -> items' !! k = None) as Hn.
    { intros j items' Hj; apply eq_None_not_Some; intros Hs.
      specialize (Hu (S j) items' Hj Hs); discriminate. }
    clear Hu; induction l as [|y l IHl]; simpl; [apply lookup_empty|].
    rewrite lookup_union, (Hn 0%nat y eq_refl), IHl; [reflexivity|].
    intros j; apply (Hn (S j)).
  - assert (x !! k = None) as ->.
    { apply eq_None_not_Some; intros Hs; specialize (Hu 0%nat x eq_refl Hs); discriminate. }
    rewrite left_id by apply _; apply (IH i); [exact Hi|].
    intros j items' Hj Hs; specialize (Hu (S j) items' Hj Hs); lia.
Qed.

(** A key is found in its own shard and nowhere else. *)
Lemma to_gmap_lookup (m : Map) (k : K) : wf m -> to_gmap m !! k = getShard m k !! k.
Proof.
  intros Hwf; unfold to_gmap.
  apply (lookup_foldr_union _ (shard_index m k)); [by apply shard_lookup|].
  intros j items' Hj Hs; symmetry; by apply (wf_home m Hwf j items').
Qed.

Lemma shard_index_put m k items k' : shard_index (putShard m k items) k' = shard_index m k'.
Proof. reflexivity. Qed.

(** Replacing the shard of [k] by one that differs at most at [k]. *)
Lemma wf_putShard (m : Map) (k : K) (items : gmap K V) :
  wf m -> (forall k', k' <> k -> items !! k' = getShard m k !! k') -> wf (putShard m k items).
Proof.
  intros Hwf Hi; pose proof (shard_index_lt m k Hwf) as Hlt; split.
  - exact (wf_mask m Hwf).
  - unfold llen; simpl; rewrite length_insert; exact (wf_len m Hwf).
  - intros i its k' Hl Hs; rewrite shard_index_put; simpl in Hl.
    destruct (decide (i = shard_index m k)) as [->|Hne].
    + rewrite list_lookup_insert_eq in Hl by auto; injection Hl as <-.
      destruct (decide (k' = k)) as [->|Hk]; [reflexivity|].
      rewrite Hi in Hs by auto.
      by apply (wf_home m Hwf _ (getShard m k) k'); [apply shard_lookup|].
    + rewrite list_lookup_insert_ne in Hl by auto; by apply (wf_home m Hwf _ its).
Qed.

Lemma to_gmap_putShard (m : Map) (k : K) (items : gmap K V) (k' : K) :
  wf m -> (forall k', k' <> k -> items !! k' = getShard m k !! k') ->
  to_gmap (putShard m k items) !! k' =
    if decide (k' = k) then items !! k else to_gmap m !! k'.
Proof.
  intros Hwf Hi; pose proof (wf_putShard m k items Hwf Hi) as Hwf'.
  rewrite !to_gmap_lookup by auto; unfold getShard at 1; rewrite shard_index_put; simpl.
  pose proof (shard_index_lt m k Hwf) as Hlt.
  destruct (decide (shard_index m k' = shard_index m k)) as [E|Hne].
  - rewrite E, list_lookup_insert_eq by auto; simpl.
    case_decide; [by subst|]. rewrite Hi by auto; unfold getShard; by rewrite E.
  - rewrite list_lookup_insert_ne by auto.
    case_decide; [subst; contradiction|]. unfold getShard; reflexivity.
Qed.

Lemma put_insert (m : Map) (k : K) (v : V) :
  wf m ->
  wf (putShard m k (<[k := v]> (getShard m k))) /\
  to_gmap (putShard m k (<[k := v]> (getShard m k))) = <[k := v]> (to_gmap m).
Proof.
  intros Hwf; assert (forall k', k' <> k -> <[k := v]> (getShard m k) !! k' = getShard m k !! k')
    as Hi by (intros; by rewrite lookup_insert_ne).
  split; [by apply wf_putShard|].
  apply map_eq; intros k'; rewrite to_gmap_putShard, lookup_insert_eq by auto.
  case_decide; subst; [by rewrite lookup_insert_eq | by rewrite lookup_insert_ne].
Qed.

Lemma put_delete (m : Map) (k : K) :
  wf m ->
  wf (putShard m k (delete k (getShard m k))) /\
  to_gmap (putShard m k (delete k (getShard m k))) = delete k (to_gmap m).
Proof.
  intros Hwf; assert (forall k', k' <> k -> delete k (getShard m k) !! k' = getShard m k !! k')
    as Hi by (intros; by rewrite lookup_delete_ne).
  split; [by apply wf_putShard|].
  apply map_eq; intros k'; rewrite to_gmap_putShard, lookup_delete_eq by auto.
  case_decide; subst; [by rewrite lookup_delete_eq | by rewrite lookup_delete_ne].
Qed.

Lemma map_to_list_disj_union (m1 m2 : gmap K V) :
  m1 ##ₘ m2 -> map_to_list (m1 ∪ m2) ≡ₚ map_to_list m1 ++ map_to_list m2.
Proof.
  induction m1 as [|i x m1 Hi IH] using map_ind; intros Hd.
  - by rewrite (left_id_L ∅ (∪)), map_to_list_empty.
  - apply map_disjoint_insert_l in Hd as [Hi2 Hd].
    rewrite <- insert_union_l, !map_to_list_insert, IH;
      auto; by rewrite lookup_union_None.
Qed.

Lemma entries_perm (m : Map) : wf m -> entries m ≡ₚ map_to_list (to_gmap m).
Proof.
  intros Hwf; unfold entries, to_gmap.
  assert (forall i j a b k, shards m !! i = Some a -> shards m !! j = Some b ->
    is_Some (a !! k) -> is_Some (b !! k) -> i = j) as Hu.
  { intros i j a b k Ha Hb Hsa Hsb.
    rewrite <- (wf_home m Hwf i a k Ha Hsa); by apply (wf_home m Hwf j b k). }
  clear Hwf; revert Hu; generalize (shards m); intros l.
  induction l as [|x l IH]; intros Hu; simpl; [by rewrite map_to_list_empty|].
  rewrite map_to_list_disj_union, IH; [reflexivity| |].
  - intros i j a b k Ha Hb Hsa Hsb.
    specialize (Hu (S i) (S j) a b k Ha Hb Hsa Hsb); lia.
  - apply map_disjoint_spec; intros k v w Hv Hw; clear IH.
    assert (exists j b, l !! j = Some b /\ is_Some (b !! k)) as (j & b & Hj & Hb).
    { clear Hu Hv; induction l as [|y l IHl]; simpl in Hw; [by rewrite lookup_empty in Hw|].
      apply lookup_union_Some_raw in Hw as [Hw|[_ Hw]].
      - by exists 0%nat, y.
      - destruct (IHl Hw) as (j & b & ? & ?); by exists (S j), b. }
    specialize (Hu 0%nat (S j) x b k eq_refl Hj (mk_is_Some _ _ Hv) Hb); discriminate.
Qed.

Lemma Count_entries (m : Map) : Count m = llen (entries m).
Proof.
  unfold Count, entries.
  assert (forall l n, fold_left (fun count (items : gmap K V) => count + Z.of_nat (size items)) l n
            = n + llen (mjoin (map_to_list <$> l))) as Hf.
  { induction l as [|x l IH]; intros n; [unfold llen; simpl; lia|].
    change (mjoin (map_to_list <$> x :: l)) with (map_to_list x ++ mjoin (map_to_list <$> l)).
    cbn [fold_left]; rewrite IH; unfold llen; rewrite length_app, length_map_to_list; lia. }
  rewrite Hf; lia.
Qed.

Lemma range_collect {B} (l : list (K * V)) (f : K -> V -> B) (acc : list B) :
  range_list l (fun k v s => (true, s ++ [f k v])) acc = acc ++ map (fun kv => f kv.1 kv.2) l.
Proof.
  revert acc; induction l as [|[k v] l IH]; intros acc; simpl; [by rewrite app_nil_r|].
  by rewrite IH, <- app_assoc.
Qed.

Lemma Count_size (m : Map) : wf m -> Count m = Z.of_nat (size (to_gmap m)).
Proof. intros Hwf; rewrite Count_entries; unfold llen; by rewrite (entries_perm m Hwf), length_map_to_list. Qed.
Lemma Items_entries (m : Map) : Items m = entries m.
Proof.
  unfold Items, Range; rewrite (range_collect _ (fun k v => (k, v))); simpl.
  rewrite map_ext with (g := id) by (by intros []); apply map_id.
Qed.
Lemma Clear_empty (m : Map) : wf m -> wf (Clear m) /\ to_gmap (Clear m) = ∅.
Proof.
  intros Hwf; split; [split|].
  - exact (wf_mask m Hwf).
  - unfold llen; cbn; rewrite length_map; exact (wf_len m Hwf).
  - cbn; intros i items k Hi [x Hx]; apply list_lookup_fmap_Some in Hi as (y & -> & _); by rewrite lookup_empty in Hx.
  - unfold to_gmap; cbn; induction (shards m) as [|x l IH]; cbn; [done|]; by rewrite IH, (left_id_L ∅ (∪)).
Qed.

(** A new map is well formed and empty, with a power-of-two number of shards
    whatever count was asked for. *)
Lemma NewWithShards_empty (n : Z) :
  wf (NewWithShards n) /\ to_gmap (NewWithShards n) = ∅ /\
  ShardCount (NewWithShards n) =
    (if (n <=? 0) || negb (Z.land n (n - 1) =? 0) then 16 else n).
Proof.
  unfold NewWithShards; set (c := if _ || _ then _ else _).
  assert (exists p : nat, c = 2 ^ Z.of_nat p) as [p Hp].
  { subst c; destruct (Z.leb_spec n 0); simpl; [by exists 4%nat|].
    destruct (Z.eqb_spec (Z.land n (n - 1)) 0); simpl; [|by exists 4%nat].
    by apply land_pred_pow2. }
  assert (0 < c) by (rewrite Hp; lia).
  assert (forall k : nat, foldr (∪) ∅ (repeat (∅ : gmap K V) k) = ∅) as He.
  { induction k as [|k IH]; simpl; [reflexivity|]. by rewrite IH, (left_id_L ∅ (∪)). }
  split; [split|split]; simpl.
  - exists p; lia.
  - unfold llen; rewrite repeat_length; lia.
  - intros i items k Hi [x Hx]; apply list_elem_of_lookup_2, list_elem_of_In, repeat_spec in Hi.
    subst; by rewrite lookup_empty in Hx.
  - apply He.
  - unfold ShardCount, llen; simpl; rewrite repeat_length, Z2Nat.id by lia; reflexivity.
Qed.
(** ** Properties *)

(** One call of a method, and its answer. *)
Inductive op :=
  | OpGet (k : K) | OpHas (k : K) | OpSet (k : K) (v : V) | OpDelete (k : K) | OpPop (k : K)
  | OpGetOrSet (k : K) (v : V) | OpUpdate (k : K) (fn : option V -> V)
  | OpUpsert (k : K) (v : V) (fn : V -> bool -> V)
  | OpSetIfAbsent (k : K) (v : V) | OpSetIfPresent (k : K) (v : V)
  | OpCompareAndSwap (k : K) (expected : Z) (v : V) | OpCompareAndDelete (k : K) (expected : Z)
  | OpCount | OpClear.
Inductive answer :=
  | Nothing | Value (v : V) | Lookup (o : option V) | Flag (b : bool) | Flagged (p : V * bool) | Number (n : Z).

Section Sequences.
Context (GetVersion : V -> Z) (SetVersion : Z -> V -> V).

Definition run_op (o : op) (m : Map) : answer * Map :=
  match o with
  | OpGet k => (Lookup (Get m k), m)
  | OpHas k => (Flag (Has m k), m)
  | OpSet k v => (Nothing, Set_ m k v)
  | OpDelete k => (Nothing, Delete m k)
  | OpPop k => prod_map Lookup id (Pop m k)
  | OpGetOrSet k v => prod_map Flagged id (GetOrSet m k v)
  | OpUpdate k fn => prod_map Value id (Update m k fn)
  | OpUpsert k v fn => prod_map Value id (Upsert m k v fn)
  | OpSetIfAbsent k v => prod_map Flag id (SetIfAbsent m k v)
  | OpSetIfPresent k v => prod_map Flag id (SetIfPresent m k v)
  | OpCompareAndSwap k n v => prod_map Flag id (CompareAndSwap GetVersion SetVersion m k n v)
  | OpCompareAndDelete k n => prod_map Flag id (CompareAndDelete GetVersion m k n)
  | OpCount => (Number (Count m), m)
  | OpClear => (Nothing, Clear m)
  end.

(** What the method promises of one finite map. *)
Definition spec_op (o : op) (g : gmap K V) : answer * gmap K V :=
  match o with
  | OpGet k => (Lookup (g !! k), g)
  | OpHas k => (Flag (bool_decide (k ∈ dom g)), g)
  | OpSet k v => (Nothing, <[k := v]> g)
  | OpDelete k => (Nothing, delete k g)
  | OpPop k => (Lookup (g !! k), delete k g)
  | OpGetOrSet k v =>
      (Flagged (default v (g !! k), bool_decide (k ∈ dom g)), <[k := default v (g !! k)]> g)
  | OpUpdate k fn => (Value (fn (g !! k)), <[k := fn (g !! k)]> g)
  | OpUpsert k v fn =>
      let w := from_option (fun x => fn x true) (fn v false) (g !! k) in (Value w, <[k := w]> g)
  | OpSetIfAbsent k v => (Flag (bool_decide (k ∉ dom g)), if decide (k ∈ dom g) then g else <[k := v]> g)
  | OpSetIfPresent k v => (Flag (bool_decide (k ∈ dom g)), if decide (k ∈ dom g) then <[k := v]> g else g)
  | OpCompareAndSwap k n v =>
      if decide (GetVersion <$> g !! k = Some n)
      then (Flag true, <[k := SetVersion (u64 (n + 1)) v]> g) else (Flag false, g)
  | OpCompareAndDelete k n =>
      if decide (GetVersion <$> g !! k = Some n) then (Flag true, delete k g) else (Flag false, g)
  | OpCount => (Number (Z.of_nat (size g)), g)
  | OpClear => (Nothing, ∅)
  end.

(** The calls one after the other, on a map of either kind. *)
Fixpoint run_ops {M} (step : op -> M -> answer * M) (ops : list op) (m : M) : list answer * M :=
  match ops with
  | [] => ([], m)
  | o :: ops => let '(r, m') := step o m in let '(rs, m'') := run_ops step ops m' in (r :: rs, m'')
  end.

Lemma run_op_refines (o : op) (m : Map) :
  wf m -> wf (snd (run_op o m)) /\ spec_op o (to_gmap m) = prod_map id to_gmap (run_op o m).
Proof.
  intros Hwf.
  pose proof (fun k v => put_insert m k v Hwf) as Hi; pose proof (fun k => put_delete m k Hwf) as Hd.
  pose proof (fun k => to_gmap_lookup m k Hwf) as Hl.
  assert (forall k x, getShard m k !! k = Some x -> k ∈ dom (to_gmap m)) as Hin
    by (intros k x E; apply elem_of_dom; rewrite Hl; by eexists).
  assert (forall k, getShard m k !! k = None -> k ∉ dom (to_gmap m)) as Hout
    by (intros k E; apply not_elem_of_dom; by rewrite Hl).
  destruct o; cbn [run_op spec_op]; unfold Has, Get, Set_, Delete, Pop, GetOrSet, Update, Upsert, SetIfAbsent,
    SetIfPresent, CompareAndSwap, CompareAndDelete; rewrite ?Hl.
  all: try (match goal with |- context [getShard ?m0 ?k !! ?k] => destruct (getShard m0 k !! k) as [x|] eqn:E end);
    cbn -[to_gmap putShard]; rewrite ?bool_decide_true, ?bool_decide_false, ?decide_True, ?decide_False by eauto.
  all: try match goal with |- context [?a =? ?n] => destruct (Z.eqb_spec a n); [rewrite decide_True by (by f_equal)|rewrite decide_False by congruence]; cbn -[to_gmap putShard] end.
  all: try (split; [first [done|apply Hi|apply Hd]|f_equal; solve [done|symmetry; apply Hi|symmetry; apply Hd]]).
  - split; [done|f_equal; by rewrite delete_id by (by rewrite Hl)].
  - split; [done|f_equal; by rewrite insert_id by (by rewrite Hl)].
  - split; [done|by rewrite Count_size].
  - by destruct (Clear_empty m Hwf) as [? ->].
Qed.

(** C37: Whatever methods were called before, the next one answers as the operation of one finite
    map does, and has its effect: over every sequence of lookups, updates and removals,
    conditional ones and those on a version among them, [Count] and [Clear], the answers are
    those of the map and the shards stand for its value after them.  The shards stay well
    formed, and the iteration [Items] lists each entry of that value once. *)
Theorem operations_refine (ops : list op) (m : Map) (Hwf : wf m) :
  let '(rs, m') := run_ops run_op ops m in
  wf m' /\ run_ops spec_op ops (to_gmap m) = (rs, to_gmap m') /\ Items m' ≡ₚ map_to_list (to_gmap m').
Proof.
  revert m Hwf; induction ops as [|o ops IH]; intros m Hwf; cbn [run_ops].
  - split_ands; [done|done|]; rewrite Items_entries; by apply entries_perm.
  - destruct (run_op_refines o m Hwf) as [Hw Hs]; rewrite Hs; destruct (run_op o m) as [r m1]; cbn [prod_map id fst snd] in *.
    specialize (IH m1 Hw); destruct (run_ops run_op ops m1) as [rs m2]; destruct IH as (? & -> & ?); done.
Qed.
End Sequences.

(** Iteration: [Items] lists each entry of the abstract map exactly once, in
    some order, [Keys] and [Values] are its projections, and [Count] is the
    number of entries. *)
Theorem iteration_complete (m : Map) (Hwf : wf m) :
  Items m ≡ₚ map_to_list (to_gmap m) /\
  Keys m = map fst (Items m) /\ Values m = map snd (Items m) /\
  Count m = Z.of_nat (size (to_gmap m)) /\
  NoDup (Keys m).
Proof.
  assert (Keys m = map fst (entries m)) as Hk.
  { unfold Keys, Range; by rewrite (range_collect _ (fun k _ => k)). }
  rewrite Items_entries, Hk; pose proof (entries_perm m Hwf) as Hp.
  repeat split; auto.
  - unfold Values, Range; by rewrite (range_collect _ (fun _ v => v)).
  - by apply Count_size.
  - change (NoDup (entries m).*1); rewrite Hp; apply NoDup_fst_map_to_list.
Qed.

(** Optimistic locking: a swap succeeds exactly when the key is present at
    the expected version; it then stores the new value at the next version
    (modulo 2^64), otherwise it changes nothing, so of two swaps expecting the
    same version the second fails. *)
Theorem CompareAndSwap_spec (GetVersion : V -> Z) (SetVersion : Z -> V -> V)
    (m : Map) (k : K) (expected : Z) (v v2 : V)
    (Hwf : wf m) (Hver : forall x n, GetVersion (SetVersion n x) = n)
    (Hrange : 0 <= expected < two64) :
  let cas := CompareAndSwap GetVersion SetVersion in
  (fst (cas m k expected v) = true <->
     exists x, to_gmap m !! k = Some x /\ GetVersion x = expected) /\
  to_gmap (snd (cas m k expected v)) =
    (if fst (cas m k expected v)
     then <[k := SetVersion (u64 (expected + 1)) v]> (to_gmap m) else to_gmap m) /\
  (fst (cas m k expected v) = true ->
     fst (cas (snd (cas m k expected v)) k expected v2) = false).
Proof.
  cbv zeta; unfold CompareAndSwap at 1 2 3 4 6.
  pose proof (put_insert m k (SetVersion (u64 (expected + 1)) v) Hwf) as [Hi1 Hi2].
  rewrite to_gmap_lookup by auto.
  destruct (getShard m k !! k) as [x|] eqn:E; simpl.
  2:{ repeat split; try discriminate. intros (y & [=] & _). }
  destruct (Z.eqb_spec (GetVersion x) expected) as [Hx|Hx]; simpl.
  2:{ repeat split; try discriminate. intros (y & [= ->] & ?); contradiction. }
  repeat split; eauto.
  intros _; unfold CompareAndSwap.
  rewrite <- to_gmap_lookup, Hi2, lookup_insert_eq by auto; rewrite Hver.
  destruct (Z.eqb_spec (u64 (expected + 1)) expected) as [C|]; [exfalso|reflexivity].
  unfold u64, two64 in *.
  destruct (Z.eq_dec expected (2 ^ 64 - 1)) as [->|]; [discriminate C|].
  rewrite Z.mod_small in C; lia.
Qed.
End CMap.

(** A two-key map over string lengths as the hash, for the witnesses. *)
Definition demo_hash (k : string) : Z := Z.of_nat (String.length k).
Definition demo : Map (K := string) (V := Z) := Set_ demo_hash (Set_ demo_hash New "a" 1) "bcd" 2.

Lemma demo_wf : wf demo_hash demo.
Proof.
  pose proof (proj1 (NewWithShards_empty demo_hash DefaultShardCount (V := Z))) as H0.
  by repeat apply put_insert.
Qed.

(** A conditional store on a key that is there and on one that is not, and what they leave. *)
Definition demo_ops : list (op (K := string) (V := Z)) :=
  [OpSetIfPresent "bcd" 5; OpSetIfPresent "x" 6; OpSetIfAbsent "a" 7; OpCompareAndSwap "bcd" 5 9; OpPop "a"; OpCount; OpGet "bcd"].
Lemma operations_refine_witness :
  wf demo_hash demo /\
  fst (run_ops (run_op demo_hash id (fun n _ => n)) demo_ops demo) =
    [Flag true; Flag false; Flag false; Flag true; Lookup (Some 1); Number 1; Lookup (Some 6)].
Proof.
  split; [exact demo_wf|].
  pose proof (operations_refine demo_hash id (fun n _ => n) demo_ops demo demo_wf) as H.
  destruct (run_ops _ demo_ops demo) as [rs m']; destruct H as (_ & H & _).
  transitivity (fst (run_ops (spec_op id (fun n _ => n)) demo_ops (to_gmap demo))); [by rewrite H|vm_compute; reflexivity].
Defined.

Lemma iteration_complete_witness :
  wf demo_hash demo /\ Count demo = 2 /\ NoDup (Keys demo).
Proof.
  split; [exact demo_wf|].
  destruct (iteration_complete demo_hash demo demo_wf) as (_ & _ & _ & HC & HN).
  split; [rewrite HC; vm_compute; reflexivity | exact HN].
Defined.

Lemma CompareAndSwap_spec_witness :
  let cas := CompareAndSwap demo_hash id (fun n _ => n) in
  fst (cas demo "a" 1 5) = true /\ fst (cas (snd (cas demo "a" 1 5)) "a" 1 6) = false.
Proof.
  cbv zeta.
  destruct (CompareAndSwap_spec demo_hash id (fun n _ => n) demo "a" 1 5 6 demo_wf
              ltac:(reflexivity) ltac:(unfold two64; lia)) as (_ & _ & H).
  split; [vm_compute; reflexivity|].
  apply H; vm_compute; reflexivity.
Defined.
