(* ===== verification/MemoryStore.v ===== *)
(** The in-memory store: [internal/storage/memory/store.go] and [index.go].

    Three indexes kept under one lock: sessions by id, ids by token hash, and
    the set of ids of each user.  The concurrent maps are the abstract maps
    that [CMap] refines; a stored session is a private clone, so the store
    holds values.  An operation is one step of [M Store]. *)

From Stdlib Require Import Ascii String.
From stdpp Require Import list strings gmap fin_maps sets.
From S2P Require Import Prelude Errors GoStrings Session.

Open Scope string_scope.
Open Scope Z_scope.

Definition DefaultMaxSessionsPerUser : Z := 50.

(** ** The per-user index ([UserIndex] over [SessionSet]) *)
Module UserIndex.
Abbreviation t := (gmap string (gset string)).

(** [GetOrSet] of the user's set, then [SessionSet.Add]. *)
Definition Add (i : t) (userID sessionID : string) : t :=
  <[userID := {[sessionID]} ∪ default ∅ (i !! userID)]> i.
(** [SessionSet.Remove], dropping the set when it becomes empty. *)
Definition Remove (i : t) (userID sessionID : string) : t :=
  match i !! userID with
  | None => i
  | Some set =>
      let set' := set ∖ {[sessionID]} in
      if decide (size set' = 0%nat) then delete userID (<[userID := set']> i)
      else <[userID := set']> i
  end.
Definition Get (i : t) (userID : string) : list string :=
  match i !! userID with None => [] | Some set => elements set end.
Definition Count (i : t) (userID : string) : Z :=
  match i !! userID with None => 0 | Some set => Z.of_nat (size set) end.
Definition Clear (i : t) (userID : string) : t := delete userID i.
End UserIndex.

Record Store := MkStore {
  sessions : gmap string Session;
  tokens : gmap string string;
  userIndex : UserIndex.t;
  maxSessionsPerUser : Z;
}.

Definition New (max : Z) : Store := MkStore ∅ ∅ ∅ max.

Definition Get (id : string) : M Store (Res Session) :=
  s <- get_st ;;
  match sessions s !! id with
  | None => ret (Err ErrSessionNotFound)
  | Some session =>
      expired <- IsExpired session ;;
      if expired then ret (Err ErrSessionExpired) else ret (Ok (Clone session))
  end.

Definition GetByToken (tokenHash : string) : M Store (Res Session) :=
  s <- get_st ;;
  match tokens s !! tokenHash with
  | None => ret (Err ErrTokenInvalid)
  | Some sessionID =>
      match sessions s !! sessionID with
      | None =>
          upd_st (fun s => MkStore (sessions s) (delete tokenHash (tokens s)) (userIndex s)
                             (maxSessionsPerUser s)) ;;;
          ret (Err ErrTokenInvalid)
      | Some session =>
          expired <- IsExpired session ;;
          if expired then ret (Err ErrSessionExpired) else ret (Ok (Clone session))
      end
  end.

(** What [Create] and [LoadFromSnapshot] do with an accepted session. *)
Definition put_session (session : Session) (s : Store) : Store :=
  MkStore (<[ID session := Clone session]> (sessions s))
    (if String.eqb (TokenHash session) "" then tokens s
     else <[TokenHash session := ID session]> (tokens s))
    (UserIndex.Add (userIndex s) (UserID session) (ID session))
    (maxSessionsPerUser s).

Definition Create (session : Session) : M Store (option error) :=
  match Validate session with
  | Some err => ret (Some err)
  | None =>
    s <- get_st ;;
    if maxSessionsPerUser s <=? UserIndex.Count (userIndex s) (UserID session) then
      ret (Some ErrSessionQuotaExceeded)
    else if decide (is_Some (sessions s !! ID session)) then ret (Some ErrSessionConflict)
    else if negb (String.eqb (TokenHash session) "") &&
            bool_decide (is_Some (tokens s !! TokenHash session)) then
      ret (Some ErrTokenHashConflict)
    else upd_st (put_session session) ;;; ret None
  end.

(** Returns the error, and the version written back to the caller's session. *)
Definition Update (session : Session) (expectedVersion : Z)
    : M Store (option error * Session) :=
  match Validate session with
  | Some err => ret (Some err, session)
  | None =>
    s <- get_st ;;
    match sessions s !! ID session with
    | None => ret (Some ErrSessionNotFound, session)
    | Some existing =>
      if negb (Version existing =? expectedVersion) then
        ret (Some ErrSessionVersionConflict, session)
      else
        let commit (toks : gmap string string) : M Store (option error * Session) :=
          let clone := IncrVersion (Clone session) in
          upd_st (fun s => MkStore (<[ID session := clone]> (sessions s)) toks (userIndex s)
                             (maxSessionsPerUser s)) ;;;
          ret (None, SetVersion (Version clone) session) in
        if String.eqb (TokenHash existing) (TokenHash session) then commit (tokens s)
        else
          let toks := if String.eqb (TokenHash existing) "" then tokens s
                      else delete (TokenHash existing) (tokens s) in
          upd_st (fun s => MkStore (sessions s) toks (userIndex s) (maxSessionsPerUser s)) ;;;
          if String.eqb (TokenHash session) "" then commit toks
          else if decide (is_Some (toks !! TokenHash session)) then
            ret (Some ErrTokenHashConflict, session)
          else commit (<[TokenHash session := ID session]> toks)
    end
  end.

(** Removal of a session and of its index entries. *)
Definition drop_session (id : string) (session : Session) (s : Store) : Store :=
  MkStore (delete id (sessions s))
    (if String.eqb (TokenHash session) "" then tokens s
     else delete (TokenHash session) (tokens s))
    (UserIndex.Remove (userIndex s) (UserID session) id)
    (maxSessionsPerUser s).

Definition Delete (id : string) : M Store (option error) :=
  s <- get_st ;;
  match sessions s !! id with
  | None => ret (Some ErrSessionNotFound)
  | Some session => upd_st (drop_session id session) ;;; ret None
  end.

Definition DeleteByToken (tokenHash : string) : M Store (option error) :=
  s <- get_st ;;
  match tokens s !! tokenHash with
  | None => ret (Some ErrTokenInvalid)
  | Some sessionID =>
      upd_st (fun s => MkStore (sessions s) (delete tokenHash (tokens s)) (userIndex s)
                         (maxSessionsPerUser s)) ;;;
      s <- get_st ;;
      match sessions s !! sessionID with
      | None => ret (Some ErrSessionNotFound)
      | Some session =>
          upd_st (fun s => MkStore (delete sessionID (sessions s)) (tokens s)
                    (UserIndex.Remove (userIndex s) (UserID session) sessionID)
                    (maxSessionsPerUser s)) ;;;
          ret None
      end
  end.

Definition ListByUserID (userID : string) : M Store (list Session) :=
  s <- get_st ;;
  for_collect (UserIndex.Get (userIndex s) userID) (fun id =>
    s <- get_st ;;
    match sessions s !! id with
    | None => ret None
    | Some session =>
        expired <- IsExpired session ;;
        if expired then ret None else ret (Some (Clone session))
    end).

(** ** Listing *)

(** [service.SessionFilter]; the optional times are clock readings. *)
Record SessionFilter := MkFilter {
  f_UserID : string;
  f_DeviceID : string;
  f_CreatedBy : string;
  f_IPAddress : string;
  f_Status : string;
  f_CreatedAfter : option Z;
  f_CreatedBefore : option Z;
  f_ActiveAfter : option Z;
  f_SortBy : string;
  f_SortOrder : string;
  f_Page : Z;
  f_PageSize : Z;
}.

(** The chain of [continue]s of the filtering loop. *)
Definition keep (f : SessionFilter) (now : Z) (session : Session) : bool :=
  if negb (String.eqb (f_DeviceID f) "") &&
     negb (String.eqb (DeviceID session) (f_DeviceID f)) then false
  else if negb (String.eqb (f_CreatedBy f) "") &&
     negb (String.eqb (CreatedBy session) (f_CreatedBy f)) then false
  else if negb (String.eqb (f_IPAddress f) "") &&
     (negb (String.eqb (LastAccessIP session) (f_IPAddress f)) &&
      negb (String.eqb (IPAddress session) (f_IPAddress f))) then false
  else
    let isExpired := (0 <? ExpiresAt session) && (ExpiresAt session <? now) in
    if negb (String.eqb (f_Status f) "") && String.eqb (f_Status f) "active" && isExpired
    then false
    else if negb (String.eqb (f_Status f) "") && String.eqb (f_Status f) "expired" &&
            negb isExpired then false
    else if match f_CreatedAfter f with
            | Some t => CreatedAt session <? unix_milli t | None => false end then false
    else if match f_CreatedBefore f with
            | Some t => unix_milli t <=? CreatedAt session | None => false end then false
    else if match f_ActiveAfter f with
            | Some t => LastActive session <? unix_milli t | None => false end then false
    else true.

Definition sort_key (sortBy : string) (x : Session) : Z :=
  if String.eqb sortBy "last_active" then LastActive x else CreatedAt x.
Definition sort_less (sortBy sortOrder : string) (x y : Session) : bool :=
  let less := sort_key sortBy x <? sort_key sortBy y in
  if String.eqb sortOrder "asc" then less else negb less.

(** [filtered[i]] for [i] from [startIdx] to [endIdx - 1]; [None] is the
    run-time panic of an index outside the slice. *)
Definition index_range {A} (l : list A) (startIdx endIdx : Z) : option (list A) :=
  if endIdx <=? startIdx then Some []
  else if (startIdx <? 0) || (llen l <? endIdx) then None
  else Some (firstn (Z.to_nat (endIdx - startIdx)) (skipn (Z.to_nat startIdx) l)).

Definition page_bounds (page pageSize len : Z) : option (Z * Z) :=
  let startIdx := i64 ((page - 1) * pageSize) in
  let endIdx := i64 (startIdx + pageSize) in
  if len <=? startIdx then None
  else Some (startIdx, if len <? endIdx then len else endIdx).

Definition norm_page (page : Z) : Z := if page <? 1 then 1 else page.
Definition norm_page_size (n : Z) : Z :=
  if n <=? 0 then 20 else if 100 <? n then 100 else n.

(** The page of sessions and the total; [None] is a panic. *)
Definition List (filter : SessionFilter) : M Store (option (list Session * Z)) :=
  s <- get_st ;;
  let candidates :=
    if negb (String.eqb (f_UserID filter) "")
    then omap (fun id => sessions s !! id) (UserIndex.Get (userIndex s) (f_UserID filter))
    else map snd (map_to_list (sessions s)) in
  now <- now_milli ;;
  let filtered := List.filter (keep filter now) candidates in
  let total := llen filtered in
  let sortBy := if String.eqb (f_SortBy filter) "" then "created_at" else f_SortBy filter in
  let sortOrder := if String.eqb (f_SortOrder filter) "" then "desc" else f_SortOrder filter in
  let filtered := sort_slice (sort_less sortBy sortOrder) filtered in
  let page := norm_page (f_Page filter) in
  let pageSize := norm_page_size (f_PageSize filter) in
  match page_bounds page pageSize (llen filtered) with
  | None => ret (Some ([], total))
  | Some (startIdx, endIdx) =>
      match index_range filtered startIdx endIdx with
      | None => ret None
      | Some results => ret (Some (map Clone results, total))
      end
  end.

Definition DeleteByUserID (userID : string) : M Store Z :=
  s <- get_st ;;
  let sessionIDs := UserIndex.Get (userIndex s) userID in
  if llen sessionIDs =? 0 then ret 0
  else
    dels <- for_collect sessionIDs (fun id =>
      s <- get_st ;;
      match sessions s !! id with
      | None => ret None
      | Some session =>
          upd_st (fun s => MkStore (delete id (sessions s))
                    (if String.eqb (TokenHash session) "" then tokens s
                     else delete (TokenHash session) (tokens s))
                    (userIndex s) (maxSessionsPerUser s)) ;;;
          ret (Some tt)
      end) ;;
    upd_st (fun s => MkStore (sessions s) (tokens s) (UserIndex.Clear (userIndex s) userID)
                       (maxSessionsPerUser s)) ;;;
    ret (llen dels).

Definition Count (s : Store) : Z := Z.of_nat (size (sessions s)).
Definition CountByUserID (userID : string) : M Store Z :=
  s <- get_st ;; ret (UserIndex.Count (userIndex s) userID).
Definition All (s : Store) : list Session := map (fun kv => Clone (snd kv)) (map_to_list (sessions s)).

Definition LoadFromSnapshot (l : list Session) : M Store unit :=
  upd_st (fun s => MkStore ∅ ∅ ∅ (maxSessionsPerUser s)) ;;;
  for_range l (fun session => upd_st (put_session session)).

(** Touching the stored object in place. *)
Definition Touch_ (id ip userAgent : string) : M Store (option error) :=
  s <- get_st ;;
  match sessions s !! id with
  | None => ret (Some ErrSessionNotFound)
  | Some session =>
      expired <- IsExpired session ;;
      if expired then ret (Some ErrSessionExpired)
      else
        session' <- Touch ip userAgent session ;;
        upd_st (fun s => MkStore (<[id := session']> (sessions s)) (tokens s) (userIndex s)
                           (maxSessionsPerUser s)) ;;;
        ret None
  end.

Definition CleanupExpired : M Store Z :=
  s <- get_st ;;
  toDelete <- for_collect (map_to_list (sessions s)) (fun kv =>
    expired <- IsExpired (snd kv) ;;
    ret (if expired then Some (fst kv) else None)) ;;
  for_range toDelete (fun id =>
    s <- get_st ;;
    match sessions s !! id with
    | None => ret tt
    | Some session => upd_st (drop_session id session)
    end) ;;;
  ret (llen toDelete).
Definition DeleteExpired : M Store Z := CleanupExpired.

Definition GetSessionByTokenHash (tokenHash : string) : M Store (Res Session) :=
  GetByToken tokenHash.

Definition UpdateSession (session : Session) : M Store (option error) :=
  match Validate session with
  | Some err => ret (Some err)
  | None =>
    s <- get_st ;;
    match sessions s !! ID session with
    | None => ret (Some ErrSessionNotFound)
    | Some _ =>
        upd_st (fun s => MkStore (<[ID session := Clone session]> (sessions s)) (tokens s)
                           (userIndex s) (maxSessionsPerUser s)) ;;;
        ret None
    end
  end.
