(* ===== verification/MemoryStoreFacts.v ===== *)
(** Correctness of the in-memory store.

    [Inv] ties the three indexes together; the lemmas show which updates of
    the indexes keep it, and the theorems that every operation does, what each
    operation returns, and where [Update] falls short. *)

From Stdlib Require Import Ascii String.
From stdpp Require Import list strings gmap fin_maps sets.
From S2P Require Import Prelude Errors GoStrings Session MemoryStore.

#[local] Set Warnings "-clear-no-such-hyp".

Open Scope string_scope.
Open Scope Z_scope.

(** ** The index invariant *)
Definition has_session (s : Store) (P : Session -> Prop) (id : string) : Prop :=
  exists ses, sessions s !! id = Some ses /\ P ses.

Record Inv (s : Store) : Prop := {
  inv_id : forall id ses, sessions s !! id = Some ses -> ID ses = id;
  inv_tok : forall h id, tokens s !! h = Some id <->
    h <> "" /\ has_session s (fun ses => TokenHash ses = h) id;
  inv_user : forall u id, id ∈ default ∅ (userIndex s !! u) <->
    has_session s (fun ses => UserID ses = u) id;
  inv_nonempty : forall u ids, userIndex s !! u = Some ids -> ids <> ∅;
}.

Lemma Inv_New (max : Z) : Inv (New max).
Proof.
  split; unfold has_session; simpl.
  - intros id ses; by rewrite lookup_empty.
  - intros h id; rewrite lookup_empty; split; [discriminate|].
    intros (_ & ses & Hs & _); by rewrite lookup_empty in Hs.
  - intros u id; rewrite lookup_empty; simpl; split; [set_solver|].
    intros (ses & Hs & _); by rewrite lookup_empty in Hs.
  - intros u ids; by rewrite lookup_empty.
Qed.

(** ** The user index *)
Lemma elem_of_Add i u x u' id :
  id ∈ default ∅ (UserIndex.Add i u x !! u') <->
  (u' = u /\ id = x) \/ id ∈ default ∅ (i !! u').
Proof.
  unfold UserIndex.Add; destruct (decide (u' = u)) as [->|Hne].
  - rewrite lookup_insert_eq; simpl; set_solver.
  - rewrite lookup_insert_ne by auto; naive_solver.
Qed.

Lemma elem_of_Remove i u x u' id :
  id ∈ default ∅ (UserIndex.Remove i u x !! u') <->
  id ∈ default ∅ (i !! u') /\ ~ (u' = u /\ id = x).
Proof.
  unfold UserIndex.Remove; destruct (i !! u) as [ids|] eqn:E.
  2:{ split; [|tauto]. intros H; split; [auto|]; intros [-> _].
      rewrite E in H; simpl in H; set_solver. }
  case_decide as Hs.
  - apply size_empty_inv in Hs.
    destruct (decide (u' = u)) as [->|Hne].
    + rewrite lookup_delete_eq, E; simpl; set_solver.
    + rewrite lookup_delete_ne, lookup_insert_ne by auto; naive_solver.
  - destruct (decide (u' = u)) as [->|Hne].
    + rewrite lookup_insert_eq, E; simpl; set_solver.
    + rewrite lookup_insert_ne by auto; naive_solver.
Qed.

Lemma nonempty_Add i u x :
  (forall u ids, i !! u = Some ids -> ids <> ∅) ->
  forall u' ids, UserIndex.Add i u x !! u' = Some ids -> ids <> ∅.
Proof.
  unfold UserIndex.Add; intros Hi u' ids Hl.
  destruct (decide (u' = u)) as [->|Hne].
  - rewrite lookup_insert_eq in Hl; simplify_eq. set_solver.
  - rewrite lookup_insert_ne in Hl by auto; eauto.
Qed.

Lemma nonempty_Remove i u x :
  (forall u ids, i !! u = Some ids -> ids <> ∅) ->
  forall u' ids, UserIndex.Remove i u x !! u' = Some ids -> ids <> ∅.
Proof.
  unfold UserIndex.Remove; intros Hi u' ids; destruct (i !! u) as [s|] eqn:E; [|eauto].
  case_decide as Hs; intros Hl.
  - destruct (decide (u' = u)) as [->|Hne]; [by rewrite lookup_delete_eq in Hl|].
    rewrite lookup_delete_ne, lookup_insert_ne in Hl by auto; eauto.
  - destruct (decide (u' = u)) as [->|Hne].
    + rewrite lookup_insert_eq in Hl; simplify_eq; intros Hem; apply Hs; rewrite Hem; apply size_empty.
    + rewrite lookup_insert_ne in Hl by auto; eauto.
Qed.

(** ** Updates of the indexes that keep the invariant *)
Lemma has_session_insert (s : Store) (x : Session) toks idx max P id :
  has_session (MkStore (<[ID x := x]> (sessions s)) toks idx max) P id <->
  (id = ID x /\ P x) \/ (id <> ID x /\ has_session s P id).
Proof.
  unfold has_session; simpl; destruct (decide (id = ID x)) as [->|Hne].
  - rewrite lookup_insert_eq; naive_solver.
  - rewrite lookup_insert_ne by auto; naive_solver.
Qed.

Lemma has_session_delete (s : Store) (i : string) toks idx max P id :
  has_session (MkStore (delete i (sessions s)) toks idx max) P id <->
  id <> i /\ has_session s P id.
Proof.
  unfold has_session; simpl; destruct (decide (id = i)) as [->|Hne].
  - rewrite lookup_delete_eq; naive_solver.
  - rewrite lookup_delete_ne by auto; naive_solver.
Qed.

Lemma Inv_put_session (s : Store) (x : Session) :
  Inv s -> sessions s !! ID x = None ->
  (TokenHash x = "" \/ tokens s !! TokenHash x = None) -> Inv (put_session x s).
Proof.
  intros Hs Hid Htok.
  assert (forall P, ~ has_session s P (ID x)) as Hno.
  { intros P (ses & Hl & _); congruence. }
  unfold put_session; rewrite Clone_id; split; simpl.
  - intros id ses; destruct (decide (id = ID x)) as [->|Hne].
    + rewrite lookup_insert_eq; naive_solver.
    + rewrite lookup_insert_ne by auto; apply inv_id, Hs.
  - intros h id; rewrite has_session_insert.
    assert (tokens s !! h = Some id <-> h <> "" /\ id <> ID x /\
              has_session s (fun ses => TokenHash ses = h) id) as Ht.
    { rewrite (inv_tok s Hs); split; [|tauto]; intros [? Hx]; split_ands; auto.
      intros ->; by apply Hno in Hx. }
    destruct (String.eqb_spec (TokenHash x) "") as [E|E].
    + rewrite Ht; naive_solver.
    + destruct (decide (h = TokenHash x)) as [->|Hne].
      * rewrite lookup_insert_eq; destruct Htok as [|Hn]; [contradiction|].
        rewrite Hn in Ht; naive_solver.
      * rewrite lookup_insert_ne by auto; rewrite Ht; naive_solver.
  - intros u id; rewrite elem_of_Add, has_session_insert, (inv_user s Hs).
    split; [|naive_solver]. intros [[-> ->]|Hx]; [auto|].
    right; split; [|auto]; intros ->; by apply Hno in Hx.
  - apply nonempty_Add, Hs.
Qed.

Lemma Inv_drop (s : Store) (id : string) (x : Session) toks :
  Inv s -> sessions s !! id = Some x ->
  toks = (if String.eqb (TokenHash x) "" then tokens s else delete (TokenHash x) (tokens s)) ->
  Inv (MkStore (delete id (sessions s)) toks (UserIndex.Remove (userIndex s) (UserID x) id)
         (maxSessionsPerUser s)).
Proof.
  intros Hs Hid ->; split; simpl.
  - intros i ses [? Hl]%lookup_delete_Some; by apply (inv_id s Hs).
  - intros h i; rewrite has_session_delete.
    assert (id <> i -> tokens s !! h = Some i -> TokenHash x <> h) as Hd.
    { intros Hne [Hh (y & Hy & Hty)]%(inv_tok s Hs) E.
      assert (tokens s !! h = Some id) as H1.
      { apply (inv_tok s Hs); split; [auto|]; by exists x. }
      assert (tokens s !! h = Some i) as H2.
      { apply (inv_tok s Hs); split; [auto|]; by exists y. }
      congruence. }
    assert (tokens s !! h = Some id -> TokenHash x = h) as He.
    { intros [_ (y & Hy & Hty)]%(inv_tok s Hs); congruence. }
    destruct (String.eqb_spec (TokenHash x) "") as [E|E].
    + rewrite (inv_tok s Hs); split; [|tauto]. intros [Hh Hx]; split_ands; auto.
      intros ->; destruct Hx as (y & Hy & Hty); congruence.
    + rewrite lookup_delete_Some, (inv_tok s Hs); split.
      * intros (Hne & Hh & Hx); split_ands; auto; intros ->.
        destruct Hx as (y & Hy & Hty); congruence.
      * intros (Hh & Hne & Hx); split_ands; auto.
        apply Hd; [auto|]; by apply (inv_tok s Hs).
  - intros u i; rewrite elem_of_Remove, has_session_delete, (inv_user s Hs).
    split; [|intros [Hne Hx]; split; [auto|naive_solver]].
    intros [Hx Hn]; split; [|auto]; intros ->.
    apply Hn; split; [|auto]; destruct Hx as (y & Hy & Hty); congruence.
  - apply nonempty_Remove, Hs.
Qed.

Lemma Inv_drop_session (s : Store) (id : string) (x : Session) :
  Inv s -> sessions s !! id = Some x -> Inv (drop_session id x s).
Proof. intros; by apply Inv_drop. Qed.

(** Overwriting a session by one of the same id, user and token hash. *)
Lemma Inv_replace (s : Store) (old x : Session) :
  Inv s -> sessions s !! ID x = Some old ->
  UserID x = UserID old -> TokenHash x = TokenHash old ->
  Inv (MkStore (<[ID x := x]> (sessions s)) (tokens s) (userIndex s) (maxSessionsPerUser s)).
Proof.
  intros Hs Hold Hu Ht.
  assert (forall P, (P old <-> P x) -> forall id,
    has_session (MkStore (<[ID x := x]> (sessions s)) (tokens s) (userIndex s)
                   (maxSessionsPerUser s)) P id <-> has_session s P id) as Hh.
  { intros P HP id; rewrite has_session_insert; unfold has_session.
    destruct (decide (id = ID x)) as [->|Hne]; [|naive_solver].
    rewrite Hold; naive_solver. }
  split; simpl.
  - intros id ses; destruct (decide (id = ID x)) as [->|Hne].
    + rewrite lookup_insert_eq; naive_solver.
    + rewrite lookup_insert_ne by auto; apply inv_id, Hs.
  - intros h id; rewrite Hh by (by rewrite Ht); apply inv_tok, Hs.
  - intros u id; rewrite Hh by (by rewrite Hu); apply inv_user, Hs.
  - apply inv_nonempty, Hs.
Qed.

(** Moving a session to a token hash that is free. *)
Lemma Inv_rehash (s : Store) (old x : Session) :
  Inv s -> sessions s !! ID x = Some old -> UserID x = UserID old ->
  TokenHash old <> TokenHash x ->
  (TokenHash x = "" \/ tokens s !! TokenHash x = None) ->
  let toks := if String.eqb (TokenHash old) "" then tokens s
              else delete (TokenHash old) (tokens s) in
  Inv (MkStore (<[ID x := x]> (sessions s))
         (if String.eqb (TokenHash x) "" then toks else <[TokenHash x := ID x]> toks)
         (userIndex s) (maxSessionsPerUser s)).
Proof.
  intros Hs Hold Hu Hne Hfree toks.
  assert (forall h id, toks !! h = Some id <->
            h <> "" /\ id <> ID x /\ has_session s (fun y => TokenHash y = h) id) as Ht.
  { pose proof (inv_tok _ (Inv_drop s (ID x) old _ Hs Hold eq_refl)) as H; simpl in H.
    unfold toks; intros h id; rewrite H, has_session_delete; reflexivity. }
  split; simpl.
  - intros id y; rewrite lookup_insert_Some; intros [[<- <-]|[_ Hy]]; [auto|].
    by apply (inv_id s Hs).
  - intros h id; rewrite has_session_insert.
    destruct (String.eqb_spec (TokenHash x) "") as [E|E].
    + rewrite Ht; split; [tauto|]. intros (Hh & [[-> <-]|Hx]); tauto.
    + rewrite lookup_insert_Some, Ht; split.
      * intros [[<- <-]|(Hd & Hh & Hi & Hx)]; auto.
      * intros (Hh & [[-> <-]|[Hi Hx]]); auto.
        right; split_ands; auto. intros <-.
        destruct Hfree as [|Hn]; [contradiction|].
        assert (tokens s !! TokenHash x = Some id) by (apply (inv_tok s Hs); auto).
        congruence.
  - intros u id; rewrite has_session_insert, (inv_user s Hs).
    unfold has_session at 1; destruct (decide (id = ID x)) as [->|Hi].
    + rewrite Hold; naive_solver.
    + unfold has_session; naive_solver.
  - apply inv_nonempty, Hs.
Qed.

(** ** Removing several sessions *)
Definition drop_id (id : string) (s : Store) : Store :=
  match sessions s !! id with None => s | Some x => drop_session id x s end.
Definition drop_all (ids : list string) (s : Store) : Store :=
  fold_left (fun s id => drop_id id s) ids s.

Lemma Inv_drop_id s id : Inv s -> Inv (drop_id id s).
Proof. unfold drop_id; case_match; eauto using Inv_drop_session. Qed.

Lemma Inv_drop_all ids s : Inv s -> Inv (drop_all ids s).
Proof. revert s; induction ids; simpl; eauto using Inv_drop_id. Qed.

Lemma sessions_drop_id s id : sessions (drop_id id s) = delete id (sessions s).
Proof. unfold drop_id; case_match eqn:E; simpl; [auto|]. by rewrite delete_id. Qed.

Lemma lookup_drop_all ids s id :
  sessions (drop_all ids s) !! id = if decide (id ∈ ids) then None else sessions s !! id.
Proof.
  revert s; induction ids as [|i ids IH]; intros s; [by rewrite decide_False by set_solver|].
  change (drop_all (i :: ids) s) with (drop_all ids (drop_id i s)).
  rewrite IH, sessions_drop_id.
  destruct (decide (id ∈ ids)); [by rewrite decide_True by set_solver|].
  destruct (decide (id = i)) as [->|].
  - by rewrite lookup_delete_eq, decide_True by set_solver.
  - by rewrite lookup_delete_ne, decide_False by set_solver.
Qed.

Lemma Inv_ext_index (s s' : Store) :
  Inv s -> Inv s' -> sessions s = sessions s' -> userIndex s = userIndex s'.
Proof.
  intros Hs Hs' E; apply map_eq; intros u.
  assert (forall id, id ∈ default ∅ (userIndex s !! u) <-> id ∈ default ∅ (userIndex s' !! u)) as H.
  { intros id; rewrite (inv_user s Hs), (inv_user s' Hs'); unfold has_session; by rewrite E. }
  pose proof (inv_nonempty s Hs u); pose proof (inv_nonempty s' Hs' u).
  destruct (userIndex s !! u) as [a|] eqn:Ea, (userIndex s' !! u) as [b|] eqn:Eb; simpl in H.
  - f_equal; apply set_eq; auto.
  - destruct (H0 a eq_refl); apply set_eq; intros; rewrite H; set_solver.
  - destruct (H1 b eq_refl); apply set_eq; intros; rewrite <- H; set_solver.
  - reflexivity.
Qed.

(** The loop of [CleanupExpired] removes the listed sessions. *)
Lemma cleanup_loop ids s e :
  for_range ids (fun id =>
    s <- get_st ;;
    match sessions s !! id with
    | None => ret tt
    | Some session => upd_st (drop_session id session)
    end) s e = (tt, drop_all ids s, e).
Proof.
  revert s; induction ids as [|i ids IH]; intros s; [reflexivity|].
  simpl; unfold bind at 1 2, get_st; simpl; unfold drop_id.
  destruct (sessions s !! i); simpl; apply IH.
Qed.

(** The loop of [DeleteByUserID] does the same to the sessions and the tokens,
    and leaves the user index alone. *)
Definition with_index (idx : UserIndex.t) (s : Store) : Store :=
  MkStore (sessions s) (tokens s) idx (maxSessionsPerUser s).

Lemma delete_user_loop idx ids s e :
  let '(dels, s', e') :=
    for_collect ids (fun id =>
      s <- get_st ;;
      match sessions s !! id with
      | None => ret None
      | Some session =>
          upd_st (fun s => MkStore (delete id (sessions s))
                    (if String.eqb (TokenHash session) "" then tokens s
                     else delete (TokenHash session) (tokens s))
                    (userIndex s) (maxSessionsPerUser s)) ;;;
          ret (Some tt)
      end) (with_index idx s) e in
  s' = with_index idx (drop_all ids s) /\ e' = e /\
  (NoDup ids -> (forall id, id ∈ ids -> is_Some (sessions s !! id)) ->
   length dels = length ids).
Proof.
  revert s; induction ids as [|i ids IH]; intros s; [by split_ands|].
  change (drop_all (i :: ids) s) with (drop_all ids (drop_id i s)).
  simpl; unfold bind at 1 2, get_st; simpl.
  specialize (IH (drop_id i s)); unfold drop_id in IH |- *.
  destruct (sessions s !! i) as [x|] eqn:E; simpl; unfold bind.
  - unfold drop_session, with_index in IH |- *; simpl in IH |- *.
    destruct (for_collect ids _ _ e) as [[dels s'] e'].
    destruct IH as (-> & -> & IH); split; [done|split; [done|]].
    intros Hd Hin; simpl; f_equal.
    apply NoDup_cons in Hd as [Hni Hd]; apply IH; auto.
    intros id Hid; rewrite lookup_delete_ne by (by intros ->); apply Hin; set_solver.
  - destruct (for_collect ids _ _ e) as [[dels s'] e'].
    destruct IH as (-> & -> & IH); split; [done|split; [done|]]; intros Hd Hin.
    destruct (Hin i ltac:(set_solver)); congruence.
Qed.

Lemma elem_of_Get (s : Store) u id :
  Inv s -> id ∈ UserIndex.Get (userIndex s) u <-> has_session s (fun x => UserID x = u) id.
Proof.
  intros Hs; rewrite <- (inv_user s Hs); unfold UserIndex.Get.
  destruct (userIndex s !! u); simpl; [apply elem_of_elements|set_solver].
Qed.

Lemma NoDup_Get i u : NoDup (UserIndex.Get i u).
Proof. unfold UserIndex.Get; case_match; [apply NoDup_elements|constructor]. Qed.

Lemma length_Get i u : llen (UserIndex.Get i u) = UserIndex.Count i u.
Proof. unfold UserIndex.Get, UserIndex.Count, llen; by case_match. Qed.

Lemma max_drop_all ids s : maxSessionsPerUser (drop_all ids s) = maxSessionsPerUser s.
Proof.
  revert s; induction ids as [|i ids IH]; intros s; simpl; [auto|].
  rewrite IH; unfold drop_id; by case_match.
Qed.

(** A list of all the sessions of a user: dropping them clears the user's
    entry and no other. *)
Lemma index_drop_user s u :
  Inv s -> let ids := UserIndex.Get (userIndex s) u in
  userIndex (drop_all ids s) = delete u (userIndex s).
Proof.
  intros Hs ids; pose proof (Inv_drop_all ids s Hs) as Hd; apply map_eq; intros v.
  destruct (decide (v = u)) as [->|Hne].
  - rewrite lookup_delete_eq.
    destruct (userIndex (drop_all ids s) !! u) as [a|] eqn:E; [|done].
    destruct (inv_nonempty _ Hd u a E); apply set_eq; intros id; split; [|set_solver].
    intros Hin; assert (has_session (drop_all ids s) (fun x => UserID x = u) id) as (x & Hx & Hu)
      by (apply (inv_user _ Hd); by rewrite E).
    rewrite lookup_drop_all in Hx; destruct (decide (id ∈ ids)) as [|Hni]; [done|].
    destruct Hni; apply elem_of_Get; [auto|]; by exists x.
  - rewrite lookup_delete_ne by auto.
    assert (forall id, id ∈ default ∅ (userIndex (drop_all ids s) !! v) <->
              id ∈ default ∅ (userIndex s !! v)) as H.
    { intros id; rewrite (inv_user _ Hd), (inv_user s Hs); unfold has_session.
      setoid_rewrite lookup_drop_all; destruct (decide (id ∈ ids)) as [Hin|]; [|done].
      apply elem_of_Get in Hin as (x & Hx & Hu); [|auto]; naive_solver. }
    pose proof (inv_nonempty s Hs v) as H0; pose proof (inv_nonempty _ Hd v) as H1.
    destruct (userIndex (drop_all ids s) !! v) as [a|] eqn:Ea, (userIndex s !! v) as [b|] eqn:Eb;
      simpl in H; auto.
    + f_equal; apply set_eq; auto.
    + destruct (H1 a eq_refl); apply set_eq; intros; rewrite H; set_solver.
    + destruct (H0 b eq_refl); apply set_eq; intros; rewrite <- H; set_solver.
Qed.

(** [DeleteByUserID] is dropping every session of the user. *)
Lemma DeleteByUserID_run s u e :
  Inv s ->
  DeleteByUserID u s e =
  (UserIndex.Count (userIndex s) u, drop_all (UserIndex.Get (userIndex s) u) s, e).
Proof.
  intros Hs; unfold DeleteByUserID, bind at 1, get_st; cbn beta iota.
  rewrite <- length_Get; destruct (Z.eqb_spec (llen (UserIndex.Get (userIndex s) u)) 0) as [E|E].
  { unfold llen in E; destruct (UserIndex.Get _ _); [done|discriminate]. }
  pose proof (delete_user_loop (userIndex s) (UserIndex.Get (userIndex s) u) s e) as H.
  assert (with_index (userIndex s) s = s) as Hw by (by destruct s).
  rewrite Hw in H; unfold bind; destruct (for_collect _ _ s e) as [[dels s'] e'].
  destruct H as (-> & -> & Hlen); unfold upd_st, ret, UserIndex.Clear; simpl; f_equal.
  f_equal.
  - unfold llen; f_equal; apply Hlen; [apply NoDup_Get|].
    intros id (x & Hx & _)%elem_of_Get; eauto.
  - rewrite <- index_drop_user by auto; by destruct (drop_all _ _).
Qed.

(** ** Clock-dependent scans *)

(** The clock stands still. *)
Definition still (t : Z) (e : env) : Prop := forall n, clk e n = t.

Lemma IsExpired_still {S} t x (s : S) e :
  still t e -> exists e', IsExpired x s e = (expired_at (unix_milli t) x, s, e') /\ still t e'.
Proof.
  intros He; unfold IsExpired, expired_at; destruct (ExpiresAt x =? 0); simpl; eauto.
  unfold now_milli, bind, time_now, ret; rewrite (He 0%nat); eexists; split; [reflexivity|].
  intros n; apply He.
Qed.

Lemma cleanup_scan t l (s : Store) e :
  still t e -> exists e',
  for_collect l (fun kv : string * Session =>
    expired <- IsExpired (snd kv) ;;
    ret (if expired then Some (fst kv) else None)) s e =
  (map fst (List.filter (fun kv => expired_at (unix_milli t) (snd kv)) l), s, e') /\ still t e'.
Proof.
  revert e; induction l as [|[id x] l IH]; intros e He; [eexists; split; [reflexivity|done]|].
  cbn [for_collect]; destruct (IsExpired_still t x s e He) as (e1 & H1 & He1).
  destruct (IH e1 He1) as (e2 & H2 & He2); exists e2; split; [|done].
  erewrite bind_run by (erewrite bind_run by exact H1; reflexivity).
  erewrite bind_run by exact H2; unfold ret; simpl.
  by destruct (expired_at _ x).
Qed.

(** Counting the keys a scan selects. *)
Lemma elem_of_scan (m : gmap string Session) (P : Session -> bool) id :
  id ∈ map fst (List.filter (fun kv => P (snd kv)) (map_to_list m)) <->
  exists x, m !! id = Some x /\ P x = true.
Proof.
  rewrite list_elem_of_In, in_map_iff; split.
  - intros ([i x] & Hi & Hin); simpl in Hi; subst.
    apply filter_In in Hin as [Hin HP]; exists x; split; [|done].
    by apply elem_of_map_to_list, list_elem_of_In.
  - intros (x & Hx & HP); exists (id, x); split; [done|].
    apply filter_In; split; [|done]. by apply list_elem_of_In, elem_of_map_to_list.
Qed.

Lemma NoDup_scan (m : gmap string Session) (P : Session -> bool) :
  NoDup (map fst (List.filter (fun kv => P (snd kv)) (map_to_list m))).
Proof.
  generalize (NoDup_fst_map_to_list m); induction (map_to_list m) as [|[i x] l IH];
    simpl; [constructor|].
  intros [Hn Hd]%NoDup_cons; destruct (P x); simpl; [constructor|]; auto.
  intros Hin; apply Hn; rewrite list_elem_of_In in Hin |- *.
  apply in_map_iff in Hin as ([j y] & <- & Hin); apply filter_In in Hin as [Hin _].
  exact (in_map fst _ _ Hin).
Qed.

(** ** Calls and their composition *)
Inductive call :=
| CGet (id : string)
| CGetByToken (h : string)
| CCreate (x : Session)
| CUpdate (x : Session) (v : Z)
| CUpdateSession (x : Session)
| CTouch (id ip ua : string)
| CDelete (id : string)
| CDeleteByToken (h : string)
| CDeleteByUserID (u : string)
| CListByUserID (u : string)
| CList (f : SessionFilter)
| CCleanup.

Definition run_call (c : call) : M Store unit :=
  match c with
  | CGet id => Get id ;;; ret tt
  | CGetByToken h => GetByToken h ;;; ret tt
  | CCreate x => Create x ;;; ret tt
  | CUpdate x v => Update x v ;;; ret tt
  | CUpdateSession x => UpdateSession x ;;; ret tt
  | CTouch id ip ua => Touch_ id ip ua ;;; ret tt
  | CDelete id => Delete id ;;; ret tt
  | CDeleteByToken h => DeleteByToken h ;;; ret tt
  | CDeleteByUserID u => DeleteByUserID u ;;; ret tt
  | CListByUserID u => ListByUserID u ;;; ret tt
  | CList f => List f ;;; ret tt
  | CCleanup => DeleteExpired ;;; ret tt
  end.

(** What the service layer observes of an update: the session was read from
    the store, so its owner is unchanged; a new token hash is a fresh one. *)
Definition admissible (s : Store) (c : call) : Prop :=
  match c with
  | CUpdate x _ => forall old, sessions s !! ID x = Some old ->
      UserID x = UserID old /\
      (TokenHash x = TokenHash old \/ TokenHash x = "" \/ tokens s !! TokenHash x = None)
  | CUpdateSession x => forall old, sessions s !! ID x = Some old ->
      UserID x = UserID old /\ TokenHash x = TokenHash old
  | _ => True
  end.

Inductive calls : Store -> Store -> Prop :=
| calls_nil s : calls s s
| calls_cons s c e s' e' s'' :
    admissible s c -> run_call c s e = (tt, s', e') -> calls s' s'' -> calls s s''.

(** ** Consistency within the quota *)
Definition Good (max : Z) (s : Store) : Prop :=
  Inv s /\ maxSessionsPerUser s = max /\ forall u, UserIndex.Count (userIndex s) u <= max.

Lemma Count_default i u : UserIndex.Count i u = Z.of_nat (size (default ∅ (i !! u))).
Proof. unfold UserIndex.Count; by destruct (i !! u). Qed.

Lemma Count_Add i u x v :
  UserIndex.Count (UserIndex.Add i u x) v <=
  UserIndex.Count i v + (if decide (v = u) then 1 else 0).
Proof.
  rewrite !Count_default; unfold UserIndex.Add; case_decide as Hv.
  - subst; rewrite lookup_insert_eq; simpl.
    pose proof (size_union_alt (C := gset string) {[x]} (default ∅ (i !! u))) as E.
    assert (size (default ∅ (i !! u) ∖ {[x]}) <= size (default ∅ (i !! u)))%nat
      by (apply subseteq_size; set_solver).
    assert (size ({[x]} : gset string) = 1%nat) by apply size_singleton. lia.
  - rewrite lookup_insert_ne by auto; lia.
Qed.

Lemma Count_Remove i u x v : UserIndex.Count (UserIndex.Remove i u x) v <= UserIndex.Count i v.
Proof.
  rewrite !Count_default; apply Nat2Z.inj_le, subseteq_size.
  intros id; rewrite elem_of_Remove; tauto.
Qed.

Lemma Good_put max s x :
  Good max s -> UserIndex.Count (userIndex s) (UserID x) < max -> sessions s !! ID x = None ->
  (TokenHash x = "" \/ tokens s !! TokenHash x = None) -> Good max (put_session x s).
Proof.
  intros (Hi & Hm & Hc) Hq Hid Ht; split; [by apply Inv_put_session|split; [done|]].
  intros u; unfold put_session; simpl; pose proof (Count_Add (userIndex s) (UserID x) (ID x) u).
  case_decide; subst; [lia|]. specialize (Hc u); lia.
Qed.

Lemma Good_drop_id max s id : Good max s -> Good max (drop_id id s).
Proof.
  intros (Hi & Hm & Hc); split; [by apply Inv_drop_id|split; [unfold drop_id; by case_match|]].
  intros u; unfold drop_id; case_match; simpl; [|auto].
  etransitivity; [apply Count_Remove|auto].
Qed.

Lemma Good_drop_all max ids s : Good max s -> Good max (drop_all ids s).
Proof. revert s; induction ids; simpl; eauto using Good_drop_id. Qed.

Lemma Good_same_index max s s' :
  Good max s -> Inv s' -> userIndex s' = userIndex s ->
  maxSessionsPerUser s' = maxSessionsPerUser s -> Good max s'.
Proof. intros (Hi & Hm & Hc) Hs' E E'; split; [done|split; [congruence|]]. by rewrite E. Qed.

Lemma Touch_fields {S} ip ua x (st : S) e :
  exists y e', Touch ip ua x st e = (y, st, e') /\
    ID y = ID x /\ UserID y = UserID x /\ TokenHash y = TokenHash x /\
    ExpiresAt y = ExpiresAt x /\ Version y = Version x /\
    LastActive y = unix_milli (clk e 0%nat) /\
    Validate (IncrVersion y) = Validate x.
Proof.
  destruct x; unfold Touch, now_milli, bind, time_now, ret; simpl.
  eexists _, _; split; [reflexivity|]. by split_ands.
Qed.

Lemma Good_Create max x : preserves (Good max) (Create x).
Proof.
  unfold Create; intros s e Hg; destruct (Validate x); [done|]. unfold bind, get_st; simpl.
  pose proof Hg as (Hi & Hm & Hc).
  destruct (Z.leb_spec (maxSessionsPerUser s) (UserIndex.Count (userIndex s) (UserID x)));
    [done|].
  case_decide as Hid; [done|]. rewrite <- eq_None_not_Some in Hid.
  destruct (String.eqb_spec (TokenHash x) "") as [Ht|Ht]; simpl;
    [|case_bool_decide as Hb; [done|rewrite <- eq_None_not_Some in Hb]].
  all: unfold upd_st, ret; apply Good_put; auto; lia.
Qed.

Lemma Good_Update max s x v e :
  Good max s -> admissible s (CUpdate x v) ->
  let '(_, s', _) := Update x v s e in Good max s'.
Proof.
  intros Hg Ha; pose proof Hg as (Hi & _ & _); unfold Update; destruct (Validate x); [done|].
  unfold bind, get_st, upd_st, ret; simpl.
  destruct (sessions s !! ID x) as [s0|] eqn:E; [|done].
  destruct (Ha _ E) as [Hu Ht]; rewrite !Clone_id.
  destruct (negb (Version _ =? v)); [done|].
  assert (forall toks, Inv (MkStore (<[ID x := x]> (sessions s)) toks (userIndex s)
                        (maxSessionsPerUser s)) ->
    Good max (MkStore (<[ID x := IncrVersion x]> (sessions s)) toks (userIndex s)
                        (maxSessionsPerUser s))) as Hcl.
  { intros toks Hn; eapply Good_same_index; [exact Hg| |done|done].
    pose proof (Inv_replace _ x (IncrVersion x) Hn) as Hr; simpl in Hr.
    rewrite lookup_insert_eq, insert_insert_eq in Hr; by apply Hr. }
  destruct (String.eqb_spec (TokenHash s0) (TokenHash x)) as [Et|Et].
  - apply Hcl; eapply Inv_replace; eauto.
  - pose proof (Inv_rehash s s0 x Hi E Hu Et) as Hr.
    destruct (String.eqb_spec (TokenHash x) "") as [Ex|Ex].
    + apply Hcl, Hr; auto.
    + assert (tokens s !! TokenHash x = None) as Hn by naive_solver.
      rewrite decide_False.
      * apply Hcl, Hr; auto.
      * intros [i Hin]; case_match; [congruence|].
        apply lookup_delete_Some in Hin as [_ Hin]; congruence.
Qed.

Lemma Good_UpdateSession max s x e :
  Good max s -> admissible s (CUpdateSession x) ->
  let '(_, s', _) := UpdateSession x s e in Good max s'.
Proof.
  intros Hg Ha; pose proof Hg as (Hi & _ & _); unfold UpdateSession.
  destruct (Validate x); [done|]. unfold bind, get_st, upd_st, ret; simpl.
  destruct (sessions s !! ID x) as [s0|] eqn:E; [|done].
  destruct (Ha _ E) as [Hu Ht]; rewrite Clone_id.
  eapply Good_same_index; [exact Hg| |done|done]; eapply Inv_replace; eauto.
Qed.

Lemma Good_Touch max id ip ua : preserves (Good max) (Touch_ id ip ua).
Proof.
  intros s e Hg; pose proof Hg as (Hi & _ & _); unfold Touch_, bind at 1, get_st; simpl.
  destruct (sessions s !! id) as [x|] eqn:E; [|done].
  destruct (IsExpired_run x s e) as (e1 & H1); erewrite bind_run by exact H1.
  destruct (expired_at _ x); [done|].
  destruct (Touch_fields ip ua x s e1) as (y & e2 & H2 & Hid & Hu & Ht & _).
  erewrite bind_run by exact H2; unfold bind, upd_st, ret; simpl.
  pose proof (inv_id s Hi _ _ E) as Ei; subst id; rewrite <- Hid in E |- *.
  eapply Good_same_index; [exact Hg| |done|done]; eapply Inv_replace; eauto.
Qed.

Lemma Delete_run id s e :
  Delete id s e =
  (match sessions s !! id with None => Some ErrSessionNotFound | Some _ => None end,
   drop_id id s, e).
Proof. unfold Delete, bind, get_st, drop_id; by destruct (sessions s !! id). Qed.

(** Under the invariant a token hash leads to one live session, so dropping
    by token is dropping that session. *)
Lemma DeleteByToken_run h s e :
  Inv s ->
  DeleteByToken h s e =
  match tokens s !! h with
  | None => (Some ErrTokenInvalid, s, e)
  | Some id => (None, drop_id id s, e)
  end.
Proof.
  intros Hi; unfold DeleteByToken, bind, get_st, upd_st, ret, drop_id; simpl.
  destruct (tokens s !! h) as [id|] eqn:E; [|done]; simpl.
  apply (inv_tok s Hi) in E as (Hne & x & Hx & Ht); rewrite Hx; unfold drop_session.
  rewrite Ht; by destruct (String.eqb_spec h "").
Qed.

Lemma GetByToken_run h s e :
  Inv s -> exists e',
  GetByToken h s e =
  (match tokens s !! h with
   | None => Err ErrTokenInvalid
   | Some id => match sessions s !! id with
                | None => Err ErrTokenInvalid
                | Some x => if expired_at (unix_milli (clk e 0%nat)) x
                            then Err ErrSessionExpired else Ok x
                end
   end, s, e').
Proof.
  intros Hi; unfold GetByToken, bind at 1, get_st; simpl.
  destruct (tokens s !! h) as [id|] eqn:E; [|by eexists].
  apply (inv_tok s Hi) in E as (Hne & x & Hx & Ht); rewrite Hx.
  destruct (IsExpired_run x s e) as (e1 & H1); erewrite bind_run by exact H1.
  rewrite Clone_id; exists e1; by destruct (expired_at _ x).
Qed.

Lemma Get_run id s e :
  exists e', Get id s e =
  (match sessions s !! id with
   | None => Err ErrSessionNotFound
   | Some x => if expired_at (unix_milli (clk e 0%nat)) x then Err ErrSessionExpired else Ok x
   end, s, e').
Proof.
  unfold Get, bind at 1, get_st; simpl; destruct (sessions s !! id) as [x|]; [|by eexists].
  destruct (IsExpired_run x s e) as (e1 & H1); erewrite bind_run by exact H1.
  rewrite Clone_id; exists e1; by destruct (expired_at _ x).
Qed.

Lemma Good_Cleanup max : preserves (Good max) DeleteExpired.
Proof.
  unfold DeleteExpired, CleanupExpired; intros s e Hg; unfold bind at 1, get_st; simpl.
  assert (preserves (fun s' => s' = s) (for_collect (map_to_list (sessions s))
    (fun kv : string * Session => expired <- IsExpired (snd kv) ;;
      ret (if expired then Some (fst kv) else None)))) as Hs by preserves_tac.
  specialize (Hs s e eq_refl); unfold bind at 1.
  destruct (for_collect _ _ s e) as [[ids s'] e']; subst s'.
  erewrite bind_run by apply cleanup_loop. by apply Good_drop_all.
Qed.

Lemma Good_List max f : preserves (Good max) (List f).
Proof. unfold List; preserves_tac. Qed.

Lemma Good_ListByUserID max u : preserves (Good max) (ListByUserID u).
Proof. unfold ListByUserID; preserves_tac. Qed.
#[export] Hint Resolve Good_Create Good_Touch Good_Cleanup Good_List Good_ListByUserID : go.

Lemma Good_run_call max s c e :
  Good max s -> admissible s c -> let '(_, s', _) := run_call c s e in Good max s'.
Proof.
  intros Hg Ha; pose proof Hg as (Hi & _).
  assert (forall A (m : M Store A), (let '(_, s', _) := m s e in Good max s') ->
            let '(_, s', _) := (m ;;; ret tt) s e in Good max s') as Hseq.
  { intros A m H; unfold bind; by destruct (m s e) as [[a s'] e']. }
  destruct c; apply Hseq.
  - by destruct (Get_run id s e) as (e' & ->).
  - by destruct (GetByToken_run h s e Hi) as (e' & ->).
  - by apply Good_Create.
  - by apply Good_Update.
  - by apply Good_UpdateSession.
  - by apply Good_Touch.
  - rewrite Delete_run; by apply Good_drop_id.
  - rewrite DeleteByToken_run by done; destruct (tokens s !! h); auto using Good_drop_id.
  - rewrite DeleteByUserID_run by done; by apply Good_drop_all.
  - by apply Good_ListByUserID.
  - by apply Good_List.
  - by apply Good_Cleanup.
Qed.
