(* ===== verification/MemoryStoreSpec.v ===== *)
(** Properties of the in-memory store: consistency of the indexes, the
    functional behaviour of each operation, optimistic locking, listing, and the
    two places where the code falls short. *)

From Stdlib Require Import Ascii String Sorting.Sorted.
From stdpp Require Import list sorting strings gmap fin_maps sets.
From S2P Require Import Prelude Errors GoStrings Session MemoryStore MemoryStoreFacts.

#[local] Set Warnings "-clear-no-such-hyp".
Open Scope string_scope.
Open Scope Z_scope.

(** The order a listing is delivered in. *)
Definition in_order (sortBy sortOrder : string) (x y : Session) : Prop :=
  if String.eqb sortOrder "asc" then sort_key sortBy x <= sort_key sortBy y
  else sort_key sortBy y <= sort_key sortBy x.

Lemma sort_sessions_spec by_ order l :
  sort_slice (sort_less by_ order) l ≡ₚ l /\
  StronglySorted (in_order by_ order) (sort_slice (sort_less by_ order) l).
Proof.
  unfold in_order, sort_less.
  apply sort_slice_spec; intros x y; destruct (String.eqb order "asc");
    destruct (Z.ltb_spec (sort_key by_ x) (sort_key by_ y)); simpl; intros; try discriminate; lia.
Qed.

Lemma elem_of_sort by_ order l x : x ∈ sort_slice (sort_less by_ order) l <-> x ∈ l.
Proof. destruct (sort_sessions_spec by_ order l) as [Hp _]; by rewrite Hp. Qed.

(** ** Listing *)
Definition or_default (d v : string) : string := if String.eqb v "" then d else v.

(** The whole filtered and sorted sequence that pages are cut from. *)
Definition selected (s : Store) (f : SessionFilter) (now : Z) : list Session :=
  let candidates :=
    if negb (String.eqb (f_UserID f) "")
    then omap (fun id => sessions s !! id) (UserIndex.Get (userIndex s) (f_UserID f))
    else map snd (map_to_list (sessions s)) in
  sort_slice (sort_less (or_default "created_at" (f_SortBy f)) (or_default "desc" (f_SortOrder f)))
    (List.filter (keep f now) candidates).

Lemma List_run f s e :
  exists e', List f s e =
  (let all := selected s f (unix_milli (clk e 0%nat)) in
   match page_bounds (norm_page (f_Page f)) (norm_page_size (f_PageSize f)) (llen all) with
   | None => Some ([], llen all)
   | Some (startIdx, endIdx) =>
       match index_range all startIdx endIdx with
       | None => None
       | Some results => Some (results, llen all)
       end
   end, s, e').
Proof.
  unfold List, selected, or_default, bind at 1, get_st; cbn beta iota.
  unfold now_milli, bind, time_now, ret; cbn beta iota; eexists.
  set (cand := if negb (String.eqb (f_UserID f) "") then _ else _).
  set (fl := List.filter _ cand).
  assert (forall lt : Session -> Session -> bool, llen (sort_slice lt fl) = llen fl) as Hlen.
  { intros lt; unfold llen; f_equal; apply Permutation_length.
    apply (sort_slice_spec lt (fun _ _ => True)); auto. }
  rewrite !Hlen; destruct (page_bounds _ _ _) as [[st en]|]; [|done].
  destruct (index_range _ st en) as [r|]; [|done].
  assert (map Clone r = r) as -> by (rewrite <- (map_id r) at 2; apply map_ext, Clone_id).
  done.
Qed.

Lemma elem_of_selected s f now x :
  Inv s ->
  x ∈ selected s f now <->
  sessions s !! ID x = Some x /\ keep f now x = true /\
  (f_UserID f = "" \/ UserID x = f_UserID f).
Proof.
  intros Hs; unfold selected; rewrite elem_of_sort.
  rewrite list_elem_of_In, filter_In, <- list_elem_of_In.
  destruct (String.eqb_spec (f_UserID f) "") as [E|E]; simpl.
  - rewrite list_elem_of_In, in_map_iff; split.
    + intros [([i y] & <- & Hin) Hk]; apply list_elem_of_In, elem_of_map_to_list in Hin.
      simpl in *; rewrite (inv_id s Hs _ _ Hin); auto.
    + intros (Hx & Hk & _); split; [|done]. exists (ID x, x); split; [done|].
      by apply list_elem_of_In, elem_of_map_to_list.
  - rewrite list_elem_of_omap; split.
    + intros [(id & Hid & Hx) Hk]; apply (elem_of_Get s _ _ Hs) in Hid as (y & Hy & Hu).
      assert (y = x) as -> by congruence. rewrite (inv_id s Hs _ _ Hx); auto.
    + intros (Hx & Hk & [|Hu]); [done|]. split; [|done].
      exists (ID x); split; [|done]. apply (elem_of_Get s _ _ Hs); by exists x.
Qed.

Lemma NoDup_selected s f now : Inv s -> NoDup (map ID (selected s f now)).
Proof.
  intros Hs; unfold selected.
  destruct (sort_sessions_spec (or_default "created_at" (f_SortBy f))
    (or_default "desc" (f_SortOrder f)) (List.filter (keep f now)
      (if negb (String.eqb (f_UserID f) "")
       then omap (fun id => sessions s !! id) (UserIndex.Get (userIndex s) (f_UserID f))
       else map snd (map_to_list (sessions s))))) as [Hp _].
  apply NoDup_ListNoDup; eapply Permutation_NoDup; [apply Permutation_map; symmetry; exact Hp|].
  clear Hp.
  assert (forall l, NoDup (map ID l) -> List.NoDup (map ID (List.filter (keep f now) l))) as Hf.
  { intros l Hl; apply NoDup_ListNoDup; induction l as [|x l IH]; simpl in *; [constructor|].
    apply NoDup_cons in Hl as [Hn Hl]; destruct (keep f now x); simpl; auto.
    constructor; auto. intros Hin; apply Hn. rewrite list_elem_of_In in Hin |- *.
    apply in_map_iff in Hin as (y & <- & Hy); apply filter_In in Hy as [Hy _].
    by apply in_map. }
  apply Hf; destruct (negb _).
  - assert (forall ids, NoDup ids -> NoDup (map ID (omap (fun id => sessions s !! id) ids)) /\
      (forall id, id ∈ map ID (omap (fun id => sessions s !! id) ids) -> id ∈ ids)) as H;
      [|apply H, NoDup_Get].
    induction ids as [|i ids IH]; intros Hd; simpl; [split; [constructor|done]|].
    apply NoDup_cons in Hd as [Hn Hd]; destruct (IH Hd) as [IH1 IH2].
    destruct (sessions s !! i) as [x|] eqn:E; simpl; [|split; [done|set_solver]].
    rewrite (inv_id s Hs _ _ E); split; [constructor; auto|set_solver].
  - assert (map ID (map snd (map_to_list (sessions s))) = map fst (map_to_list (sessions s))) as ->.
    { rewrite map_map; apply map_ext_in; intros [i x] Hin%list_elem_of_In.
      apply elem_of_map_to_list in Hin; simpl; by apply (inv_id s Hs). }
    apply NoDup_fst_map_to_list.
Qed.

Definition page_of {A} (l : list A) (page size : Z) : list A :=
  firstn (Z.to_nat size) (skipn (Z.to_nat ((page - 1) * size)) l).

Lemma page_exact {A} (l : list A) page size :
  1 <= page -> 1 <= size -> page * size < 2 ^ 63 ->
  match page_bounds page size (llen l) with
  | None => Some []
  | Some (startIdx, endIdx) => index_range l startIdx endIdx
  end = Some (page_of l page size).
Proof.
  intros Hp Hs Hb; unfold page_bounds, page_of, llen.
  assert (0 <= (page - 1) * size) by nia.
  assert ((page - 1) * size + size = page * size) as E by nia.
  rewrite (i64_id ((page - 1) * size)), i64_id by (unfold in_i64; nia).
  set (start := (page - 1) * size) in *.
  destruct (Z.leb_spec (Z.of_nat (length l)) start).
  { by rewrite skipn_all2, firstn_nil by lia. }
  unfold index_range, llen; destruct (Z.ltb_spec (Z.of_nat (length l)) (start + size)).
  - rewrite (proj2 (Z.leb_gt _ _)) by lia.
    rewrite (proj2 (Z.ltb_ge start 0)), (proj2 (Z.ltb_ge _ (Z.of_nat (length l)))) by lia.
    simpl; f_equal. rewrite !firstn_all2; rewrite ?length_skipn; lia || done.
  - rewrite (proj2 (Z.leb_gt _ _)) by lia.
    rewrite (proj2 (Z.ltb_ge start 0)), (proj2 (Z.ltb_ge _ (start + size))) by lia.
    simpl; do 2 f_equal; lia.
Qed.

Lemma norm_bounds f : 1 <= norm_page (f_Page f) /\ 1 <= norm_page_size (f_PageSize f) <= 100.
Proof.
  unfold norm_page, norm_page_size.
  destruct (Z.ltb_spec (f_Page f) 1), (Z.leb_spec (f_PageSize f) 0),
    (Z.ltb_spec 100 (f_PageSize f)); lia.
Qed.

(** ** Properties *)


(** Storing a session: the checks in the order of the code (validity,
    quota, id, token hash) decide the answer; a refusal leaves the store
    unchanged, an acceptance makes the session retrievable by its id and its
    token hash, changes no other session, and keeps the indexes consistent. *)
Theorem Create_spec (s : Store) (x : Session) (e : env) (Hs : Inv s) :
  let answer :=
    match Validate x with
    | Some err => Some err
    | None =>
        if maxSessionsPerUser s <=? UserIndex.Count (userIndex s) (UserID x)
        then Some ErrSessionQuotaExceeded
        else if decide (is_Some (sessions s !! ID x)) then Some ErrSessionConflict
        else if decide (TokenHash x <> "" /\ is_Some (tokens s !! TokenHash x))
        then Some ErrTokenHashConflict else None
    end in
  exists s', Create x s e = (answer, s', e) /\ Inv s' /\
    (answer <> None -> s' = s) /\
    (answer = None ->
       sessions s' = <[ID x := x]> (sessions s) /\
       (expired_at (unix_milli (clk e 0%nat)) x = false ->
        fst (fst (Get (ID x) s' e)) = Ok x /\
        (TokenHash x <> "" -> fst (fst (GetByToken (TokenHash x) s' e)) = Ok x))).
Proof.
  cbv zeta; unfold Create; destruct (Validate x) as [err|]; [by exists s|].
  unfold bind at 1, get_st; cbn beta iota.
  destruct (maxSessionsPerUser s <=? _); [by exists s|].
  destruct (decide (is_Some (sessions s !! ID x))) as [|Hid]; [by exists s|].
  rewrite <- eq_None_not_Some in Hid.
  assert (forall b, (b = negb (String.eqb (TokenHash x) "") &&
            bool_decide (is_Some (tokens s !! TokenHash x))) ->
          (b = true <-> TokenHash x <> "" /\ is_Some (tokens s !! TokenHash x))) as Hb.
  { intros b ->; rewrite andb_true_iff, negb_true_iff, String.eqb_neq, bool_decide_eq_true; tauto. }
  destruct (negb _ && _) eqn:E; specialize (Hb _ eq_refl).
  { exists s; rewrite decide_True by (by apply Hb); by split_ands. }
  rewrite decide_False by (intros H; apply Hb in H; discriminate).
  assert (TokenHash x = "" \/ tokens s !! TokenHash x = None) as Ht.
  { destruct (decide (TokenHash x = "")) as [|Hne]; [by left|right].
    apply eq_None_not_Some; intros H; destruct Hb as [_ Hb]; discriminate Hb; by split. }
  pose proof (Inv_put_session s x Hs Hid Ht) as Hs'.
  exists (put_session x s); split; [reflexivity|]; split; [exact Hs'|].
  split; [done|]; intros _; split; [unfold put_session; simpl; by rewrite Clone_id|].
  intros Hexp; assert (sessions (put_session x s) !! ID x = Some x) as Hl
    by (unfold put_session; simpl; by rewrite lookup_insert_eq, Clone_id).
  destruct (Get_run (ID x) (put_session x s) e) as (e1 & H1).
  rewrite H1, Hl, Hexp; split; [done|]; intros Hne.
  destruct (GetByToken_run (TokenHash x) (put_session x s) e Hs') as (e2 & H2); rewrite H2.
  assert (tokens (put_session x s) !! TokenHash x = Some (ID x)) as Htk.
  { unfold put_session; simpl; destruct (String.eqb_spec (TokenHash x) ""); [done|].
    by rewrite lookup_insert_eq. }
  by rewrite Htk, Hl, Hexp.
Qed.

(** Looking a token hash up through the two indexes is the same as
    searching all sessions: the answer is the one session that carries the
    hash, if it has not expired, and the store is not changed. *)
Theorem GetByToken_refines (s : Store) (h : string) (e : env) (Hs : Inv s) :
  let now := unix_milli (clk e 0%nat) in
  let '(r, s', _) := GetByToken h s e in
  s' = s /\
  (forall x, r = Ok x <->
     h <> "" /\ sessions s !! ID x = Some x /\ TokenHash x = h /\ expired_at now x = false) /\
  (r = Err ErrTokenInvalid <->
     forall x id, sessions s !! id = Some x -> h <> "" -> TokenHash x <> h) /\
  (r = Err ErrSessionExpired <->
     exists x, h <> "" /\ sessions s !! ID x = Some x /\ TokenHash x = h /\
               expired_at now x = true).
Proof.
  cbv zeta; destruct (GetByToken_run h s e Hs) as (e' & ->); split; [done|].
  assert (forall x, tokens s !! h = Some (ID x) /\ sessions s !! ID x = Some x <->
            h <> "" /\ sessions s !! ID x = Some x /\ TokenHash x = h) as Hx.
  { intros x; rewrite (inv_tok s Hs); unfold has_session; split.
    - intros ((Hne & y & Hy & Ht) & Hl); split_ands; congruence.
    - intros (Hne & Hl & Ht); split_ands; eauto. }
  destruct (tokens s !! h) as [id|] eqn:E.
  - pose proof E as (Hne & y & Hy & Ht)%(inv_tok s Hs); rewrite Hy.
    pose proof (inv_id s Hs _ _ Hy); subst id.
    assert (forall x, h <> "" /\ sessions s !! ID x = Some x /\ TokenHash x = h <-> x = y) as Hu.
    { intros x; rewrite <- Hx; split; [|intros ->; auto]; intros [Hi Hl]; congruence. }
    destruct (expired_at _ y) eqn:Ee; split_ands.
    + intros x; split; [discriminate|]; intros (? & ? & ? & ?); assert (x = y) by (apply Hu; auto); congruence.
    + split; [discriminate|]; intros H; destruct (H y (ID y)); auto.
    + split; [|done]; intros _; exists y; auto.
    + intros x; split; [intros [= <-]; auto|]; intros (? & ? & ? & ?); f_equal; symmetry; apply Hu; auto.
    + split; [discriminate|]; intros H; destruct (H y (ID y)); auto.
    + split; [discriminate|]; intros (x & ? & ? & ? & ?); assert (x = y) by (apply Hu; auto); congruence.
  - split_ands.
    + intros x; split; [discriminate|]; intros (? & ? & ? & ?).
      destruct (Hx x) as [_ [? _]]; [auto|discriminate].
    + split; [|done]; intros _ x id Hl Hne Ht; pose proof (inv_id s Hs _ _ Hl); subst id.
      destruct (Hx x) as [_ [? _]]; [auto|discriminate].
    + split; [discriminate|]; intros (x & ? & ? & ? & ?).
      destruct (Hx x) as [_ [? _]]; [auto|discriminate].
Qed.

(** What a successful update leaves behind. *)
Lemma Update_success s x v e s' e' x' :
  Update x v s e = ((None, x'), s', e') ->
  sessions s' = <[ID x := IncrVersion x]> (sessions s) /\
  x' = IncrVersion x /\
  exists old, sessions s !! ID x = Some old /\ Version old = v.
Proof.
  unfold Update; destruct (Validate x); [discriminate|].
  unfold bind, get_st, upd_st, ret; cbn beta iota.
  destruct (sessions s !! ID x) as [old|] eqn:E; [|discriminate].
  destruct (Z.eqb_spec (Version old) v); simpl; [|discriminate]. rewrite !Clone_id; simpl.
  assert (SetVersion (u64 (Version x + 1)) x = IncrVersion x) as -> by done.
  repeat case_match; intros [= <- <- <-]; eauto.
Qed.

(** Optimistic locking: of two clients that read a session at version [v]
    and both write back with that version (each having left the version of
    its copy alone, or incremented it as the service does), the second gets a
    version conflict and changes nothing; the first one's fields are stored
    under a larger version. *)
Theorem no_lost_update (s s1 : Store) (x y : Session) (v : Z) (e e1 e2 : env) (x' : Session)
    (Hv : 0 <= v < 2 ^ 63) (Hx : Version x = v \/ Version x = v + 1)
    (Hfirst : Update x v s e = ((None, x'), s1, e1))
    (Hid : ID y = ID x) (Hvalid : Validate y = None) :
  sessions s1 !! ID x = Some x' /\ v < Version x' /\ SetVersion (Version x) x' = x /\
  Update y v s1 e2 = ((Some ErrSessionVersionConflict, y), s1, e2).
Proof.
  apply Update_success in Hfirst as (Hs1 & -> & _).
  assert (Version (IncrVersion x) = Version x + 1) as Hver.
  { simpl; apply u64_id; unfold two64; lia. }
  rewrite Hs1, lookup_insert_eq; split_ands; [done|lia|by destruct x|].
  unfold Update; rewrite Hvalid; unfold bind, get_st; cbn beta iota.
  rewrite Hid, Hs1, lookup_insert_eq, Hver, (proj2 (Z.eqb_neq _ _)) by lia; done.
Qed.

(** An update that gives a session a token hash another session already owns
    is refused with [ErrTokenHashConflict], but not before the session's old
    hash has been unmapped: from then on its (unchanged) record cannot be found by the
    token it still carries. *)
Theorem Update_conflict_loses_token (s : Store) (old x : Session) (e : env)
    (Hs : Inv s) (Hold : sessions s !! ID x = Some old) (Hh : TokenHash old <> "")
    (Hvalid : Validate x = None) (Hne : TokenHash x <> TokenHash old) (Hx : TokenHash x <> "")
    (Hconf : is_Some (tokens s !! TokenHash x)) :
  exists s', Update x (Version old) s e = ((Some ErrTokenHashConflict, x), s', e) /\
    sessions s' = sessions s /\
    tokens s !! TokenHash old = Some (ID x) /\
    fst (fst (GetByToken (TokenHash old) s' e)) = Err ErrTokenInvalid /\ ~ Inv s'.
Proof.
  assert (tokens s !! TokenHash old = Some (ID x)) as Ht.
  { apply (inv_tok s Hs); split; [done|]; by exists old. }
  unfold Update; rewrite Hvalid; unfold bind at 1, get_st; cbn beta iota.
  rewrite Hold, Z.eqb_refl; simpl.
  rewrite (proj2 (String.eqb_neq (TokenHash old) (TokenHash x))) by auto.
  rewrite (proj2 (String.eqb_neq (TokenHash old) "")), (proj2 (String.eqb_neq (TokenHash x) "")) by auto.
  rewrite decide_True by (by rewrite lookup_delete_ne by auto).
  eexists; split; [reflexivity|]; simpl; split_ands; auto.
  - by unfold GetByToken, bind, get_st; simpl; rewrite lookup_delete_eq.
  - intros Hi; assert (tokens (MkStore (sessions s) (delete (TokenHash old) (tokens s))
      (userIndex s) (maxSessionsPerUser s)) !! TokenHash old = Some (ID x)) as Hd.
    { apply (inv_tok _ Hi); split; [done|]; by exists old. }
    simpl in Hd; by rewrite lookup_delete_eq in Hd.
Qed.

(** Revoking all sessions of a user removes exactly the sessions of
    that user, reports their number, and keeps the indexes consistent. *)
Theorem DeleteByUserID_spec (s : Store) (u : string) (e : env) (Hs : Inv s) :
  let '(n, s', e') := DeleteByUserID u s e in
  Inv s' /\ e' = e /\
  sessions s' = filter (fun kv => UserID (snd kv) <> u) (sessions s) /\
  n = Z.of_nat (size (filter (fun kv => UserID (snd kv) = u) (sessions s))) /\
  fst (fst (CountByUserID u s' e)) = 0.
Proof.
  rewrite DeleteByUserID_run by done; split_ands; [by apply Inv_drop_all|done| | |].
  - apply map_eq; intros id; rewrite lookup_drop_all; apply option_eq; intros x.
    rewrite map_lookup_filter_Some; simpl; case_decide as Hin; rewrite (elem_of_Get s u id Hs) in Hin.
    + split; [discriminate|]; intros [Hx Hu]; destruct Hin as (y & Hy & Hu'); congruence.
    + split; [|tauto]; intros Hx; split; [done|]; intros Hu; apply Hin; by exists x.
  - rewrite <- length_Get; unfold llen; f_equal.
    rewrite <- (size_list_to_set (C := gset string) (UserIndex.Get (userIndex s) u)) by apply NoDup_Get.
    rewrite <- size_dom; f_equal; apply set_eq; intros id.
    rewrite elem_of_list_to_set, (elem_of_Get s u id Hs), elem_of_dom; unfold has_session, is_Some.
    setoid_rewrite map_lookup_filter_Some; simpl; naive_solver.
  - unfold CountByUserID, bind, get_st, ret, UserIndex.Count; simpl.
    by rewrite index_drop_user, lookup_delete_eq.
Qed.

(** The expiry sweep removes exactly the sessions that are past their
    expiry (sessions without expiry stay) and reports their number. *)
Theorem CleanupExpired_spec (s : Store) (e : env) (t : Z) (Hs : Inv s) (Ht : still t e) :
  let '(n, s', _) := CleanupExpired s e in
  Inv s' /\
  sessions s' = filter (fun kv => expired_at (unix_milli t) (snd kv) = false) (sessions s) /\
  n = Z.of_nat (size (filter (fun kv => expired_at (unix_milli t) (snd kv) = true) (sessions s))).
Proof.
  unfold CleanupExpired, bind at 1, get_st; cbn beta iota.
  destruct (cleanup_scan t (map_to_list (sessions s)) s e Ht) as (e' & H1 & _).
  erewrite bind_run by exact H1; erewrite bind_run by apply cleanup_loop; unfold ret.
  set (ids := map fst _).
  assert (forall id, id ∈ ids <-> exists x, sessions s !! id = Some x /\
            expired_at (unix_milli t) x = true) as Hids by (intros; apply elem_of_scan).
  split_ands; [by apply Inv_drop_all| |].
  - apply map_eq; intros id; rewrite lookup_drop_all; apply option_eq; intros x.
    rewrite map_lookup_filter_Some; simpl; case_decide as Hin; rewrite Hids in Hin.
    + split; [discriminate|]; intros [Hx Hu]; destruct Hin as (y & Hy & Hu'); congruence.
    + split; [|tauto]; intros Hx; split; [done|].
      destruct (expired_at _ x) eqn:E; [|done]; destruct Hin; by exists x.
  - unfold llen; f_equal.
    rewrite <- (size_list_to_set (C := gset string) ids) by apply NoDup_scan.
    rewrite <- size_dom; f_equal; apply set_eq; intros id.
    rewrite elem_of_list_to_set, Hids, elem_of_dom; unfold is_Some.
    setoid_rewrite map_lookup_filter_Some; done.
Qed.

(** Listing: the page returned is cut from the sessions that pass every
    filter (all of them and only them, each once), ordered by the requested key
    and direction; the total counts them all and a page holds at most 100.  The
    store is not changed. *)
Theorem List_spec (s : Store) (f : SessionFilter) (e : env) (Hs : Inv s)
    (Hpage : norm_page (f_Page f) * norm_page_size (f_PageSize f) < 2 ^ 63) :
  exists all e',
    List f s e =
      (Some (page_of all (norm_page (f_Page f)) (norm_page_size (f_PageSize f)), llen all), s, e') /\
    NoDup (map ID all) /\
    StronglySorted (in_order (or_default "created_at" (f_SortBy f))
                     (or_default "desc" (f_SortOrder f))) all /\
    (forall x, x ∈ all <->
       sessions s !! ID x = Some x /\ keep f (unix_milli (clk e 0%nat)) x = true /\
       (f_UserID f = "" \/ UserID x = f_UserID f)) /\
    llen (page_of all (norm_page (f_Page f)) (norm_page_size (f_PageSize f))) <= 100.
Proof.
  destruct (List_run f s e) as (e' & Hrun); exists (selected s f (unix_milli (clk e 0%nat))), e'.
  destruct (norm_bounds f) as (Hp & Hsz & Hsz').
  set (all := selected s f _) in *; split_ands.
  - rewrite Hrun; cbv zeta; do 2 f_equal. pose proof (page_exact all _ _ Hp Hsz Hpage) as Hx.
    destruct (page_bounds _ _ _) as [[st en]|]; [by rewrite Hx|congruence].
  - by apply NoDup_selected.
  - apply sort_sessions_spec.
  - intros x; by apply elem_of_selected.
  - unfold page_of, llen; rewrite length_firstn; lia.
Qed.

(** The page arithmetic overflows: a request for page 92233720368547760 of
    100 sessions computes a negative start index and dies with an
    index-out-of-range panic, whatever the store holds. *)
Theorem List_huge_page_panics (s : Store) (e : env) (u : string) :
  fst (fst (List (MkFilter u "" "" "" "" None None None "" "" 92233720368547760 100) s e)) = None.
Proof.
  destruct (List_run (MkFilter u "" "" "" "" None None None "" "" 92233720368547760 100) s e)
    as (e' & ->); unfold page_bounds; simpl fst.
  set (n := llen _); assert (0 <= n) by (unfold n, llen; lia).
  change (norm_page _) with 92233720368547760; change (norm_page_size _) with 100.
  set (st := i64 _); assert (st = -9223372036854775716) as -> by reflexivity.
  set (en := i64 _); assert (en = -9223372036854775616) as -> by reflexivity.
  rewrite (proj2 (Z.leb_gt n _)), (proj2 (Z.ltb_ge n _)) by lia; reflexivity.
Qed.

(** ** Witnesses *)
Definition demo_session (id user hash : string) (version expires : Z) : Session :=
  MkSession id user hash "" "" "" "" "" "" 1000 expires 1000 None version 0 0 false.
Definition demo_env : env := Env (fun _ => 5000000000) (fun _ _ => Err ErrInternalServer)
  (fun _ => Err ErrInternalServer).
Definition demo_store : Store :=
  put_session (demo_session "s2" "u" "h2" 1 9000)
    (put_session (demo_session "s1" "u" "h1" 1 4000) (New 50)).

Lemma demo_store_Inv : Inv demo_store.
Proof.
  apply Inv_put_session; [apply Inv_put_session; [apply Inv_New| |]| |];
    try reflexivity; right; reflexivity.
Qed.


Lemma Create_spec_witness :
  fst (fst (Create (demo_session "s3" "u" "h2" 1 0) demo_store demo_env)) =
    Some ErrTokenHashConflict.
Proof.
  destruct (Create_spec demo_store (demo_session "s3" "u" "h2" 1 0) demo_env demo_store_Inv)
    as (s' & H & _); rewrite H; vm_compute; reflexivity.
Defined.

Lemma GetByToken_refines_witness :
  fst (fst (GetByToken "h2" demo_store demo_env)) = Ok (demo_session "s2" "u" "h2" 1 9000).
Proof.
  pose proof (GetByToken_refines demo_store "h2" demo_env demo_store_Inv) as H; cbv zeta in H.
  destruct (GetByToken "h2" demo_store demo_env) as [[r s'] e'] eqn:E.
  destruct H as (_ & H & _); apply (H (demo_session "s2" "u" "h2" 1 9000)).
  split_ands; [discriminate|reflexivity..].
Defined.

Lemma no_lost_update_witness :
  let x := demo_session "s2" "u" "h2" 1 9999 in
  let '(_, s1, _) := Update x 1 demo_store demo_env in
  Update (demo_session "s2" "u" "h2" 1 7777) 1 s1 demo_env =
    ((Some ErrSessionVersionConflict, demo_session "s2" "u" "h2" 1 7777), s1, demo_env).
Proof.
  cbv zeta.
  destruct (Update (demo_session "s2" "u" "h2" 1 9999) 1 demo_store demo_env)
    as [[[r x'] s1] e1] eqn:E.
  assert (r = None) as -> by (vm_compute in E; congruence).
  eapply (no_lost_update demo_store s1 (demo_session "s2" "u" "h2" 1 9999)
            (demo_session "s2" "u" "h2" 1 7777) 1 demo_env e1 demo_env x'); try reflexivity;
    [lia|by left|exact E].
Defined.

Lemma Update_conflict_loses_token_witness :
  exists s', Update (demo_session "s1" "u" "h2" 1 4000) 1 demo_store demo_env =
    ((Some ErrTokenHashConflict, demo_session "s1" "u" "h2" 1 4000), s', demo_env).
Proof.
  destruct (Update_conflict_loses_token demo_store (demo_session "s1" "u" "h1" 1 4000)
    (demo_session "s1" "u" "h2" 1 4000) demo_env demo_store_Inv) as (s' & H & _);
    [reflexivity|discriminate|reflexivity|discriminate|discriminate|by eexists|].
  exists s'; exact H.
Defined.

Lemma DeleteByUserID_spec_witness :
  fst (fst (DeleteByUserID "u" demo_store demo_env)) = 2.
Proof.
  pose proof (DeleteByUserID_spec demo_store "u" demo_env demo_store_Inv) as H.
  destruct (DeleteByUserID "u" demo_store demo_env) as [[n s'] e'].
  destruct H as (_ & _ & _ & H & _); simpl; rewrite H; vm_compute; reflexivity.
Defined.

Lemma CleanupExpired_spec_witness :
  fst (fst (CleanupExpired demo_store demo_env)) = 1.
Proof.
  pose proof (CleanupExpired_spec demo_store demo_env 5000000000 demo_store_Inv
    (fun _ => eq_refl)) as H.
  destruct (CleanupExpired demo_store demo_env) as [[n s'] e'].
  destruct H as (_ & _ & H); simpl; rewrite H; vm_compute; reflexivity.
Defined.

Lemma List_spec_witness :
  exists all e', List (MkFilter "u" "" "" "" "active" None None None "" "asc" 1 10) demo_store demo_env
    = (Some (page_of all 1 10, llen all), demo_store, e').
Proof.
  destruct (List_spec demo_store (MkFilter "u" "" "" "" "active" None None None "" "asc" 1 10)
    demo_env demo_store_Inv ltac:(vm_compute; reflexivity)) as (all & e' & H & _).
  exists all, e'; exact H.
Defined.
