(* ===== verification/Lru.v ===== *)
(** The bounded recency list shared by the nonce cache and the API-key cache.

    Both keep Go's [container/list] of entries, most recently used first, and a
    map from a key to its list element.  An element is identified by the key
    of its entry, so the list is a list of keys and the map gives the entry. *)

From Stdlib Require Import Ascii String.
From stdpp Require Import list strings gmap fin_maps.
From S2P Require Import Prelude.

Open Scope Z_scope.

Section Lru.
Context {V : Type}.

Record Lru := MkLru {
  items : gmap string V;
  order : list string;
  capacity : Z;
  ttl : Z;
}.

(** [order.Remove(elem)]. *)
Definition list_remove (k : string) (l : list string) : list string :=
  List.filter (fun k' => negb (String.eqb k' k)) l.
Definition MoveToFront (k : string) (c : Lru) : Lru :=
  MkLru (items c) (k :: list_remove k (order c)) (capacity c) (ttl c).
(** [order.Remove(elem); delete(items, k)]. *)
Definition remove_entry (k : string) (c : Lru) : Lru :=
  MkLru (delete k (items c)) (list_remove k (order c)) (capacity c) (ttl c).
(** [items[k] = order.PushFront(entry)]. *)
Definition push_entry (k : string) (v : V) (c : Lru) : Lru :=
  MkLru (<[k := v]> (items c)) (k :: order c) (capacity c) (ttl c).
Definition set_entry (k : string) (v : V) (c : Lru) : Lru :=
  MkLru (<[k := v]> (items c)) (order c) (capacity c) (ttl c).
Definition empty_lru (cap t : Z) : Lru := MkLru ∅ [] cap t.

(** The eviction loop [for order.Len() >= capacity]: when the list is empty the
    body does nothing and the loop goes round again.  [None]: still running
    after [fuel] rounds. *)
Fixpoint evict (fuel : nat) (c : Lru) : option Lru :=
  if llen (order c) <? capacity c then Some c
  else match fuel with
  | O => None
  | S fuel' =>
      match last (order c) with
      | None => evict fuel' c
      | Some oldest => evict fuel' (remove_entry oldest c)
      end
  end.

(** ** Facts *)

(** The map and the list agree. *)
Record wf_lru (c : Lru) : Prop := {
  lru_nodup : NoDup (order c);
  lru_dom : forall k, k ∈ order c <-> is_Some (items c !! k);
}.

Lemma elem_of_list_remove k l k' : k' ∈ list_remove k l <-> k' ∈ l /\ k' <> k.
Proof.
  unfold list_remove; rewrite !list_elem_of_In, filter_In, negb_true_iff, String.eqb_neq; tauto.
Qed.

Lemma NoDup_list_remove k l : NoDup l -> NoDup (list_remove k l).
Proof. rewrite !NoDup_ListNoDup; apply List.NoDup_filter. Qed.

Lemma list_remove_notin k l : k ∉ l -> list_remove k l = l.
Proof.
  unfold list_remove; induction l as [|x l IH]; simpl; intros H; [done|].
  destruct (String.eqb_spec x k) as [->|]; [set_solver|]; simpl; f_equal; set_solver.
Qed.

Lemma list_remove_app k l l' : list_remove k (l ++ l') = list_remove k l ++ list_remove k l'.
Proof. apply List.filter_app. Qed.

Lemma wf_empty cap t : wf_lru (empty_lru cap t).
Proof.
  split; simpl; [constructor|]. intros k; rewrite lookup_empty; split; [set_solver|].
  by intros [].
Qed.

Lemma wf_remove k c : wf_lru c -> wf_lru (remove_entry k c).
Proof.
  intros [Hn Hd]; split; simpl; [by apply NoDup_list_remove|].
  intros k'; rewrite elem_of_list_remove, Hd, lookup_delete_is_Some; naive_solver.
Qed.

Lemma wf_move k c : wf_lru c -> k ∈ order c -> wf_lru (MoveToFront k c).
Proof.
  intros [Hn Hd] Hk; split; simpl.
  - constructor; [rewrite elem_of_list_remove; naive_solver|by apply NoDup_list_remove].
  - intros k'; rewrite elem_of_cons, elem_of_list_remove, <- Hd.
    destruct (decide (k' = k)); naive_solver.
Qed.

Lemma wf_push k v c : wf_lru c -> items c !! k = None -> wf_lru (push_entry k v c).
Proof.
  intros [Hn Hd] Hk; split; simpl.
  - constructor; [|done]. rewrite Hd, Hk; by intros [].
  - intros k'; rewrite elem_of_cons, lookup_insert_is_Some, Hd.
    destruct (decide (k' = k)) as [->|]; naive_solver.
Qed.

Lemma wf_set k v c : wf_lru c -> k ∈ order c -> wf_lru (set_entry k v c).
Proof.
  intros [Hn Hd] Hk; split; simpl; [done|].
  intros k'; rewrite lookup_insert_is_Some, Hd.
  destruct (decide (k = k')) as [->|]; [rewrite Hd in Hk|]; naive_solver.
Qed.

(** The last key of a well-formed list is removed by itself. *)
Lemma remove_last l oldest :
  NoDup (l ++ [oldest]) -> list_remove oldest (l ++ [oldest]) = l.
Proof.
  intros (Hl & Hd & _)%NoDup_app; rewrite list_remove_app; simpl.
  rewrite String.eqb_refl; simpl.
  rewrite app_nil_r; apply list_remove_notin; intros Hin; apply (Hd _ Hin); set_solver.
Qed.

(** Eviction keeps a prefix, short enough and no shorter than needed, and the
    entries of what it keeps. *)
Lemma evict_spec fuel c :
  wf_lru c -> 0 < capacity c -> (length (order c) <= fuel)%nat ->
  exists c', evict fuel c = Some c' /\ wf_lru c' /\
    order c' = firstn (Z.to_nat (capacity c - 1)) (order c) /\
    (forall k, k ∈ order c' -> items c' !! k = items c !! k) /\
    items c' ⊆ items c /\ capacity c' = capacity c /\ ttl c' = ttl c.
Proof.
  revert c; induction fuel as [|fuel IH]; intros c Hw Hcap Hf; simpl;
    destruct (Z.ltb_spec (llen (order c)) (capacity c)) as [Hl|Hl].
  1, 3: exists c; rewrite firstn_all2 by (unfold llen in Hl; lia); by split_ands.
  - unfold llen in Hl; lia.
  - destruct (last (order c)) as [oldest|] eqn:E.
    2:{ apply last_None in E; unfold llen in Hl; rewrite E in Hl; simpl in Hl; lia. }
    apply last_Some in E as [l E]; unfold llen in Hl.
    pose proof (lru_nodup c Hw) as Hn; rewrite E in Hn.
    assert (order (remove_entry oldest c) = l) as El by (simpl; rewrite E; by apply remove_last).
    rewrite E, length_app in Hl, Hf; simpl in Hl, Hf.
    destruct (IH (remove_entry oldest c)) as (c' & Hc & Hw' & Ho & Hi & Hsub & Hc' & Ht);
      [by apply wf_remove|done|rewrite El; lia|].
    exists c'; split; [exact Hc|]; split; [exact Hw'|]; simpl in Hc'; rewrite Hc', El in *.
    simpl capacity in Ho; split_ands; auto.
    + rewrite Ho, E, firstn_app; replace (_ - length l)%nat with 0%nat by lia.
      by rewrite firstn_0, app_nil_r.
    + intros k Hk; rewrite (Hi k Hk); simpl; apply lookup_delete_ne; intros <-.
      rewrite Ho in Hk; apply NoDup_app in Hn as (_ & Hd & _); apply (Hd oldest); [|set_solver].
      rewrite <- (firstn_skipn (Z.to_nat (capacity c - 1)) l); set_solver.
    + etransitivity; [exact Hsub|]; apply delete_subseteq.
Qed.

(** Without a positive capacity the loop never ends. *)
Lemma evict_diverges fuel c : capacity c <= 0 -> evict fuel c = None.
Proof.
  revert c; induction fuel as [|fuel IH]; intros c Hc; simpl;
    (destruct (Z.ltb_spec (llen (order c)) (capacity c)) as [H|_];
      [unfold llen in H; lia|]); [done|].
  destruct (last (order c)); apply IH; done.
Qed.
End Lru.
Arguments Lru : clear implicits.
