(* ===== verification/TokenService.v ===== *)
(** Token validation and replay protection: [internal/core/service/token.go].

    The service works against a token repository (the interface
    [TokenRepository], here a type class with its laws; the in-memory store is
    an instance), and a nonce cache. *)

From Stdlib Require Import Ascii String.
From stdpp Require Import list strings gmap fin_maps.
From S2P Require Import Prelude Errors GoStrings Encoding Token Session MemoryStore.
From S2P Require Import MemoryStoreFacts MemoryStoreSpec Lru.

Open Scope string_scope.
Open Scope Z_scope.

(** ** The repository interface *)
Class TokenRepository (R : Type) := {
  GetSessionByTokenHash : string -> M R (Res Session);
  UpdateSession : Session -> M R (option error);
}.

(** What the service relies on: a lookup finds the session filed under the
    hash, unless it has expired, and an update without version check replaces
    the session it names. *)
Class TokenRepositoryLaws (R : Type) `{TokenRepository R} := {
  repo_ok : R -> Prop;
  repo_find : R -> string -> option Session;
  find_hash : forall r h x, repo_ok r -> repo_find r h = Some x -> TokenHash x = h;
  lookup_law : forall r h e, repo_ok r -> exists e',
    GetSessionByTokenHash h r e =
    (match repo_find r h with
     | None => Err ErrTokenInvalid
     | Some x => if expired_at (unix_milli (clk e 0%nat)) x then Err ErrSessionExpired
                 else Ok x
     end, r, e');
  lookup_advances : forall h, advances (GetSessionByTokenHash h);
  update_law : forall r h x y e, repo_ok r -> repo_find r h = Some x ->
    ID y = ID x -> UserID y = UserID x -> TokenHash y = TokenHash x ->
    Session.Validate y = None ->
    exists r', UpdateSession y r e = (None, r', e) /\ repo_ok r' /\
      forall h', repo_find r' h' = if String.eqb h' h then Some y else repo_find r h';
  update_refused : forall r y e err, Session.Validate y = Some err ->
    UpdateSession y r e = (Some err, r, e);
}.

#[export] Instance Store_TokenRepository : TokenRepository Store := {
  GetSessionByTokenHash := MemoryStore.GetSessionByTokenHash;
  UpdateSession := MemoryStore.UpdateSession;
}.

Definition store_find (s : Store) (h : string) : option Session :=
  id ← tokens s !! h; sessions s !! id.

#[export] Instance Store_TokenRepositoryLaws : TokenRepositoryLaws Store.
Proof.
  refine {| repo_ok := Inv; repo_find := store_find |}; unfold store_find.
  - intros s h x Hs Hf; destruct (tokens s !! h) as [id|] eqn:E; simpl in Hf; [|discriminate].
    apply (inv_tok s Hs) in E as (_ & y & Hy & Ht); congruence.
  - intros s h e Hs; destruct (GetByToken_run h s e Hs) as (e' & Hrun); exists e'.
    simpl; unfold MemoryStore.GetSessionByTokenHash; rewrite Hrun.
    destruct (tokens s !! h) as [id|]; simpl; [|done]. by destruct (sessions s !! id).
  - intros h; simpl; unfold MemoryStore.GetSessionByTokenHash, GetByToken; advances_tac.
  - intros s h x y e Hs Hf Hid Hu Ht Hv.
    destruct (tokens s !! h) as [id|] eqn:E; simpl in Hf; [|discriminate].
    pose proof (inv_id s Hs _ _ Hf) as Hx; subst id; rewrite <- Hid in Hf, E.
    simpl; unfold MemoryStore.UpdateSession; rewrite Hv; unfold bind, get_st; simpl; rewrite Hf.
    eexists; split; [unfold upd_st, ret; rewrite Session.Clone_id; reflexivity|]; simpl.
    split; [by eapply Inv_replace|]; intros h'; destruct (String.eqb_spec h' h) as [->|Hne].
    + rewrite E; simpl; by rewrite lookup_insert_eq.
    + destruct (tokens s !! h') as [id'|] eqn:E'; simpl; [|done].
      apply lookup_insert_ne; intros <-.
      apply (inv_tok s Hs) in E as (_ & a & Ha & Hta), E' as (_ & b & Hb & Htb); congruence.
  - intros s y e err Hv; simpl; unfold MemoryStore.UpdateSession; by rewrite Hv.
Defined.

(** ** The nonce cache *)
Abbreviation NonceCache := (Lru Z).
Definition NewNonceCache (cap t : Z) : NonceCache := empty_lru cap t.

(** The values of the map are the creation times; [time.Since(t) < ttl]. *)
Definition Contains (nonce : string) : M NonceCache bool :=
  c <- get_st ;;
  match items c !! nonce with
  | None => ret false
  | Some createdAt =>
      now <- time_now ;;
      if ttl c <=? now - createdAt
      then upd_st (remove_entry nonce) ;;; ret false
      else upd_st (MoveToFront nonce) ;;; ret true
  end.

(** Walks the list from the back. *)
Definition cleanupExpiredLocked : M NonceCache unit :=
  now <- time_now ;;
  c <- get_st ;;
  let toRemove := List.filter (fun k => match items c !! k with
    | Some createdAt => ttl c <=? now - createdAt | None => false end) (rev (order c)) in
  for_range toRemove (fun k => upd_st (remove_entry k)).

(** [None]: the eviction loop never ends. *)
Definition addLocked (nonce : string) : M NonceCache (option unit) :=
  c <- get_st ;;
  match items c !! nonce with
  | Some _ => upd_st (MoveToFront nonce) ;;; ret (Some tt)
  | None =>
      cleanupExpiredLocked ;;;
      c <- get_st ;;
      match evict (length (order c)) c with
      | None => ret None
      | Some c' =>
          put_st c' ;;;
          now <- time_now ;;
          upd_st (push_entry nonce now) ;;; ret (Some tt)
      end
  end.
Definition Add (nonce : string) : M NonceCache (option unit) := addLocked nonce.

Definition AddIfAbsent (nonce : string) : M NonceCache (option bool) :=
  let add : M NonceCache (option bool) :=
    r <- addLocked nonce ;;
    ret (match r with Some _ => Some true | None => None end) in
  c <- get_st ;;
  match items c !! nonce with
  | Some createdAt =>
      now <- time_now ;;
      if now - createdAt <? ttl c
      then upd_st (MoveToFront nonce) ;;; ret (Some false)
      else upd_st (remove_entry nonce) ;;; add
  | None => add
  end.
Definition Size (c : NonceCache) : Z := Z.of_nat (size (items c)).
Definition Clear : M NonceCache unit :=
  upd_st (fun c => MkLru ∅ [] (capacity c) (ttl c)).

(** ** The service *)
Record TokenServiceConfig := MkTokenServiceConfig {
  NonceCacheSize : Z; NonceTTL : Z; TimestampWindow : Z }.
Definition second : Z := 1000000000.
Definition DefaultTokenServiceConfig : TokenServiceConfig :=
  MkTokenServiceConfig 100000 (60 * second) (30 * second).

Section Service.
Context {R : Type} `{TokenRepository R}.

Record TokenService := MkTokenService {
  ts_repo : R;
  nonceCache : NonceCache;
  timestampWindow : Z;
}.

Definition NewTokenService (repo : R) (config : option TokenServiceConfig) : TokenService :=
  let config := match config with Some c => c | None => DefaultTokenServiceConfig end in
  MkTokenService repo (NewNonceCache (NonceCacheSize config) (NonceTTL config))
    (TimestampWindow config).

Definition set_ts_repo (r : R) (s : TokenService) : TokenService :=
  MkTokenService r (nonceCache s) (timestampWindow s).
Definition set_nonceCache (c : NonceCache) (s : TokenService) : TokenService :=
  MkTokenService (ts_repo s) c (timestampWindow s).

Definition ts_GenerateToken : M TokenService (Res (string * string)) := GenerateToken.
Definition ComputeTokenHash (token : string) : string := HashToken token.

Record ValidateTokenRequest := MkValidateTokenRequest {
  req_Token : string; req_Touch : bool; req_ClientIP : string; req_UserAgent : string }.
Record ValidateTokenResponse := MkValidateTokenResponse {
  Valid : bool; resp_Session : option Session }.
Definition invalid : ValidateTokenResponse := MkValidateTokenResponse false None.

(** Response and error. *)
Definition Validate (req : ValidateTokenRequest)
    : M TokenService (ValidateTokenResponse * option error) :=
  if negb (ValidateTokenFormat (req_Token req)) then ret (invalid, Some ErrTokenMalformed)
  else
    let tokenHash := ComputeTokenHash (req_Token req) in
    r <- zoom ts_repo set_ts_repo (GetSessionByTokenHash tokenHash) ;;
    match r with
    | Err err => ret (invalid, Some (WithCause ErrTokenInvalid err))
    | Ok session =>
        expired <- IsExpired session ;;
        if expired then ret (invalid, Some ErrSessionExpired)
        else if IsDeleted session then ret (invalid, Some ErrSessionNotFound)
        else if req_Touch req then
          updated <- Touch (req_ClientIP req) (req_UserAgent req) (Clone session) ;;
          let updated := IncrVersion updated in
          err <- zoom ts_repo set_ts_repo (UpdateSession updated) ;;
          ret (MkValidateTokenResponse true
                 (Some (match err with Some _ => session | None => updated end)), None)
        else ret (MkValidateTokenResponse true (Some session), None)
    end.

Definition MaxNonceLength : Z := 256.

(** The timestamp check on [int64] milliseconds. *)
Definition timestamp_ok (now timestamp window : Z) : bool :=
  let diff := i64 (now - timestamp) in
  let diff := if diff <? 0 then i64 (- diff) else diff in
  negb (Z.quot window 1000000 <? diff).

(** The outer [None] is a call that never returns. *)
Definition CheckNonce (nonce : string) (timestamp : Z) : M TokenService (option (option error)) :=
  if String.eqb nonce "" then
    ret (Some (Some (WithDetails ErrInvalidArgument "nonce cannot be empty")))
  else if MaxNonceLength <? slen nonce then
    ret (Some (Some (WithDetails ErrInvalidArgument "nonce too long (max 256)")))
  else
    now <- now_milli ;;
    s <- get_st ;;
    if negb (timestamp_ok now timestamp (timestampWindow s)) then
      ret (Some (Some (WithDetails ErrTimestampSkew "timestamp outside acceptable window")))
    else
      added <- zoom nonceCache set_nonceCache (AddIfAbsent nonce) ;;
      match added with
      | None => ret None
      | Some false =>
          ret (Some (Some (WithDetails ErrNonceReplay "nonce has been used before")))
      | Some true => ret (Some None)
      end.

Definition VerifyTokenHash (token expectedHash : string) : bool :=
  String.eqb (ComputeTokenHash token) expectedHash.
End Service.
Arguments TokenService : clear implicits.

(** ** Facts about the nonce cache *)

(** [n] was recorded at [t0] and at most [i] entries are more recent. *)
Definition recorded (n : string) (t0 : Z) (i : nat) (c : NonceCache) : Prop :=
  items c !! n = Some t0 /\
  exists l1 l2, order c = (l1 ++ n :: l2)%list /\ (length l1 <= i)%nat.

Definition cache_ok (c : NonceCache) : Prop :=
  wf_lru c /\ 0 < capacity c /\ llen (order c) <= capacity c.

Lemma length_list_remove k l : (length (list_remove k l) <= length l)%nat.
Proof. apply List.filter_length_le. Qed.

Lemma recorded_remove n t0 i k c :
  k <> n -> recorded n t0 i c -> recorded n t0 i (remove_entry k c).
Proof.
  intros Hne (Hi & l1 & l2 & Ho & Hl); split; simpl; [by rewrite lookup_delete_ne|].
  exists (list_remove k l1), (list_remove k l2); rewrite Ho, list_remove_app; simpl.
  rewrite (proj2 (String.eqb_neq n k)) by auto; simpl; split; [done|].
  pose proof (length_list_remove k l1); lia.
Qed.

Lemma recorded_move n t0 i k c :
  k <> n -> recorded n t0 i c -> recorded n t0 (S i) (MoveToFront k c).
Proof.
  intros Hne H; destruct (recorded_remove n t0 i k c Hne H) as (_ & l1 & l2 & Ho & Hl).
  split; [apply H|]; simpl in *; exists (k :: l1), l2; rewrite Ho; simpl; split; [done|lia].
Qed.

Lemma recorded_front n t0 i c : recorded n t0 i c -> recorded n t0 (S i) (MoveToFront n c).
Proof. intros [Hi _]; split; [done|]; exists [], (list_remove n (order c)); split; [done|simpl; lia]. Qed.

Lemma recorded_push n t0 i k v c :
  k <> n -> recorded n t0 i c -> recorded n t0 (S i) (push_entry k v c).
Proof.
  intros Hne (Hi & l1 & l2 & Ho & Hl); split; simpl; [by rewrite lookup_insert_ne|].
  exists (k :: l1), l2; rewrite Ho; simpl; split; [done|lia].
Qed.

Lemma cache_ok_remove k c : cache_ok c -> cache_ok (remove_entry k c).
Proof.
  intros (Hw & Hc & Hl); split; [by apply wf_remove|]; split; [done|]; simpl.
  unfold llen in *; pose proof (length_list_remove k (order c)); lia.
Qed.

Lemma length_list_remove_lt k l :
  k ∈ l -> (length (list_remove k l) < length l)%nat.
Proof.
  induction l as [|x l IH]; intros H; [by apply not_elem_of_nil in H|].
  simpl; destruct (String.eqb_spec x k) as [->|Hne]; simpl.
  - pose proof (length_list_remove k l); unfold list_remove in *; lia.
  - apply elem_of_cons in H as [->|H]; [done|]. specialize (IH H); unfold list_remove in *; lia.
Qed.

Lemma cache_ok_move k c : cache_ok c -> k ∈ order c -> cache_ok (MoveToFront k c).
Proof.
  intros (Hw & Hc & Hl) Hk; split; [by apply wf_move|]; split; [done|]; simpl.
  unfold llen in *; simpl; pose proof (length_list_remove_lt k (order c) Hk); lia.
Qed.

(** A run of removals. *)
Lemma remove_loop (P : NonceCache -> Prop) ks c e :
  (forall k c, k ∈ ks -> P c -> P (remove_entry k c)) -> P c ->
  exists c', for_range ks (fun k => upd_st (remove_entry k)) c e = (tt, c', e) /\ P c' /\
    capacity c' = capacity c /\ ttl c' = ttl c /\
    (forall k, items c !! k = None -> items c' !! k = None).
Proof.
  revert c; induction ks as [|k ks IH]; intros c Hstep Hc; simpl; [by exists c|].
  destruct (IH (remove_entry k c)) as (c' & H & Hp & H1 & H2 & H3);
    [intros; apply Hstep; set_solver|apply Hstep; set_solver|].
  exists c'; split; [exact H|]; split_ands; auto.
  intros k' Hk; apply H3; simpl; rewrite lookup_delete_None; auto.
Qed.

(** The readings of the clock that an operation leaves to its successors are
    among those it was given. *)
Definition clock_within (P : Z -> Prop) (e : env) : Prop := forall k, P (clk e k).

(** Adding a new nonce: the cache stays well formed and within its capacity, the
    nonce is recorded at the front with the current time, and any nonce that has
    not expired and is not among the last to be evicted is kept. *)
Lemma addLocked_new c nonce e (P : Z -> Prop) :
  cache_ok c -> items c !! nonce = None -> clock_within P e ->
  exists c' t e', addLocked nonce c e = (Some tt, c', e') /\
    cache_ok c' /\ capacity c' = capacity c /\ ttl c' = ttl c /\
    recorded nonce t 0 c' /\ P t /\ clock_within P e' /\
    (forall n t0 i, n <> nonce -> recorded n t0 i c -> Z.of_nat i + 1 < capacity c ->
       (forall t, P t -> t - t0 < ttl c) -> recorded n t0 (S i) c').
Proof.
  intros Hok Hnew Hclk; unfold addLocked, bind at 1, get_st; cbn beta iota; rewrite Hnew.
  set (stale := fun k => match items c !! k with
    | Some createdAt => ttl c <=? clk e 0%nat - createdAt | None => false end).
  destruct (remove_loop (fun c' => cache_ok c' /\ forall n t0 i, recorded n t0 i c ->
      (forall t, P t -> t - t0 < ttl c) -> recorded n t0 i c')
    (List.filter stale (rev (order c))) c (Env (fun n => clk e (n + 1)%nat) (rnd e) (ulids e)))
    as (c1 & H1 & (Hok1 & Hrec1) & Hcap1 & Httl1 & Hnone1); [|by split|].
  { intros k c' Hk [Hc' Hr]; split; [by apply cache_ok_remove|]; intros n t0 i Hn Hb.
    apply recorded_remove; [|by apply Hr]. intros ->.
    apply list_elem_of_In, filter_In in Hk as [_ Hk]; unfold stale in Hk.
    destruct Hn as [Hn _]; rewrite Hn in Hk; apply Z.leb_le in Hk.
    specialize (Hb _ (Hclk 0%nat)); lia. }
  erewrite bind_run by (unfold cleanupExpiredLocked, bind, time_now, get_st; exact H1).
  unfold bind at 1, get_st; cbn beta iota.
  destruct Hok1 as (Hw1 & Hc1 & Hl1).
  destruct (evict_spec (length (order c1)) c1 Hw1 Hc1 ltac:(lia))
    as (c2 & -> & Hw2 & Ho2 & Hi2 & Hsub & Hcap2 & Httl2).
  assert (items c2 !! nonce = None) as Hn2.
  { destruct (items c2 !! nonce) eqn:E; [|done].
    eapply lookup_weaken in E; [|exact Hsub]; rewrite Hnone1 in E by done; discriminate. }
  exists (push_entry nonce (clk e 1%nat) c2), (clk e 1%nat); eexists; split; [reflexivity|].
  split; [split; [by apply wf_push|split; simpl; [lia|]]|].
  { unfold llen; simpl; rewrite Ho2, length_firstn; lia. }
  split; [simpl; congruence|]; split; [simpl; congruence|].
  split; [split; [simpl; by rewrite lookup_insert_eq|by exists [], (order c2)]|].
  split; [apply Hclk|]; split; [intros k; apply Hclk|].
  intros n t0 i Hne Hr Hi Hb; apply recorded_push; [auto|].
  destruct (Hrec1 n t0 i Hr Hb) as (Hl & l1 & l2 & Ho & Hlen).
  rewrite Ho, firstn_app in Ho2.
  rewrite (firstn_all2 l1) in Ho2 by lia.
  destruct (Z.to_nat (capacity c1 - 1) - length l1)%nat as [|m] eqn:Em; [lia|]; simpl in Ho2.
  split; [rewrite Hi2, Hl by (rewrite Ho2; set_solver); done|].
  by exists l1, (firstn m l2).
Qed.

Lemma remove_missing k c : wf_lru c -> items (remove_entry (V := Z) k c) !! k = None.
Proof. intros _; simpl; apply lookup_delete_eq. Qed.

Lemma AddIfAbsent_run c nonce e (P : Z -> Prop) :
  cache_ok c -> clock_within P e ->
  exists b c' e', AddIfAbsent nonce c e = (Some b, c', e') /\
    cache_ok c' /\ capacity c' = capacity c /\ ttl c' = ttl c /\ clock_within P e' /\
    (b = true -> exists t, P t /\ recorded nonce t 0 c') /\
    (forall t0, items c !! nonce = Some t0 -> (forall t, P t -> t - t0 < ttl c) -> b = false) /\
    (b = false -> exists t0 t, items c !! nonce = Some t0 /\ P t /\ t - t0 < ttl c) /\
    (forall n t0 i, recorded n t0 i c -> Z.of_nat i + 1 < capacity c ->
       (forall t, P t -> t - t0 < ttl c) -> recorded n t0 (S i) c').
Proof.
  intros Hok Hclk; unfold AddIfAbsent, bind at 1, get_st; cbn beta iota zeta.
  destruct (items c !! nonce) as [t0|] eqn:E.
  - unfold bind at 1, time_now; cbn beta iota.
    destruct (Z.ltb_spec (clk e 0%nat - t0) (ttl c)) as [Hlt|Hge].
    + exists false, (MoveToFront nonce c); eexists; split; [reflexivity|].
      split; [apply cache_ok_move; [done|]|].
      { destruct Hok as ([_ Hd] & _); apply Hd; rewrite E; eauto. }
      split_ands; auto; try done; [intros k; apply Hclk|exists t0, (clk e 0%nat); auto|].
      intros n t1 i Hr _ _; destruct (decide (n = nonce)) as [->|]; [|by apply recorded_move].
      by apply recorded_front.
    + destruct (addLocked_new (remove_entry nonce c) nonce
        (Env (fun n => clk e (n + 1)%nat) (rnd e) (ulids e)) P)
        as (c' & t & e' & H & Hok' & Hc & Ht & Hr & HP & Hcl & Hk);
        [by apply cache_ok_remove|apply remove_missing, Hok|intros k; apply Hclk|].
      exists true, c', e'; split.
      { unfold bind at 1, upd_st; cbn beta iota. by erewrite bind_run by exact H. }
      split_ands; auto; try discriminate; [by exists t| |].
      * intros t1 [= <-] Hb; specialize (Hb _ (Hclk 0%nat)); lia.
      * intros n t1 i Hrec Hi Hb; destruct (decide (n = nonce)) as [->|].
        { destruct Hrec as [Hn _]; rewrite E in Hn; injection Hn as <-.
          specialize (Hb _ (Hclk 0%nat)); lia. }
        apply Hk; auto. by apply recorded_remove.
  - destruct (addLocked_new c nonce e P Hok E Hclk)
      as (c' & t & e' & H & Hok' & Hc & Ht & Hr & HP & Hcl & Hk).
    exists true, c', e'; erewrite bind_run by exact H; split; [done|].
    split_ands; auto; try discriminate; [by exists t|].
    intros n t1 i Hrec; apply Hk; [|done]. intros ->; destruct Hrec; congruence.
Qed.

Lemma AddIfAbsent_hangs cap t n e :
  cap <= 0 -> exists e', AddIfAbsent n (NewNonceCache cap t) e = (None, NewNonceCache cap t, e').
Proof.
  intros Hc; assert (items (NewNonceCache cap t) !! n = None) as Hnone by apply lookup_empty.
  assert (exists e', addLocked n (NewNonceCache cap t) e =
    (None, NewNonceCache cap t, e')) as (e' & H1).
  { unfold addLocked, bind at 1, get_st; cbn beta iota; rewrite Hnone.
    erewrite bind_run by (unfold cleanupExpiredLocked, bind, time_now, get_st; reflexivity).
    unfold bind, get_st; rewrite evict_diverges by done; by eexists. }
  exists e'; unfold AddIfAbsent, bind at 1, get_st; cbn beta iota zeta.
  rewrite Hnone; by erewrite bind_run by exact H1.
Qed.

(** Exactly when the clock skew check lets a request through. *)
Lemma timestamp_ok_spec now ts w :
  0 <= now < 2 ^ 61 -> in_i64 ts -> 0 <= w < 2 ^ 61 ->
  timestamp_ok now ts (w * 1000000) = true <->
  Z.abs (now - ts) <= w \/ ts = now - 2 ^ 63.
Proof.
  intros Hn Ht Hw; unfold timestamp_ok; rewrite Z.quot_mul by lia.
  rewrite negb_true_iff, Z.ltb_ge; unfold in_i64 in Ht.
  assert (i64 (now - ts) = if now - ts <? 2 ^ 63 then now - ts else now - ts - 2 ^ 64) as ->.
  { unfold i64, two64; destruct (Z.ltb_spec (now - ts) (2 ^ 63)).
    - rewrite Z.mod_small; lia.
    - rewrite <- (Z_mod_plus_full _ (-1)), Z.mod_small; lia. }
  destruct (Z.ltb_spec (now - ts) (2 ^ 63)) as [Hs|Hs].
  - destruct (Z.ltb_spec (now - ts) 0); [|lia].
    rewrite i64_id by (unfold in_i64; lia); lia.
  - rewrite (proj2 (Z.ltb_lt _ 0)) by lia.
    destruct (Z.eq_dec ts (now - 2 ^ 63)) as [->|Hne].
    + replace (- (now - (now - 2 ^ 63) - 2 ^ 64)) with (2 ^ 63) by lia.
      change (i64 (2 ^ 63)) with (- 2 ^ 63); lia.
    + rewrite i64_id by (unfold in_i64; lia); lia.
Qed.

Section ServiceFacts.
Context {R : Type} `{TokenRepository R}.

Definition is_replay (r : option (option error)) : Prop :=
  exists err, r = Some (Some err) /\
    (GetErrorCode err = "TM-AUTH-4014" \/ GetErrorCode err = "TM-AUTH-4015").

(** A request either leaves the cache alone or is one [AddIfAbsent]. *)
Lemma CheckNonce_run nonce ts (s : TokenService R) e P :
  cache_ok (nonceCache s) -> clock_within P e ->
  exists r c' e', CheckNonce nonce ts s e = (r, set_nonceCache c' s, e') /\
    cache_ok c' /\ capacity c' = capacity (nonceCache s) /\ ttl c' = ttl (nonceCache s) /\
    clock_within P e' /\ r <> None /\
    (r = Some None -> (0 < slen nonce <= 256) /\ exists t, P t /\ recorded nonce t 0 c') /\
    (forall t0, items (nonceCache s) !! nonce = Some t0 ->
       (forall t, P t -> t - t0 < ttl (nonceCache s)) ->
       0 < slen nonce <= 256 -> is_replay r) /\
    (forall n t0 i, recorded n t0 i (nonceCache s) ->
       Z.of_nat i + 1 < capacity (nonceCache s) ->
       (forall t, P t -> t - t0 < ttl (nonceCache s)) -> recorded n t0 (S i) c').
Proof.
  intros Hok Hclk.
  assert (set_nonceCache (nonceCache s) s = s) as Hid by (by destruct s).
  assert (forall n t0 i, recorded n t0 i (nonceCache s) -> recorded n t0 (S i) (nonceCache s)) as Hup.
  { intros n t0 i (Hi & l1 & l2 & Ho & Hl); split; [done|]; exists l1, l2; split; [done|lia]. }
  unfold CheckNonce; destruct (String.eqb_spec nonce "") as [->|Hne].
  { exists (Some (Some (WithDetails ErrInvalidArgument "nonce cannot be empty"))),
      (nonceCache s), e; rewrite Hid; split; [done|].
    split_ands; auto; try discriminate; intros t0 _ _ Hl; unfold slen in Hl; simpl in Hl; lia. }
  destruct (Z.ltb_spec MaxNonceLength (slen nonce)) as [Hlen|Hlen].
  { exists (Some (Some (WithDetails ErrInvalidArgument "nonce too long (max 256)"))),
      (nonceCache s), e; rewrite Hid; split; [done|].
    unfold MaxNonceLength in Hlen; split_ands; auto; try discriminate; intros; lia. }
  unfold now_milli, bind at 1, bind at 1, time_now, ret at 1; cbn beta iota.
  unfold bind at 1, get_st; cbn beta iota.
  destruct (timestamp_ok _ ts (timestampWindow s)); simpl.
  2:{ eexists (Some (Some _)), (nonceCache s), _; rewrite Hid; split; [reflexivity|].
      split_ands; auto; try discriminate; [intros k; apply Hclk|].
      intros; eexists; split; [reflexivity|by left]. }
  destruct (AddIfAbsent_run (nonceCache s) nonce
    (Env (fun n => clk e (n + 1)%nat) (rnd e) (ulids e)) P Hok)
    as (b & c' & e' & Hrun & Hok' & Hc & Ht & Hcl & Htrue & Hdup & Hfalse & Hkeep);
    [intros k; apply Hclk|].
  erewrite bind_run by (unfold zoom; rewrite Hrun; reflexivity).
  exists (if b then Some None else
    Some (Some (WithDetails ErrNonceReplay "nonce has been used before"))), c', e'.
  split; [by destruct b|]; split_ands; auto; [by destruct b| |].
  - destruct b; [|discriminate]; intros _; split; [|auto].
    unfold slen, MaxNonceLength in *; destruct nonce; [done|simpl in *; lia].
  - intros t0 Hi Hb _; rewrite (Hdup _ Hi Hb); eexists; split; [reflexivity|by right].
Qed.
End ServiceFacts.

(** ** Properties *)
Section Properties.
Context {R : Type} `{TokenRepository R}.

Definition check_all (l : list (string * Z)) : M (TokenService R) unit :=
  for_range l (fun q => CheckNonce (fst q) (snd q) ;;; ret tt).

Lemma check_all_run l (s : TokenService R) e P nonce t0 i :
  cache_ok (nonceCache s) -> clock_within P e ->
  recorded nonce t0 i (nonceCache s) ->
  Z.of_nat i + llen l < capacity (nonceCache s) ->
  (forall t, P t -> t - t0 < ttl (nonceCache s)) ->
  exists s' e', check_all l s e = (tt, s', e') /\ cache_ok (nonceCache s') /\
    clock_within P e' /\ ttl (nonceCache s') = ttl (nonceCache s) /\
    items (nonceCache s') !! nonce = Some t0.
Proof.
  revert s e i; induction l as [|[n ts] l IH]; intros s e i Hok Hclk Hr Hi Hb;
    [exists s, e; split_ands; auto; apply Hr|].
  destruct (CheckNonce_run n ts s e P Hok Hclk)
    as (r & c' & e1 & H1 & Hok1 & Hc1 & Ht1 & Hcl1 & _ & _ & _ & Hk).
  unfold llen in Hi; simpl in Hi.
  assert (recorded nonce t0 (S i) c') as Hr1 by (apply Hk; auto; lia).
  destruct (IH (set_nonceCache c' s) e1 (S i)) as (s' & e' & H2 & Hok2 & Hcl2 & Ht2 & Hi2);
    simpl; auto.
  - unfold llen; rewrite Hc1; lia.
  - by rewrite Ht1.
  - exists s', e'; split; [|simpl in Ht2; split_ands; congruence || done].
    unfold check_all in *; simpl; erewrite bind_run; [exact H2|].
    by erewrite bind_run by exact H1.
Qed.

(** C9: Replay protection: once a nonce has been accepted, every later
    request that carries it within the cache's time to live is refused, as long
    as fewer requests than the cache has room for came in between. *)
Theorem replay_rejected (s : TokenService R) (e : env) (nonce : string) (ts ts' : Z)
    (between : list (string * Z))
    (Hok : cache_ok (nonceCache s)) (Hfew : llen between < capacity (nonceCache s))
    (Hclock : forall j k, clk e k - clk e j < ttl (nonceCache s))
    (Hacc : fst (fst (CheckNonce nonce ts s e)) = Some None) :
  exists s' e',
    (CheckNonce nonce ts ;;; check_all between) s e = (tt, s', e') /\
    is_replay (fst (fst (CheckNonce nonce ts' s' e'))).
Proof.
  set (P := fun t => exists k, t = clk e k).
  assert (clock_within P e) as Hclk by (intros k; by exists k).
  destruct (CheckNonce_run nonce ts s e P Hok Hclk)
    as (r & c' & e1 & H1 & Hok1 & Hc1 & Ht1 & Hcl1 & _ & Hnew & _ & _).
  rewrite H1 in Hacc; simpl in Hacc; destruct (Hnew Hacc) as (Hlen & t0 & [j Hj] & Hr).
  assert (forall t, P t -> t - t0 < ttl (nonceCache s)) as Hb by (intros t [k ->]; subst; auto).
  destruct (check_all_run between (set_nonceCache c' s) e1 P nonce t0 0)
    as (s' & e' & H2 & Hok2 & Hcl2 & Ht2 & Hi2); simpl; auto; [lia|by rewrite Ht1|].
  exists s', e'; split; [by erewrite bind_run by exact H1|].
  destruct (CheckNonce_run nonce ts' s' e' P Hok2 Hcl2)
    as (r' & c3 & e3 & H3 & _ & _ & _ & _ & _ & _ & Hrej & _).
  rewrite H3; apply (Hrej t0); auto. simpl in Ht2; intros t HP; rewrite Ht2, Ht1; auto.
Qed.

(** The acceptance window on 64-bit milliseconds: a request passes the skew
    check exactly when its timestamp is within the window of the server's
    clock, or is the one value exactly 2^63 ms in the past, whose distance
    overflows to a negative number. *)
Theorem timestamp_window_exact (now ts w : Z)
    (Hnow : 0 <= now < 2 ^ 61) (Hts : in_i64 ts) (Hw : 0 <= w < 2 ^ 61) :
  timestamp_ok now ts (w * 1000000) = true <->
  Z.abs (now - ts) <= w \/ ts = now - 2 ^ 63.
Proof. by apply timestamp_ok_spec. Qed.

(** A service configured with a capacity of zero or less never answers the
    first request with a fresh timestamp: the eviction loop has nothing to
    evict and no end, and it holds the cache's lock. *)
Theorem nonpositive_capacity_hangs (repo : R) (cap t w : Z) (nonce : string) (ts : Z) (e : env)
    (Hcap : cap <= 0) (Hn : nonce <> "") (Hlen : slen nonce <= MaxNonceLength)
    (Hts : timestamp_ok (unix_milli (clk e 0%nat)) ts w = true) :
  fst (fst (CheckNonce nonce ts
    (NewTokenService repo (Some (MkTokenServiceConfig cap t w))) e)) = None /\
  forall fuel, evict fuel (NewNonceCache cap t) = None.
Proof.
  split; [|intros fuel; by apply evict_diverges].
  unfold CheckNonce; rewrite (proj2 (String.eqb_neq nonce "")), (proj2 (Z.ltb_ge _ _)) by done.
  unfold now_milli, bind at 1, bind at 1, time_now, ret at 1; cbn beta iota.
  unfold bind at 1, get_st; cbn beta iota; change (timestampWindow (NewTokenService repo _)) with w; rewrite Hts; simpl.
  destruct (AddIfAbsent_hangs cap t nonce (Env (fun n => clk e (n + 1)%nat) (rnd e) (ulids e)) Hcap)
    as (e' & H1); erewrite bind_run by (unfold zoom; simpl; rewrite H1; reflexivity); done.
Qed.

(** Validating a token against any repository that obeys the laws: a
    malformed token is refused as such, a well-formed one is looked up by its
    hash; it is valid exactly when a live session is filed under it, and then
    the response carries that session. A missing or expired session gives the
    code of an invalid token, with the repository's error as cause.  Touching
    bumps the version of the stored session and records the access. *)
Theorem Validate_spec `{!TokenRepositoryLaws R} (s : TokenService R)
    (req : ValidateTokenRequest) (e : env)
    (Hs : repo_ok (ts_repo s)) (t : Z) (Hstill : still t e) :
  let h := HashToken (req_Token req) in
  let '(resp, err, s', _) := Validate req s e in
  (ValidateTokenFormat (req_Token req) = false ->
     resp = invalid /\ err = Some ErrTokenMalformed /\ s' = s) /\
  (ValidateTokenFormat (req_Token req) = true ->
   match repo_find (ts_repo s) h with
   | None => resp = invalid /\ s' = s /\
       err = Some (WithCause ErrTokenInvalid ErrTokenInvalid)
   | Some x =>
       if expired_at (unix_milli t) x then
         resp = invalid /\ s' = s /\
         err = Some (WithCause ErrTokenInvalid ErrSessionExpired)
       else if IsDeleted x then
         resp = invalid /\ s' = s /\ err = Some ErrSessionNotFound
       else
         Valid resp = true /\ err = None /\
         if req_Touch req && negb (bool_decide (is_Some (Session.Validate x))) then
           exists y, resp_Session resp = Some y /\
             repo_find (ts_repo s') h = Some y /\
             ID y = ID x /\ Version y = u64 (Version x + 1) /\ LastActive y = unix_milli t
         else resp_Session resp = Some x /\ s' = s
   end).
Proof.
  cbv zeta; unfold Validate, ComputeTokenHash.
  destruct (ValidateTokenFormat (req_Token req)) eqn:Hf; simpl; [|by split].
  assert (set_ts_repo (ts_repo s) s = s) as Hid by (by destruct s).
  destruct (lookup_law (ts_repo s) (HashToken (req_Token req)) e Hs) as (e1 & H1).
  erewrite bind_run by (unfold zoom; rewrite H1; reflexivity).
  rewrite Hid; rewrite (Hstill 0%nat).
  destruct (repo_find (ts_repo s) (HashToken (req_Token req))) as [x|] eqn:Ex; [|by split].
  assert (still t e1) as Hst1.
  { pose proof (lookup_advances (HashToken (req_Token req)) (ts_repo s) e) as [n Hn].
    rewrite H1 in Hn; intros k; simpl in Hn; by rewrite Hn, Hstill. }
  destruct (expired_at (unix_milli t) x) eqn:Exp; [by split|].
  destruct (IsExpired_still t x s e1 Hst1) as (e2 & H2 & Hst2).
  erewrite bind_run by exact H2; rewrite Exp; simpl.
  destruct (IsDeleted x); [by split|]; destruct (req_Touch req); simpl; [|by split].
  rewrite Session.Clone_id.
  destruct (Touch_fields (req_ClientIP req) (req_UserAgent req) x s e2)
    as (y & e3 & H3 & Hy); erewrite bind_run by exact H3.
  destruct Hy as (Hyi & Hyu & Hyt & _ & Hyv & Hyl & Hval); rewrite (Hst2 0%nat) in Hyl.
  destruct (Session.Validate x) as [err|] eqn:Hv.
  - erewrite bind_run by (unfold zoom; rewrite (update_refused _ _ e3 err Hval); reflexivity).
    by rewrite Hid.
  - destruct (update_law (ts_repo s) (HashToken (req_Token req)) x (IncrVersion y) e3 Hs Ex)
      as (r' & H4 & _ & Hfind); try done.
    erewrite bind_run by (unfold zoom; rewrite H4; reflexivity).
    split; [done|]; intros _; split; [done|split; [done|]]; simpl.
    exists (IncrVersion y); split; [done|].
    rewrite Hfind, String.eqb_refl; rewrite <- Hyv; by split_ands.
Qed.
End Properties.

(** ** Witnesses *)

Definition demo_service : TokenService Store :=
  NewTokenService demo_store (Some (MkTokenServiceConfig 3 (60 * second) (30 * second))).

Lemma replay_rejected_witness :
  exists s' e', (CheckNonce "n1" 5000 ;;; check_all [("n2", 5000); ("n3", 4000)])
    demo_service demo_env = (tt, s', e') /\ is_replay (fst (fst (CheckNonce "n1" 5001 s' e'))).
Proof.
  apply (replay_rejected demo_service demo_env "n1" 5000 5001 [("n2", 5000); ("n3", 4000)]).
  - split; [apply wf_empty|by split].
  - reflexivity.
  - intros j k; reflexivity.
  - vm_compute; reflexivity.
Defined.

Lemma timestamp_window_exact_witness :
  timestamp_ok 5000 (5000 - 2 ^ 63) (30000 * 1000000) = true.
Proof. apply timestamp_window_exact; unfold in_i64; lia. Defined.

Lemma nonpositive_capacity_hangs_witness :
  fst (fst (CheckNonce "n" 5000
    (NewTokenService demo_store (Some (MkTokenServiceConfig 0 second (30 * second)))) demo_env)) = None.
Proof.
  apply (nonpositive_capacity_hangs demo_store 0 second (30 * second) "n" 5000 demo_env);
    [lia|discriminate|discriminate|reflexivity].
Defined.

Definition demo_token : string :=
  "tmtk_AAECAwQFBgcICQoLDA0ODxAREhMUFRYXGBkaGxwdHh8".
Definition demo_token_store : Store :=
  put_session (demo_session "s1" "u" (HashToken demo_token) 1 9000) (New 50).

Lemma Validate_spec_witness :
  fst (fst (fst (Validate (MkValidateTokenRequest demo_token false "" "")
    (NewTokenService demo_token_store None) demo_env))) =
  MkValidateTokenResponse true (Some (demo_session "s1" "u" (HashToken demo_token) 1 9000)).
Proof.
  pose proof (Validate_spec (NewTokenService demo_token_store None)
    (MkValidateTokenRequest demo_token false "" "") demo_env) as H.
  specialize (H (Inv_put_session (New 50) _ (Inv_New 50) eq_refl (or_intror eq_refl))
    5000000000 (fun _ => eq_refl)); cbv zeta in H.
  destruct (Validate _ _ _) as [[[resp err] s'] e'].
  destruct H as [_ H]; specialize (H ltac:(vm_compute; reflexivity)).
  assert (repo_find (ts_repo (NewTokenService demo_token_store None)) (HashToken demo_token) =
    Some (demo_session "s1" "u" (HashToken demo_token) 1 9000)) as Hf
    by (vm_compute; reflexivity).
  change (req_Token _) with demo_token in H; rewrite Hf in H; destruct H as (Hv & _ & Hr & _).
  destruct resp; simpl in *; congruence.
Defined.
