(* ===== verification/NetIP.v ===== *)
(** The parts of Go's package [net] the allowlist check uses: [ParseIP],
    [ParseCIDR], [IP.Equal] and [IPNet.Contains].  An address is its 16 bytes
    (an IPv4 address in the IPv4-mapped form), a network is what [ParseCIDR]
    builds: masked address and mask, of 4 or 16 bytes. *)

From Stdlib Require Import Ascii String.
From stdpp Require Import list strings.
From S2P Require Import Prelude GoStrings.

Open Scope Z_scope.

Definition digit_val (a : ascii) : option Z :=
  let c := ascii_Z a in if (48 <=? c) && (c <=? 57) then Some (c - 48) else None.
Definition hex_val (a : ascii) : option Z :=
  let c := ascii_Z a in
  if (48 <=? c) && (c <=? 57) then Some (c - 48)
  else if (97 <=? c) && (c <=? 102) then Some (c - 87)
  else if (65 <=? c) && (c <=? 70) then Some (c - 55)
  else None.

(** [parseIPv4Fields]: [fields] are the octets read so far, [digLen] the digits of
    the current one. *)
Fixpoint parse_v4 (s : string) (val digLen : Z) (fields : list Z) : option (list Z) :=
  match s with
  | EmptyString => if llen fields <? 3 then None else Some (fields ++ [val])%list
  | String a s' =>
      match digit_val a with
      | Some d =>
          if (digLen =? 1) && (val =? 0) then None
          else
            let val := val * 10 + d in
            if 255 <? val then None else parse_v4 s' val (digLen + 1) fields
      | None =>
          if Ascii.eqb a "." then
            if (digLen =? 0) || String.eqb s' "" then None
            else if llen fields =? 3 then None
            else parse_v4 s' 0 0 (fields ++ [val])%list
          else None
      end
  end.
Definition parseIPv4 (s : string) : option (list Z) := parse_v4 s 0 0 [].

(** The digits of a 16-bit group: value, their number and the rest. *)
Fixpoint hex_group (s : string) (acc off : Z) : option (Z * Z * string) :=
  match s with
  | EmptyString => Some (acc, off, s)
  | String a s' =>
      match hex_val a with
      | None => Some (acc, off, s)
      | Some d =>
          let acc := acc * 16 + d in
          if (3 <? off) || (65535 <? acc) then None else hex_group s' acc (off + 1)
      end
  end.

(** The loop over the groups; [ip] holds the bytes stored so far. The result is
    the bytes, the position of the ellipsis and the text left over. *)
Fixpoint v6_groups (fuel : nat) (s : string) (ip : list Z) (ellipsis : option nat)
    : option (list Z * option nat * string) :=
  match fuel with
  | O => Some (ip, ellipsis, s)
  | S fuel' =>
    match hex_group s 0 0 with
    | None => None
    | Some (acc, off, rest) =>
      if off =? 0 then None
      else match rest with
      | String "." _ =>
          if match ellipsis with None => negb (length ip =? 12)%nat | Some _ => false end then None
          else if (12 <? length ip)%nat then None
          else match parseIPv4 s with
               | None => None
               | Some v4 => Some ((ip ++ v4)%list, ellipsis, EmptyString)
               end
      | _ =>
        let ip := (ip ++ [acc / 256; acc mod 256])%list in
        match rest with
        | EmptyString => Some (ip, ellipsis, EmptyString)
        | String ":" EmptyString => None
        | String ":" (String ":" rest') =>
            match ellipsis with
            | Some _ => None
            | None =>
                if String.eqb rest' "" then Some (ip, Some (length ip), EmptyString)
                else v6_groups fuel' rest' ip (Some (length ip))
            end
        | String ":" rest' => v6_groups fuel' rest' ip ellipsis
        | _ => None
        end
      end
    end
  end.

Definition parseIPv6 (s : string) : option (list Z) :=
  let finish (r : option (list Z * option nat * string)) :=
    match r with
    | None => None
    | Some (ip, ellipsis, rest) =>
        if negb (String.eqb rest "") then None
        else if (length ip <? 16)%nat then
          match ellipsis with
          | None => None
          | Some k => Some (firstn k ip ++ repeat 0 (16 - length ip) ++ skipn k ip)%list
          end
        else match ellipsis with Some _ => None | None => Some ip end
    end in
  match s with
  | String ":" (String ":" EmptyString) => Some (repeat 0 16)
  | String ":" (String ":" s') => finish (v6_groups 8 s' [] (Some 0%nat))
  | _ => finish (v6_groups 8 s [] None)
  end.

Definition v4InV6Prefix : list Z := [0; 0; 0; 0; 0; 0; 0; 0; 0; 0; 255; 255].

(** [netip.ParseAddr] restricted to addresses without a zone: the 16 bytes and
    whether the text is an IPv4 address. *)
Fixpoint first_sep (s : string) : option ascii :=
  match s with
  | EmptyString => None
  | String a s' =>
      if Ascii.eqb a "." || Ascii.eqb a ":" || Ascii.eqb a "%" then Some a else first_sep s'
  end.
Definition parse_addr (s : string) : option (list Z * bool) :=
  match first_sep s with
  | Some "."%char =>
      match parseIPv4 s with Some v4 => Some ((v4InV6Prefix ++ v4)%list, true) | None => None end
  | Some ":"%char =>
      if Contains s "%" then None
      else match parseIPv6 s with Some ip => Some (ip, false) | None => None end
  | _ => None
  end.

Definition ParseIP (s : string) : option (list Z) :=
  match parse_addr s with Some (ip, _) => Some ip | None => None end.

Definition bytes_eqb (a b : list Z) : bool :=
  (length a =? length b)%nat && forallb (fun xy => fst xy =? snd xy) (combine a b).

(** [IP.Equal] on two 16-byte addresses. *)
Definition IP_Equal (a b : list Z) : bool := bytes_eqb a b.

(** [To4]. *)
Definition To4 (ip : list Z) : option (list Z) :=
  if (length ip =? 4)%nat then Some ip
  else if (length ip =? 16)%nat && bytes_eqb (firstn 12 ip) v4InV6Prefix
  then Some (skipn 12 ip) else None.

(** [dtoi] on the whole of the mask text. *)
Fixpoint dtoi (s : string) (n : Z) : option Z :=
  match s with
  | EmptyString => Some n
  | String a s' =>
      match digit_val a with
      | None => None
      | Some d => let n := n * 10 + d in if 0xFFFFFF <=? n then None else dtoi s' n
      end
  end.

(** [CIDRMask(ones, 8 * l)]. *)
Fixpoint CIDRMask (ones : Z) (l : nat) : list Z :=
  match l with
  | O => []
  | S l' =>
      if 8 <=? ones then 255 :: CIDRMask (ones - 8) l'
      else (255 - (2 ^ (8 - ones) - 1)) :: CIDRMask 0 l'
  end.

Definition mask_bytes (ip mask : list Z) : list Z :=
  map (fun xy => Z.land (fst xy) (snd xy)) (combine ip mask).

Record IPNet := MkIPNet { net_IP : list Z; net_Mask : list Z }.

Fixpoint cut_slash (s : string) : option (string * string) :=
  match s with
  | EmptyString => None
  | String a s' =>
      if Ascii.eqb a "/" then Some (EmptyString, s')
      else match cut_slash s' with Some (u, v) => Some (String a u, v) | None => None end
  end.

Definition ParseCIDR (s : string) : option IPNet :=
  match cut_slash s with
  | None => None
  | Some (addr, mask) =>
    match parse_addr addr with
    | None => None
    | Some (ip, is4) =>
      if String.eqb mask "" then None
      else match dtoi mask 0 with
      | None => None
      | Some n =>
        let len := if is4 then 4%nat else 16%nat in
        if 8 * Z.of_nat len <? n then None
        else
          let m := CIDRMask n len in
          let ip := if is4 then skipn 12 ip else ip in
          Some (MkIPNet (mask_bytes ip m) m)
      end
    end
  end.

(** [IPNet.Contains], with [networkNumberAndMask]. *)
Definition Contains_ (n : IPNet) (ip : list Z) : bool :=
  let nn := match To4 (net_IP n) with Some v4 => v4 | None => net_IP n end in
  let m := if (length (net_Mask n) =? 16)%nat && (length nn =? 4)%nat
           then skipn 12 (net_Mask n) else net_Mask n in
  let ip := match To4 ip with Some v4 => v4 | None => ip end in
  if negb (length ip =? length nn)%nat then false
  else if negb (length m =? length nn)%nat then false
  else bytes_eqb (mask_bytes nn m) (mask_bytes ip m).

(** Concrete checks against the behaviour of the Go functions. *)
Example ParseIP_v4 : ParseIP "10.0.0.1" = Some (v4InV6Prefix ++ [10; 0; 0; 1])%list.
Proof. reflexivity. Qed.
Example ParseIP_leading_zero : ParseIP "10.0.0.01" = None.
Proof. reflexivity. Qed.
Example ParseIP_v6 : ParseIP "2001:db8::1" =
  Some [32; 1; 13; 184; 0; 0; 0; 0; 0; 0; 0; 0; 0; 0; 0; 1].
Proof. reflexivity. Qed.
Example ParseIP_mapped : ParseIP "::ffff:10.0.0.1" = ParseIP "10.0.0.1".
Proof. reflexivity. Qed.
Example ParseIP_rejects :
  map ParseIP ["1.2.3"; "1.2.3.4.5"; "1..2.3"; "256.1.1.1"; "1:2:3"; "::1%eth0"; ":::"; "1::2::3";
    "12345::"; "hello"]%string = repeat None 10.
Proof. reflexivity. Qed.
Example ParseIP_full : ParseIP "1:2:3:4:5:6:7:8" =
  Some [0; 1; 0; 2; 0; 3; 0; 4; 0; 5; 0; 6; 0; 7; 0; 8].
Proof. reflexivity. Qed.
Example ParseIP_full_ellipsis : ParseIP "1:2:3:4:5:6:7:8::" = None.
Proof. reflexivity. Qed.
Example CIDR_contains :
  match ParseCIDR "10.1.0.0/16", ParseIP "10.1.200.3", ParseIP "10.2.0.1" with
  | Some n, Some a, Some b => (Contains_ n a, Contains_ n b) | _, _, _ => (false, true) end
  = (true, false).
Proof. reflexivity. Qed.

(** ** Facts *)
Lemma bytes_eqb_eq a b : bytes_eqb a b = true <-> a = b.
Proof.
  unfold bytes_eqb; rewrite andb_true_iff, Nat.eqb_eq; split.
  - revert b; induction a as [|x a IH]; intros [|y b] [Hl Hf]; simpl in *; try lia; [done|].
    apply andb_true_iff in Hf as [Hxy%Z.eqb_eq Hf]; subst; f_equal; apply IH; auto with lia.
  - intros <-; split; [done|]. induction a; simpl; [done|]. by rewrite Z.eqb_refl.
Qed.

(** *** Masks and prefixes *)
Fixpoint be_num (l : list Z) : Z :=
  match l with [] => 0 | x :: l' => x * 256 ^ Z.of_nat (length l') + be_num l' end.

(** The first [n] bits agree. *)
Definition same_prefix (n : Z) (a b : list Z) : Prop :=
  be_num a / 2 ^ (8 * llen a - n) = be_num b / 2 ^ (8 * llen b - n).

Lemma be_num_bound l : Forall is_byte l -> 0 <= be_num l < 256 ^ llen l.
Proof.
  unfold llen; induction 1 as [|x l Hx Hl IH]; [done|].
  cbn [be_num length]; rewrite Nat2Z.inj_succ, Z.pow_succ_r by lia. unfold is_byte in Hx; nia.
Qed.

Lemma mask_byte x k : is_byte x -> 0 <= k <= 8 ->
  Z.land x (255 - (2 ^ (8 - k) - 1)) = x / 2 ^ (8 - k) * 2 ^ (8 - k).
Proof.
  unfold is_byte; intros Hx Hk.
  assert (forallb (fun i => forallb (fun j =>
    Z.land (Z.of_nat i) (255 - (2 ^ (8 - Z.of_nat j) - 1)) =?
    Z.of_nat i / 2 ^ (8 - Z.of_nat j) * 2 ^ (8 - Z.of_nat j)) (seq 0 9)) (seq 0 256) = true) as H
    by (vm_compute; reflexivity).
  rewrite forallb_forall in H; specialize (H (Z.to_nat x)); rewrite in_seq in H.
  specialize (H ltac:(lia)); rewrite forallb_forall in H; specialize (H (Z.to_nat k)).
  rewrite in_seq in H; specialize (H ltac:(lia)); apply Z.eqb_eq in H.
  by rewrite !Z2Nat.id in H by lia.
Qed.

Lemma length_CIDRMask n l : length (CIDRMask n l) = l.
Proof. revert n; induction l; intros n; simpl; [done|]. by destruct (8 <=? n); simpl; rewrite IHl. Qed.

Lemma mask_zero a b : length a = length b ->
  mask_bytes a (CIDRMask 0 (length a)) = mask_bytes b (CIDRMask 0 (length b)).
Proof.
  revert b; induction a as [|x a IH]; intros [|y b] Hl; simpl in *; try lia; [done|].
  unfold mask_bytes in *; cbn [combine map fst snd].
  rewrite !Z.land_0_r; f_equal; apply IH; lia.
Qed.

(** Masking keeps exactly the first [n] bits. *)
Lemma mask_same_prefix n a b :
  Forall is_byte a -> Forall is_byte b -> length a = length b -> 0 <= n <= 8 * llen a ->
  mask_bytes a (CIDRMask n (length a)) = mask_bytes b (CIDRMask n (length b)) <->
  same_prefix n a b.
Proof.
  unfold same_prefix, llen; intros Ha; revert n b; induction Ha as [|x a Hx Ha IH];
    intros n [|y b] Hb Hl Hn; simpl in Hl; try lia; [done|].
  apply Forall_cons in Hb as [Hy Hb]; injection Hl as Hl.
  pose proof (be_num_bound a Ha) as Ba; pose proof (be_num_bound b Hb) as Bb.
  unfold llen in Ba, Bb; rewrite <- Hl in Bb.
  cbn [be_num length CIDRMask]; rewrite <- Hl; cbn [length] in Hn.
  set (m := Z.of_nat (length a)) in *; rewrite Nat2Z.inj_succ in *; fold m in Hn |- *.
  assert (256 ^ m = 2 ^ (8 * m)) as E by (rewrite Z.pow_mul_r by lia; done).
  destruct (Z.leb_spec 8 n) as [H8|H8].
  - unfold mask_bytes in *; cbn [combine map fst snd].
    assert (forall z, is_byte z -> Z.land z 255 = z) as Hid.
    { intros z Hz; pose proof (mask_byte z 8 Hz ltac:(lia)) as Hm; simpl in Hm.
      rewrite Z.div_1_r, Z.mul_1_r in Hm; exact Hm. }
    rewrite !Hid by done; replace (8 * Z.succ m - n) with (8 * m - (n - 8)) by lia.
    assert (0 <= 8 * m - (n - 8)) as Hp by lia.
    set (q := 8 * m - (n - 8)) in *.
    assert (256 ^ m = 2 ^ (n - 8) * 2 ^ q) as E2
      by (rewrite E, <- Z.pow_add_r by lia; f_equal; lia).
    assert (0 < 2 ^ q) by (apply Z.pow_pos_nonneg; lia).
    assert (0 < 2 ^ (n - 8)) by (apply Z.pow_pos_nonneg; lia).
    rewrite E2, !Z.mul_assoc, !(Z.add_comm (_ * _)), !Z.div_add by lia.
    assert (forall z, 0 <= z < 256 ^ m -> 0 <= z / 2 ^ q < 2 ^ (n - 8)) as Hd.
    { intros z Hz; split; [apply Z.div_pos; lia|]; apply Z.div_lt_upper_bound; nia. }
    pose proof (Hd _ Ba); pose proof (Hd _ Bb).
    specialize (IH (n - 8) b Hb Hl ltac:(lia)); rewrite <- Hl in IH; fold m q in IH.
    split.
    + intros [= -> Hm]; apply IH in Hm; lia.
    + intros Heq. assert (x = y) as -> by nia.
      f_equal; apply IH; lia.
  - unfold mask_bytes in *; cbn [combine map fst snd].
    rewrite !mask_byte by (done || lia).
    pose proof (mask_zero a b Hl) as Hz; rewrite <- Hl in Hz; unfold mask_bytes in Hz; rewrite Hz.
    assert (forall z w, is_byte z -> 0 <= w < 256 ^ m ->
      (z * 256 ^ m + w) / 2 ^ (8 * Z.succ m - n) = z / 2 ^ (8 - n)) as Hd.
    { intros z w Hz' Hw; replace (8 * Z.succ m - n) with (8 * m + (8 - n)) by lia.
      rewrite Z.pow_add_r, <- E, <- Z.div_div by (lia || (rewrite ?E; apply Z.pow_pos_nonneg; lia) ||
        (intros H0; rewrite H0 in *; lia)).
      f_equal; rewrite Z.add_comm, Z.div_add, Z.div_small by lia; lia. }
    rewrite !Hd by done; assert (0 < 2 ^ (8 - n)) by (apply Z.pow_pos_nonneg; lia).
    split; [intros [= Hm]; nia|intros ->; done].
Qed.

(** *** Parsed addresses *)
Lemma parse_v4_ok s val digLen fields l :
  parse_v4 s val digLen fields = Some l ->
  0 <= val <= 255 -> Forall is_byte fields -> llen fields <= 3 ->
  length l = 4%nat /\ Forall is_byte l.
Proof.
  revert val digLen fields; induction s as [|a s IH]; intros val dl fields; simpl; intros H Hv Hf Hl.
  - destruct (Z.ltb_spec (llen fields) 3); [discriminate|]; injection H as <-.
    unfold llen in *; rewrite length_app; simpl; split; [lia|].
    apply Forall_app; split; [done|]; repeat constructor; unfold is_byte; lia.
  - destruct (digit_val a) as [d|] eqn:Ed.
    + destruct ((dl =? 1) && (val =? 0)); [discriminate|].
      destruct (Z.ltb_spec 255 (val * 10 + d)); [discriminate|].
      eapply IH; eauto. unfold digit_val in Ed.
      destruct ((48 <=? ascii_Z a) && (ascii_Z a <=? 57)) eqn:Er; [|discriminate].
      injection Ed as <-; lia.
    + destruct (Ascii.eqb a "."); [|discriminate].
      destruct ((dl =? 0) || String.eqb s ""); [discriminate|].
      destruct (Z.eqb_spec (llen fields) 3); [discriminate|].
      eapply IH; eauto; [lia| |unfold llen in *; rewrite length_app; simpl; lia].
      apply Forall_app; split; [done|]; repeat constructor; unfold is_byte; lia.
Qed.

Lemma parse_addr_v4 s ip :
  parse_addr s = Some (ip, true) ->
  exists v4, ip = (v4InV6Prefix ++ v4)%list /\ length v4 = 4%nat /\ Forall is_byte v4.
Proof.
  unfold parse_addr; destruct (first_sep s) as [a|]; [|discriminate].
  intros H. assert (exists v4, parseIPv4 s = Some v4 /\ ip = (v4InV6Prefix ++ v4)%list) as (v4 & Hp & ->).
  { repeat match type of H with context [match ?x with _ => _ end] => destruct x eqn:? end;
      try discriminate; injection H as <-; eauto. }
  exists v4; split; [done|]; eapply parse_v4_ok; [exact Hp|lia|constructor|done].
Qed.

Lemma To4_mapped v4 : length v4 = 4%nat -> To4 (v4InV6Prefix ++ v4)%list = Some v4.
Proof.
  intros Hl; unfold To4; rewrite length_app, Hl; simpl length.
  change ((12 + 4 =? 4)%nat) with false; change ((12 + 4 =? 16)%nat) with true; cbv iota.
  by rewrite firstn_app, skipn_app, firstn_all2, skipn_all2, (proj2 (bytes_eqb_eq _ _));
    simpl; rewrite ?app_nil_r.
Qed.

Lemma mask_idem a m : mask_bytes (mask_bytes a m) m = mask_bytes a m.
Proof.
  unfold mask_bytes; revert m; induction a as [|x a IH]; intros [|y m]; simpl; try done.
  rewrite IH; f_equal; by rewrite <- Z.land_assoc, Z.land_diag.
Qed.

Lemma length_mask a m : length a = length m -> length (mask_bytes a m) = length a.
Proof. intros H; unfold mask_bytes; rewrite length_map, length_combine; lia. Qed.

(** Membership in an IPv4 network. *)
Lemma Contains_v4 net n v4 :
  Forall is_byte net -> Forall is_byte v4 -> length net = 4%nat -> length v4 = 4%nat ->
  0 <= n <= 32 ->
  Contains_ (MkIPNet (mask_bytes net (CIDRMask n 4)) (CIDRMask n 4)) (v4InV6Prefix ++ v4)%list = true
  <-> same_prefix n net v4.
Proof.
  intros Hb Hb' Hl Hl' Hn.
  assert (length (mask_bytes net (CIDRMask n 4)) = 4%nat) as Hm
    by (rewrite length_mask; rewrite ?length_CIDRMask; done).
  unfold Contains_; cbn [net_IP net_Mask]; rewrite To4_mapped by done.
  assert (To4 (mask_bytes net (CIDRMask n 4)) = Some (mask_bytes net (CIDRMask n 4))) as ->
    by (unfold To4; by rewrite Hm).
  rewrite !length_CIDRMask, Hm, Hl'; cbn [Nat.eqb andb negb]; rewrite ?length_CIDRMask; cbn [Nat.eqb negb].
  rewrite bytes_eqb_eq, mask_idem.
  pose proof (mask_same_prefix n net v4 Hb Hb' ltac:(lia) ltac:(unfold llen; lia)) as H.
  rewrite Hl, Hl' in H; exact H.
Qed.

(** No address that is not IPv4 is in an IPv4 network. *)
Lemma Contains_v4_only net n ip :
  length net = 4%nat -> To4 ip = None ->
  Contains_ (MkIPNet (mask_bytes net (CIDRMask n 4)) (CIDRMask n 4)) ip = false.
Proof.
  intros Hl Hip; assert (length (mask_bytes net (CIDRMask n 4)) = 4%nat) as Hm
    by (rewrite length_mask; rewrite ?length_CIDRMask; done).
  unfold Contains_; cbn [net_IP net_Mask]; rewrite Hip.
  assert (To4 (mask_bytes net (CIDRMask n 4)) = Some (mask_bytes net (CIDRMask n 4))) as ->
    by (unfold To4; by rewrite Hm).
  unfold To4 in Hip; rewrite Hm; by destruct (length ip =? 4)%nat.
Qed.

Lemma hex_group_bound s acc off v n rest :
  0 <= acc <= 65535 -> hex_group s acc off = Some (v, n, rest) -> 0 <= v <= 65535.
Proof.
  revert acc off; induction s as [|a s IH]; simpl; intros acc off Ha; [by intros [= <- _ _]|].
  destruct (hex_val a) as [d|] eqn:Ed; [|by intros [= <- _ _]].
  assert (0 <= d) as Hd.
  { unfold hex_val in Ed; repeat case_match; simplify_eq; try discriminate; lia. }
  destruct (3 <? off); [discriminate|]; destruct (Z.ltb_spec 65535 (acc * 16 + d)); [discriminate|].
  apply IH; lia.
Qed.

Definition v6_ok (r : list Z * option nat * string) : Prop :=
  Forall is_byte (fst (fst r)) /\ (length (fst (fst r)) <= 16)%nat.

Lemma v6_groups_ok fuel s ip ell r :
  Forall is_byte ip -> (length ip + 2 * fuel <= 16)%nat ->
  v6_groups fuel s ip ell = Some r -> v6_ok r.
Proof.
  revert s ip ell; induction fuel as [|fuel IH]; intros s ip ell Hb Hl; cbn [v6_groups];
    [intros [= <-]; split; simpl; [done|lia]|].
  destruct (hex_group s 0 0) as [[[acc off] rest]|] eqn:Eg; [|discriminate].
  apply hex_group_bound in Eg as Hacc; [|lia].
  assert (forall l, length l = (length ip + 2)%nat -> l = (ip ++ [acc / 256; acc mod 256])%list ->
    Forall is_byte l /\ (length l + 2 * fuel <= 16)%nat) as Hip.
  { intros l Hll ->; split; [|lia]. apply Forall_app; split; [done|].
    repeat constructor; unfold is_byte; Z.to_euclidean_division_equations; lia. }
  specialize (Hip (ip ++ [acc / 256; acc mod 256])%list ltac:(rewrite length_app; done) eq_refl)
    as [Hb' Hl'].
  set (ip' := (ip ++ [acc / 256; acc mod 256])%list) in *.
  destruct (off =? 0); [discriminate|].
  assert (forall v4, parseIPv4 s = Some v4 -> (12 <? length ip)%nat = false ->
    v6_ok ((ip ++ v4)%list, ell, EmptyString)) as Hv4.
  { intros v4 Hp Hle; apply parse_v4_ok in Hp as [Hv Hbv]; [|lia|constructor|done].
    apply Nat.ltb_ge in Hle; split; simpl; [by apply Forall_app|rewrite length_app; lia]. }
  repeat match goal with
  | |- context [match ?x with _ => _ end] =>
      lazymatch x with
      | v6_groups _ _ _ _ => fail
      | context [parseIPv4] => destruct x eqn:?
      | context [(12 <? _)%nat] => destruct x eqn:?
      | _ => destruct x
      end
  end; try discriminate;
    first [ intros [= <-]; solve [auto | split; simpl; [done|lia]] | eauto ].
Qed.

Lemma parseIPv6_ok s ip :
  parseIPv6 s = Some ip -> length ip = 16%nat /\ Forall is_byte ip.
Proof.
  assert (forall r ip, match r with
    | None => None
    | Some (ip, ellipsis, rest) =>
        if negb (String.eqb rest "") then None
        else if (length ip <? 16)%nat then
          match ellipsis with
          | None => None
          | Some k => Some (firstn k ip ++ repeat 0 (16 - length ip) ++ skipn k ip)%list
          end
        else match ellipsis with Some _ => None | None => Some ip end
    end = Some ip -> (forall x, r = Some x -> v6_ok x) -> length ip = 16%nat /\ Forall is_byte ip) as Hfin.
  { intros [[[l ell] rest]|] ip0; [|discriminate]; intros H Hok.
    destruct (Hok _ eq_refl) as [Hb Hl]; cbn [fst] in Hb, Hl.
    destruct (negb _); [discriminate|]; destruct (Nat.ltb_spec (length l) 16).
    - destruct ell as [k|]; [|discriminate]; injection H as <-.
      pose proof (firstn_skipn k l) as Hk; rewrite <- Hk in Hb, Hl, H0.
      rewrite !length_app, repeat_length in *; split.
      + pose proof (firstn_skipn k l) as Hk'. apply (f_equal length) in Hk'.
        rewrite length_app in Hk'; lia.
      + apply Forall_app in Hb as [H1 H2]; rewrite !Forall_app; split_ands; auto.
        apply Forall_forall; intros x Hx%list_elem_of_In%repeat_spec; subst; unfold is_byte; lia.
    - destruct ell; [discriminate|]; injection H as <-; split; [lia|done]. }
  assert (forall s ell r, v6_groups 8 s [] ell = Some r -> v6_ok r) as Hg.
  { intros s0 ell r; apply v6_groups_ok; [constructor|simpl; lia]. }
  unfold parseIPv6; intros H.
  repeat match type of H with
  | Some (repeat 0 16) = Some _ => injection H as <-; split; [reflexivity|repeat constructor; unfold is_byte; lia]
  | match v6_groups _ _ _ _ with _ => _ end = _ => apply Hfin in H; [exact H|intros x; apply Hg]
  | match ?x with _ => _ end = _ => destruct x
  end.
Qed.

(** Every address [ParseIP] returns is the IPv4-mapped form of 4 bytes or has no
    IPv4 form. *)
Lemma ParseIP_cases s ip :
  ParseIP s = Some ip ->
  To4 ip = None \/ exists v4, ip = (v4InV6Prefix ++ v4)%list /\ length v4 = 4%nat /\ Forall is_byte v4.
Proof.
  unfold ParseIP; destruct (parse_addr s) as [[ip0 []]|] eqn:E; [| |discriminate]; intros [= <-].
  { right; by eapply parse_addr_v4. }
  assert (parseIPv6 s = Some ip0) as Hp.
  { unfold parse_addr in E; repeat case_match; simplify_eq; done. }
  apply parseIPv6_ok in Hp as [Hl Hb].
  destruct (To4 ip0) as [v4|] eqn:E4; [right|by left]; unfold To4 in E4.
  rewrite Hl in E4; cbn [Nat.eqb andb] in E4.
  destruct (bytes_eqb (firstn 12 ip0) v4InV6Prefix) eqn:Eb; [|discriminate].
  injection E4 as <-; apply bytes_eqb_eq in Eb; exists (skipn 12 ip0).
  rewrite <- Eb, firstn_skipn, length_skipn; split_ands; [done|lia|].
  rewrite <- (firstn_skipn 12 ip0) in Hb; by apply Forall_app in Hb as [_ Hb].
Qed.
