(* ===== verification/AuthService.v ===== *)
(** API-key authentication: [internal/core/service/auth.go], and the key store
    of [internal/storage/memory/apikey.go] it runs against.

    [golang.org/x/time/rate] and Argon2id are third-party code: the limiter
    operations and the key derivation are arguments of the definitions. *)

From Stdlib Require Import Ascii String.
From stdpp Require Import list strings gmap fin_maps.
From S2P Require Import Prelude Errors GoStrings Encoding Token Session APIKey NetIP Lru.

Open Scope string_scope.
Open Scope Z_scope.

(** ** The repository interface and its in-memory implementation *)
Class APIKeyRepository (R : Type) := {
  repo_Get : string -> M R (Res APIKey);
  repo_Create : APIKey -> M R (option error);
  repo_Update : APIKey -> M R (option error);
  repo_Delete : string -> M R (option error);
  repo_List : M R (Res (list APIKey));
}.

(** A repository behaves like a finite map from key ids, and every operation
    is one atomic step. *)
Class APIKeyRepositoryLaws (R : Type) `{APIKeyRepository R} := {
  keys_ok : R -> Prop;
  keys_of : R -> gmap string APIKey;
  keys_id : forall r id k, keys_ok r -> keys_of r !! id = Some k -> KeyID k = id;
  Get_law : forall r id e, keys_ok r -> repo_Get id r e =
    (match keys_of r !! id with Some k => Ok k | None => Err ErrAPIKeyNotFound end, r, e);
  Create_law : forall r k e, keys_ok r -> keys_of r !! KeyID k = None ->
    exists r', repo_Create k r e = (None, r', e) /\ keys_ok r' /\
      keys_of r' = <[KeyID k := k]> (keys_of r);
  Create_conflict : forall r k e, keys_ok r -> is_Some (keys_of r !! KeyID k) ->
    repo_Create k r e = (Some ErrAPIKeyConflict, r, e);
  Update_law : forall r k e, keys_ok r -> is_Some (keys_of r !! KeyID k) ->
    exists r', repo_Update k r e = (None, r', e) /\ keys_ok r' /\
      keys_of r' = <[KeyID k := k]> (keys_of r);
}.

Module APIKeyStore.
Abbreviation t := (gmap string APIKey).
Definition NewAPIKeyStore : t := ∅.
Definition Get (keyID : string) : M t (Res APIKey) :=
  s <- get_st ;;
  match s !! keyID with
  | None => ret (Err ErrAPIKeyNotFound)
  | Some key => ret (Ok (Clone key))
  end.
Definition Create (key : APIKey) : M t (option error) :=
  s <- get_st ;;
  match s !! KeyID key with
  | Some _ => ret (Some ErrAPIKeyConflict)
  | None => upd_st (fun s => <[KeyID key := Clone key]> s) ;;; ret None
  end.
Definition Update (key : APIKey) : M t (option error) :=
  s <- get_st ;;
  match s !! KeyID key with
  | None => ret (Some ErrAPIKeyNotFound)
  | Some _ => upd_st (fun s => <[KeyID key := Clone key]> s) ;;; ret None
  end.
Definition Delete (keyID : string) : M t (option error) :=
  s <- get_st ;;
  match s !! keyID with
  | None => ret (Some ErrAPIKeyNotFound)
  | Some _ => upd_st (fun s => base.delete keyID s) ;;; ret None
  end.
Definition List : M t (Res (list APIKey)) :=
  s <- get_st ;; ret (Ok (map (fun kv => Clone (snd kv)) (map_to_list s))).
End APIKeyStore.

#[export] Instance APIKeyStore_Repository : APIKeyRepository APIKeyStore.t := {
  repo_Get := APIKeyStore.Get;
  repo_Create := APIKeyStore.Create;
  repo_Update := APIKeyStore.Update;
  repo_Delete := APIKeyStore.Delete;
  repo_List := APIKeyStore.List;
}.

#[export] Instance APIKeyStore_Laws : APIKeyRepositoryLaws APIKeyStore.t.
Proof.
  refine {| keys_of := fun s : APIKeyStore.t => s;
            keys_ok := fun s => forall id k, s !! id = Some k -> KeyID k = id |}.
  - auto.
  - intros s id e _; simpl; unfold APIKeyStore.Get, bind, get_st.
    destruct (s !! id); [rewrite APIKey.Clone_key_id|]; done.
  - intros s k e Hs Hn; simpl; unfold APIKeyStore.Create, bind, get_st; rewrite Hn.
    eexists; split; [unfold upd_st, ret; rewrite APIKey.Clone_key_id; reflexivity|].
    split; [|done]; intros id k' [[<- <-]|[_ Hk]]%lookup_insert_Some; auto.
  - intros s k e _ [k0 Hn]; simpl; unfold APIKeyStore.Create, bind, get_st; by rewrite Hn.
  - intros s k e Hs [k0 Hn]; simpl; unfold APIKeyStore.Update, bind, get_st; rewrite Hn.
    eexists; split; [unfold upd_st, ret; rewrite APIKey.Clone_key_id; reflexivity|].
    split; [|done]; intros id k' [[<- <-]|[_ Hk]]%lookup_insert_Some; auto.
Defined.

(** ** Address allowlists *)
Definition entry_matches (ip : list Z) (entry : string) : bool :=
  if GoStrings.Contains entry "/" then
    match ParseCIDR entry with
    | None => false
    | Some ipNet => Contains_ ipNet ip
    end
  else
    match ParseIP entry with
    | None => false
    | Some allowedIP => IP_Equal allowedIP ip
    end.

(** The loop returns at the first match. *)
Definition checkIPAllowlist (globalAllow : list string) (clientIP : string)
    (keyAllowlist : list string) : option error :=
  let allowlist := (globalAllow ++ keyAllowlist)%list in
  if llen allowlist =? 0 then None
  else match ParseIP clientIP with
  | None => Some (WithDetails ErrIPNotAllowed "invalid client IP format")
  | Some ip =>
      if existsb (entry_matches ip) allowlist then None
      else Some (WithDetails ErrIPNotAllowed "client IP not in allowlist")
  end.

(** ** Secrets *)
Definition verifyArgon2Hash `{Argon2Lib} (secret hash : string) : bool :=
  match Split hash "$" with
  | [_; p1; _; _; saltB64; expectedHashB64] =>
      if negb (String.eqb p1 "argon2id") then false
      else match b64std_decode saltB64 with
      | None => false
      | Some salt =>
        match b64std_decode expectedHashB64 with
        | None => false
        | Some expectedHash =>
            let computedHash := argon2_IDKey (to_bytes secret) salt Argon2Time Argon2Memory
                                  Argon2Parallelism (u32 (llen expectedHash)) in
            bytes_eqb computedHash expectedHash
        end
      end
  | _ => false
  end.

Definition verifySecretHash `{Argon2Lib} (secret currentHash oldHash : string)
    (inGracePeriod : bool) : bool :=
  let match1 := verifyArgon2Hash secret currentHash in
  let match2 := if inGracePeriod && negb (String.eqb oldHash "")
                then verifyArgon2Hash secret oldHash else false in
  match1 || match2.

(** ** The cache of validated keys: values are the key and its expiry *)
Abbreviation APIKeyCache := (Lru (APIKey * Z)).
Definition NewAPIKeyCache (cap t : Z) : APIKeyCache :=
  empty_lru (if cap <=? 0 then 10000 else cap) t.

Module Cache.
Definition Get (keyID : string) : M APIKeyCache (option APIKey) :=
  c <- get_st ;;
  match items c !! keyID with
  | None => ret None
  | Some (key, expiresAt) =>
      now <- time_now ;;
      if expiresAt <? now then upd_st (remove_entry keyID) ;;; ret None
      else upd_st (MoveToFront keyID) ;;; ret (Some key)
  end.
(** The eviction loop ends because the capacity is positive; the [None] of
    [evict] leaves the cache as it is. *)
Definition Set_ (keyID : string) (key : APIKey) : M APIKeyCache unit :=
  c <- get_st ;;
  match items c !! keyID with
  | Some _ =>
      now <- time_now ;;
      upd_st (fun c => MoveToFront keyID (set_entry keyID (key, now + ttl c) c))
  | None =>
      upd_st (fun c => match evict (length (order c)) c with Some c' => c' | None => c end) ;;;
      now <- time_now ;;
      upd_st (fun c => push_entry keyID (key, now + ttl c) c)
  end.
(** Mutation of the cached object through the pointer [Get] returned. *)
Definition set_key (keyID : string) (key : APIKey) (c : APIKeyCache) : APIKeyCache :=
  match items c !! keyID with
  | Some (_, expiresAt) => set_entry keyID (key, expiresAt) c
  | None => c
  end.
Definition Delete (keyID : string) : M APIKeyCache unit :=
  c <- get_st ;;
  match items c !! keyID with
  | Some _ => upd_st (remove_entry keyID)
  | None => ret tt
  end.
Definition Clear : M APIKeyCache unit := upd_st (fun c => MkLru ∅ [] (capacity c) (ttl c)).
Definition Size (c : APIKeyCache) : Z := Z.of_nat (size (items c)).
End Cache.

(** ** Rate limiting: [rate.NewLimiter], [Allow], and [Reserve] followed by
    [Delay().String()] and [Cancel], at a time of the clock. *)
Class RateLib := {
  Limiter : Type;
  NewLimiter : Z -> Z -> Limiter;
  Allow : Z -> Limiter -> bool * Limiter;
  reserve_delay : Z -> Limiter -> string * Limiter;
}.

Section AuthService.
Context {R : Type} `{APIKeyRepository R} `{Argon2Lib} `{RateLib}.

Record AuthService := MkAuthService {
  auth_repo : R;
  cache : APIKeyCache;
  rateLimiters : gmap string Limiter;
  globalAllow : list string;
}.
Record AuthServiceConfig := MkAuthServiceConfig {
  CacheTTL : Z; CacheSize : Z; GlobalAllowlist : list string }.
Definition DefaultAuthServiceConfig : AuthServiceConfig :=
  MkAuthServiceConfig (60 * 1000000000) 10000 [].
Definition NewAuthService (repo : R) (config : option AuthServiceConfig) : AuthService :=
  let config := match config with Some c => c | None => DefaultAuthServiceConfig end in
  MkAuthService repo (NewAPIKeyCache (CacheSize config) (CacheTTL config)) ∅
    (GlobalAllowlist config).

Definition set_auth_repo (r : R) (s : AuthService) :=
  MkAuthService r (cache s) (rateLimiters s) (globalAllow s).
Definition set_cache (c : APIKeyCache) (s : AuthService) :=
  MkAuthService (auth_repo s) c (rateLimiters s) (globalAllow s).
Definition set_limiters (l : gmap string Limiter) (s : AuthService) :=
  MkAuthService (auth_repo s) (cache s) l (globalAllow s).
Definition in_repo {A} (m : M R A) : M AuthService A := zoom auth_repo set_auth_repo m.
Definition in_cache {A} (m : M APIKeyCache A) : M AuthService A := zoom cache set_cache m.

Record ValidateAPIKeyRequest := MkValidateAPIKeyRequest {
  vreq_KeyID : string; vreq_KeySecret : string; vreq_ClientIP : string }.

(** The cached branch; [None] falls through to the repository. *)
Definition validate_cached (req : ValidateAPIKeyRequest)
    : M AuthService (option (Res APIKey)) :=
  c <- in_cache (Cache.Get (vreq_KeyID req)) ;;
  match c with
  | None => ret None
  | Some cached =>
    grace <- IsInGracePeriod cached ;;
    if verifySecretHash (vreq_KeySecret req) (SecretHash cached) (OldSecretHash cached) grace
    then
      active <- IsActive cached ;;
      refused <- (if negb active then
                    if String.eqb (Status cached) KeyStatusDisabled
                    then ret (Some ErrAPIKeyDisabled)
                    else expired <- IsExpired cached ;;
                         if expired
                         then ret (Some (WithDetails ErrAPIKeyInvalid "api key expired"))
                         else ret None
                  else ret None) ;;
      match refused with
      | Some err => ret (Some (Err err))
      | None =>
        s <- get_st ;;
        match checkIPAllowlist (globalAllow s) (vreq_ClientIP req) (Allowlist cached) with
        | Some err => ret (Some (Err err))
        | None =>
            touched <- Touch cached ;;
            upd_st (fun s => set_cache (Cache.set_key (vreq_KeyID req) touched (cache s)) s) ;;;
            ret (Some (Ok touched))
        end
      end
    else ret None
  end.

(** Steps 2 to 6 on a miss: read the key and check it. *)
Definition validate_read (req : ValidateAPIKeyRequest) : M AuthService (Res APIKey) :=
  r <- in_repo (repo_Get (vreq_KeyID req)) ;;
  match r with
  | Err err => ret (Err (WithCause ErrAPIKeyNotFound err))
  | Ok apiKey =>
    if negb (String.eqb (Status apiKey) KeyStatusActive) then ret (Err ErrAPIKeyDisabled)
    else
      expired <- IsExpired apiKey ;;
      if expired then ret (Err (WithDetails ErrAPIKeyInvalid "api key expired"))
      else
        s <- get_st ;;
        match checkIPAllowlist (globalAllow s) (vreq_ClientIP req) (Allowlist apiKey) with
        | Some err => ret (Err err)
        | None =>
            grace <- IsInGracePeriod apiKey ;;
            if negb (verifySecretHash (vreq_KeySecret req) (SecretHash apiKey)
                       (OldSecretHash apiKey) grace)
            then ret (Err (WithDetails ErrAPIKeyInvalid "invalid secret"))
            else ret (Ok apiKey)
        end
  end.

(** Steps 7 and 8: write the key read in step 2 back with its new usage
    time (the error of the update is ignored), and cache it. *)
Definition validate_commit (req : ValidateAPIKeyRequest) (apiKey : APIKey)
    : M AuthService (Res APIKey) :=
  apiKey <- Touch apiKey ;;
  _ <- in_repo (repo_Update apiKey) ;;
  in_cache (Cache.Set_ (vreq_KeyID req) apiKey) ;;;
  ret (Ok apiKey).

Definition ValidateAPIKey (req : ValidateAPIKeyRequest) : M AuthService (Res APIKey) :=
  hit <- validate_cached req ;;
  match hit with
  | Some r => ret r
  | None =>
      apiKey <-? validate_read req ;;
      validate_commit req apiKey
  end.

Definition CheckPermission (apiKey : APIKey) (perm : string) : option error :=
  if negb (HasPermission (Role apiKey) perm)
  then Some (WithDetails ErrPermissionDenied
               ("role " +:+ Role apiKey +:+ " does not have permission " +:+ perm))
  else None.
Definition CheckPermissionString (apiKey : APIKey) (action : string) : option error :=
  CheckPermission apiKey action.

(** [GetOrCreate]: the limiter of a key is created once. *)
Definition GetOrCreate (keyID : string) (rateLimit : Z) : M AuthService Limiter :=
  s <- get_st ;;
  match rateLimiters s !! keyID with
  | Some limiter => ret limiter
  | None =>
      let limiter := NewLimiter rateLimit rateLimit in
      upd_st (fun s => set_limiters (<[keyID := limiter]> (rateLimiters s)) s) ;;;
      ret limiter
  end.
Definition put_limiter (keyID : string) (l : Limiter) : M AuthService unit :=
  upd_st (fun s => set_limiters (<[keyID := l]> (rateLimiters s)) s).
(** [Delete] and [Clear] of the registry; nothing calls them. *)
Definition Limiters_Delete (keyID : string) : M AuthService unit := upd_st (fun s => set_limiters (delete keyID (rateLimiters s)) s).
Definition Limiters_Clear : M AuthService unit := upd_st (set_limiters ∅).
Definition CheckRateLimit (keyID : string) (rateLimit : Z) : M AuthService (option error) :=
  limiter <- GetOrCreate keyID rateLimit ;;
  now <- time_now ;;
  let '(ok, limiter) := Allow now limiter in
  put_limiter keyID limiter ;;;
  if negb ok then
    now <- time_now ;;
    let '(delay, limiter) := reserve_delay now limiter in
    put_limiter keyID limiter ;;;
    ret (Some (WithDetails ErrRateLimited ("rate limit exceeded, retry after " +:+ delay)))
  else ret None.

Definition InvalidateCache (keyID : string) : M AuthService unit :=
  in_cache (Cache.Delete keyID).

(** ** Key management *)
Record CreateAPIKeyResponse := MkCreateAPIKeyResponse {
  cresp_KeyID : string; cresp_Secret : string; cresp_Name : string; cresp_Role : string;
  cresp_CreatedAt : Z }.
Definition CreateAPIKey (name role description : string)
    : M AuthService (Res CreateAPIKeyResponse) :=
  r <- NewAPIKey name role ;;
  match r with
  | Err err => ret (Err (WithCause ErrInternalServer err))
  | Ok (apiKey, plainSecret) =>
      let apiKey := set_Description description apiKey in
      err <- in_repo (repo_Create apiKey) ;;
      match err with
      | Some err => ret (Err (WithCause ErrStorageError err))
      | None => ret (Ok (MkCreateAPIKeyResponse (KeyID apiKey) plainSecret (Name apiKey)
                           (Role apiKey) (CreatedAt apiKey)))
      end
  end.

Record APIKeyInfo := MkAPIKeyInfo {
  info_KeyID : string; info_Name : string; info_Role : string; info_Description : string;
  info_Enabled : bool; info_CreatedAt : Z; info_LastUsedAt : Z }.
Definition key_info (key : APIKey) : APIKeyInfo :=
  MkAPIKeyInfo (KeyID key) (Name key) (Role key) (Description key)
    (String.eqb (Status key) KeyStatusActive) (CreatedAt key) (LastUsed key).
Definition ListAPIKeys (role : string) : M AuthService (Res (list APIKeyInfo)) :=
  r <- in_repo repo_List ;;
  match r with
  | Err err => ret (Err (WithCause ErrStorageError err))
  | Ok keys =>
      ret (Ok (map key_info (List.filter (fun key =>
        negb (negb (String.eqb role "") && negb (String.eqb (Role key) role))) keys)))
  end.

Definition UpdateAPIKeyStatus (keyID : string) (enabled : bool) : M AuthService (Res bool) :=
  r <- in_repo (repo_Get keyID) ;;
  match r with
  | Err err => ret (Err (WithCause ErrAPIKeyNotFound err))
  | Ok apiKey =>
      let apiKey := set_Status (if enabled then KeyStatusActive else KeyStatusDisabled) apiKey in
      err <- in_repo (repo_Update apiKey) ;;
      match err with
      | Some err => ret (Err (WithCause ErrStorageError err))
      | None => in_cache (Cache.Delete keyID) ;;; ret (Ok true)
      end
  end.

(** Returns the key id and the new secret. *)
Definition RotateAPIKey (keyID : string) : M AuthService (Res (string * string)) :=
  r <- in_repo (repo_Get keyID) ;;
  match r with
  | Err err => ret (Err (WithCause ErrAPIKeyNotFound err))
  | Ok apiKey =>
      rot <- RotateSecret apiKey ;;
      match rot with
      | Err err => ret (Err (WithCause ErrInternalServer err))
      | Ok (apiKey, newSecret) =>
          err <- in_repo (repo_Update apiKey) ;;
          match err with
          | Some err => ret (Err (WithCause ErrStorageError err))
          | None => in_cache (Cache.Delete keyID) ;;; ret (Ok (KeyID apiKey, newSecret))
          end
      end
  end.
End AuthService.
Arguments AuthService R {_}.
