(* ===== verification/AuthServiceSpec.v ===== *)
(** Properties of API-key authentication: secrets verify, rotation keeps the
    old secret for the grace period only, disabling takes effect, allowlists
    admit what they say, and the race that undoes a disabled key. *)

From Stdlib Require Import Ascii String.
From stdpp Require Import list strings gmap fin_maps.
From S2P Require Import Prelude Errors GoStrings Encoding Token Session APIKey NetIP Lru.
From S2P Require Import AuthService.

Open Scope string_scope.
Open Scope Z_scope.

(** ** Splitting an encoded hash *)
Lemma Split_encode_hash salt hash :
  Forall is_byte salt -> Forall is_byte hash ->
  Split (encode_hash salt hash) "$" =
  [""; "argon2id"; "v=19"; "m=16384,t=2,p=2"; b64std_encode salt; b64std_encode hash].
Proof.
  intros Hs Hh; pose proof (b64std_no_dollar _ Hs); pose proof (b64std_no_dollar _ Hh).
  change (encode_hash salt hash) with ("" +:+ String "$" ("argon2id" +:+ String "$"
    ("v=19" +:+ String "$" ("m=16384,t=2,p=2" +:+ String "$"
      (b64std_encode salt +:+ String "$" (b64std_encode hash)))))).
  by rewrite !Split_app, Split_single.
Qed.

(** The derived key has the length asked for and is made of bytes. *)
Class Argon2Ok `{Argon2Lib} := argon2_bytes : forall p s t m th n,
  0 <= n -> llen (argon2_IDKey p s t m th n) = n /\ Forall is_byte (argon2_IDKey p s t m th n).

Section Facts.
Context `{!Argon2Lib, !Argon2Ok}.

Definition derive (secret : string) (salt : bytes) : bytes :=
  argon2_IDKey (to_bytes secret) salt Argon2Time Argon2Memory Argon2Parallelism Argon2KeyLen.

(** Verification of any secret against the hash of a secret compares the
    derived keys. *)
Lemma verify_encoded secret salt secret' :
  Forall is_byte salt ->
  verifyArgon2Hash secret' (encode_hash salt (derive secret salt)) =
  bytes_eqb (derive secret' salt) (derive secret salt).
Proof.
  intros Hs; destruct (argon2_bytes (to_bytes secret) salt Argon2Time Argon2Memory
    Argon2Parallelism Argon2KeyLen ltac:(unfold Argon2KeyLen; lia)) as [Hlen Hb].
  fold (derive secret salt) in Hlen, Hb.
  unfold verifyArgon2Hash; rewrite Split_encode_hash by done; cbn [String.eqb].
  change (negb _) with false; cbv iota.
  rewrite !b64std_roundtrip by done; rewrite Hlen; reflexivity.
Qed.

Lemma verify_own secret salt :
  Forall is_byte salt -> verifyArgon2Hash secret (encode_hash salt (derive secret salt)) = true.
Proof. intros Hs; rewrite verify_encoded by done; by apply bytes_eqb_eq. Qed.

(** Hashing reads 16 bytes of salt. *)
Lemma hashSecret_run {S} secret (s : S) e h s' e' :
  rnd_ok e -> hashSecret secret s e = (Ok h, s', e') ->
  exists salt, Forall is_byte salt /\ h = encode_hash salt (derive secret salt) /\ s' = s.
Proof.
  unfold hashSecret, bind, rand_read; intros Hr.
  destruct (rnd e 0%nat Argon2SaltLen) as [salt|] eqn:E; [|discriminate].
  destruct (Hr _ _ _ E) as [_ Hb]; intros [= <- <- <-]; by exists salt.
Qed.

(** Rotating reads a fresh secret and salt, and one reading of the clock. *)
Lemma RotateSecret_run {S} (k k' : APIKey) (s s' : S) new e e' :
  rnd_ok e -> RotateSecret k s e = (Ok (k', new), s', e') ->
  s' = s /\ KeyID k' = KeyID k /\ OldSecretHash k' = SecretHash k /\
  Version k' = u64 (Version k + 1) /\
  GracePeriodEnd k' = i64 (unix_milli (clk e 0%nat) + 86400000) /\
  verifyArgon2Hash new (SecretHash k') = true.
Proof.
  unfold RotateSecret, bind at 1, rand_read; intros Hrnd.
  destruct (rnd e 0%nat SecretLength) as [sb|]; [|discriminate].
  set (new' := APIKeySecretPrefix +:+ b64url_encode sb); set (e1 := Env (clk e) _ _).
  assert (rnd_ok e1) as Hr1 by (intros n l b Hb; apply (Hrnd _ _ _ Hb)).
  unfold bind at 1; destruct (hashSecret new' s e1) as [[[h|] s1] e2] eqn:Eh; [|discriminate].
  assert (clk e2 = clk e) as Hclk.
  { revert Eh; unfold hashSecret, bind, rand_read; destruct (rnd e1 0%nat _);
      [|discriminate]; by intros [= _ _ <-]. }
  apply hashSecret_run in Eh as (salt & Hsalt & -> & ->); [|done].
  pose proof (verify_own new' salt Hsalt).
  unfold now_milli, bind, time_now, ret; rewrite Hclk; intros [= <- <- <- <-]; by split_ands.
Qed.

(** A new key is active, without expiry, and its secret verifies. *)
Lemma NewAPIKey_run {S} name role (s s' : S) k secret e e' :
  rnd_ok e -> NewAPIKey name role s e = (Ok (k, secret), s', e') ->
  s' = s /\ Name k = name /\ Role k = role /\ Status k = KeyStatusActive /\ ExpiresAt k = 0 /\
  Allowlist k = [] /\ GracePeriodEnd k = 0 /\ Version k = 1 /\
  verifyArgon2Hash secret (SecretHash k) = true.
Proof.
  unfold NewAPIKey, bind at 1, ulid_new; intros Hrnd.
  destruct (ulids e 0%nat); [|discriminate].
  unfold bind at 1, rand_read; simpl.
  destruct (rnd e 0%nat SecretLength) as [sb|]; [|discriminate].
  set (new' := APIKeySecretPrefix +:+ b64url_encode sb); set (e1 := Env (clk e) _ _).
  assert (rnd_ok e1) as Hr1 by (intros n l b Hb; apply (Hrnd _ _ _ Hb)).
  unfold bind at 1; destruct (hashSecret new' s e1) as [[[h|] s1] e2] eqn:Eh; [|discriminate].
  apply hashSecret_run in Eh as (salt & Hsalt & -> & ->); [|done].
  pose proof (verify_own new' salt Hsalt).
  unfold now_milli, bind, time_now, ret; intros [= <- <- <- <-]; by split_ands.
Qed.

Lemma verify_empty secret : verifyArgon2Hash secret "" = false.
Proof. reflexivity. Qed.
End Facts.

(** ** The clock of a key *)
Lemma key_expired_run {S} (k : APIKey) (s : S) e :
  ExpiresAt k = 0 -> IsExpired k s e = (false, s, e).
Proof. unfold IsExpired; by intros ->. Qed.

Section AuthFacts.
Context {R : Type} `{APIKeyRepositoryLaws R} `{!Argon2Lib, !RateLib}.
Implicit Types s : AuthService R.

Definition auth_ok s : Prop := keys_ok (auth_repo s).

Lemma set_repo_id s : set_auth_repo (auth_repo s) s = s.
Proof. by destruct s. Qed.
Lemma set_cache_id s : set_cache (cache s) s = s.
Proof. by destruct s. Qed.

Lemma in_repo_Get s id e : auth_ok s ->
  in_repo (repo_Get id) s e =
  (match keys_of (auth_repo s) !! id with
   | Some k => Ok k | None => Err ErrAPIKeyNotFound end, s, e).
Proof. intros Hs; unfold in_repo, zoom; rewrite Get_law by done; by rewrite set_repo_id. Qed.

Lemma in_repo_Update s k e : auth_ok s -> is_Some (keys_of (auth_repo s) !! KeyID k) ->
  exists r', in_repo (repo_Update k) s e = (None, set_auth_repo r' s, e) /\
    keys_ok r' /\ keys_of r' = <[KeyID k := k]> (keys_of (auth_repo s)).
Proof.
  intros Hs Hk; destruct (Update_law _ _ e Hs Hk) as (r' & Hu & Hok & Hm).
  exists r'; unfold in_repo, zoom; by rewrite Hu.
Qed.

(** Dropping a key from the cache. *)
Lemma in_cache_Delete s id e :
  exists c', in_cache (Cache.Delete id) s e = (tt, set_cache c' s, e) /\ items c' !! id = None.
Proof.
  unfold in_cache, zoom, Cache.Delete, bind, get_st.
  destruct (items (cache s) !! id) eqn:E; simpl; eexists; (split; [reflexivity|]); auto.
  simpl; apply lookup_delete_eq.
Qed.

Lemma validate_cached_miss s req e :
  items (cache s) !! vreq_KeyID req = None -> validate_cached req s e = (None, s, e).
Proof.
  intros Hc; unfold validate_cached.
  erewrite bind_run by (unfold in_cache, zoom, Cache.Get, bind, get_st; rewrite Hc; reflexivity).
  by rewrite set_cache_id.
Qed.

Lemma UpdateAPIKeyStatus_run s id enabled e k :
  auth_ok s -> keys_of (auth_repo s) !! id = Some k ->
  exists r' c', UpdateAPIKeyStatus id enabled s e =
      (Ok true, set_cache c' (set_auth_repo r' s), e) /\
    keys_ok r' /\ items c' !! id = None /\
    keys_of r' = <[id := set_Status (if enabled then KeyStatusActive else KeyStatusDisabled) k]>
      (keys_of (auth_repo s)).
Proof.
  intros Hs Hk; pose proof (keys_id _ _ _ Hs Hk) as Hid; unfold UpdateAPIKeyStatus.
  erewrite bind_run by (rewrite in_repo_Get, Hk by done; reflexivity); cbn beta iota.
  set (k' := set_Status _ k); assert (KeyID k' = id) as Hid' by done.
  destruct (in_repo_Update s k' e Hs) as (r' & Hu & Hok & Hm); [by rewrite Hid', Hk|].
  erewrite bind_run by exact Hu.
  destruct (in_cache_Delete (set_auth_repo r' s) id e) as (c' & Hd & Hc).
  erewrite bind_run by exact Hd; exists r', c'; rewrite Hid' in Hm; by split_ands.
Qed.

(** A key without expiry and restrictions is accepted on its secret alone. *)
Lemma validate_read_open s req e k :
  auth_ok s -> keys_of (auth_repo s) !! vreq_KeyID req = Some k ->
  Status k = KeyStatusActive -> ExpiresAt k = 0 -> GracePeriodEnd k = 0 ->
  Allowlist k = [] -> globalAllow s = [] ->
  validate_read req s e =
  (if verifyArgon2Hash (vreq_KeySecret req) (SecretHash k) then Ok k
   else Err (WithDetails ErrAPIKeyInvalid "invalid secret"), s, e).
Proof.
  intros Hs Hk Hst Hexp Hg Ha Hgl; unfold validate_read.
  erewrite bind_run by (rewrite in_repo_Get, Hk by done; reflexivity); cbn beta iota.
  rewrite Hst, String.eqb_refl; cbn [negb].
  erewrite bind_run by (by apply key_expired_run); cbn beta iota.
  unfold bind at 1, get_st; cbn beta iota; rewrite Hgl, Ha; cbn [app].
  change (checkIPAllowlist [] (vreq_ClientIP req) []) with (@None error); cbn beta iota.
  unfold IsInGracePeriod; rewrite Hg; change ((0 =? 0) || _) with true; cbn beta iota.
  unfold bind, ret, verifySecretHash; simpl; rewrite orb_false_r.
  by destruct (verifyArgon2Hash _ _).
Qed.

Lemma validate_read_refused s req e k :
  auth_ok s -> keys_of (auth_repo s) !! vreq_KeyID req = Some k ->
  Status k <> KeyStatusActive ->
  validate_read req s e = (Err ErrAPIKeyDisabled, s, e).
Proof.
  intros Hs Hk Hst; unfold validate_read.
  erewrite bind_run by (rewrite in_repo_Get, Hk by done; reflexivity); cbn beta iota.
  by rewrite (proj2 (String.eqb_neq _ _) Hst).
Qed.
(** A key that is not active and not cached is refused. *)
Lemma inactive_refused s req e k : auth_ok s -> items (cache s) !! vreq_KeyID req = None ->
  keys_of (auth_repo s) !! vreq_KeyID req = Some k -> Status k <> KeyStatusActive ->
  fst (fst (ValidateAPIKey req s e)) = Err ErrAPIKeyDisabled.
Proof.
  intros Hs Hc Hk Hst; unfold ValidateAPIKey.
  erewrite bind_run by (apply validate_cached_miss; exact Hc); cbn beta iota.
  erewrite bind_run; [|eapply validate_read_refused; [exact Hs|exact Hk|exact Hst]].
  done.
Qed.
End AuthFacts.

(** ** Properties *)
Section Properties.
Context {R : Type} `{APIKeyRepositoryLaws R} `{!Argon2Lib, !RateLib}.
Implicit Types s : AuthService R.

(** Once disabling a key has been acknowledged, the next validation of that
    key is refused, whatever secret or address it presents and even if the key
    was cached. *)
Theorem disable_takes_effect s (req : ValidateAPIKeyRequest) (e : env) (k : APIKey)
    (Hs : auth_ok s) (Hk : keys_of (auth_repo s) !! vreq_KeyID req = Some k) :
  let '(r, s', e') := UpdateAPIKeyStatus (vreq_KeyID req) false s e in
  r = Ok true /\ fst (fst (ValidateAPIKey req s' e')) = Err ErrAPIKeyDisabled.
Proof.
  destruct (UpdateAPIKeyStatus_run s _ false e k Hs Hk) as (r' & c' & -> & Hok & Hc & Hm).
  split; [done|]; eapply inactive_refused; [exact Hok|exact Hc|simpl; rewrite Hm; apply lookup_insert_eq|discriminate].
Qed.

(** Issuing and using a key: the secret handed out once at creation
    authenticates from any address (when no global allowlist is set), a secret
    that does not verify is refused, and the stored key carries the requested role. *)
Theorem fresh_key_authenticates `{!Argon2Ok} s s' (e e' : env) (name role description : string)
    (resp : CreateAPIKeyResponse) (ip : string)
    (Hs : auth_ok s) (Hrnd : rnd_ok e) (Hgl : globalAllow s = [])
    (Hcreate : CreateAPIKey name role description s e = (Ok resp, s', e'))
    (Hcache : items (cache s) !! cresp_KeyID resp = None) :
  exists k, keys_of (auth_repo s') !! cresp_KeyID resp = Some k /\
    Role k = role /\ Name k = name /\ Description k = description /\
    keys_of (auth_repo s) !! cresp_KeyID resp = None /\
    (exists k', fst (fst (ValidateAPIKey
       (MkValidateAPIKeyRequest (cresp_KeyID resp) (cresp_Secret resp) ip) s' e')) = Ok k' /\
       Role k' = role) /\
    (forall wrong, verifyArgon2Hash wrong (SecretHash k) = false ->
       fst (fst (ValidateAPIKey
         (MkValidateAPIKeyRequest (cresp_KeyID resp) wrong ip) s' e')) =
       Err (WithDetails ErrAPIKeyInvalid "invalid secret")).
Proof.
  revert Hcreate; unfold CreateAPIKey, bind at 1.
  destruct (NewAPIKey name role s e) as [[[[k0 secret]|] s1] e1] eqn:En; [|discriminate].
  apply NewAPIKey_run in En as (-> & Hn & Hr & Hst & Hexp & Ha & Hg & _ & Hv); [|done].
  set (k := set_Description description k0); unfold bind at 1, in_repo, zoom.
  destruct (keys_of (auth_repo s) !! KeyID k) as [kc|] eqn:Ek.
  { rewrite Create_conflict by (rewrite ?Ek; eauto); discriminate. }
  destruct (Create_law _ k e1 Hs Ek) as (r' & -> & Hok & Hm); intros [= <- <- <-].
  cbn [cresp_KeyID cresp_Secret] in *.
  assert (auth_ok (set_auth_repo r' s)) as Hs' by exact Hok.
  assert (keys_of (auth_repo (set_auth_repo r' s)) !! KeyID k0 = Some k) as Hk
    by (simpl; rewrite Hm; apply lookup_insert_eq).
  exists k; split_ands; auto.
  - exists (set_LastUsed (unix_milli (clk e1 0%nat)) k); split; [|done]; unfold ValidateAPIKey.
    erewrite bind_run by (apply validate_cached_miss; exact Hcache); cbn beta iota.
    erewrite bind_run by (eapply (validate_read_open _ _ _ k); eauto); cbn [vreq_KeySecret].
    change (SecretHash k) with (SecretHash k0); rewrite Hv.
    destruct (in_repo_Update (set_auth_repo r' s) (set_LastUsed (unix_milli (clk e1 0%nat)) k)
      (Env (fun n => clk e1 (n + 1)%nat) (rnd e1) (ulids e1)) Hs') as (r2 & Hu & _);
      [simpl; rewrite Hm, lookup_insert_eq; eauto|].
    unfold validate_commit, Touch, now_milli, bind at 1, bind at 1, bind at 1, time_now, ret at 1;
      cbn beta iota; unfold ret at 1; cbn beta iota.
    erewrite bind_run by exact Hu; unfold bind.
    by destruct (in_cache _ _ _) as [[[] ?] ?].
  - intros wrong Hw; unfold ValidateAPIKey.
    erewrite bind_run by (apply validate_cached_miss; exact Hcache); cbn beta iota.
    erewrite bind_run by (eapply (validate_read_open _ _ _ k); eauto); cbn [vreq_KeySecret].
    change (SecretHash k) with (SecretHash k0) in *; by rewrite Hw.
Qed.

(** The race: a validation that has read and checked the key before it is
    disabled, and finishes after, writes its stale copy back. The key is active
    again in the store and in the cache, so the same credentials keep
    being accepted although the administrator's request succeeded. *)
Theorem validation_undoes_disable s (req : ValidateAPIKeyRequest) (e e1 : env) (k : APIKey)
    (Hs : auth_ok s)
    (Hread : validate_read req s e = (Ok k, s, e1)) :
  let '(answer, s1, e2) := UpdateAPIKeyStatus (vreq_KeyID req) false s e1 in
  let '(r, s2, e3) := validate_commit req k s1 e2 in
  answer = Ok true /\ is_ok r = true /\
  (exists k', keys_of (auth_repo s2) !! vreq_KeyID req = Some k' /\ Status k' = KeyStatusActive /\
     SecretHash k' = SecretHash k) /\
  is_Some (items (cache s2) !! vreq_KeyID req).
Proof.
  assert (keys_of (auth_repo s) !! vreq_KeyID req = Some k /\ Status k = KeyStatusActive) as [Hk Hst].
  { revert Hread; unfold validate_read, bind at 1; rewrite in_repo_Get by done.
    destruct (keys_of (auth_repo s) !! vreq_KeyID req) as [k0|]; [|discriminate].
    destruct (String.eqb_spec (Status k0) KeyStatusActive) as [Hst|]; simpl; [|discriminate].
    unfold bind, get_st; destruct (IsExpired k0 s e) as [[b s0] e0]; destruct b; [discriminate|].
    destruct (checkIPAllowlist _ _ _); [discriminate|].
    destruct (IsInGracePeriod k0 s0 e0) as [[g s3] e3]; destruct (verifySecretHash _ _ _ g);
      [|discriminate]. by intros [= <- _ _]. }
  destruct (UpdateAPIKeyStatus_run s _ false e1 k Hs Hk) as (r' & c' & -> & Hok & Hc & Hm).
  unfold validate_commit, Touch, now_milli, bind at 1, bind at 1, bind at 1, time_now, ret at 1;
    cbn beta iota; unfold ret at 1; cbn beta iota.
  set (k' := set_LastUsed _ k).
  destruct (in_repo_Update (set_cache c' (set_auth_repo r' s)) k'
    (Env (fun n => clk e1 (n + 1)%nat) (rnd e1) (ulids e1))) as (r2 & Hu & Hok2 & Hm2); [exact Hok| |].
  { simpl; rewrite Hm, (keys_id _ _ _ Hs Hk), lookup_insert_eq; eauto. }
  erewrite bind_run by exact Hu.
  erewrite bind_run by (unfold in_cache, zoom, Cache.Set_, bind, get_st; simpl; rewrite Hc; reflexivity).
  simpl; split_ands; auto.
  - exists k'; rewrite Hm2; simpl; rewrite (keys_id _ _ _ Hs Hk), lookup_insert_eq; by split_ands.
  - rewrite lookup_insert_eq; eauto.
Qed.

(** Rotation: the new secret is accepted at once; any secret that verified
    before is accepted during the grace period of 24 hours and, unless it
    happens to verify against the new hash too, not afterwards.  The cached
    copy is dropped, and the version grows by one. *)
Theorem rotation_grace `{!Argon2Ok} s (id : string) (e : env) (k : APIKey)
    (Hs : auth_ok s) (Hrnd : rnd_ok e) (Hk : keys_of (auth_repo s) !! id = Some k)
    (newSecret keyID : string) s' (e' : env)
    (Hrot : RotateAPIKey id s e = (Ok (keyID, newSecret), s', e')) :
  keyID = id /\ items (cache s') !! id = None /\
  exists k', keys_of (auth_repo s') !! id = Some k' /\
    Version k' = u64 (Version k + 1) /\
    GracePeriodEnd k' = i64 (unix_milli (clk e 0%nat) + 86400000) /\
    verifyArgon2Hash newSecret (SecretHash k') = true /\
    (forall grace, verifySecretHash newSecret (SecretHash k') (OldSecretHash k') grace = true) /\
    (forall old, verifyArgon2Hash old (SecretHash k) = true ->
       verifySecretHash old (SecretHash k') (OldSecretHash k') true = true /\
       verifySecretHash old (SecretHash k') (OldSecretHash k') false =
         verifyArgon2Hash old (SecretHash k')).
Proof.
  pose proof (keys_id _ _ _ Hs Hk) as Hid; revert Hrot; unfold RotateAPIKey.
  erewrite bind_run by (rewrite in_repo_Get, Hk by done; reflexivity); cbn beta iota.
  unfold bind at 1; destruct (RotateSecret k s e) as [[[[k' new]|] s1] e1] eqn:Er; [|discriminate].
  apply RotateSecret_run in Er as (-> & Hid' & Hold & Hver & Hgr & Hnew); [|done].
  rewrite Hid in Hid'.
  destruct (in_repo_Update s k' e1 Hs) as (r' & Hu & Hok & Hm); [rewrite Hid', Hk; eauto|].
  erewrite bind_run by exact Hu; cbn beta iota.
  destruct (in_cache_Delete (set_auth_repo r' s) id e1) as (c' & Hd & Hc).
  erewrite bind_run by exact Hd; intros [= <- <- <- <-].
  split_ands; [done|done|]; exists k'; rewrite Hid' in Hm; simpl.
  rewrite Hm, lookup_insert_eq, Hold; unfold verifySecretHash; rewrite Hnew.
  split_ands; auto; intros old Ho; rewrite Ho.
  destruct (String.eqb_spec (SecretHash k) "") as [E|]; simpl;
    [rewrite E, verify_empty in Ho; discriminate|by rewrite orb_true_r, orb_false_r].
Qed.
End Properties.

(** What an allowlist entry admits, for single addresses and IPv4 networks. *)
Inductive admits : string -> list Z -> Prop :=
| admits_address entry ip :
    GoStrings.Contains entry "/" = false -> ParseIP entry = Some ip -> admits entry ip
| admits_network entry addr mask n net v4 :
    GoStrings.Contains entry "/" = true -> cut_slash entry = Some (addr, mask) ->
    parse_addr addr = Some ((v4InV6Prefix ++ net)%list, true) ->
    mask <> "" -> dtoi mask 0 = Some n -> n <= 32 ->
    length v4 = 4%nat -> Forall is_byte v4 -> same_prefix n net v4 ->
    admits entry (v4InV6Prefix ++ v4)%list.

(** The entry is not an IPv6 network. *)
Definition not_v6_network (entry : string) : Prop :=
  GoStrings.Contains entry "/" = true -> forall addr mask net,
  cut_slash entry = Some (addr, mask) -> parse_addr addr <> Some (net, false).

Lemma dtoi_nonneg s n m : 0 <= n -> dtoi s n = Some m -> 0 <= m.
Proof.
  revert n; induction s as [|a s IH]; simpl; intros n Hn; [by intros [= <-]|].
  unfold digit_val; destruct ((48 <=? ascii_Z a) && (ascii_Z a <=? 57)) eqn:E; [|discriminate].
  destruct (16777215 <=? _); [discriminate|]; apply IH; lia.
Qed.

Lemma mapped_inj a b : (v4InV6Prefix ++ a)%list = (v4InV6Prefix ++ b)%list -> a = b.
Proof. apply app_inv_head. Qed.

Lemma entry_matches_spec client entry ip :
  ParseIP client = Some ip -> not_v6_network entry ->
  entry_matches ip entry = true <-> admits entry ip.
Proof.
  intros Hip Hv6; unfold entry_matches; destruct (GoStrings.Contains entry "/") eqn:Es.
  2:{ split.
      - destruct (ParseIP entry) as [a|] eqn:E; [|discriminate].
        unfold IP_Equal; intros ->%bytes_eqb_eq; by constructor.
      - inversion 1; subst; [|congruence]. rewrite H1; by apply bytes_eqb_eq. }
  unfold ParseCIDR; destruct (cut_slash entry) as [[addr mask]|] eqn:Ec;
    [|split; [discriminate|inversion 1; congruence]].
  destruct (parse_addr addr) as [[net16 []]|] eqn:Ea;
    [|by destruct (Hv6 Es _ _ net16 Ec)|split; [discriminate|inversion 1; congruence]].
  destruct (parse_addr_v4 _ _ Ea) as (net & -> & Hl & Hb).
  destruct (String.eqb_spec mask ""); [split; [discriminate|inversion 1; congruence]|].
  destruct (dtoi mask 0) as [k|] eqn:Ed; [|split; [discriminate|inversion 1; congruence]].
  pose proof (dtoi_nonneg _ 0 k ltac:(lia) Ed); cbn [length].
  destruct (Z.ltb_spec (8 * Z.of_nat 4) k); [split; [discriminate|inversion 1; [congruence|simplify_eq; lia]]|].
  change (skipn 12 (v4InV6Prefix ++ net)%list) with net.
  destruct (ParseIP_cases _ _ Hip) as [H4|(v4 & -> & Hl4 & Hb4)].
  - rewrite Contains_v4_only by done; split; [discriminate|].
    inversion 1; subst; [congruence|]. by rewrite To4_mapped in H4.
  - rewrite Contains_v4 by (done || lia); split.
    + intros Hp; eapply admits_network; eauto; lia.
    + inversion 1; subst; [congruence|].
      assert (addr0 = addr /\ mask0 = mask) as [-> ->] by (split; congruence).
      assert (net0 = net) as -> by (apply mapped_inj; congruence).
      by assert (n0 = k) as -> by congruence.
Qed.

(** The allowlist check: without any entry everybody is admitted; otherwise the
    client address must parse, and some entry must admit it: the same address,
    or an IPv4 network whose first [n] bits are those of the address. *)
Theorem allowlist_spec (globalAllow keyAllowlist : list string) (client : string)
    (Hv4 : forall entry, entry ∈ (globalAllow ++ keyAllowlist)%list -> not_v6_network entry) :
  (checkIPAllowlist globalAllow client keyAllowlist = None <->
     (globalAllow ++ keyAllowlist)%list = [] \/
     exists ip entry, ParseIP client = Some ip /\
       entry ∈ (globalAllow ++ keyAllowlist)%list /\ admits entry ip) /\
  (forall err, checkIPAllowlist globalAllow client keyAllowlist = Some err ->
     GetErrorCode err = "TM-AUTH-4031").
Proof.
  unfold checkIPAllowlist; set (l := (globalAllow ++ keyAllowlist)%list) in *.
  destruct (Z.eqb_spec (llen l) 0) as [E|E].
  { destruct l; [|discriminate]. split; [tauto|discriminate]. }
  destruct (ParseIP client) as [ip|] eqn:Ei.
  - split; [|destruct (existsb _ _); intros err; [discriminate|intros [= <-]; reflexivity]].
    destruct (existsb (entry_matches ip) l) eqn:Ex; split; try done.
    + intros _; right; apply existsb_exists in Ex as (entry & Hin & Hm).
      apply list_elem_of_In in Hin; exists ip, entry; split_ands; auto.
      by eapply entry_matches_spec; eauto.
    + intros [Hl|(ip' & entry & [= <-] & Hin & Ha)]; [by rewrite Hl in E|].
      assert (existsb (entry_matches ip) l = true); [|congruence].
      apply existsb_exists; exists entry; split; [by apply list_elem_of_In|].
      eapply entry_matches_spec; eauto.
  - split; [|intros err [= <-]; reflexivity]. split; [discriminate|].
    intros [Hl|(? & ? & ? & _)]; [by rewrite Hl in E|discriminate].
Qed.

(** ** Witnesses *)
Section Demo.
(** A derivation that is length-correct and depends on its arguments. *)
#[local] Instance demo_argon2 : Argon2Lib :=
  fun p s _ _ _ n => firstn (Z.to_nat n) (sha256 (p ++ s) ++ repeat 0 (Z.to_nat n)).
#[local] Instance demo_argon2_ok : Argon2Ok.
Proof.
  intros p s t m th n Hn; unfold argon2_IDKey, demo_argon2, llen.
  rewrite length_firstn, length_app, repeat_length; split; [lia|].
  apply Forall_take, Forall_app; split; [apply sha256_bytes|].
  apply Forall_forall; intros x Hx%list_elem_of_In%repeat_spec; subst; unfold is_byte; lia.
Qed.
#[local] Instance demo_rate : RateLib := {
  Limiter := unit; NewLimiter _ _ := tt; Allow _ l := (true, l); reserve_delay _ l := ("0s", l) }.

Definition demo_auth_env : env :=
  Env (fun _ => 5000000000) (fun _ n => Ok (repeat 7 n)) (fun _ => Ok "01HZX").
Lemma demo_auth_rnd_ok : rnd_ok demo_auth_env.
Proof.
  intros k n b [= <-]; split; [apply repeat_length|].
  apply Forall_forall; intros x Hx%list_elem_of_In%repeat_spec; subst; unfold is_byte; lia.
Qed.
Definition demo_salt : bytes := repeat 7 16.
Definition demo_key : APIKey :=
  MkAPIKey "tmak-1" "ci" (encode_hash demo_salt (derive "tmas_old" demo_salt)) "" 0 RoleIssuer
    [] 1000 0 KeyStatusActive "" 0 "" 0 1.
Definition demo_auth : AuthService APIKeyStore.t :=
  MkAuthService {["tmak-1" := demo_key]} (NewAPIKeyCache 10 60) ∅ [].
Definition demo_req : ValidateAPIKeyRequest := MkValidateAPIKeyRequest "tmak-1" "tmas_old" "10.0.0.1".

Lemma demo_auth_ok : auth_ok demo_auth.
Proof.
  intros id k Hk; change (auth_repo demo_auth) with ({["tmak-1" := demo_key]} : APIKeyStore.t) in Hk.
  by apply lookup_singleton_Some in Hk as [<- <-].
Qed.

Lemma disable_takes_effect_witness :
  let '(r, s', e') := UpdateAPIKeyStatus "tmak-1" false demo_auth demo_auth_env in
  r = Ok true /\ fst (fst (ValidateAPIKey demo_req s' e')) = Err ErrAPIKeyDisabled.
Proof.
  apply (disable_takes_effect demo_auth demo_req demo_auth_env demo_key);
    [apply demo_auth_ok|apply lookup_singleton_eq].
Defined.

Lemma validation_undoes_disable_witness :
  exists s', snd (fst (validate_commit demo_req demo_key
      (snd (fst (UpdateAPIKeyStatus "tmak-1" false demo_auth demo_auth_env))) demo_auth_env)) = s' /\
    exists k', keys_of (auth_repo s') !! "tmak-1" = Some k' /\ Status k' = KeyStatusActive.
Proof.
  eexists; split; [reflexivity|].
  pose proof (validation_undoes_disable demo_auth demo_req demo_auth_env demo_auth_env demo_key
    demo_auth_ok ltac:(rewrite (validate_read_open _ _ _ demo_key) by
      (apply demo_auth_ok || apply lookup_singleton_eq || reflexivity); reflexivity)) as Hw.
  destruct (UpdateAPIKeyStatus_run demo_auth "tmak-1" false demo_auth_env demo_key demo_auth_ok
    (lookup_singleton_eq _ _)) as (r' & c' & Hrun & _).
  change (vreq_KeyID demo_req) with "tmak-1" in Hw; rewrite Hrun in Hw |- *; cbn [fst snd].
  destruct (validate_commit demo_req demo_key _ demo_auth_env) as [[r s2] e2].
  destruct Hw as (_ & _ & (k' & Hk & Hst & _) & _); exists k'; split; [exact Hk|exact Hst].
Defined.

Lemma rotation_grace_witness :
  exists k', keys_of (auth_repo (snd (fst (RotateAPIKey "tmak-1" demo_auth demo_auth_env))))
    !! "tmak-1" = Some k' /\
  verifySecretHash "tmas_old" (SecretHash k') (OldSecretHash k') true = true.
Proof.
  destruct (RotateAPIKey "tmak-1" demo_auth demo_auth_env) as [[r s'] e'] eqn:E.
  destruct r as [[id new]|err]; [|exfalso; vm_compute in E; discriminate].
  destruct (rotation_grace demo_auth "tmak-1" demo_auth_env demo_key demo_auth_ok demo_auth_rnd_ok
    (lookup_singleton_eq _ _) new id s' e' E) as (_ & _ & k' & Hk & _ & _ & _ & _ & Hold).
  exists k'; split; [exact Hk|].
  apply Hold; vm_compute; reflexivity.
Defined.

Lemma fresh_key_authenticates_witness :
  let secret := "tmas_" +:+ b64url_encode (repeat 7 32) in
  exists s' e', CreateAPIKey "n" RoleIssuer "d" demo_auth demo_auth_env =
    (Ok (MkCreateAPIKeyResponse "tmak-01hzx" secret "n" RoleIssuer 5000), s', e') /\
  exists k', fst (fst (ValidateAPIKey
    (MkValidateAPIKeyRequest "tmak-01hzx" secret "anywhere") s' e')) = Ok k' /\ Role k' = RoleIssuer.
Proof.
  cbv zeta.
  assert (fst (fst (CreateAPIKey "n" RoleIssuer "d" demo_auth demo_auth_env)) =
    Ok (MkCreateAPIKeyResponse "tmak-01hzx" ("tmas_" +:+ b64url_encode (repeat 7 32)) "n" RoleIssuer 5000))
    as Hr by (vm_compute; reflexivity).
  destruct (CreateAPIKey "n" RoleIssuer "d" demo_auth demo_auth_env) as [[r s'] e'] eqn:E.
  simpl in Hr; subst r; exists s', e'; split; [reflexivity|].
  destruct (fresh_key_authenticates demo_auth s' demo_auth_env e' _ _ _ _ "anywhere" demo_auth_ok
    demo_auth_rnd_ok eq_refl E eq_refl) as (k & _ & _ & _ & _ & _ & H & _).
  exact H.
Defined.
End Demo.

Lemma allowlist_spec_witness :
  checkIPAllowlist ["10.1.0.0/16"] "10.1.200.3" ["192.168.0.7"] = None.
Proof.
  apply (allowlist_spec ["10.1.0.0/16"] ["192.168.0.7"] "10.1.200.3").
  - intros entry Hin Hs addr mask net Hc Hp; simpl in Hin.
    repeat (apply elem_of_cons in Hin as [->|Hin]); [| |by apply not_elem_of_nil in Hin];
      vm_compute in Hs; try discriminate; vm_compute in Hc; simplify_eq; vm_compute in Hp; discriminate.
  - right; exists (v4InV6Prefix ++ [10; 1; 200; 3])%list, "10.1.0.0/16"; split_ands;
      [reflexivity|left|].
    eapply (admits_network _ "10.1.0.0" "16" 16 [10; 1; 0; 0]); try reflexivity; try lia;
      [discriminate|repeat constructor; unfold is_byte; lia].
Defined.

(** * Accepted keys

    What it means that the authentication service accepts a key, and that checking
    keys changes nothing of them but the time of their last use. *)

Section Accept.
Context {R : Type} `{APIKeyRepositoryLaws R} `{!Argon2Lib, !RateLib}.
Implicit Types s : AuthService R.

(** ** Steps that only read the clock *)
Lemma IsExpired_st {S} (k : APIKey) (s : S) e : exists b e', IsExpired k s e = (b, s, e').
Proof. unfold IsExpired; destruct (_ =? 0); by do 2 eexists. Qed.
Lemma IsActive_st {S} (k : APIKey) (s : S) e : exists b e', IsActive k s e = (b, s, e') /\ (b = true -> Status k = KeyStatusActive).
Proof.
  unfold IsActive; destruct (String.eqb_spec (Status k) KeyStatusActive); [|by do 2 eexists].
  destruct (IsExpired_st k s e) as (b & e' & E); unfold bind; rewrite E; by do 2 eexists.
Qed.
Lemma IsInGracePeriod_st {S} (k : APIKey) (s : S) e : exists b e', IsInGracePeriod k s e = (b, s, e').
Proof. unfold IsInGracePeriod; destruct (_ || _); by do 2 eexists. Qed.

(** ** The two branches of a validation *)

(** The secret is the key's, or the one before a rotation; the address is allowed. *)
Definition accepts s (req : ValidateAPIKeyRequest) (k : APIKey) : Prop :=
  (verifyArgon2Hash (vreq_KeySecret req) (SecretHash k) = true \/ verifyArgon2Hash (vreq_KeySecret req) (OldSecretHash k) = true) /\
  Status k <> KeyStatusDisabled /\ checkIPAllowlist (globalAllow s) (vreq_ClientIP req) (Allowlist k) = None.

Lemma verify_either secret cur old g : verifySecretHash secret cur old g = true ->
  verifyArgon2Hash secret cur = true \/ verifyArgon2Hash secret old = true.
Proof.
  unfold verifySecretHash; intros [Hc|Hc]%orb_true_iff; [by left|right]; by destruct (g && _).
Qed.

Lemma Cache_Get_spec (c : APIKeyCache) id e : exists c' e', Cache.Get id c e =
  (match items c !! id with
   | Some (k, expiresAt) => if expiresAt <? clk e 0%nat then None else Some k
   | None => None
   end, c', e').
Proof.
  unfold Cache.Get, bind, get_st; destruct (items c !! id) as [[k expiresAt]|]; [|by do 2 eexists].
  unfold time_now; destruct (expiresAt <? _); by do 2 eexists.
Qed.

Lemma validate_cached_spec s req e : exists hit c' e', validate_cached req s e = (hit, set_cache c' s, e') /\
  (forall key, hit = Some (Ok key) -> exists k t until, items (cache s) !! vreq_KeyID req = Some (k, until) /\
     accepts s req k /\ key = set_LastUsed t k).
Proof.
  unfold validate_cached, bind at 1, in_cache, zoom.
  destruct (Cache_Get_spec (cache s) (vreq_KeyID req) e) as (c1 & e1 & ->).
  destruct (items (cache s) !! vreq_KeyID req) as [[k until]|]; [|by do 3 eexists].
  destruct (until <? _); [by do 3 eexists|].
  destruct (IsInGracePeriod_st k (set_cache c1 s) e1) as (g & e2 & E2); unfold bind at 1; rewrite E2.
  destruct (verifySecretHash _ _ _ g) eqn:Ev; [|by do 3 eexists].
  destruct (IsActive_st k (set_cache c1 s) e2) as (act & e3 & E3 & Hact); unfold bind at 1; rewrite E3.
  destruct (IsExpired_st k (set_cache c1 s) e3) as (ex & e4 & E4).
  assert (exists refused e5, (if negb act then
      if String.eqb (Status k) KeyStatusDisabled then ret (Some ErrAPIKeyDisabled)
      else expired <- IsExpired k ;; if expired then ret (Some (WithDetails ErrAPIKeyInvalid "api key expired")) else ret None
    else ret None) (set_cache c1 s) e3 = (refused, set_cache c1 s, e5) /\ (refused = None -> Status k <> KeyStatusDisabled)) as (refused & e5 & E5 & Href).
  { destruct act; cbn [negb]; [do 2 eexists; split; [reflexivity|]; intros _; by rewrite Hact|].
    destruct (String.eqb_spec (Status k) KeyStatusDisabled); [by do 2 eexists|].
    unfold bind; rewrite E4; destruct ex; by do 2 eexists. }
  unfold bind at 1; rewrite E5; destruct refused as [err|]; [by do 3 eexists|].
  unfold bind at 1, get_st; cbn beta iota; change (globalAllow (set_cache c1 s)) with (globalAllow s).
  destruct (checkIPAllowlist _ _ _) as [err|] eqn:Ei; [by do 3 eexists|].
  unfold Touch, now_milli, bind, time_now, ret, upd_st; do 3 eexists; split; [reflexivity|].
  intros key [= <-]; exists k, (unix_milli (clk e5 0%nat)), until; split; [done|]; split; [|done].
  split; [by eapply verify_either|]; auto.
Qed.

Lemma validate_read_spec s req e : auth_ok s -> exists res e', validate_read req s e = (res, s, e') /\
  (forall k, res = Ok k -> keys_of (auth_repo s) !! vreq_KeyID req = Some k /\ accepts s req k).
Proof.
  intros Hs; unfold validate_read, bind at 1; rewrite in_repo_Get by done.
  destruct (keys_of (auth_repo s) !! vreq_KeyID req) as [k|]; [|by do 2 eexists].
  destruct (String.eqb_spec (Status k) KeyStatusActive) as [Hst|]; cbn [negb]; [|by do 2 eexists].
  destruct (IsExpired_st k s e) as (b & e1 & E1); unfold bind at 1; rewrite E1; destruct b; [by do 2 eexists|].
  unfold bind at 1, get_st; cbn beta iota; destruct (checkIPAllowlist _ _ _) eqn:Ei; [by do 2 eexists|].
  destruct (IsInGracePeriod_st k s e1) as (g & e2 & E2); unfold bind; rewrite E2.
  destruct (verifySecretHash _ _ _ g) eqn:Ev; [|by do 2 eexists].
  do 2 eexists; split; [reflexivity|]; intros k' [= <-]; split; [done|]; split; [by eapply verify_either|].
  by rewrite Hst.
Qed.

(** ** The keys, but for their last use *)
Definition unused (k : APIKey) : APIKey := set_LastUsed 0 k.
Definition keys_same s s' : Prop := auth_ok s -> auth_ok s' /\ globalAllow s' = globalAllow s /\
  forall id, unused <$> keys_of (auth_repo s') !! id = unused <$> keys_of (auth_repo s) !! id.

Lemma validate_commit_spec s req k e : auth_ok s -> keys_of (auth_repo s) !! vreq_KeyID req = Some k ->
  exists t s' e', validate_commit req k s e = (Ok (set_LastUsed t k), s', e') /\ keys_same s s'.
Proof.
  intros Hs Hk; pose proof (keys_id _ _ _ Hs Hk) as Hid; unfold validate_commit, Touch, now_milli, bind at 1, bind at 1, bind at 1, time_now, ret at 1;
    cbn beta iota; unfold ret at 1; cbn beta iota; set (t := unix_milli _); set (e1 := Env _ _ _).
  destruct (in_repo_Update s (set_LastUsed t k) e1 Hs) as (r' & Hu & Hok & Hm); [change (KeyID (set_LastUsed t k)) with (KeyID k); by rewrite Hid, Hk|].
  erewrite bind_run by exact Hu; unfold in_cache, zoom, bind.
  destruct (Cache.Set_ _ _ _ e1) as [[[] c'] e2]; exists t; do 2 eexists; split; [reflexivity|].
  intros _; split; [exact Hok|]; split; [done|]; intros id; cbn [auth_repo set_cache set_auth_repo]; rewrite Hm.
  change (KeyID (set_LastUsed t k)) with (KeyID k); rewrite Hid.
  destruct (decide (id = vreq_KeyID req)) as [->|]; [by rewrite lookup_insert_eq, Hk|by rewrite lookup_insert_ne].
Qed.
Lemma keys_same_refl s : keys_same s s.
Proof. by intros Hs. Qed.
Lemma keys_same_cache s c : keys_same s (set_cache c s).
Proof. by intros Hs. Qed.
Lemma keys_same_trans s1 s2 s3 : keys_same s1 s2 -> keys_same s2 s3 -> keys_same s1 s3.
Proof.
  intros S12 S23 Hs; destruct (S12 Hs) as (Hs2 & G2 & K2), (S23 Hs2) as (Hs3 & G3 & K3).
  split; [done|]; split; [congruence|]; intros id; by rewrite K3, K2.
Qed.

(** The key behind an answer, in the cache or in the store. *)
Definition known s (id : string) (k : APIKey) : Prop :=
  (exists until, items (cache s) !! id = Some (k, until)) \/ keys_of (auth_repo s) !! id = Some k.

Lemma ValidateAPIKey_spec s req e (Hs : auth_ok s) : exists res s' e', ValidateAPIKey req s e = (res, s', e') /\ keys_same s s' /\
  (forall key, res = Ok key -> exists k t, known s (vreq_KeyID req) k /\ accepts s req k /\ key = set_LastUsed t k).
Proof.
  unfold ValidateAPIKey; destruct (validate_cached_spec s req e) as (hit & c1 & e1 & E1 & Hhit); erewrite bind_run by exact E1.
  destruct hit as [res|].
  - do 3 eexists; split; [reflexivity|]; split; [apply keys_same_cache|].
    intros key ->; destruct (Hhit key eq_refl) as (k & t & until & Hk & Ha & ->); exists k, t; split; [by left; eauto|done].
  - destruct (validate_read_spec (set_cache c1 s) req e1 Hs) as (res & e2 & E2 & Hread); erewrite bind_run by exact E2.
    destruct res as [k|err]; [|do 3 eexists; split; [reflexivity|]; split; [apply keys_same_cache|done]].
    destruct (Hread k eq_refl) as [Hk Ha].
    destruct (validate_commit_spec (set_cache c1 s) req k e2 Hs Hk) as (t & s' & e' & E3 & Hsame).
    do 3 eexists; split; [exact E3|]; split; [by eapply keys_same_trans; [apply keys_same_cache|]|].
    intros key [= <-]; exists k, t; split; [by right|done].
Qed.

Lemma accepted_spec s req (e e' : env) key s' (Hs : auth_ok s) (Hv : ValidateAPIKey req s e = (Ok key, s', e')) :
  exists k, known s (vreq_KeyID req) k /\ accepts s req k /\ Role key = Role k /\ unused key = unused k /\ keys_same s s'.
Proof.
  destruct (ValidateAPIKey_spec s req e Hs) as (res & s1 & e1 & E & Hsame & Hok); rewrite Hv in E; simplify_eq.
  destruct (Hok key eq_refl) as (k & t & Hk & Ha & ->); exists k; by split_ands.
Qed.

Lemma CheckRateLimit_same id rate s e : keys_same s (snd (fst (CheckRateLimit id rate s e))).
Proof.
  unfold CheckRateLimit, GetOrCreate, put_limiter.
  assert (preserves (fun s' => keys_same s s') (CheckRateLimit id rate)) as Hp.
  { unfold CheckRateLimit, GetOrCreate, put_limiter; preserves_tac; apply preserves_upd_st; intros s' Hs' Hs; exact (Hs' Hs). }
  specialize (Hp s e (keys_same_refl s)); unfold CheckRateLimit, GetOrCreate, put_limiter in Hp.
  match goal with |- keys_same _ (snd (fst ?m)) => by destruct m as [[? ?] ?] end.
Qed.
End Accept.
