(* ===== verification/JsonFacts.v ===== *)
(** The JSON text of a value parses back to the value, with every byte that is no UTF-8
    replaced; to the value itself when its strings are text. *)

From Stdlib Require Import Ascii String.
From stdpp Require Import list strings gmap fin_maps.
From S2P Require Import Prelude GoStrings Strconv Encoding Json.

Open Scope string_scope.
Open Scope Z_scope.

Definition ascii_only (s : string) : bool := sforall (fun a => ascii_Z a <? 128) s.

(** What is left of a string after a round: a byte that is no UTF-8 has become U+FFFD. *)
Fixpoint sanitize (s : string) : string :=
  match s with
  | EmptyString => ""
  | String a s1 =>
      if ascii_Z a <? 128 then String a (sanitize s1)
      else match utf8_size s, s1 with
      | Some 2%nat, String b s2 => String a (String b (sanitize s2))
      | Some 3%nat, String b (String c s3) => String a (String b (String c (sanitize s3)))
      | Some 4%nat, String b (String c (String d s4)) => String a (String b (String c (String d (sanitize s4))))
      | _, _ => replacement +:+ sanitize s1
      end
  end.
(** Text: valid UTF-8. *)
Definition utf8_ok (s : string) : bool := String.eqb (sanitize s) s.

Lemma sanitize_ascii s : ascii_only s = true -> sanitize s = s.
Proof. induction s as [|a s IH]; [done|]; cbn [sanitize]; intros [Ha Hs]%andb_true_iff; by rewrite Ha, IH. Qed.
Lemma ascii_utf8 s : ascii_only s = true -> utf8_ok s = true.
Proof. intros Hs; apply String.eqb_eq; by apply sanitize_ascii. Qed.
Lemma utf8_sanitize s : utf8_ok s = true -> sanitize s = s.
Proof. by intros ?%String.eqb_eq. Qed.

(** ** Strings *)
Lemma prepend_prepend p q r : prepend p (prepend q r) = prepend (p +:+ q) r.
Proof. destruct r as [[s t]|]; [|done]. unfold prepend; by rewrite app_assoc_str. Qed.

Lemma parse_esc a s :
  (ascii_Z a <? 128) = true -> parse_str (esc_ascii a +:+ s) = prepend (String a "") (parse_str s).
Proof.
  destruct a as [[] [] [] [] [] [] [] []]; intros H; first [discriminate H | reflexivity].
Qed.

(** The size of a rune depends on its own bytes only. *)
Lemma utf8_size_local a s t : match utf8_size (String a s), s with
  | Some 2%nat, String b _ => utf8_size (String a (String b t)) = Some 2%nat
  | Some 3%nat, String b (String c _) => utf8_size (String a (String b (String c t))) = Some 3%nat
  | Some 4%nat, String b (String c (String d _)) => utf8_size (String a (String b (String c (String d t)))) = Some 4%nat
  | _, _ => True
  end.
Proof. unfold utf8_size; repeat case_match; first [done|congruence]. Qed.
(** A byte above ASCII is neither a quote nor an escape. *)
Lemma parse_str_high a s : (ascii_Z a <? 128) = false ->
  parse_str (String a s) = match utf8_size (String a s), s with
      | Some 2%nat, String b s2 => prepend (String a (String b "")) (parse_str s2)
      | Some 3%nat, String b (String d s3) => prepend (String a (String b (String d ""))) (parse_str s3)
      | Some 4%nat, String b (String d (String e s4)) =>
          prepend (String a (String b (String d (String e "")))) (parse_str s4)
      | _, _ => prepend replacement (parse_str s)
      end.
Proof.
  intros Ha; cbn [parse_str]; rewrite Ha; apply Z.ltb_ge in Ha.
  by rewrite (proj2 (Z.eqb_neq _ 34)), (proj2 (Z.eqb_neq _ 92)), (proj2 (Z.ltb_ge _ 32)) by lia.
Qed.
Lemma Z_ascii_of a : Z_ascii (ascii_Z a) = a.
Proof. apply Ascii.eqb_eq; revert a; apply forall_ascii; vm_compute; reflexivity. Qed.
Lemma parse_line_sep a b c s : is_line_sep a b c = true ->
  parse_str ((if ascii_Z c =? 168 then "\u2028" else "\u2029") +:+ s) = prepend (String a (String b (String c ""))) (parse_str s).
Proof.
  unfold is_line_sep; intros [[Ha%Z.eqb_eq Hb%Z.eqb_eq]%andb_true_iff Hc]%andb_true_iff.
  rewrite <- (Z_ascii_of a), <- (Z_ascii_of b), <- (Z_ascii_of c), Ha, Hb.
  apply orb_true_iff in Hc as [Hc%Z.eqb_eq|Hc%Z.eqb_eq]; rewrite Hc; reflexivity.
Qed.

Lemma parse_escape_any n : forall s r, (String.length s <= n)%nat ->
  parse_str (escape s +:+ quote +:+ r) = Some (sanitize s, r).
Proof.
  induction n as [|n IH]; intros [|a s] r Hn; try done; [simpl in Hn; lia|].
  cbn [escape sanitize String.length] in *; destruct (ascii_Z a <? 128) eqn:Ha.
  { rewrite app_assoc_str, parse_esc, IH by (done || lia); done. }
  assert (parse_str (("\ufffd" +:+ escape s) +:+ quote +:+ r) = Some (replacement +:+ sanitize s, r)) as Hbad.
  { rewrite app_assoc_str; change (prepend replacement (parse_str (escape s +:+ quote +:+ r)) = Some (replacement +:+ sanitize s, r)).
    by rewrite IH by lia. }
  pose proof (fun t => utf8_size_local a s t) as Hloc; destruct (utf8_size (String a s)) as [[|[|[|[|[|k]]]]]|]; try exact Hbad.
  - destruct s as [|b s]; [exact Hbad|]; specialize (Hloc (escape s +:+ quote +:+ r)).
    change (String a (String b (escape s)) +:+ quote +:+ r) with (String a (String b (escape s +:+ quote +:+ r))).
    rewrite parse_str_high, Hloc, IH by (done || (simpl in Hn; lia)); done.
  - destruct s as [|b [|c s]]; [exact Hbad|exact Hbad|]; specialize (Hloc (escape s +:+ quote +:+ r)).
    destruct (is_line_sep a b c) eqn:Hl.
    { rewrite app_assoc_str, (parse_line_sep _ _ _ _ Hl), IH by (simpl in Hn; lia); done. }
    change (String a (String b (String c (escape s))) +:+ quote +:+ r) with (String a (String b (String c (escape s +:+ quote +:+ r)))).
    rewrite parse_str_high, Hloc, IH by (done || (simpl in Hn; lia)); done.
  - destruct s as [|b [|c [|d s]]]; [exact Hbad|exact Hbad|exact Hbad|]; specialize (Hloc (escape s +:+ quote +:+ r)).
    change (String a (String b (String c (String d (escape s)))) +:+ quote +:+ r) with
      (String a (String b (String c (String d (escape s +:+ quote +:+ r))))).
    rewrite parse_str_high, Hloc, IH by (done || (simpl in Hn; lia)); done.
Qed.
Lemma parse_escape s r : parse_str (escape s +:+ quote +:+ r) = Some (sanitize s, r).
Proof. by apply (parse_escape_any (String.length s)). Qed.

(** ** Well-formed values and their size *)
Fixpoint nums_ok (v : json) : bool :=
  match v with
  | JNum lit => valid_number lit && sforall is_num_char lit
  | JArr l => forallb nums_ok l
  | JObj m => forallb (fun kv => nums_ok (snd kv)) m
  | _ => true
  end.
Fixpoint json_ok (v : json) : bool :=
  match v with
  | JNull | JBool _ => true
  | JNum lit => valid_number lit && sforall is_num_char lit
  | JStr s => utf8_ok s
  | JArr l => forallb json_ok l
  | JObj m => forallb (fun kv => utf8_ok (fst kv) && json_ok (snd kv)) m
  end.
(** The value after a round. *)
Fixpoint clean (v : json) : json :=
  match v with
  | JStr s => JStr (sanitize s)
  | JArr l => JArr (map clean l)
  | JObj m => JObj (map (fun kv => (sanitize (fst kv), clean (snd kv))) m)
  | _ => v
  end.

Fixpoint jsize (v : json) : nat :=
  match v with
  | JArr l => S (foldr (fun v n => S (jsize v) + n)%nat 0%nat l)
  | JObj m => S (foldr (fun kv n => S (jsize (snd kv)) + n)%nat 0%nat m)
  | _ => 1%nat
  end.
(** Induction on values, with the members of arrays and objects. *)
Lemma json_ind' (P : json -> Prop) : P JNull -> (forall b, P (JBool b)) -> (forall lit, P (JNum lit)) -> (forall s, P (JStr s)) ->
  (forall l, Forall P l -> P (JArr l)) -> (forall m, Forall (fun kv => P (snd kv)) m -> P (JObj m)) -> forall v, P v.
Proof.
  intros Hn Hb Hl Hs Ha Ho; fix IH 1; intros [|b|lit|s|l|m]; [exact Hn|apply Hb|apply Hl|apply Hs|apply Ha|apply Ho].
  - induction l as [|v l IHl]; constructor; [apply IH|exact IHl].
  - induction m as [|kv m IHm]; constructor; [apply IH|exact IHm].
Qed.
Lemma json_ok_clean v : json_ok v = true -> clean v = v /\ nums_ok v = true.
Proof.
  induction v as [| | |s|l IH|m IH] using json_ind'; cbn [json_ok clean nums_ok]; try done.
  - intros Hs; by rewrite utf8_sanitize.
  - intros Hl; assert (map clean l = l /\ forallb nums_ok l = true) as [-> Hn]; [|done].
    induction IH as [|v l Hv _ IHl]; [done|]; cbn [forallb map] in *; apply andb_true_iff in Hl as [H1 H2].
    destruct (Hv H1) as [-> ->], (IHl H2) as [-> ->]; done.
  - intros Hm; assert (map (fun kv => (sanitize (fst kv), clean (snd kv))) m = m /\ forallb (fun kv => nums_ok (snd kv)) m = true) as [-> Hn]; [|done].
    induction IH as [|[k v] m Hv _ IHm]; [done|]; cbn [forallb map fst snd] in *; apply andb_true_iff in Hm as [[H0 H1]%andb_true_iff H2].
    destruct (Hv H1) as [-> ->], (IHm H2) as [-> ->]; by rewrite utf8_sanitize.
Qed.
Definition elems_size (l : list json) : nat := foldr (fun v n => S (jsize v) + n)%nat 0%nat l.
Definition members_size (m : list (string * json)) : nat :=
  foldr (fun kv n => S (jsize (snd kv)) + n)%nat 0%nat m.

Fixpoint print_elems (l : list json) : string :=
  match l with
  | [] => "]"
  | v :: l' => print v +:+ match l' with [] => "]" | _ => "," +:+ print_elems l' end
  end.
Fixpoint print_members (m : list (string * json)) : string :=
  match m with
  | [] => "}"
  | (k, v) :: m' =>
      print_str k +:+ ":" +:+ print v +:+
      match m' with [] => "}" | _ => "," +:+ print_members m' end
  end.

Lemma print_JArr l : print (JArr l) = "[" +:+ print_elems l.
Proof.
  cbn [print]; apply (f_equal (append "[")); induction l as [|v l IH]; [done|]; cbn [print_elems].
  apply (f_equal (append (print v))); destruct l; [done|]. by rewrite IH.
Qed.
Lemma print_JObj m : print (JObj m) = "{" +:+ print_members m.
Proof.
  cbn [print]; apply (f_equal (append "{")); induction m as [|[k v] m IH]; [done|]; cbn [print_members].
  apply (f_equal (fun x => print_str k +:+ ":" +:+ print v +:+ x)); destruct m; [done|].
  by rewrite IH.
Qed.

(** ** Numbers *)
Definition stops (s : string) : Prop :=
  match s with EmptyString => True | String a _ => is_num_char a = false end.

Lemma take_num_app lit r :
  sforall is_num_char lit = true -> stops r -> take_num (lit +:+ r) = (lit, r).
Proof.
  induction lit as [|a lit IH]; intros Hl Hr.
  - destruct r as [|b r]; [done|]. simpl in Hr |- *; by rewrite Hr.
  - cbn [sforall] in Hl; apply andb_true_iff in Hl as [Ha Hl].
    change (String a lit +:+ r) with (String a (lit +:+ r)); cbn [take_num].
    by rewrite Ha, IH.
Qed.

Lemma num_char_first a : is_num_char a = true ->
  is_ws a = false /\ ascii_Z a <> 34 /\ ascii_Z a <> 123 /\ ascii_Z a <> 91 /\
  ascii_Z a <> 116 /\ ascii_Z a <> 102 /\ ascii_Z a <> 110.
Proof.
  destruct a as [[] [] [] [] [] [] [] []]; intros H; first [discriminate H | by split_ands].
Qed.

(** ** Parsing what was printed *)
Lemma skip_ws_first a s : is_ws a = false -> skip_ws (String a s) = String a s.
Proof. simpl; by intros ->. Qed.

Lemma parse_value_num fuel lit r :
  json_ok (JNum lit) = true -> stops r ->
  parse_value (S fuel) (lit +:+ r) = Some (JNum lit, r).
Proof.
  cbn [json_ok]; intros [Hv Hl]%andb_true_iff Hr.
  destruct lit as [|a lit]; [discriminate|].
  pose proof (take_num_app _ _ Hl Hr) as Ht.
  pose proof Hl as [Ha _]%andb_true_iff; destruct (num_char_first a Ha) as (Hw & H1 & H2 & H3 & H4 & H5 & H6).
  change (String a lit +:+ r) with (String a (lit +:+ r)) in *.
  cbn [parse_value]; rewrite skip_ws_first by done.
  rewrite (proj2 (Z.eqb_neq _ _) H1), (proj2 (Z.eqb_neq _ _) H2), (proj2 (Z.eqb_neq _ _) H3),
    (proj2 (Z.eqb_neq _ _) H4), (proj2 (Z.eqb_neq _ _) H5), (proj2 (Z.eqb_neq _ _) H6).
  by rewrite Ht, Hv.
Qed.

(** The first character of a printed value is not white space, nor the closing
    bracket of an empty array. *)
Lemma print_first v : nums_ok v = true ->
  exists a s, print v = String a s /\ is_ws a = false /\ ascii_Z a <> 93.
Proof.
  destruct v; intros H; try (do 2 eexists; split; [reflexivity|by split]).
  - destruct b; do 2 eexists; (split; [reflexivity|by split]).
  - cbn [nums_ok] in H; apply andb_true_iff in H as [Hv Hl]; destruct lit as [|a lit]; [discriminate|].
    pose proof Hl as [Ha _]%andb_true_iff; exists a, lit; split; [done|].
    destruct (num_char_first a Ha) as (Hw & _); split; [done|].
    destruct a as [[] [] [] [] [] [] [] []]; first [discriminate Ha | done].
Qed.

Lemma parse_value_str fuel s r :
  parse_value (S fuel) (print_str s +:+ r) = Some (JStr (sanitize s), r).
Proof.
  unfold print_str; rewrite !app_assoc_str.
  change (quote +:+ ?x) with (String (Z_ascii 34) x) at 1; cbn [parse_value skip_ws].
  change (is_ws (Z_ascii 34)) with false; cbv iota; change (ascii_Z (Z_ascii 34) =? 34) with true.
  cbv iota; by rewrite parse_escape.
Qed.

Lemma parse_value_lit fuel v r :
  match v with JNull | JBool _ => True | _ => False end ->
  parse_value (S fuel) (print v +:+ r) = Some (v, r).
Proof.
  intros Hv; destruct v as [|[]| | | |]; try done; cbn [print parse_value];
    match goal with |- context [?lit +:+ r] => pose proof (str_prefix_app lit r) as Hp;
      pose proof (from_app lit r) as Hf end; cbn in Hp, Hf |- *;
    unfold parse_lit, HasPrefix; simpl; destruct r; reflexivity.
Qed.

Lemma stops_sep a s : a = ","%char \/ a = "]"%char \/ a = "}"%char -> stops (String a s).
Proof. intros [->|[->| ->]]; reflexivity. Qed.

(** With enough fuel, the three parsers invert the three printers. *)
Lemma parse_print_fuel fuel :
  (forall v r, nums_ok v = true -> stops r -> (jsize v <= fuel)%nat ->
     parse_value fuel (print v +:+ r) = Some (clean v, r)) /\
  (forall l r, l <> [] -> forallb nums_ok l = true -> (elems_size l <= fuel)%nat ->
     parse_elems fuel (print_elems l +:+ r) = Some (map clean l, r)) /\
  (forall m r, m <> [] -> forallb (fun kv => nums_ok (snd kv)) m = true ->
     (members_size m <= fuel)%nat ->
     parse_members fuel (print_members m +:+ r) = Some (map (fun kv => (sanitize (fst kv), clean (snd kv))) m, r)).
Proof.
  induction fuel as [|fuel (IHv & IHe & IHm)].
  { split_ands; [intros v r _ _ H; exfalso; destruct v; simpl in H; lia| |];
      intros [|x l] r Hne _ H; try done; simpl in H; lia. }
  split_ands.
  - intros v r Hok Hr Hs; destruct v as [|b|lit|s|l|m];
      [by apply parse_value_lit|by apply parse_value_lit|by apply parse_value_num|
       by apply parse_value_str| |].
    + rewrite print_JArr; change (("[" +:+ print_elems l) +:+ r) with
        (String "[" (print_elems l +:+ r)); cbn [parse_value skip_ws].
      change (is_ws "[") with false; cbv iota; change (ascii_Z "[") with 91; cbn [Z.eqb].
      destruct l as [|v l]; [done|]. cbn [jsize] in Hs; fold (elems_size (v :: l)) in Hs.
      cbn [nums_ok] in Hok; pose proof Hok as [Hv _]%andb_true_iff.
      specialize (IHe (v :: l) r ltac:(done) Hok ltac:(lia)).
      destruct (print_first v Hv) as (a & s & Ea & Hw & H93).
      assert (exists t, print_elems (v :: l) +:+ r = String a t) as [t Et]
        by (cbn [print_elems]; rewrite Ea; by eexists).
      rewrite Et in IHe |- *; rewrite skip_ws_first by done; clear Ea Et Hw.
      destruct a as [[] [] [] [] [] [] [] []];
        first [exfalso; apply H93; reflexivity | cbv iota; by rewrite IHe].
    + rewrite print_JObj; change (("{" +:+ print_members m) +:+ r) with
        (String "{" (print_members m +:+ r)); cbn [parse_value skip_ws].
      change (is_ws "{") with false; cbv iota; change (ascii_Z "{") with 123; cbn [Z.eqb Pos.eqb].
      destruct m as [|[k v] m]; [done|]. cbn [jsize] in Hs; fold (members_size ((k, v) :: m)) in Hs.
      specialize (IHm ((k, v) :: m) r ltac:(done) Hok ltac:(lia)).
      assert (exists t, print_members ((k, v) :: m) +:+ r = String (Z_ascii 34) t) as [t Et]
        by (by eexists).
      rewrite Et in IHm |- *; rewrite skip_ws_first by done.
      change (Z_ascii 34) with (Ascii.Ascii false true false false false true false false) in IHm |- *.
      cbv iota; by rewrite IHm.
  - intros [|v l] r Hne Hok Hs; [done|]; cbn [forallb] in Hok; apply andb_true_iff in Hok as [Hv Hl].
    cbn [print_elems parse_elems]; unfold elems_size in Hs; cbn [foldr] in Hs.
    fold (elems_size l) in Hs; rewrite app_assoc_str.
    destruct l as [|v' l].
    + rewrite IHv by (done || lia); done.
    + rewrite IHv by (done || lia).
      change (("," +:+ ?x) +:+ r) with (String "," (x +:+ r)); rewrite skip_ws_first by done; cbv iota.
      by rewrite IHe by (done || lia).
  - intros [|[k v] m] r Hne Hok Hs; [done|]; cbn [forallb fst snd] in Hok.
    apply andb_true_iff in Hok as [Hv Hm].
    unfold members_size in Hs; cbn [foldr snd] in Hs; fold (members_size m) in Hs.
    cbn [print_members parse_members]; unfold print_str; rewrite !app_assoc_str.
    change (quote +:+ ?x) with (String (Z_ascii 34) x) at 1; rewrite skip_ws_first by done.
    change (ascii_Z (Z_ascii 34) =? 34) with true; cbv iota; rewrite parse_escape.
    change (":" +:+ ?x) with (String ":" x); rewrite skip_ws_first by done; cbv iota.
    destruct m as [|[k' v'] m].
    + rewrite IHv by (done || lia); done.
    + rewrite IHv by (done || lia).
      change (("," +:+ ?x) +:+ r) with (String "," (x +:+ r)); rewrite skip_ws_first by done; cbv iota.
      by rewrite IHm by (done || lia).
Qed.

(** The length of the text is enough fuel. *)
Lemma jsize_length n : forall v, (jsize v <= n)%nat -> nums_ok v = true ->
  (jsize v <= String.length (print v))%nat.
Proof.
  induction n as [|n IH]; intros v Hn Hok; [destruct v; simpl in Hn; lia|].
  destruct v as [|[]|lit|s|l|m]; try (simpl; lia).
  - destruct lit; [discriminate|simpl; lia].
  - rewrite print_JArr, length_app_str; cbn [jsize] in Hn |- *; fold (elems_size l) in Hn |- *.
    assert (elems_size l <= String.length (print_elems l))%nat; [|simpl; lia].
    cbn [nums_ok] in Hok; clear -IH Hn Hok; unfold elems_size in *.
    induction l as [|v l IHl]; [simpl; lia|]; cbn [foldr forallb print_elems] in *.
    apply andb_true_iff in Hok as [Hv Hl]; specialize (IH v ltac:(lia) Hv).
    rewrite length_app_str; destruct l; [simpl in *; lia|].
    specialize (IHl ltac:(lia) Hl); rewrite length_app_str; simpl in *; lia.
  - rewrite print_JObj, length_app_str; cbn [jsize] in Hn |- *; fold (members_size m) in Hn |- *.
    assert (members_size m <= String.length (print_members m))%nat; [|simpl; lia].
    cbn [nums_ok] in Hok; clear -IH Hn Hok; unfold members_size in *.
    induction m as [|[k v] m IHm]; [simpl; lia|]; cbn [foldr forallb fst snd print_members] in *.
    apply andb_true_iff in Hok as [Hv Hl]; specialize (IH v ltac:(lia) Hv).
    rewrite !length_app_str; destruct m; [simpl in *; lia|].
    specialize (IHm ltac:(lia) Hl); rewrite length_app_str; simpl in *; lia.
Qed.

Lemma parse_print_head v r : nums_ok v = true -> stops r ->
  parse_value (S (String.length (print v +:+ r))) (print v +:+ r) = Some (clean v, r).
Proof.
  intros Hok Hr; destruct (parse_print_fuel (S (String.length (print v +:+ r)))) as [Hp _].
  pose proof (jsize_length _ v ltac:(done) Hok); apply Hp; [done|done|rewrite length_app_str; lia].
Qed.
Lemma parse_print_any v : nums_ok v = true -> parse (print v) = Some (clean v).
Proof.
  intros Hok; unfold parse; pose proof (parse_print_head v "" Hok I) as Hp; rewrite app_nil_str in Hp; by rewrite Hp.
Qed.
Lemma parse_print_value v : json_ok v = true -> parse (print v) = Some v.
Proof. intros Hok; destruct (json_ok_clean v Hok) as [Hc Hn]; by rewrite parse_print_any, Hc. Qed.

(** ** Numbers printed by [strconv] are valid literals *)
Lemma digit_char_num a : is_digit a = true -> is_num_char a = true.
Proof. unfold is_num_char; intros ->; done. Qed.


Lemma drop_digits_all s : sforall is_digit s = true -> drop_digits s = "".
Proof. induction s; simpl; [done|]. intros [-> ?]%andb_true_iff; auto. Qed.

(** A printed number has no leading zero unless it is zero. *)
Lemma print_digits_lead fuel n acc :
  0 < n < 10 ^ Z.of_nat fuel -> exists c s, print_digits fuel n acc = String c s /\
    is_digit c = true /\ c <> "0"%char.
Proof.
  revert n acc; induction fuel as [|fuel IH]; intros n acc Hn; [simpl in Hn; lia|].
  cbn [print_digits]; destruct (Z.ltb_spec n 10).
  - rewrite Z.mod_small by lia; do 2 eexists; split; [reflexivity|].
    assert (0 <= n - 1 < Z.of_nat 9) as Hn1 by lia.
    apply (forall_range 9 (fun k => bool_decide (is_digit (digit (k + 1)) = true /\
      digit (k + 1) <> "0"%char)) (n - 1)) in Hn1; [|vm_compute; reflexivity].
    by rewrite Z.sub_add in Hn1; apply bool_decide_eq_true_1 in Hn1.
  - apply IH; rewrite Nat2Z.inj_succ, Z.pow_succ_r in Hn by lia.
    split; [apply Z.div_str_pos; lia|apply Z.div_lt_upper_bound; lia].
Qed.

Lemma valid_FormatUint n : 0 <= n < two64 ->
  valid_number (FormatUint n) = true /\ sforall is_num_char (FormatUint n) = true.
Proof.
  intros Hn; split; [|eapply sforall_weaken; [apply digit_char_num|apply FormatUint_digits]].
  destruct (Z.eq_dec n 0) as [->|Hz]; [reflexivity|].
  pose proof (FormatUint_digits n) as Hd; unfold FormatUint in *.
  destruct (print_digits_lead 20 n "") as (c & s & E & Hc & H0);
    [unfold two64 in Hn; split; [lia|apply Z.lt_trans with (2 ^ 64); [lia|reflexivity]]|].
  rewrite E in *; cbn [sforall] in Hd; apply andb_true_iff in Hd as [_ Hs].
  apply drop_digits_all in Hs.
  destruct c as [[] [] [] [] [] [] [] []]; try discriminate Hc; try (by destruct H0);
    unfold valid_number, digits1; rewrite Hc, Hs; reflexivity.
Qed.

Lemma valid_FormatInt n : in_i64 n -> json_ok (JNum (FormatInt n)) = true.
Proof.
  unfold in_i64, FormatInt; intros Hn; cbn [json_ok]; destruct (Z.ltb_spec n 0).
  - destruct (valid_FormatUint (- n)) as [Hv Hc]; [unfold two64; lia|].
    cbn [sforall]; rewrite Hc, andb_true_r; change (is_num_char "-") with true.
    unfold FormatUint in *.
    destruct (print_digits_head 20 (- n) ltac:(lia) ltac:(lia)) as (c & s & E & Hd & Hm & _).
    rewrite E in *; unfold valid_number in *.
    destruct c as [[] [] [] [] [] [] [] []]; try discriminate Hd; exact Hv.
  - destruct (valid_FormatUint n) as [-> ->]; [unfold two64; lia|done].
Qed.

Lemma valid_uint n : 0 <= n < two64 -> json_ok (JNum (FormatUint n)) = true.
Proof. intros Hn; cbn [json_ok]; by destruct (valid_FormatUint n Hn) as [-> ->]. Qed.

(** ** Maps *)
Lemma dec_entries_map l acc :
  dec_entries (map (fun kv => (fst kv, JStr (snd kv))) l) acc =
  Some (foldl (fun m kv => <[fst kv := snd kv]> m) acc l).
Proof. revert acc; induction l as [|[k v] l IH]; intros acc; simpl; auto. Qed.

Lemma foldl_insert_lookup {K V} `{Countable K} (l : list (K * V)) (acc : gmap K V) k :
  NoDup l.*1 ->
  foldl (fun m kv => <[fst kv := snd kv]> m) acc l !! k =
  match (list_to_map l : gmap K V) !! k with Some v => Some v | None => acc !! k end.
Proof.
  revert acc; induction l as [|[i v] l IH]; intros acc Hd; [done|].
  rewrite fmap_cons in Hd; apply NoDup_cons in Hd as [Hn Hd]; simpl; rewrite IH by done.
  destruct (decide (i = k)) as [->|Hne].
  - rewrite !lookup_insert_eq, (not_elem_of_list_to_map_1 l k Hn); done.
  - by rewrite !lookup_insert_ne.
Qed.

(** Inserting the entries of a map in any order gives the map. *)
Lemma foldl_insert_entries {K V} `{Countable K} (l : list (K * V)) (m : gmap K V) :
  l ≡ₚ map_to_list m -> foldl (fun m kv => <[fst kv := snd kv]> m) ∅ l = m.
Proof.
  intros Hp; assert (NoDup l.*1) as Hnd
    by (eapply NoDup_Permutation_proper; [apply fmap_Permutation; exact Hp|apply NoDup_fst_map_to_list]).
  apply map_eq; intros k; rewrite foldl_insert_lookup, lookup_empty by done.
  assert ((list_to_map l : gmap K V) = m) as -> by (rewrite <- (list_to_map_to_list m); by apply list_to_map_proper).
  by destruct (m !! k).
Qed.
Lemma dec_enc_map (d : option (gmap string string)) old :
  old = None \/ old = Some ∅ -> dec_map (enc_map d) old = Some d.
Proof.
  intros Hold; destruct d as [m|]; [|done]; unfold enc_map, dec_map; rewrite dec_entries_map.
  rewrite <- (foldl_insert_entries _ m (sort_slice_perm (fun a b => String.ltb a.1 b.1) (map_to_list m))) at 2.
  by destruct Hold as [->| ->].
Qed.

Definition utf8_map (d : option (gmap string string)) : bool :=
  match d with
  | None => true
  | Some m => forallb (fun kv => utf8_ok (fst kv) && utf8_ok (snd kv)) (map_to_list m)
  end.

Lemma json_ok_map d : utf8_map d = true -> json_ok (enc_map d) = true.
Proof.
  destruct d as [m|]; [|done]; unfold utf8_map, enc_map; cbn [json_ok].
  rewrite !forallb_forall; intros H [k v] Hin; apply in_map_iff in Hin as ([k' v'] & [= <- <-] & Hin).
  apply list_elem_of_In in Hin.
  assert ((k', v') ∈ map_to_list m) as Hin'.
  { eapply elem_of_Permutation_proper; [|exact Hin]. symmetry; apply (sort_slice_spec _ (fun _ _ => True)); auto. }
  apply list_elem_of_In in Hin'; exact (H _ Hin').
Qed.

(** ** Objects *)
Lemma json_ok_obj m :
  Forall (fun kv => utf8_ok (fst kv) = true /\ json_ok (snd kv) = true) m ->
  json_ok (JObj m) = true.
Proof.
  intros H; cbn [json_ok]; apply forallb_forall; intros kv Hin; rewrite Forall_forall in H.
  apply andb_true_iff, H; by apply list_elem_of_In.
Qed.

(** One member assigned. *)
Lemma dec_members_cons {A} (f : string -> json -> A -> option A) k v m acc acc' :
  f (ToLower k) v acc = Some acc' -> dec_members f ((k, v) :: m) acc = dec_members f m acc'.
Proof. simpl; by intros ->. Qed.

(** Evaluates the case folding of a member name. *)
Ltac norm_key := match goal with |- context [ToLower ?k] =>
  let k' := eval vm_compute in (ToLower k) in change (ToLower k) with k' end.
Lemma dec_members_bind {A} (f : string -> json -> A -> option A) m m' acc :
  dec_members f (m ++ m') acc = dec_members f m acc ≫= dec_members f m'.
Proof. revert acc; induction m as [|[k v] m IH]; intros acc; [done|]; simpl; by destruct (f (ToLower k) v acc). Qed.
Lemma dec_members_app {A} (f : string -> json -> A -> option A) m m' acc acc' :
  dec_members f m acc = Some acc' -> dec_members f (m ++ m') acc = dec_members f m' acc'.
Proof. intros Hm; by rewrite dec_members_bind, Hm. Qed.

(** ** Bytes and text *)
Lemma of_to_bytes s : of_bytes (to_bytes s) = s.
Proof.
  unfold of_bytes, to_bytes; induction s as [|a s IH]; [done|]; simpl; f_equal; [|exact IH].
  unfold Z_ascii, ascii_Z; rewrite N2Z.id; apply ascii_N_embedding.
Qed.

(** A decoder stops after the first value. *)
Lemma decode_first_any v r : nums_ok v = true -> stops r -> decode_first (to_bytes (print v +:+ r)) = Some (clean v).
Proof. intros Hv Hr; unfold decode_first; by rewrite of_to_bytes, parse_print_head. Qed.
Lemma decode_first_print v r : json_ok v = true -> stops r -> decode_first (to_bytes (print v +:+ r)) = Some v.
Proof. intros Hv Hr; destruct (json_ok_clean v Hv) as [Hc Hn]; by rewrite decode_first_any, Hc. Qed.
