(* ===== verification/WalCodec.v ===== *)
(** The write-ahead log's entries and their encoding:
    [internal/storage/wal/entry.go] and [codec.go], with the cipher wrapper of
    [pkg/crypto/adaptive].

    An entry becomes a frame: big-endian length, CRC-32, operation byte and a
    JSON payload in which the session is either in the clear or encrypted and in
    Base64.  The AEAD algorithms are library code: an argument of the cipher. *)

From Stdlib Require Import Ascii String.
From stdpp Require Import list strings gmap fin_maps.
From S2P Require Import Prelude Errors GoStrings Strconv Encoding Json Session.

Open Scope string_scope.
Open Scope Z_scope.

(** ** [pkg/crypto/adaptive] *)

(** A [crypto/cipher.AEAD] value: nonce size, [Seal(nil, nonce, plaintext, ad)] and
    [Open(nil, nonce, ciphertext, ad)]. *)
Record AEAD := MkAEAD {
  aead_NonceSize : nat;
  aead_Overhead : Z;
  aead_Seal : bytes -> bytes -> bytes -> bytes;
  aead_Open : bytes -> bytes -> bytes -> Res bytes;
}.
Inductive CipherType := CipherAESGCM | CipherChaCha20.
Record Cipher := MkCipher { cipher_Type : CipherType; cipher_aead : AEAD }.

(** The constructors of the AEAD algorithms, from a key. *)
Class AeadLib := { new_gcm : bytes -> Res AEAD; new_chacha20poly1305 : bytes -> Res AEAD }.

Definition NewAESGCM `{AeadLib} (key : bytes) : Res Cipher :=
  if (length key =? 16)%nat || (length key =? 24)%nat || (length key =? 32)%nat then
    match new_gcm key with Ok a => Ok (MkCipher CipherAESGCM a) | Err err => Err err end
  else Err (SimpleError "invalid key size for AES-GCM: must be 16, 24, or 32 bytes").
Definition NewChaCha20 `{AeadLib} (key : bytes) : Res Cipher :=
  if negb (length key =? 32)%nat
  then Err (SimpleError "invalid key size for ChaCha20-Poly1305: must be 32 bytes")
  else match new_chacha20poly1305 key with
       | Ok a => Ok (MkCipher CipherChaCha20 a) | Err err => Err err end.
Definition hasAESNI (goarch : string) : bool := String.eqb goarch "amd64" || String.eqb goarch "arm64".
Definition NewCipher `{AeadLib} (goarch : string) (key : bytes) : Res Cipher :=
  if hasAESNI goarch then NewAESGCM key else NewChaCha20 key.
Definition NewWithType `{AeadLib} (key : bytes) (cipherType : string) : Res Cipher :=
  if String.eqb cipherType "aes-gcm" then NewAESGCM key
  else if String.eqb cipherType "chacha20-poly1305" then NewChaCha20 key
  else Err (SimpleError ("unknown cipher type: " +:+ cipherType)).

(** [encrypt] prepends the random nonce to the ciphertext. *)
Definition Encrypt {S} (c : Cipher) (plaintext ad : bytes) : M S (Res bytes) :=
  nonce <-? rand_read (aead_NonceSize (cipher_aead c)) ;;
  ret (Ok (nonce ++ aead_Seal (cipher_aead c) nonce plaintext ad)%list).
Definition Decrypt (c : Cipher) (ciphertext ad : bytes) : Res bytes :=
  let n := aead_NonceSize (cipher_aead c) in
  if (length ciphertext <? n)%nat then Err (SimpleError "ciphertext too short")
  else aead_Open (cipher_aead c) (firstn n ciphertext) (skipn n ciphertext) ad.

(** ** Entries *)
Definition headerSize : Z := 8.
Definition minEntrySize : Z := headerSize + 1.
Definition ErrCorruptedEntry := SimpleError "wal: corrupted entry".
Definition ErrChecksumMismatch := SimpleError "wal: checksum mismatch".
Definition ErrInvalidEntryType := SimpleError "wal: invalid entry type".

(** The operation is a byte; the declared ones are 0 to 3. *)
Definition OpTypeUnspecified : Z := 0.
Definition OpTypeCreate : Z := 1.
Definition OpTypeUpdate : Z := 2.
Definition OpTypeDelete : Z := 3.

Record Entry := MkEntry {
  OpType : Z;
  Timestamp : Z;
  SessionID : string;
  EVersion : Z;
  ESession : option Session;
}.

Definition NewCreateEntry {S} (session : Session) : M S Entry :=
  now <- now_milli ;; ret (MkEntry OpTypeCreate now (ID session) (Version session) (Some session)).
Definition NewUpdateEntry {S} (session : Session) : M S Entry :=
  now <- now_milli ;; ret (MkEntry OpTypeUpdate now (ID session) (Version session) (Some session)).
Definition NewDeleteEntry {S} (sessionID : string) : M S Entry :=
  now <- now_milli ;; ret (MkEntry OpTypeDelete now sessionID 0 None).

(** ** JSON of a session; [ShardID], [TTL] and [IsDeleted] are tagged [json:-]. *)
Definition session_members (s : Session) : list (string * json) :=
  [("id", JStr (ID s)); ("user_id", JStr (UserID s)); ("token_hash", JStr (TokenHash s));
    ("ip_address", JStr (IPAddress s)); ("user_agent", JStr (UserAgent s));
    ("last_access_ip", JStr (LastAccessIP s)); ("last_access_ua", JStr (LastAccessUA s));
    ("device_id", JStr (DeviceID s)); ("created_by", JStr (CreatedBy s));
    ("created_at", JNum (FormatInt (CreatedAt s))); ("expires_at", JNum (FormatInt (ExpiresAt s)));
    ("last_active", JNum (FormatInt (LastActive s))); ("data", enc_map (Data s));
    ("version", JNum (FormatUint (Version s)))].
Definition session_json (s : Session) : json := JObj (session_members s).

Definition zero_session : Session :=
  MkSession "" "" "" "" "" "" "" "" "" 0 0 0 None 0 0 0 false.

Definition assign_session (k : string) (v : json) (s : Session) : option Session :=
  let str name old := if String.eqb k name then dec_string v old else Some old in
  let num name old := if String.eqb k name then dec_int v old else Some old in
  id ← str "id" (ID s); user ← str "user_id" (UserID s); hash ← str "token_hash" (TokenHash s);
  ip ← str "ip_address" (IPAddress s); ua ← str "user_agent" (UserAgent s);
  lip ← str "last_access_ip" (LastAccessIP s); lua ← str "last_access_ua" (LastAccessUA s);
  dev ← str "device_id" (DeviceID s); by_ ← str "created_by" (CreatedBy s);
  created ← num "created_at" (CreatedAt s); expires ← num "expires_at" (ExpiresAt s);
  active ← num "last_active" (LastActive s);
  data ← (if String.eqb k "data" then dec_map v (Data s) else Some (Data s));
  version ← (if String.eqb k "version" then dec_uint v (Version s) else Some (Version s));
  Some (MkSession id user hash ip ua lip lua dev by_ created expires active data version
          (ShardID s) (TTL s) (IsDeleted s)).
Definition dec_session (v : json) (old : Session) : option Session :=
  match v with JNull => Some old | JObj m => dec_members assign_session m old | _ => None end.

(** ** The payload *)
Record wirePayload := MkPayload {
  p_ts : Z; p_sid : string; p_ver : Z; p_session : option Session; p_enc : string }.
Definition payload_json (p : wirePayload) : json :=
  JObj ([("ts", JNum (FormatInt (p_ts p))); ("sid", JStr (p_sid p))] ++
    (if p_ver p =? 0 then [] else [("ver", JNum (FormatUint (p_ver p)))]) ++
    match p_session p with None => [] | Some s => [("session", session_json s)] end ++
    (if String.eqb (p_enc p) "" then [] else [("enc_session", JStr (p_enc p))]))%list.

Definition assign_payload (k : string) (v : json) (p : wirePayload) : option wirePayload :=
  ts ← (if String.eqb k "ts" then dec_int v (p_ts p) else Some (p_ts p));
  sid ← (if String.eqb k "sid" then dec_string v (p_sid p) else Some (p_sid p));
  ver ← (if String.eqb k "ver" then dec_uint v (p_ver p) else Some (p_ver p));
  ses ← (if String.eqb k "session" then
           match v with
           | JNull => Some None
           | _ => s ← dec_session v (default zero_session (p_session p)); Some (Some s)
           end
         else Some (p_session p));
  enc ← (if String.eqb k "enc_session" then dec_string v (p_enc p) else Some (p_enc p));
  Some (MkPayload ts sid ver ses enc).
Definition zero_payload : wirePayload := MkPayload 0 "" 0 None "".
Definition dec_payload (v : json) : option wirePayload :=
  match v with
  | JNull => Some zero_payload
  | JObj m => dec_members assign_payload m zero_payload
  | _ => None
  end.

Definition Marshal (v : json) : bytes := to_bytes (print v).
Definition Unmarshal_payload (b : bytes) : option wirePayload :=
  v ← parse (of_bytes b); dec_payload v.
Definition Unmarshal_session (b : bytes) : option Session :=
  v ← parse (of_bytes b); dec_session v zero_session.

(** ** Padded Base64 *)
Definition b64_pad (b : bytes) : string :=
  match (length b mod 3)%nat with 1%nat => "==" | 2%nat => "=" | _ => "" end.
Definition b64pad_encode (b : bytes) : string := b64std_encode b +:+ b64_pad b.
(** Removes one or two padding characters. *)
Definition strip_pad (s : string) : string :=
  let n := String.length s in
  if HasSuffix s "==" then upto (n - 2) s else if HasSuffix s "=" then upto (n - 1) s else s.
Definition b64pad_decode (s : string) : option bytes :=
  let s := skip_crlf s in
  if negb (String.length s mod 4 =? 0)%nat then None else b64std_decode (strip_pad s).

(** ** Frames *)
Definition encodeEntryFrame {S} (e : Entry) (cipher : option Cipher) : M S (Res bytes) :=
  if OpType e =? OpTypeUnspecified then ret (Err ErrInvalidEntryType)
  else if negb (OpType e =? OpTypeDelete) && bool_decide (ESession e = None) then
    ret (Err (SimpleError "wal: missing session for op"))
  else
    let p ses enc := MkPayload (Timestamp e) (SessionID e) (EVersion e) ses enc in
    p <-? (if OpType e =? OpTypeDelete then ret (Ok (p None ""))
           else match cipher, ESession e with
           | None, ses => ret (Ok (p ses ""))
           | Some c, Some s =>
               r <- Encrypt c (Marshal (session_json s)) [] ;;
               ret (match r with
                    | Err err => Err (WrapError "wal: encrypt session" err)
                    | Ok encrypted => Ok (p None (b64pad_encode encrypted))
                    end)
           | Some _, None => ret (Ok (p None ""))
           end) ;;
    let payload := Marshal (payload_json p) in
    let typed := OpType e :: payload in
    let length := u32 (4 + 1 + llen payload) in
    if length <? 5 then ret (Err ErrCorruptedEntry)
    else ret (Ok (be32 length ++ be32 (crc32 typed) ++ typed)%list).

Definition decodeEntryFrame (frame : bytes) (cipher : option Cipher) : Res Entry :=
  match frame with
  | c0 :: c1 :: c2 :: c3 :: typeByte :: payload =>
    if negb (crc32 (typeByte :: payload) =? be32_get [c0; c1; c2; c3]) then Err ErrChecksumMismatch
    else match Unmarshal_payload payload with
    | None => Err (SimpleError "wal: unmarshal payload")
    | Some p =>
      if negb ((typeByte =? OpTypeCreate) || (typeByte =? OpTypeUpdate) || (typeByte =? OpTypeDelete))
      then Err ErrInvalidEntryType
      else
        let out := MkEntry typeByte (p_ts p) (p_sid p) (p_ver p) in
        if typeByte =? OpTypeDelete then Ok (out None)
        else match p_session p with
        | Some s => Ok (out (Some s))
        | None =>
          if String.eqb (p_enc p) "" then Err (SimpleError "wal: missing session payload")
          else match cipher with
          | None => Err (SimpleError "wal: encrypted entry requires cipher")
          | Some c =>
            match b64pad_decode (p_enc p) with
            | None => Err (SimpleError "wal: decode encrypted session")
            | Some ciphertext =>
              match Decrypt c ciphertext [] with
              | Err err => Err (WrapError "wal: decrypt session" err)
              | Ok plain =>
                match Unmarshal_session plain with
                | None => Err (SimpleError "wal: unmarshal session")
                | Some sess => Ok (out (Some sess))
                end
              end
            end
          end
        end
    end
  | _ => Err ErrCorruptedEntry
  end.
