(* ===== verification/WalCodecSpec.v ===== *)
(** The log's frames decode to the entries they were made from. *)

From Stdlib Require Import Ascii String.
From stdpp Require Import list strings gmap fin_maps.
From S2P Require Import Prelude Errors GoStrings Strconv Encoding Json JsonFacts Token Session.
From S2P Require Import WalCodec.

Open Scope string_scope.
Open Scope Z_scope.

(** The part of a session that reaches the log. *)
Definition wire (s : Session) : Session :=
  MkSession (ID s) (UserID s) (TokenHash s) (IPAddress s) (UserAgent s) (LastAccessIP s)
    (LastAccessUA s) (DeviceID s) (CreatedBy s) (CreatedAt s) (ExpiresAt s) (LastActive s) (Data s)
    (Version s) 0 0 false.

(** Fields within Go's ranges, texts in UTF-8 (bytes that are none are
    replaced on the way). *)
Definition wire_ok (s : Session) : Prop :=
  forallb utf8_ok [ID s; UserID s; TokenHash s; IPAddress s; UserAgent s; LastAccessIP s;
    LastAccessUA s; DeviceID s; CreatedBy s] = true /\ utf8_map (Data s) = true /\
  in_i64 (CreatedAt s) /\ in_i64 (ExpiresAt s) /\ in_i64 (LastActive s) /\ 0 <= Version s < two64.

(** ** Sessions *)

Lemma session_json_ok s : wire_ok s -> json_ok (session_json s) = true.
Proof.
  intros (Ha & Hd & H1 & H2 & H3 & H4); cbn [forallb] in Ha; rewrite !andb_true_iff in Ha.
  decompose [and] Ha; clear Ha; apply json_ok_obj.
  repeat apply Forall_cons_2; try apply Forall_nil_2; (split; [reflexivity|]); cbn [snd];
    first [ assumption | by apply valid_FormatInt | by apply valid_uint | by apply json_ok_map ].
Qed.

Ltac assign_field f :=
  erewrite dec_members_cons;
  [|norm_key; unfold f; cbn [String.eqb Ascii.eqb Bool.eqb dec_int dec_uint dec_string];
    rewrite ?ParseInt_Format, ?ParseUint_Format, ?dec_enc_map by (done || auto);
    cbn [mbind option_bind ID UserID TokenHash IPAddress UserAgent LastAccessIP LastAccessUA
      DeviceID CreatedBy CreatedAt ExpiresAt LastActive Data Version ShardID TTL IsDeleted
      p_ts p_sid p_ver p_session p_enc default];
    reflexivity].

Lemma dec_session_members s :
  wire_ok s -> dec_members assign_session (session_members s) zero_session = Some (wire s).
Proof.
  intros (_ & _ & H1 & H2 & H3 & H4); unfold session_members, zero_session.
  repeat assign_field assign_session; reflexivity.
Qed.

Lemma dec_session_json s : wire_ok s -> dec_session (session_json s) zero_session = Some (wire s).
Proof. exact (dec_session_members s). Qed.

(** ** Payloads *)
Definition payload_ok (p : wirePayload) : Prop :=
  in_i64 (p_ts p) /\ utf8_ok (p_sid p) = true /\ 0 <= p_ver p < two64 /\
  match p_session p with Some s => wire_ok s | None => True end /\ utf8_ok (p_enc p) = true.

Lemma payload_json_ok p : payload_ok p -> json_ok (payload_json p) = true.
Proof.
  intros (H1 & H2 & H3 & H4 & H5); apply json_ok_obj; rewrite !Forall_app; split_ands.
  - repeat apply Forall_cons_2; try apply Forall_nil_2; (split; [reflexivity|]); cbn [snd];
      [by apply valid_FormatInt|done].
  - destruct (p_ver p =? 0); repeat constructor; by apply valid_uint.
  - destruct (p_session p); repeat constructor; by apply session_json_ok.
  - destruct (String.eqb (p_enc p) ""); repeat constructor; done.
Qed.

Lemma assign_payload_session m p s :
  dec_members assign_session m (default zero_session (p_session p)) = Some s ->
  assign_payload (ToLower "session") (JObj m) p =
  Some (MkPayload (p_ts p) (p_sid p) (p_ver p) (Some s) (p_enc p)).
Proof.
  intros H; norm_key; unfold assign_payload, dec_session.
  cbn [String.eqb Ascii.eqb Bool.eqb mbind option_bind]; rewrite H; reflexivity.
Qed.

Lemma dec_payload_json p : payload_ok p ->
  dec_payload (payload_json p) =
  Some (MkPayload (p_ts p) (p_sid p) (p_ver p) (option_map wire (p_session p)) (p_enc p)).
Proof.
  intros (H1 & _ & H3 & H4 & _); unfold payload_json, dec_payload, zero_payload.
  erewrite dec_members_app by (repeat assign_field assign_payload; reflexivity).
  rewrite (dec_members_app _ _ _ _ (MkPayload (p_ts p) (p_sid p) (p_ver p) None "")).
  2:{ destruct (Z.eqb_spec (p_ver p) 0) as [->|]; [done|]. by repeat assign_field assign_payload. }
  rewrite (dec_members_app _ _ _ _ (MkPayload (p_ts p) (p_sid p) (p_ver p)
    (option_map wire (p_session p)) "")).
  2:{ destruct (p_session p) as [s|]; [|done].
      rewrite (dec_members_cons _ _ _ _ _ (MkPayload (p_ts p) (p_sid p) (p_ver p) (Some (wire s)) ""));
        [reflexivity|].
      apply (assign_payload_session (session_members s)
        (MkPayload (p_ts p) (p_sid p) (p_ver p) None "") (wire s)).
      by apply dec_session_members. }
  destruct (String.eqb_spec (p_enc p) "") as [->|]; [done|]. by repeat assign_field assign_payload.
Qed.

(** ** Bytes and text *)
Lemma to_of_bytes b : Forall is_byte b -> to_bytes (of_bytes b) = b.
Proof.
  unfold of_bytes, to_bytes; induction 1 as [|z b Hz Hb IH]; [done|]; simpl; f_equal; [|exact IH].
  unfold Z_ascii, ascii_Z, is_byte in *; rewrite N_ascii_embedding by lia; lia.
Qed.

Lemma to_bytes_byte s : Forall is_byte (to_bytes s).
Proof.
  unfold to_bytes; apply Forall_forall; intros z Hz; apply list_elem_of_In, in_map_iff in Hz as (a & <- & _).
  unfold ascii_Z, is_byte; pose proof (N_ascii_bounded a); lia.
Qed.

(** ** Padded Base64 *)
Definition not_pad (s : string) : bool := sforall (fun a => negb (Ascii.eqb a "=") && negb (is_crlf a)) s.

Lemma b64std_alphabet b : Forall is_byte b -> not_pad (b64std_encode b) = true.
Proof.
  intros Hb; unfold b64std_encode, not_pad; pose proof (to_sextets_range b Hb) as Hr.
  induction Hr as [|n l Hn Hl IH]; [reflexivity|]; simpl.
  rewrite (forall_range 64 (fun z => negb (Ascii.eqb (b64std_char z) "=") &&
    negb (is_crlf (b64std_char z))) n) by (first [vm_compute; reflexivity | lia]).
  exact IH.
Qed.

Lemma skip_crlf_app a b : skip_crlf (a +:+ b) = skip_crlf a +:+ skip_crlf b.
Proof.
  induction a as [|c a IH]; [done|].
  change (skip_crlf (String c (a +:+ b)) = skip_crlf (String c a) +:+ skip_crlf b); simpl.
  destruct (is_crlf c); [exact IH|]. by rewrite IH.
Qed.

Lemma skip_crlf_id s : not_pad s = true -> skip_crlf s = s.
Proof.
  unfold not_pad; induction s as [|c s IH]; [done|]; simpl.
  intros [[_ Hc]%andb_true_iff Hs]%andb_true_iff; apply negb_true_iff in Hc; by rewrite Hc, IH.
Qed.

Lemma HasSuffix_app s p : HasSuffix (s +:+ p) p = true.
Proof.
  unfold HasSuffix; rewrite slen_app, length_app_str.
  rewrite (proj2 (Z.leb_le _ _)) by (unfold slen; lia).
  replace (String.length s + String.length p - String.length p)%nat with (String.length s) by lia.
  by rewrite from_app, String.eqb_refl.
Qed.

Lemma upto_app_le a b : upto (String.length (a +:+ b) - String.length b) (a +:+ b) = a.
Proof.
  rewrite length_app_str; replace (_ + _ - _)%nat with (String.length a) by lia; apply upto_app.
Qed.

Lemma no_pad_suffix s t : not_pad s = true -> s <> t +:+ "=".
Proof.
  intros Hs ->; unfold not_pad in Hs; rewrite sforall_app in Hs.
  apply andb_true_iff in Hs as [_ Hs]; discriminate.
Qed.

Lemma app_inj_char a b c : a +:+ String c "" = b +:+ String c "" -> a = b.
Proof.
  revert b; induction a as [|x a IH]; intros [|y b]; intros H; try done.
  - injection H as -> H; by destruct b.
  - injection H as -> H; by destruct a.
  - change (String x (a +:+ String c "") = String y (b +:+ String c "")) in H.
    injection H as -> H; f_equal; by apply IH.
Qed.

Lemma length_sextets b :
  length (to_sextets b) = (4 * (length b / 3) + match length b mod 3 with 0 => 0 | 1 => 2 | _ => 3 end)%nat.
Proof.
  induction b as [|x|x y|x y z b IH] using list_ind3; try reflexivity; cbn [to_sextets length].
  rewrite IH; replace (S (S (S (length b)))) with (length b + 1 * 3)%nat by lia.
  rewrite Nat.div_add, Nat.Div0.mod_add by lia; lia.
Qed.

Lemma length_string_of_list l : String.length (string_of_list_ascii l) = length l.
Proof. induction l; simpl; auto. Qed.

Lemma b64pad_roundtrip b : Forall is_byte b -> b64pad_decode (b64pad_encode b) = Some b.
Proof.
  intros Hb; pose proof (b64std_alphabet b Hb) as Ha.
  assert (String.length (b64std_encode b) =
    (4 * (length b / 3) + match length b mod 3 with 0 => 0 | 1 => 2 | _ => 3 end)%nat) as Hl.
  { unfold b64std_encode; by rewrite length_string_of_list, length_map, length_sextets. }
  unfold b64pad_decode, b64pad_encode; rewrite skip_crlf_app, (skip_crlf_id _ Ha).
  assert (skip_crlf (b64_pad b) = b64_pad b) as -> by (unfold b64_pad; by repeat case_match).
  rewrite length_app_str, Hl; unfold b64_pad, strip_pad.
  assert (forall k, (4 * (length b / 3) + k = k + (length b / 3) * 4)%nat) as E by (intros; lia).
  pose proof (Nat.mod_upper_bound (length b) 3 ltac:(lia)) as Hm.
  destruct (length b mod 3)%nat as [|[|[|k]]] eqn:Em; [| | |lia].
  - rewrite app_nil_str, E, Nat.add_0_r, Nat.Div0.mod_add; cbn [negb Nat.eqb Nat.modulo Nat.divmod fst snd Nat.sub].
    destruct (HasSuffix (b64std_encode b) "==") eqn:E2.
    { apply HasSuffix_inv in E2 as [t Ht]; exfalso; apply (no_pad_suffix _ (t +:+ "=") Ha).
      by rewrite Ht, app_assoc_str. }
    destruct (HasSuffix (b64std_encode b) "=") eqn:E1.
    { apply HasSuffix_inv in E1 as [t Ht]; exfalso; by apply (no_pad_suffix _ t Ha). }
    by apply b64std_roundtrip.
  - replace (4 * (length b / 3) + 2 + String.length "==")%nat with (0 + (length b / 3 + 1) * 4)%nat
      by (simpl; lia).
    rewrite Nat.Div0.mod_add; cbn [negb Nat.eqb Nat.modulo Nat.divmod fst snd Nat.sub].
    rewrite HasSuffix_app; change 2%nat with (String.length "=="); rewrite upto_app_le.
    by apply b64std_roundtrip.
  - replace (4 * (length b / 3) + 3 + String.length "=")%nat with (0 + (length b / 3 + 1) * 4)%nat
      by (simpl; lia).
    rewrite Nat.Div0.mod_add; cbn [negb Nat.eqb Nat.modulo Nat.divmod fst snd Nat.sub].
    destruct (HasSuffix (b64std_encode b +:+ "=") "==") eqn:E2.
    { apply HasSuffix_inv in E2 as [t Ht]; exfalso; apply (no_pad_suffix _ t Ha).
      apply (app_inj_char _ _ "="); by rewrite Ht, app_assoc_str. }
    rewrite HasSuffix_app; change 1%nat with (String.length "="); rewrite upto_app_le.
    by apply b64std_roundtrip.
Qed.

Lemma utf8_b64pad b : Forall is_byte b -> utf8_ok (b64pad_encode b) = true.
Proof.
  intros Hb; apply ascii_utf8; unfold b64pad_encode, ascii_only; rewrite sforall_app.
  assert (sforall (fun a => ascii_Z a <? 128) (b64_pad b) = true) as -> by (unfold b64_pad; by repeat case_match).
  rewrite andb_true_r; unfold b64std_encode; pose proof (to_sextets_range b Hb) as Hr.
  induction Hr as [|n l Hn Hl IH]; [reflexivity|]; simpl.
  rewrite (forall_range 64 (fun z => ascii_Z (b64std_char z) <? 128) n)
    by (first [vm_compute; reflexivity | lia]); exact IH.
Qed.

(** ** Frames *)

(** What the log relies on of an AEAD: decryption undoes encryption under the
    same nonce, and the algorithms work on bytes. *)
Record aead_ok (a : AEAD) : Prop := {
  open_seal : forall nonce plain ad, length nonce = aead_NonceSize a ->
    aead_Open a nonce (aead_Seal a nonce plain ad) ad = Ok plain;
  seal_length : forall nonce plain ad,
    llen (aead_Seal a nonce plain ad) = llen plain + aead_Overhead a;
  overhead_nonneg : 0 <= aead_Overhead a;
  seal_bytes : forall nonce plain ad, Forall is_byte nonce -> Forall is_byte plain ->
    Forall is_byte (aead_Seal a nonce plain ad);
}.
Definition cipher_ok (c : option Cipher) : Prop :=
  match c with Some c => aead_ok (cipher_aead c) | None => True end.

Definition entry_ok (e : Entry) : Prop :=
  in_i64 (Timestamp e) /\ utf8_ok (SessionID e) = true /\ 0 <= EVersion e < two64 /\
  match ESession e with
  | Some s => (OpType e = OpTypeCreate \/ OpType e = OpTypeUpdate) /\ wire_ok s
  | None => OpType e = OpTypeDelete
  end.
Definition wire_entry (e : Entry) : Entry :=
  MkEntry (OpType e) (Timestamp e) (SessionID e) (EVersion e) (option_map wire (ESession e)).

Lemma Decrypt_Encrypt {S} c plain (s s' : S) e e' ct :
  aead_ok (cipher_aead c) -> rnd_ok e -> Forall is_byte plain ->
  Encrypt c plain [] s e = (Ok ct, s', e') ->
  Decrypt c ct [] = Ok plain /\ Forall is_byte ct /\ llen plain <= llen ct.
Proof.
  intros Ha Hr Hp; unfold Encrypt, bind, rand_read.
  destruct (rnd e 0%nat (aead_NonceSize (cipher_aead c))) as [nonce|] eqn:E; [|discriminate].
  destruct (Hr _ _ _ E) as [Hl Hb]; intros [= <- <- <-]; unfold Decrypt.
  rewrite length_app, (proj2 (Nat.ltb_ge _ _)) by lia.
  rewrite firstn_app, skipn_app, <- Hl, Nat.sub_diag, firstn_all, skipn_all, firstn_0, skipn_0; simpl.
  rewrite app_nil_r, (open_seal _ Ha) by done; split_ands; auto.
  - apply Forall_app; split; [done|by apply (seal_bytes _ Ha)].
  - pose proof (seal_length _ Ha nonce plain []); pose proof (overhead_nonneg _ Ha).
    unfold llen in *; rewrite length_app; lia.
Qed.

Lemma Unmarshal_payload_Marshal p :
  payload_ok p -> Unmarshal_payload (Marshal (payload_json p)) =
  Some (MkPayload (p_ts p) (p_sid p) (p_ver p) (option_map wire (p_session p)) (p_enc p)).
Proof.
  intros Hp; unfold Unmarshal_payload, Marshal; rewrite of_to_bytes, parse_print_value
    by (by apply payload_json_ok); cbn [mbind option_bind]; by apply dec_payload_json.
Qed.

Lemma Unmarshal_session_Marshal s :
  wire_ok s -> Unmarshal_session (Marshal (session_json s)) = Some (wire s).
Proof.
  intros Hs; unfold Unmarshal_session, Marshal; rewrite of_to_bytes, parse_print_value
    by (by apply session_json_ok); cbn [mbind option_bind]; by apply dec_session_json.
Qed.

(** Framing of a typed payload and its check. *)
Definition framed (op : Z) (payload : bytes) : bytes :=
  (be32 (u32 (4 + 1 + llen payload)) ++ be32 (crc32 (op :: payload)) ++ op :: payload)%list.

Lemma decode_framed op p payload cipher :
  0 <= op < 256 -> payload = Marshal (payload_json p) ->
  decodeEntryFrame (be32 (crc32 (op :: payload)) ++ op :: payload)%list cipher =
  match Unmarshal_payload payload with
    | None => Err (SimpleError "wal: unmarshal payload")
    | Some p =>
      if negb ((op =? OpTypeCreate) || (op =? OpTypeUpdate) || (op =? OpTypeDelete))
      then Err ErrInvalidEntryType
      else
        let out := MkEntry op (p_ts p) (p_sid p) (p_ver p) in
        if op =? OpTypeDelete then Ok (out None)
        else match p_session p with
        | Some s => Ok (out (Some s))
        | None =>
          if String.eqb (p_enc p) "" then Err (SimpleError "wal: missing session payload")
          else match cipher with
          | None => Err (SimpleError "wal: encrypted entry requires cipher")
          | Some c =>
            match b64pad_decode (p_enc p) with
            | None => Err (SimpleError "wal: decode encrypted session")
            | Some ciphertext =>
              match Decrypt c ciphertext [] with
              | Err err => Err (WrapError "wal: decrypt session" err)
              | Ok plain =>
                match Unmarshal_session plain with
                | None => Err (SimpleError "wal: unmarshal session")
                | Some sess => Ok (out (Some sess))
                end
              end
            end
          end
        end
    end.
Proof.
  intros Hop Hpl; unfold decodeEntryFrame.
  assert (0 <= crc32 (op :: payload) < 2 ^ 32) as Hc.
  { apply crc32_range; constructor; [done|]. rewrite Hpl; apply to_bytes_byte. }
  pose proof (be32_get_be32 _ Hc) as Hg; unfold be32 at 1; cbn [app].
  unfold be32 in Hg; rewrite Hg, Z.eqb_refl; reflexivity.
Qed.

Lemma length_framed op payload :
  llen (framed op payload) = 9 + llen payload.
Proof. unfold framed, llen; rewrite !length_app; simpl; lia. Qed.

Lemma payload_marshal_byte v : Forall is_byte (Marshal v).
Proof. apply to_bytes_byte. Qed.

(** The payload a successful encoding was made from. *)
Definition payload_of (e : Entry) (ses : option Session) (enc : string) : wirePayload :=
  MkPayload (Timestamp e) (SessionID e) (EVersion e) ses enc.

Lemma encode_inv {S} (e : Entry) cipher (s s' : S) env0 env' frame :
  encodeEntryFrame e cipher s env0 = (Ok frame, s', env') ->
  exists p, frame = framed (OpType e) (Marshal (payload_json p)) /\
    ((OpType e = OpTypeDelete /\ p = payload_of e None "") \/
     (cipher = None /\ p = payload_of e (ESession e) "") \/
     (exists c ses ct s1 env1, cipher = Some c /\ ESession e = Some ses /\
        Encrypt c (Marshal (session_json ses)) [] s env0 = (Ok ct, s1, env1) /\
        p = payload_of e None (b64pad_encode ct))).
Proof.
  unfold encodeEntryFrame; destruct (OpType e =? OpTypeUnspecified); [discriminate|].
  destruct (negb _ && bool_decide _) eqn:Em; [discriminate|]; unfold bind at 1.
  assert (forall p s1 env1, (if u32 (4 + 1 + llen (Marshal (payload_json p))) <? 5
      then ret (Err ErrCorruptedEntry)
      else ret (Ok (framed (OpType e) (Marshal (payload_json p))))) s1 env1 = (Ok frame, s', env') ->
    frame = framed (OpType e) (Marshal (payload_json p))) as Hend.
  { intros p s1 env1; destruct (_ <? 5); [discriminate|]; by intros [= <- _ _]. }
  destruct (Z.eqb_spec (OpType e) OpTypeDelete) as [Ed|Ed]; [|destruct cipher as [c|]].
  - intros H; exists (payload_of e None ""); split; [exact (Hend _ _ _ H)|by left].
  - destruct (ESession e) as [ses|] eqn:Es; [|discriminate].
    unfold bind at 1; destruct (Encrypt c _ [] s env0) as [[[ct|] s1] env1] eqn:Ec; [|discriminate].
    intros H; exists (payload_of e None (b64pad_encode ct)); split; [exact (Hend _ _ _ H)|].
    right; right; by exists c, ses, ct, s1, env1.
  - intros H; exists (payload_of e (ESession e) ""); split; [exact (Hend _ _ _ H)|].
    right; by left.
Qed.

Lemma frame_ok {S} (e : Entry) (cipher : option Cipher) (s s' : S) (env0 env' : env) frame :
  entry_ok e -> cipher_ok cipher -> rnd_ok env0 ->
  encodeEntryFrame e cipher s env0 = (Ok frame, s', env') -> llen frame < 2 ^ 32 ->
  exists body, frame = (be32 (llen body) ++ body)%list /\ 5 <= llen body < 2 ^ 32 /\
    Forall is_byte frame /\ decodeEntryFrame body cipher = Ok (wire_entry e).
Proof.
  intros (Hts & Hsid & [Hv0 Hv1] & Hses) Hcipher Hrnd Henc Hlen.
  apply encode_inv in Henc as (p & -> & Hp); rewrite length_framed in Hlen.
  assert (0 <= OpType e < 256) as Hop.
  { destruct (ESession e); [destruct Hses as [[-> | ->] _]|rewrite Hses]; done. }
  set (payload := Marshal (payload_json p)) in *.
  exists (be32 (crc32 (OpType e :: payload)) ++ OpType e :: payload)%list.
  assert (llen (be32 (crc32 (OpType e :: payload)) ++ OpType e :: payload)%list = 5 + llen payload) as El
    by (unfold llen; rewrite length_app, be32_length; cbn [length]; lia).
  assert (0 <= llen payload) by (unfold llen; lia).
  rewrite El; split; [unfold framed; rewrite u32_id by lia; do 2 f_equal; lia|].
  split; [lia|]; split.
  { unfold framed; rewrite !Forall_app; split_ands; try apply be32_bytes.
    constructor; [done|apply payload_marshal_byte]. }
  rewrite (decode_framed _ p) by done; unfold payload.
  destruct Hp as [[Ed ->]|[[-> ->]|(c & ses & ct & s1 & env1 & -> & Es & Hct & ->)]].
  - assert (payload_ok (payload_of e None "")) as Hok by (unfold payload_ok, payload_of; cbn [p_ts p_sid p_ver p_session p_enc]; by split_ands).
    rewrite Unmarshal_payload_Marshal by done; rewrite Ed; unfold wire_entry; cbn.
    destruct (ESession e); [destruct Hses as [[Ho|Ho] _]; rewrite Ho in Ed; discriminate|].
    by rewrite Ed.
  - rewrite Unmarshal_payload_Marshal
      by (unfold payload_ok, payload_of; cbn [p_ts p_sid p_ver p_session p_enc]; split_ands; try done;
          revert Hses; destruct (ESession e); [by intros []|done]).
    unfold wire_entry; destruct e as [op ts sid ver [ses|]]; cbn in Hses |- *;
      [destruct Hses as [[-> | ->] _]|subst op]; done.
  - rewrite Es in Hses; destruct Hses as [Ho Hw].
    destruct (Decrypt_Encrypt c _ _ _ _ _ _ Hcipher Hrnd (payload_marshal_byte _) Hct) as (Hd & Hb & Hlct).
    rewrite Unmarshal_payload_Marshal by (unfold payload_ok, payload_of; cbn [p_ts p_sid p_ver p_session p_enc];
      split_ands; try done; by apply utf8_b64pad).
    cbn [p_ts p_sid p_ver p_session p_enc payload_of option_map].
    rewrite b64pad_roundtrip, Hd, Unmarshal_session_Marshal by done.
    assert (String.eqb (b64pad_encode ct) "" = false) as ->.
    { apply String.eqb_neq; intros E; pose proof (b64pad_roundtrip ct Hb) as Hr; rewrite E in Hr.
      destruct ct; [|discriminate]. assert (Marshal (session_json ses) <> []) as Hne.
      { unfold Marshal, session_json; rewrite print_JObj; discriminate. }
      destruct (Marshal (session_json ses)); [done|unfold llen in Hlct; cbn [length] in Hlct; lia]. }
    unfold wire_entry; rewrite Es; destruct Ho as [-> | ->]; reflexivity.
Qed.

(** C13: What the encoder returns for an entry within the value ranges, of whatever
    kind and with or without a cipher, is a length-prefixed frame whose body passes the
    check sum and decodes to the entry as the log carries it: the same operation, time,
    id and version, and the session without its [ShardID], [TTL] and [IsDeleted], which
    the log does not carry and which come back as zero and false. *)
Theorem frame_roundtrip {S} (e : Entry) (cipher : option Cipher) (s s' : S) (env0 env' : env)
    (frame : bytes)
    (Hentry : entry_ok e) (Hcipher : cipher_ok cipher) (Hrnd : rnd_ok env0)
    (Henc : encodeEntryFrame e cipher s env0 = (Ok frame, s', env'))
    (Hlen : llen frame < 2 ^ 32) :
  exists body, frame = (be32 (llen body) ++ body)%list /\ 5 <= llen body < 2 ^ 32 /\
    Forall is_byte frame /\ decodeEntryFrame body cipher = Ok (wire_entry e).
Proof. by eapply frame_ok. Qed.

(** An authenticated cipher that satisfies the hypotheses: the nonce, the text
    and a tag that must be zero. *)
Definition toy_aead : AEAD := MkAEAD 1 1 (fun _ plain _ => (plain ++ [0])%list)
  (fun _ ct _ => match last ct with Some 0 => Ok (firstn (length ct - 1) ct) | _ => Err ErrCorruptedEntry end).
Lemma toy_aead_ok : aead_ok toy_aead.
Proof.
  split; cbn.
  - intros _ plain _ _; rewrite last_snoc, length_app; cbn [length].
    replace (length plain + 1 - 1)%nat with (length plain) by lia.
    by rewrite firstn_app, firstn_all, Nat.sub_diag, firstn_0, app_nil_r.
  - intros _ plain _; unfold llen; rewrite length_app; cbn; lia.
  - lia.
  - intros _ plain _ _ H; apply Forall_app; split; [done|]; by repeat constructor.
Qed.
Definition demo_cipher : Cipher := MkCipher CipherChaCha20 toy_aead.
Definition demo_codec_env : env := Env (fun _ => 0) (fun _ n => Ok (repeat 7 n)) (fun _ => Err ErrCorruptedEntry).
Definition demo_session : Session :=
  MkSession "tmss-1" "alice" "" "" "" "" "" "" "" 10 20 10 (Some {["k" := "v"]}) 1 0 0 false.
Definition demo_entry : Entry := MkEntry OpTypeCreate 10 "tmss-1" 1 (Some demo_session).
Definition demo_encoded := encodeEntryFrame demo_entry (Some demo_cipher) tt demo_codec_env.
Definition demo_bytes : bytes := match demo_encoded with (Ok f, _, _) => f | _ => [] end.

Lemma frame_roundtrip_witness :
  exists body, demo_bytes = (be32 (llen body) ++ body)%list /\ 5 <= llen body < 2 ^ 32 /\
    Forall is_byte demo_bytes /\ decodeEntryFrame body (Some demo_cipher) = Ok (wire_entry demo_entry).
Proof.
  apply (frame_roundtrip demo_entry (Some demo_cipher) tt tt demo_codec_env (snd demo_encoded) demo_bytes).
  - split; [vm_compute; by split|]; split; [reflexivity|]; split; [vm_compute; by split|].
    split; [by left|]. split; [reflexivity|]; split; [reflexivity|]; vm_compute; by split_ands.
  - exact toy_aead_ok.
  - intros k n b [= <-]; split; [apply repeat_length|].
    apply Forall_forall; intros x Hx; apply list_elem_of_In, repeat_spec in Hx as ->; unfold is_byte; lia.
  - vm_compute; reflexivity.
  - vm_compute; reflexivity.
Defined.
