(* ===== verification/SnapshotCrypt.v ===== *)
(** Keys for encrypted snapshots: [internal/storage/snapshot/encrypt.go].

    Argon2id and HKDF are third-party code, arguments of the definitions; the ciphers are
    those of [pkg/crypto/adaptive]. *)

From Stdlib Require Import Ascii String.
From stdpp Require Import list strings.
From S2P Require Import Prelude Errors GoStrings Token APIKey WalCodec WalCodecSpec.
From S2P Require Import AuthServiceSpec.

Open Scope string_scope.
Open Scope Z_scope.

Definition ErrKeyTooShort := SimpleError "snapshot: encryption key too short (minimum 16 bytes)".
Definition ErrPassphraseTooWeak := SimpleError "snapshot: passphrase too weak (minimum 8 characters)".
Definition ErrDecryptionFailed := SimpleError "snapshot: decryption failed - wrong key or corrupted data".
Definition MinKeyLength : Z := 16.
Definition MinPassphraseLength : Z := 8.
Definition SaltLength : nat := 16.
Definition argon2Time : Z := 3.
Definition argon2Memory : Z := 64 * 1024.
Definition argon2Threads : Z := 4.
Definition argon2KeyLen : Z := 32.

(** [hkdf.New(sha256.New, key, nil, info)], and [io.ReadFull] of so many bytes of it. *)
Class HkdfLib := hkdf_sha256 : bytes -> bytes -> nat -> Res bytes.

(** A salt that is nil, or given. *)
Record EncryptionConfig := MkEncryptionConfig {
  ec_Key : bytes; ec_Passphrase : bytes; ec_Salt : option bytes; ec_Algorithm : string }.

Definition ValidateConfig (cfg : EncryptionConfig) : option error :=
  if 0 <? llen (ec_Passphrase cfg) then
    if llen (ec_Passphrase cfg) <? MinPassphraseLength then Some ErrPassphraseTooWeak else None
  else if (0 <? llen (ec_Key cfg)) && (llen (ec_Key cfg) <? MinKeyLength) then Some ErrKeyTooShort
  else None.

Section Keys.
Context `{Argon2Lib} `{AeadLib}.

(** The salt and the key, one after the other. *)
Definition DeriveKeyFromPassphrase {S} (passphrase : bytes) (salt : option bytes) : M S (Res bytes) :=
  salt <- match salt with Some salt => ret (Ok salt) | None => rand_read SaltLength end ;;
  ret (match salt with
       | Err err => Err (WrapError "snapshot: derive key: " err)
       | Ok salt => Ok (salt ++ argon2_IDKey passphrase salt argon2Time argon2Memory argon2Threads argon2KeyLen)%list
       end).
Definition ExtractKeyFromDerived (derived : bytes) : Res (bytes * bytes) :=
  if llen derived <? Z.of_nat SaltLength + argon2KeyLen then Err (SimpleError "snapshot: invalid derived key length")
  else Ok (firstn SaltLength derived, skipn SaltLength derived).

Definition cipher_of (algorithm : string) (key : bytes) : Res Cipher :=
  let algo := if String.eqb algorithm "" then "aes-gcm" else algorithm in
  if String.eqb algo "aes-gcm" then NewAESGCM key
  else if String.eqb algo "chacha20-poly1305" then NewChaCha20 key
  else Err (SimpleError ("snapshot: unsupported algorithm: " +:+ algo)).

(** The cipher and the salt to keep for the next time; neither without a key. *)
Definition NewCipherFromConfig {S} (cfg : EncryptionConfig) : M S (Res (option Cipher * option bytes)) :=
  let with_key (key : bytes) (salt : option bytes) :=
    ret (match cipher_of (ec_Algorithm cfg) key with Ok c => Ok (Some c, salt) | Err err => Err err end) in
  match ValidateConfig cfg with
  | Some err => ret (Err err)
  | None =>
      if 0 <? llen (ec_Passphrase cfg) then
        derived <-? DeriveKeyFromPassphrase (ec_Passphrase cfg) (ec_Salt cfg) ;;
        match ExtractKeyFromDerived derived with
        | Err err => ret (Err err)
        | Ok (salt, key) => with_key key (Some salt)
        end
      else if 0 <? llen (ec_Key cfg) then with_key (ec_Key cfg) None
      else ret (Ok (None, None))
  end.

(** [None] is a panic: a negative length. *)
Definition DeriveSubkey `{HkdfLib} (masterKey info : bytes) (length : Z) : option (Res bytes) :=
  if llen masterKey <? MinKeyLength then Some (Err ErrKeyTooShort)
  else if length <? 0 then None
  else Some (match hkdf_sha256 masterKey info (Z.to_nat length) with
             | Ok key => Ok key | Err err => Err (WrapError "snapshot: derive subkey: " err) end).
Definition GenerateKey {S} (length : Z) : M S (Res bytes) :=
  if length <? MinKeyLength then ret (Err ErrKeyTooShort)
  else
    r <- rand_read (Z.to_nat length) ;;
    ret (match r with Ok key => Ok key | Err err => Err (WrapError "snapshot: generate key: " err) end).
Definition ZeroKey (key : bytes) : bytes := map (fun _ => 0) key.

(** ** The key can be had again *)
Context `{!Argon2Ok}.

Definition with_salt (salt : bytes) (cfg : EncryptionConfig) : EncryptionConfig :=
  MkEncryptionConfig (ec_Key cfg) (ec_Passphrase cfg) (Some salt) (ec_Algorithm cfg).
Lemma argon2_length p salt : length (argon2_IDKey p salt argon2Time argon2Memory argon2Threads argon2KeyLen) = 32%nat.
Proof. destruct (argon2_bytes p salt argon2Time argon2Memory argon2Threads argon2KeyLen) as [Hl _]; [done|]; apply Nat2Z.inj; exact Hl. Qed.

(** What the passphrase of a configuration gives under a salt. *)
Lemma with_passphrase_run {S} cfg salt (s : S) e : 0 < llen (ec_Passphrase cfg) -> ValidateConfig cfg = None ->
  ec_Salt cfg = Some salt ->
  NewCipherFromConfig cfg s e =
  (if (length salt =? SaltLength)%nat then
     match cipher_of (ec_Algorithm cfg)
       (argon2_IDKey (ec_Passphrase cfg) salt argon2Time argon2Memory argon2Threads argon2KeyLen) with
     | Ok c => Ok (Some c, Some salt) | Err err => Err err end
   else if (length salt <? SaltLength)%nat then Err (SimpleError "snapshot: invalid derived key length")
   else match cipher_of (ec_Algorithm cfg) (skipn SaltLength salt ++
          argon2_IDKey (ec_Passphrase cfg) salt argon2Time argon2Memory argon2Threads argon2KeyLen)%list with
     | Ok c => Ok (Some c, Some (firstn SaltLength salt)) | Err err => Err err end, s, e).
Proof.
  intros Hp Hv Hs; unfold NewCipherFromConfig; rewrite Hv, (proj2 (Z.ltb_lt _ _) Hp), Hs.
  unfold DeriveKeyFromPassphrase, bind, ret; set (k := argon2_IDKey _ salt _ _ _ _).
  pose proof (argon2_length (ec_Passphrase cfg) salt) as Hk; fold k in Hk.
  unfold ExtractKeyFromDerived, llen; rewrite length_app, Hk; unfold argon2KeyLen, SaltLength in *.
  destruct (Nat.eqb_spec (length salt) 16) as [E|E]; [|destruct (Nat.ltb_spec (length salt) 16)].
  - rewrite (proj2 (Z.ltb_ge _ _)) by lia; rewrite firstn_app, skipn_app, E, Nat.sub_diag, firstn_0, skipn_0, app_nil_r.
    by rewrite firstn_all2, skipn_all2 by lia.
  - by rewrite (proj2 (Z.ltb_lt _ _)) by lia.
  - rewrite (proj2 (Z.ltb_ge _ _)) by lia; rewrite firstn_app, skipn_app.
    replace (16 - length salt)%nat with 0%nat by lia; by rewrite firstn_0, app_nil_r, skipn_0.
Qed.

(** A passphrase gives the same cipher again: whatever is encrypted under a configuration with
    a passphrase and no salt is decrypted under the same configuration with the salt that was
    returned, and any other salt of sixteen bytes is taken as it is; salts of other lengths are
    refused. *)
Theorem passphrase_reopens {S S' S2} (cfg : EncryptionConfig) (c : Cipher) (salt plain ct : bytes)
    (s1 s2 : S) (t1 t2 : S2) (u : S') (e1 e1' e2 e2' e3 : env)
    (Hp : 0 < llen (ec_Passphrase cfg)) (Hsalt : ec_Salt cfg = None) (Hr1 : rnd_ok e1) (Hr2 : rnd_ok e2)
    (Hc : aead_ok (cipher_aead c)) (Hplain : Forall is_byte plain)
    (Hnew : NewCipherFromConfig cfg s1 e1 = (Ok (Some c, Some salt), s2, e1'))
    (Henc : Encrypt c plain [] t1 e2 = (Ok ct, t2, e2')) :
  NewCipherFromConfig (with_salt salt cfg) u e3 = (Ok (Some c, Some salt), u, e3) /\ Decrypt c ct [] = Ok plain /\
  forall other, length other <> SaltLength -> is_ok (fst (fst (NewCipherFromConfig (with_salt other cfg) u e3))) = false.
Proof.
  assert (ValidateConfig cfg = None) as Hv by (unfold NewCipherFromConfig in Hnew; by destruct (ValidateConfig cfg)).
  assert (forall salt', ValidateConfig (with_salt salt' cfg) = None) as Hv' by (intros; exact Hv).
  split; [|split; [by apply (Decrypt_Encrypt c plain t1 t2 e2 e2' ct Hc Hr2 Hplain)|]].
  - rewrite (with_passphrase_run _ salt) by done; cbn [ec_Passphrase ec_Algorithm with_salt].
    revert Hnew; unfold NewCipherFromConfig; rewrite Hv, (proj2 (Z.ltb_lt _ _) Hp), Hsalt.
    unfold DeriveKeyFromPassphrase, bind, rand_read, ret.
    destruct (rnd e1 0%nat SaltLength) as [b|] eqn:Eb; [|discriminate]; destruct (Hr1 _ _ _ Eb) as [Hb _].
    set (k := argon2_IDKey _ b _ _ _ _); unfold ExtractKeyFromDerived, llen; rewrite length_app, Hb.
    pose proof (argon2_length (ec_Passphrase cfg) b) as Hk; fold k in Hk; rewrite Hk; cbn [Z.ltb].
    change (Z.of_nat (SaltLength + 32) <? Z.of_nat SaltLength + argon2KeyLen) with false; cbn iota.
    rewrite firstn_app, skipn_app, Hb, Nat.sub_diag, firstn_0, skipn_0, app_nil_r, firstn_all2, skipn_all2 by lia.
    destruct (cipher_of _ _) eqn:Ec; [|discriminate]; intros [= <- <- <- <-].
    rewrite Hb, Nat.eqb_refl; change ([] ++ k)%list with k in Ec; fold k; by rewrite Ec.
  - intros other Ho; rewrite (with_passphrase_run _ other) by done; cbn [fst].
    rewrite (proj2 (Nat.eqb_neq _ _) Ho); destruct (Nat.ltb_spec (length other) SaltLength); [done|].
    unfold cipher_of, NewAESGCM, NewChaCha20; rewrite length_app, argon2_length, length_skipn.
    unfold SaltLength in *; repeat (case_match; try done).
    all: rewrite ?orb_true_iff, ?Nat.eqb_eq, ?negb_false_iff, ?Nat.eqb_eq in *; lia.
Qed.
End Keys.

(** ** Witness *)
Section Demo.
#[local] Instance demo_argon2 : Argon2Lib := fun p _ _ _ _ n => repeat (Z.of_nat (length p) mod 256) (Z.to_nat n).
#[local] Instance demo_argon2_ok : Argon2Ok.
Proof.
  intros p s t m th n Hn; unfold argon2_IDKey, demo_argon2, llen; rewrite repeat_length; split; [lia|].
  apply Forall_forall; intros x Hx%list_elem_of_In%repeat_spec; subst; unfold is_byte; apply Z.mod_pos_bound; lia.
Qed.
#[local] Instance demo_aead : AeadLib := {| new_gcm _ := Ok toy_aead; new_chacha20poly1305 _ := Ok toy_aead |}.
Lemma demo_codec_rnd_ok : rnd_ok demo_codec_env.
Proof.
  intros k n b [= <-]; split; [apply repeat_length|].
  apply Forall_forall; intros x Hx%list_elem_of_In%repeat_spec; subst; unfold is_byte; lia.
Qed.
Definition demo_config : EncryptionConfig := MkEncryptionConfig [] (to_bytes "correct horse") None "".
Lemma passphrase_reopens_witness :
  NewCipherFromConfig (with_salt (repeat 7 16) demo_config) tt demo_codec_env =
    (Ok (Some (MkCipher CipherAESGCM toy_aead), Some (repeat 7 16)), tt, demo_codec_env) /\
  Decrypt (MkCipher CipherAESGCM toy_aead) [7; 1; 2; 3; 0] [] = Ok [1; 2; 3].
Proof.
  destruct (passphrase_reopens demo_config (MkCipher CipherAESGCM toy_aead) (repeat 7 16) [1; 2; 3] [7; 1; 2; 3; 0]
    tt tt tt tt tt demo_codec_env demo_codec_env demo_codec_env demo_codec_env demo_codec_env) as (Hn & Hd & _).
  - reflexivity.
  - reflexivity.
  - exact demo_codec_rnd_ok.
  - exact demo_codec_rnd_ok.
  - exact toy_aead_ok.
  - repeat constructor; discriminate.
  - vm_compute; reflexivity.
  - vm_compute; reflexivity.
  - exact (conj Hn Hd).
Defined.
End Demo.
