(* ===== verification/WalLog.v ===== *)
(** The write-ahead log on disk: [internal/storage/wal/writer.go],
    [reader.go] and [compactor.go].

    The directory is a map from file names to contents (regular files only;
    system calls succeed).  A running hash is the data hashed so far.  A
    segment is the magic bytes, frames and, once finalised, the SHA-256 of all
    that; a composite offset is [segmentID << 32 | position]. *)

From Stdlib Require Import Ascii String.
From stdpp Require Import list strings gmap fin_maps.
From S2P Require Import Prelude Errors GoStrings Strconv Encoding Session WalCodec.

Open Scope string_scope.
Open Scope Z_scope.

Definition errInvalidMagic := SimpleError "wal: invalid magic bytes".
Definition ErrCorrupted := SimpleError "wal: corrupted segment".

Definition FilePrefix : string := "wal-".
Definition FileExtension : string := ".log".
Definition MagicBytes : bytes := (to_bytes "TOKMWAL" ++ [1])%list.
Definition MagicBytesSize : Z := 8.
Definition ChecksumSize : Z := 32.
Definition DefaultBatchCount : Z := 100.
Definition DefaultBatchBytes : Z := 1048576.
Definition DefaultMaxFileSize : Z := 67108864.
Definition DefaultMaxEntryCount : Z := 100000.

Abbreviation Dir := (gmap string bytes).

(** ** Segment names *)
Definition formatSegmentFilename (segmentID : Z) : string :=
  FilePrefix +:+ pad_uint 8 segmentID +:+ FileExtension.

Fixpoint span_digits (s : string) : string * string :=
  match s with
  | String a s' => if is_digit a then let '(d, r) := span_digits s' in (String a d, r) else ("", s)
  | EmptyString => ("", "")
  end.
Fixpoint skip_spaces (s : string) : string :=
  match s with String " " s' => skip_spaces s' | _ => s end.
(** [fmt.Sscanf(name, "wal-%d.log", &id)] into a [uint64]. *)
Definition parseSegmentFilename (name : string) : option Z :=
  if negb (HasPrefix name FilePrefix) || negb (HasSuffix name FileExtension) then None
  else
    let '(d, r) := span_digits (skip_spaces (from 4 name)) in
    match ParseUint d with
    | Some id => if HasPrefix r FileExtension then Some id else None
    | None => None
    end.

(** The segments of a directory, in order of their ids. *)
Definition scanSegments (d : Dir) : list (Z * string) :=
  sort_slice (fun a b => fst a <? fst b)
    (omap (fun kv => id ← parseSegmentFilename (fst kv); Some (id, fst kv)) (map_to_list d)).

(** Whether a segment carries a valid trailer, and how much of it is data. *)
Definition verifyChecksumTrailer (f : bytes) : Res (bool * Z) :=
  let size := llen f in
  if size <? MagicBytesSize then Ok (false, size)
  else if negb (bool_decide (firstn 8 f = MagicBytes)) then Err errInvalidMagic
  else if size <? MagicBytesSize + ChecksumSize then Ok (false, size)
  else
    let dataLen := size - ChecksumSize in
    let trailer := skipn (Z.to_nat dataLen) f in
    if negb (bool_decide (sha256 (firstn (Z.to_nat dataLen) f) = trailer)) then Ok (false, size)
    else Ok (true, dataLen).

(** [(latestID, latestPath, isClosed)]; id 0 when there is no segment. *)
Definition findLatestSegment (d : Dir) : Res (Z * string * bool) :=
  match last (scanSegments d) with
  | None => Ok (0, "", false)
  | Some (id, path) =>
      match verifyChecksumTrailer (default [] (d !! path)) with
      | Ok (closed, _) => Ok (id, path, closed)
      | Err err => if errors_is err errInvalidMagic then Ok (id, path, false) else Err err
      end
  end.

(** ** The writer *)
Record Config := MkConfig {
  Dir_ : string;
  BatchCount : Z;
  BatchBytes : Z;
  MaxFileSize : Z;
  MaxEntryCount : Z;
  CfgCipher : option Cipher;
}.
Definition applyDefaults (c : Config) : Config :=
  MkConfig (Dir_ c)
    (if BatchCount c =? 0 then DefaultBatchCount else BatchCount c)
    (if BatchBytes c =? 0 then DefaultBatchBytes else BatchBytes c)
    (if MaxFileSize c =? 0 then DefaultMaxFileSize else MaxFileSize c)
    (if MaxEntryCount c =? 0 then DefaultMaxEntryCount else MaxEntryCount c)
    (CfgCipher c).

(** The directory and the writer's fields; [file] is the open file, if any. *)
Record Writer := MkWriter {
  files : Dir;
  cfg : Config;
  segmentID : Z;
  file : option string;
  fileSize : Z;
  segmentEntries : Z;
  hash : bytes;
  buffer : list bytes;
  bufferBytes : Z;
  closed : bool;
}.

Definition set_buffer (b : list bytes) (n : Z) (w : Writer) : Writer :=
  MkWriter (files w) (cfg w) (segmentID w) (file w) (fileSize w) (segmentEntries w) (hash w) b n
    (closed w).
Definition set_segment (id : Z) (w : Writer) : Writer :=
  MkWriter (files w) (cfg w) id (file w) (fileSize w) (segmentEntries w) (hash w) (buffer w)
    (bufferBytes w) (closed w).
Definition add_entries (n : Z) (w : Writer) : Writer :=
  MkWriter (files w) (cfg w) (segmentID w) (file w) (fileSize w) (segmentEntries w + n) (hash w)
    (buffer w) (bufferBytes w) (closed w).
Definition set_closed (w : Writer) : Writer :=
  MkWriter (files w) (cfg w) (segmentID w) (file w) (fileSize w) (segmentEntries w) (hash w)
    (buffer w) (bufferBytes w) true.

(** Appends to the open file, the hash and the size. *)
Definition writeLocked (p : bytes) : M Writer (option error) :=
  w <- get_st ;;
  match file w with
  | None => ret (Some (SimpleError "wal: file not open"))
  | Some path =>
      put_st (MkWriter (<[path := (default [] (files w !! path) ++ p)%list]> (files w)) (cfg w)
        (segmentID w) (file w) (fileSize w + llen p) (segmentEntries w) (hash w ++ p)%list
        (buffer w) (bufferBytes w) (closed w)) ;;;
      ret None
  end.

(** Creates (or truncates) the file of the current segment and writes the magic. *)
Definition openNewSegment : M Writer (option error) :=
  w <- get_st ;;
  let path := formatSegmentFilename (segmentID w) in
  put_st (MkWriter (<[path := []]> (files w)) (cfg w) (segmentID w) (Some path) 0 0 []
    (buffer w) (bufferBytes w) (closed w)) ;;;
  writeLocked MagicBytes.

(** Continues an unfinished segment; the entry count restarts from zero. *)
Definition openExistingOpenSegment (path : string) : M Writer (option error) :=
  w <- get_st ;;
  let f := default [] (files w !! path) in
  if llen f <? MagicBytesSize then
    ret (Some (WrapError "wal: read magic" (if llen f =? 0 then EOF else ErrUnexpectedEOF)))
  else if negb (bool_decide (firstn 8 f = MagicBytes)) then ret (Some errInvalidMagic)
  else match verifyChecksumTrailer f with
  | Err err => ret (Some err)
  | Ok (true, _) => ret (Some (SimpleError "wal: latest segment already finalized"))
  | Ok (false, dataLen) =>
      put_st (MkWriter (files w) (cfg w) (segmentID w) (Some path) dataLen (segmentEntries w)
        (firstn (Z.to_nat dataLen) f) (buffer w) (bufferBytes w) (closed w)) ;;;
      ret None
  end.

(** Runs on the directory; the state it leaves is the new writer's. *)
Definition NewWriter (c : Config) (d : Dir) : env -> Res Writer * env := fun e =>
  if String.eqb (Dir_ c) "" then (Err (SimpleError "wal: dir is required"), e)
  else
    let c := applyDefaults c in
    let w id := MkWriter d c id None 0 0 [] [] 0 false in
    match findLatestSegment d with
    | Err err => (Err err, e)
    | Ok (latestID, latestPath, isClosed) =>
        let '(r, w', e') :=
          if (latestID =? 0) || isClosed
          then openNewSegment (w (u64 (latestID + 1))) e
          else openExistingOpenSegment latestPath (w latestID) e in
        (match r with Some err => Err err | None => Ok w' end, e')
    end.

Definition CurrentOffset (w : Writer) : Z :=
  Z.lor (u64 (Z.shiftl (segmentID w) 32)) (u32 (fileSize w)).

Definition finalizeSegmentWithoutFlushingLocked : M Writer (option error) :=
  w <- get_st ;;
  let checksum := sha256 (hash w) in
  match file w with
  | None => ret (Some (SimpleError "wal: write checksum: invalid argument"))
  | Some path =>
      put_st (MkWriter (<[path := (default [] (files w !! path) ++ checksum)%list]> (files w)) (cfg w)
        (segmentID w) None (fileSize w) (segmentEntries w) (hash w) (buffer w) (bufferBytes w)
        (closed w)) ;;;
      ret None
  end.

Definition flushLocked : M Writer (option error) :=
  w <- get_st ;;
  if llen (buffer w) =? 0 then ret None
  else
    let buf := concat (buffer w) in
    match file w with
    | None => ret (Some (SimpleError "wal: file not open"))
    | Some _ =>
        rot <- (if (MaxFileSize (cfg w) <? fileSize w + llen buf) ||
                   (MaxEntryCount (cfg w) <? segmentEntries w + llen (buffer w))
                then
                  err <- finalizeSegmentWithoutFlushingLocked ;;
                  match err with
                  | Some err => ret (Some err)
                  | None =>
                      upd_st (fun w => set_segment (u64 (segmentID w + 1)) w) ;;;
                      openNewSegment
                  end
                else ret None) ;;
        match rot with
        | Some err => ret (Some err)
        | None =>
            err <- writeLocked buf ;;
            match err with
            | Some err => ret (Some (WrapError "wal: write batch" err))
            | None =>
                upd_st (fun w => set_buffer [] 0 (add_entries (llen (buffer w)) w)) ;;;
                ret None
            end
        end
    end.
Definition Flush : M Writer (option error) := flushLocked.

Definition Append (entry : Entry) : M Writer (option error) :=
  w <- get_st ;;
  if closed w then ret (Some (SimpleError "wal: writer is closed"))
  else
    r <- encodeEntryFrame entry (CfgCipher (cfg w)) ;;
    match r with
    | Err err => ret (Some err)
    | Ok frame =>
        upd_st (fun w => set_buffer (buffer w ++ [frame])%list (bufferBytes w + llen frame) w) ;;;
        w <- get_st ;;
        if (BatchCount (cfg w) <=? llen (buffer w)) || (BatchBytes (cfg w) <=? bufferBytes w)
        then flushLocked else ret None
    end.

Definition finalizeSegmentLocked : M Writer (option error) :=
  err <- flushLocked ;;
  match err with
  | Some err => ret (Some err)
  | None =>
      w <- get_st ;;
      match file w with
      | None => ret None
      | Some _ => finalizeSegmentWithoutFlushingLocked
      end
  end.

Definition Close : M Writer (option error) :=
  w <- get_st ;;
  if closed w then ret None
  else
    upd_st set_closed ;;;
    w <- get_st ;;
    match file w with None => ret None | Some _ => finalizeSegmentLocked end.

(** ** The reader *)

(** [current] is what is left of the open segment's data. *)
Record Reader := MkReader {
  r_files : Dir;
  r_cipher : option Cipher;
  segments : list (Z * string);
  segIndex : nat;
  current : option bytes;
  startAt : Z;
  headerOK : bool;
}.

Definition NewReader (d : Dir) (cipher : option Cipher) : Reader :=
  MkReader d cipher (scanSegments d) 0 None 0 false.

Definition set_current (c : option bytes) (ok : bool) (r : Reader) : Reader :=
  MkReader (r_files r) (r_cipher r) (segments r) (segIndex r) c (startAt r) ok.
Definition closeCurrent (r : Reader) : Reader := set_current None false r.

Fixpoint find_segment (segs : list (Z * string)) (segID : Z) : nat :=
  match segs with
  | [] => O
  | (id, _) :: segs' => if segID <=? id then O else S (find_segment segs' segID)
  end.
Definition Seek (offset : Z) (r : Reader) : Reader :=
  let segID := Z.shiftr offset 32 in
  let segOff := u32 offset in
  MkReader (r_files r) (r_cipher r) (segments r) (find_segment (segments r) segID) None segOff false.

Definition openNextSegment : M Reader (option error) :=
  upd_st closeCurrent ;;;
  r <- get_st ;;
  match segments r !! segIndex r with
  | None => ret (Some EOF)
  | Some (_, path) =>
      let advance cur at_ := MkReader (r_files r) (r_cipher r) (segments r) (S (segIndex r)) cur at_ false in
      let f := default [] (r_files r !! path) in
      match verifyChecksumTrailer f with
      | Err err => put_st (advance None (startAt r)) ;;; ret (Some err)
      | Ok (isClosed, dataLen) =>
          if isClosed && (dataLen <? MagicBytesSize)
          then put_st (advance None (startAt r)) ;;; ret (Some ErrCorrupted)
          else
            let limit := if isClosed then dataLen else llen f in
            put_st (advance (Some (skipn (Z.to_nat (startAt r)) (firstn (Z.to_nat limit) f))) 0) ;;;
            ret None
      end
  end.

(** [io.ReadFull] of [n] bytes from the open segment; a short read consumes
    what there is. *)
Definition ReadFull (n : nat) : M Reader (Res bytes) :=
  r <- get_st ;;
  let cur := default [] (current r) in
  if (n <=? length cur)%nat then
    upd_st (set_current (Some (skipn n cur)) (headerOK r)) ;;; ret (Ok (firstn n cur))
  else
    upd_st (set_current (Some []) (headerOK r)) ;;;
    ret (Err (match cur with [] => EOF | _ => ErrUnexpectedEOF end)).

Definition readAndValidateHeader : M Reader (option error) :=
  m <- ReadFull 8 ;;
  match m with
  | Err err => ret (Some err)
  | Ok magic =>
      if negb (bool_decide (magic = MagicBytes)) then ret (Some errInvalidMagic)
      else upd_st (fun r => set_current (current r) true r) ;;; ret None
  end.

Definition readOneEntry : M Reader (Res Entry) :=
  lenBuf <-? ReadFull 4 ;;
  let length := be32_get lenBuf in
  if length <? 5 then ret (Err ErrCorruptedEntry)
  else
    frame <-? ReadFull (Z.to_nat length) ;;
    r <- get_st ;;
    ret (decodeEntryFrame frame (r_cipher r)).

(** The loop goes round once per segment at most; [fuel] is their number and one. *)
Fixpoint read_loop (fuel : nat) : M Reader (Res Entry) :=
  match fuel with
  | O => ret (Err EOF)
  | S fuel' =>
    r <- get_st ;;
    err <- (match current r with None => openNextSegment | Some _ => ret None end) ;;
    match err with
    | Some err => ret (Err err)
    | None =>
      r <- get_st ;;
      hdr <- (if negb (headerOK r) && (startAt r =? 0) then readAndValidateHeader
              else upd_st (fun r => set_current (current r) true r) ;;; ret None) ;;
      match hdr with
      | Some err =>
          if errors_is err ErrCorrupted || errors_is err (SimpleError "wal: checksum mismatch")
          then upd_st closeCurrent ;;; read_loop fuel'
          else ret (Err err)
      | None =>
        e <- readOneEntry ;;
        match e with
        | Ok entry => ret (Ok entry)
        | Err err =>
            if errors_is err EOF || errors_is err ErrUnexpectedEOF ||
               errors_is err ErrCorruptedEntry || errors_is err ErrChecksumMismatch ||
               errors_is err ErrInvalidEntryType
            then upd_st closeCurrent ;;; read_loop fuel'
            else ret (Err err)
        end
      end
    end
  end.
Definition Read : M Reader (Res Entry) :=
  r <- get_st ;; read_loop (S (length (segments r))).

(** Every entry read takes at least nine bytes; [fuel] bounds the entries. *)
Fixpoint readall_loop (fuel : nat) (out : list Entry) : M Reader (Res (list Entry)) :=
  match fuel with
  | O => ret (Err (SimpleError "out of fuel"))
  | S fuel' =>
      r <- Read ;;
      match r with
      | Ok e => readall_loop fuel' (out ++ [e])%list
      | Err err => if errors_is err EOF then ret (Ok out) else ret (Err err)
      end
  end.
Definition total_bytes (d : Dir) : nat := foldr (fun kv n => (length (snd kv) + n)%nat) 0%nat (map_to_list d).
Definition ReadAll : M Reader (Res (list Entry)) :=
  r <- get_st ;; readall_loop (S (total_bytes (r_files r))) [].

(** ** Compaction *)
Definition DefaultRetainCount : Z := 3.
(** A compactor is its directory and the number of files it retains; an option changes the number. *)
Definition WithRetainCount (count retainCount : Z) : Z := if 0 <? count then count else retainCount.
Definition NewCompactor (opts : list (Z -> Z)) : Z := foldl (fun c opt => opt c) DefaultRetainCount opts.

(** [listWALFiles]: sorted as strings. *)
Definition listWALFiles (d : Dir) : list string :=
  sort_slice String.ltb
    (omap (fun kv => _ ← parseSegmentFilename (fst kv); Some (fst kv)) (map_to_list d)).

Definition Compact (retainCount : Z) (snapshotOffset : Z) (d : Dir) : Dir :=
  let files := listWALFiles d in
  if llen files =? 0 then d
  else
    let snapshotSegmentID := Z.shiftr snapshotOffset 32 in
    let toDelete := List.filter (fun f => match parseSegmentFilename f with
      | Some segmentID => segmentID <? snapshotSegmentID | None => false end) files in
    let toDelete :=
      if llen files - llen toDelete <? retainCount then
        let keepCount := retainCount - (llen files - llen toDelete) in
        let keepCount := if llen toDelete <? keepCount then llen toDelete else keepCount in
        firstn (Z.to_nat (llen toDelete - keepCount)) toDelete
      else toDelete in
    foldl (fun d f => base.delete f d) d toDelete.

Definition TotalSize (d : Dir) : Z :=
  foldr (fun f n => llen (default [] (d !! f)) + n) 0 (listWALFiles d).
Definition NeedsCompaction (threshold : Z) (d : Dir) : bool := threshold <? TotalSize d.
Definition FileCount (d : Dir) : Z := llen (listWALFiles d).
Definition CleanAll (d : Dir) : Dir := foldl (fun d f => base.delete f d) d (listWALFiles d).

Definition VerifyTrailerChecksum (f : bytes) : option error :=
  if llen f <? ChecksumSize then Some ErrCorrupted
  else
    let n := Z.to_nat (llen f - ChecksumSize) in
    if bool_decide (sha256 (firstn n f) = skipn n f) then None
    else Some (SimpleError "wal: checksum mismatch").
