(* ===== verification/WalLogFacts.v ===== *)
(** The layout of the log on disk, and what the writer and the reader do to it. *)

From Stdlib Require Import Ascii String Sorting.Sorted.
From stdpp Require Import list sorting strings gmap fin_maps.
From S2P Require Import Prelude Errors GoStrings Strconv Encoding Token Session WalCodec.
From S2P Require Import WalCodecSpec WalLog.

Open Scope string_scope.
Open Scope Z_scope.

(** ** Segment names *)
Lemma span_digits_app d r :
  sforall is_digit d = true -> match r with String a _ => is_digit a = false | _ => True end ->
  span_digits (d +:+ r) = (d, r).
Proof.
  induction d as [|a d IH]; intros Hd Hr.
  - destruct r as [|a r]; [done|]. change ("" +:+ String a r) with (String a r); simpl; by rewrite Hr.
  - change (String a d +:+ r) with (String a (d +:+ r)); simpl in Hd |- *.
    apply andb_true_iff in Hd as [-> Hd]; by rewrite IH.
Qed.

Lemma pad_uint_nonempty w n : 0 <= n -> exists a s, pad_uint w n = String a s /\ is_digit a = true.
Proof.
  intros Hn; pose proof (pad_uint_digits w n) as Hd.
  destruct (pad_uint w n) as [|a s] eqn:E; [|simpl in Hd; apply andb_true_iff in Hd as [Ha _]; eauto].
  exfalso; unfold pad_uint in E; set (k := (w - _)%nat) in E.
  destruct k; [|discriminate]. unfold FormatUint in E.
  destruct (print_digits_head 20 n Hn ltac:(lia)) as (c & s & Ec & _).
  change (zeros 0 +:+ print_digits 20 n "") with (print_digits 20 n "") in E; congruence.
Qed.

Lemma parse_format id : 0 <= id < two64 -> parseSegmentFilename (formatSegmentFilename id) = Some id.
Proof.
  intros Hid; unfold parseSegmentFilename, formatSegmentFilename, HasPrefix.
  rewrite str_prefix_app, <- app_assoc_str, HasSuffix_app; cbn [negb orb].
  rewrite app_assoc_str; change (from 4) with (from (String.length FilePrefix)); rewrite from_app.
  destruct (pad_uint_nonempty 8 id ltac:(lia)) as (a & s & E & Ha).
  assert (skip_spaces (pad_uint 8 id +:+ FileExtension) = pad_uint 8 id +:+ FileExtension) as ->.
  { rewrite E; change (String a s +:+ FileExtension) with (String a (s +:+ FileExtension)).
    destruct a as [[] [] [] [] [] [] [] []]; first [discriminate Ha | reflexivity]. }
  rewrite span_digits_app by (apply pad_uint_digits || reflexivity).
  unfold ParseUint; rewrite parse_pad_uint by done.
  assert (String.eqb (pad_uint 8 id) "" = false) as -> by (rewrite E; reflexivity).
  by rewrite (proj2 (Z.ltb_lt _ _)) by lia.
Qed.

Lemma format_inj a b : 0 <= a < two64 -> 0 <= b < two64 ->
  formatSegmentFilename a = formatSegmentFilename b -> a = b.
Proof. intros Ha Hb E; pose proof (parse_format a Ha); pose proof (parse_format b Hb); congruence. Qed.

(** ** Directories of segments: file [i], [i + 1], ... with given contents *)
Fixpoint dir_of (i : Z) (l : list bytes) : Dir :=
  match l with
  | [] => ∅
  | f :: l' => <[formatSegmentFilename i := f]> (dir_of (i + 1) l')
  end.
Fixpoint numbered (i : Z) (l : list bytes) : list (Z * string) :=
  match l with
  | [] => []
  | _ :: l' => (i, formatSegmentFilename i) :: numbered (i + 1) l'
  end.

Lemma dir_of_lookup i l j :
  0 <= i -> i + llen l <= two64 -> 0 <= j < two64 ->
  dir_of i l !! formatSegmentFilename j = if (i <=? j) && (j <? i + llen l) then l !! Z.to_nat (j - i) else None.
Proof.
  unfold llen; revert i; induction l as [|f l IH]; intros i Hi Hb Hj; cbn [dir_of length] in *.
  - rewrite lookup_empty; by destruct (_ && _).
  - destruct (Z.eq_dec i j) as [->|Hne].
    + rewrite lookup_insert_eq, Z.leb_refl, (proj2 (Z.ltb_lt _ _)), Z.sub_diag by lia; done.
    + rewrite lookup_insert_ne by (intros E; apply Hne, format_inj; auto; lia).
      rewrite IH by lia.
      destruct (Z.leb_spec i j); [|rewrite (proj2 (Z.leb_gt (i + 1) j)) by lia; done].
      rewrite (proj2 (Z.leb_le (i + 1) j)) by lia; cbn [andb].
      replace (i + 1 + Z.of_nat (length l)) with (i + Z.of_nat (S (length l))) by lia.
      destruct (j <? _); [|done].
      by replace (Z.to_nat (j - i)) with (S (Z.to_nat (j - (i + 1)))) by lia.
Qed.

Lemma dir_of_fresh i l j : 0 <= j < i -> i + llen l <= two64 ->
  dir_of i l !! formatSegmentFilename j = None.
Proof.
  intros Hj Hb; rewrite dir_of_lookup by (unfold llen in *; lia).
  by rewrite (proj2 (Z.leb_gt _ _)) by lia.
Qed.

Lemma dir_of_snoc i l f :
  0 <= i -> i + llen l < two64 ->
  dir_of i (l ++ [f]) = <[formatSegmentFilename (i + llen l) := f]> (dir_of i l).
Proof.
  unfold llen; revert i; induction l as [|g l IH]; intros i Hi Hb; cbn [dir_of app length] in *.
  - by rewrite Z.add_0_r.
  - rewrite IH by lia; replace (i + 1 + Z.of_nat (length l)) with (i + Z.of_nat (S (length l))) by lia.
    apply insert_insert_ne; intros E; apply format_inj in E; lia.
Qed.

Lemma dir_of_empty i l : ∅ = dir_of i l -> l = [].
Proof.
  destruct l as [|f l]; [done|]; intros H; apply (f_equal (lookup (formatSegmentFilename i))) in H.
  cbn [dir_of] in H; by rewrite lookup_insert_eq in H.
Qed.

Lemma dir_of_update i l f g :
  0 <= i -> i + llen l < two64 ->
  <[formatSegmentFilename (i + llen l) := g]> (dir_of i (l ++ [f])) = dir_of i (l ++ [g]).
Proof. intros; rewrite !dir_of_snoc by done; apply insert_insert_eq. Qed.

(** Scanning finds the segments in order. *)
Lemma elem_numbered i l id path : (id, path) ∈ numbered i l -> i <= id < i + llen l.
Proof.
  unfold llen; revert i; induction l as [|f l IH]; intros i H; cbn [numbered length] in *;
    [by apply not_elem_of_nil in H|].
  apply elem_of_cons in H as [[= -> ->]|H]; [lia|]. apply IH in H; lia.
Qed.

Lemma numbered_sorted i l : StronglySorted (fun a b => fst a <= fst b) (numbered i l).
Proof.
  revert i; induction l as [|f l IH]; intros i; cbn [numbered]; constructor; auto.
  apply Forall_forall; intros [id path] H%elem_numbered; simpl; lia.
Qed.

Lemma omap_scan_perm i l :
  0 <= i -> i + llen l <= two64 ->
  omap (fun kv : string * bytes => id ← parseSegmentFilename (fst kv); Some (id, fst kv))
    (map_to_list (dir_of i l)) ≡ₚ numbered i l.
Proof.
  unfold llen; revert i; induction l as [|f l IH]; intros i Hi Hb; cbn [dir_of numbered length] in *.
  - by rewrite map_to_list_empty.
  - rewrite map_to_list_insert by (apply dir_of_fresh; unfold llen; lia).
    cbn [omap list_omap fst]; rewrite parse_format by lia; cbn [mbind option_bind].
    constructor; apply IH; lia.
Qed.

Lemma scan_dir_of i l : 0 <= i -> i + llen l <= two64 -> scanSegments (dir_of i l) = numbered i l.
Proof.
  intros Hi Hl; unfold scanSegments.
  destruct (sort_slice_spec (fun a b : Z * string => fst a <? fst b) (fun a b => fst a <= fst b)
    ltac:(cbn; lia) ltac:(cbn; lia) ltac:(cbn; lia)
    (omap (fun kv : string * bytes => id ← parseSegmentFilename (fst kv); Some (id, fst kv))
      (map_to_list (dir_of i l)))) as [Hp Hs].
  pose proof (transitivity Hp (omap_scan_perm i l Hi Hl)) as Hp'; clear Hp.
  apply (StronglySorted_unique_strong (fun a b => fst a <= fst b)); [|done|apply numbered_sorted|done].
  assert (forall l i a b, a ∈ numbered i l -> b ∈ numbered i l -> fst a = fst b -> a = b) as Hinj.
  { clear; induction l as [|f l IH]; intros i [ia pa] [ib pb] Ha Hb E; cbn [numbered] in *;
      [by apply not_elem_of_nil in Ha|]; simpl in E; subst ib.
    apply elem_of_cons in Ha as [[= -> ->]|Ha], Hb as [Hb|Hb]; try congruence.
    - apply elem_numbered in Hb; lia.
    - simplify_eq; apply elem_numbered in Ha; lia.
    - by apply (IH (i + 1)). }
  intros a b Ha Hb H1 H2; rewrite Hp' in Ha; eapply Hinj; eauto; lia.
Qed.
