(* ===== verification/WalProgress.v ===== *)
(** Reading terminates on any directory: every call of [Read] that does not
    report the end of the log consumes bytes or opens a segment. *)

From Stdlib Require Import Ascii String.
From stdpp Require Import list strings gmap fin_maps.
From S2P Require Import Prelude Errors GoStrings Encoding Session WalCodec WalLog.
From S2P Require Import WalLogFacts.

Open Scope Z_scope.

Definition seg_total (d : Dir) (segs : list (Z * string)) : nat :=
  foldr (fun s n => (S (length (default [] (d !! snd s))) + n)%nat) 0%nat segs.
#[local] Arguments seg_total : simpl never.
(** What is left to read: bytes of the open segment, and segments with their bytes. *)
Definition left_over (r : Reader) : nat :=
  (length (default [] (current r)) + seg_total (r_files r) (drop (segIndex r) (segments r)))%nat.

Definition same_log (r r' : Reader) : Prop :=
  r_files r' = r_files r /\ segments r' = segments r /\ r_cipher r' = r_cipher r.

Lemma same_log_refl r : same_log r r.
Proof. done. Qed.
Lemma same_log_trans a b c : same_log a b -> same_log b c -> same_log a c.
Proof. unfold same_log; intuition congruence. Qed.

(** The reader's progress is measured by what it has left of the same files. *)
Abbreviation progress := (Prelude.progress same_log left_over).
Abbreviation frugal := (Prelude.frugal same_log left_over).
Definition progress_bind {A B} := @Prelude.progress_bind Reader same_log left_over same_log_trans A B.
Definition frugal_bind {A B} := @Prelude.frugal_bind Reader same_log left_over same_log_trans A B.
Definition progress_ret {A} := @Prelude.progress_ret Reader same_log left_over same_log_refl A.
Definition frugal_ret {A} := @Prelude.frugal_ret Reader same_log left_over same_log_refl A.
Definition progress_get_st := @Prelude.progress_get_st Reader same_log left_over same_log_refl.

(** ** The reader's steps *)
Definition quiet_opt (o : option error) : Prop := o = Some EOF.
Definition quiet_res {A} (x : Res A) : Prop := match x with Err err => err = EOF | Ok _ => False end.
Definition ends (x : Res Entry) : Prop := match x with Err err => errors_is err EOF = true | Ok _ => False end.

Lemma frugal_close : frugal (upd_st closeCurrent).
Proof. apply frugal_upd; intros r; split; [done|]; unfold left_over, closeCurrent, set_current; cbn; lia. Qed.
Lemma frugal_header b : frugal (upd_st (fun r => set_current (current r) b r)).
Proof. by apply frugal_upd. Qed.

Lemma progress_ReadFull n : (0 < n)%nat -> progress quiet_res (ReadFull n).
Proof.
  intros Hn r e; unfold ReadFull, bind, get_st, upd_st, ret.
  destruct (Nat.leb_spec n (length (default [] (current r)))) as [H|H]; split; try done.
  - unfold left_over, set_current; cbn; rewrite length_skipn; split; [lia|right; lia].
  - unfold left_over, set_current; cbn; split; [lia|].
    destruct (default [] (current r)); cbn [length]; [by left|right; lia].
Qed.

Lemma progress_open : progress quiet_opt openNextSegment.
Proof.
  intros r e; unfold openNextSegment, bind, get_st, upd_st, put_st, ret.
  destruct (segments (closeCurrent r) !! segIndex (closeCurrent r)) as [[id path]|] eqn:E.
  2:{ split; [done|]; split; [unfold left_over, closeCurrent, set_current; cbn; lia|by left]. }
  cbn [closeCurrent set_current segments segIndex] in E.
  assert (left_over r = length (default [] (current r)) +
    (S (length (default [] (r_files r !! path))) + seg_total (r_files r) (drop (S (segIndex r)) (segments r))))%nat as El.
  { unfold left_over; by rewrite (drop_S _ _ _ E). }
  destruct (verifyChecksumTrailer _) as [[b n]|err]; [destruct (b && _)|]; (split; [done|]); rewrite El;
    unfold left_over, closeCurrent, set_current; cbn; rewrite ?length_skipn, ?length_firstn;
    (split; [lia|right; lia]).
Qed.

Lemma progress_validate : progress quiet_opt readAndValidateHeader.
Proof.
  unfold readAndValidateHeader; eapply progress_bind; [apply progress_ReadFull; lia| |].
  - intros [m|err]; [|apply frugal_ret]; destruct (negb _); [apply frugal_ret|].
    apply frugal_bind; [apply frugal_header|intros; apply frugal_ret].
  - intros [m|err]; [done|]; intros ->; by apply progress_ret.
Qed.

Lemma frugal_ReadFull n : frugal (ReadFull n).
Proof.
  destruct n; [|by eapply progress_frugal, progress_ReadFull; lia].
  intros r e; unfold ReadFull, bind, get_st, upd_st, ret; cbn; split; [done|]; split; [done|by left].
Qed.

Lemma progress_entry : progress quiet_res readOneEntry.
Proof.
  unfold readOneEntry; eapply progress_bind; [apply progress_ReadFull; lia| |].
  - intros [b|err]; [|apply frugal_ret]; destruct (_ <? 5); [apply frugal_ret|].
    apply frugal_bind; [apply frugal_ReadFull|intros [f|err]; [|apply frugal_ret]].
    apply frugal_bind; [by apply progress_get_st|intros; apply frugal_ret].
  - intros [b|err]; [done|]; intros ->; by apply progress_ret.
Qed.

Lemma progress_read_loop fuel : progress ends (read_loop fuel).
Proof.
  induction fuel as [|fuel IH]; cbn [read_loop]; [by apply progress_ret|].
  assert (frugal (upd_st closeCurrent ;;; read_loop fuel)) as Hclose
    by (apply frugal_bind; [apply frugal_close|intros; by eapply progress_frugal]).
  assert (progress ends (upd_st closeCurrent ;;; read_loop fuel)) as Hclose'
    by (eapply progress_bind; [apply frugal_close|intros; by eapply progress_frugal|done]).
  set (body := fun hdr : option error => match hdr with
    | Some err => if errors_is err ErrCorrupted || errors_is err (SimpleError "wal: checksum mismatch")
                  then upd_st closeCurrent ;;; read_loop fuel else ret (Err err)
    | None => e <- readOneEntry ;; match e with
        | Ok entry => ret (Ok entry)
        | Err err => if errors_is err EOF || errors_is err ErrUnexpectedEOF || errors_is err ErrCorruptedEntry ||
            errors_is err ErrChecksumMismatch || errors_is err ErrInvalidEntryType
            then upd_st closeCurrent ;;; read_loop fuel else ret (Err err)
        end
    end).
  assert (progress ends (body None)) as Hentry.
  { eapply progress_bind; [apply progress_entry| |].
    - intros [x|err]; [apply frugal_ret|]; destruct (_ || _); [done|apply frugal_ret].
    - intros [x|err]; [done|]; intros ->; exact Hclose'. }
  assert (forall o, frugal (body o)) as Hbody.
  { intros [err|]; [|by eapply progress_frugal]. cbn; destruct (_ || _); [done|apply frugal_ret]. }
  set (quiet := fun o : option error => o = None \/ quiet_opt o).
  assert (forall o, quiet o -> progress ends (body o)) as Hquiet
    by (intros ? [-> | ->]; [exact Hentry|by apply progress_ret]).
  assert (forall r : Reader, progress quiet (if negb (headerOK r) && (startAt r =? 0) then readAndValidateHeader
    else upd_st (fun r => set_current (current r) true r) ;;; ret None)) as Hhdr.
  { intros r; destruct (_ && _); [eapply progress_weaken; [apply progress_validate|by right]|].
    eapply progress_bind; [apply frugal_header|intros; apply frugal_ret|intros; by apply progress_ret; left]. }
  set (rest := r <- get_st ;; hdr <- (if negb (headerOK r) && (startAt r =? 0) then readAndValidateHeader
    else upd_st (fun r => set_current (current r) true r) ;;; ret None) ;; body hdr).
  assert (progress ends rest) as Hrest.
  { eapply (progress_bind (fun _ => True)); [by apply progress_get_st|intros r|intros r _].
    - apply frugal_bind; [by eapply progress_frugal|done].
    - eapply progress_bind; [apply Hhdr|done|done]. }
  set (after_open := fun err : option error => match err with Some err => ret (Err err) | None => rest end).
  assert (forall r : Reader, progress ends (err <- (match current r with None => openNextSegment | Some _ => ret None end) ;;
    after_open err)) as Hopen.
  { intros r; eapply (progress_bind quiet).
    - destruct (current r); [by apply progress_ret; left|eapply progress_weaken; [apply progress_open|by right]].
    - intros [err|]; [apply frugal_ret|by eapply progress_frugal].
    - intros ? [-> | ->]; [done|by apply progress_ret]. }
  eapply (progress_bind (fun _ => True)); [by apply progress_get_st|intros r; eapply progress_frugal, Hopen|intros r _; apply Hopen].
Qed.

(** Every call of [Read] reports the end of the log or makes what is left
    smaller, and stays on the same files. *)
Lemma Read_progress r e : let '(x, r', _) := Read r e in
  same_log r r' /\ (ends x \/ (left_over r' < left_over r)%nat).
Proof.
  pose proof (progress_read_loop (S (length (segments r))) r e) as H; unfold Read, bind, get_st.
  destruct (read_loop _ r e) as [[x r'] e']; intuition.
Qed.

(** ** The loop of [Read] has fuel to spare *)
Definition rounds (r : Reader) : nat :=
  ((match current r with Some _ => 1 | None => 0 end) + (length (segments r) - segIndex r) + 1)%nat.
Definition at_segment (n : nat) (l : list (Z * string)) (r : Reader) : Prop :=
  segIndex r = n /\ segments r = l.

Lemma header_stays n l : preserves (at_segment n l) readAndValidateHeader.
Proof. unfold readAndValidateHeader, ReadFull; preserves_tac. Qed.
Lemma entry_stays n l : preserves (at_segment n l) readOneEntry.
Proof. unfold readOneEntry, ReadFull; preserves_tac. Qed.

Lemma open_rounds r e err r1 e1 :
  (match current r with None => openNextSegment | Some _ => ret None end) r e = (err, r1, e1) ->
  err = None -> (S (rounds (closeCurrent r1)) <= rounds r)%nat.
Proof.
  destruct (current r) eqn:Ec; [intros [= <- <- <-] _; unfold rounds; rewrite Ec; cbn; lia|].
  unfold openNextSegment, bind, get_st, upd_st, put_st, ret.
  destruct (segments (closeCurrent r) !! segIndex (closeCurrent r)) as [[id path]|] eqn:E; [|by intros [= <- _ _]].
  cbn [closeCurrent set_current segments segIndex] in E; apply lookup_lt_Some in E.
  destruct (verifyChecksumTrailer _) as [[b n]|er]; [destruct (b && _)|]; intros [= <- <- _]; try done; intros _.
  unfold rounds; rewrite Ec; cbn; lia.
Qed.

Lemma read_loop_fuel f1 : forall f2 r e, (rounds r <= f1)%nat -> (rounds r <= f2)%nat ->
  read_loop f1 r e = read_loop f2 r e.
Proof.
  induction f1 as [|f1 IH]; intros [|f2] r e H1 H2; try (unfold rounds in H1, H2; lia).
  cbn [read_loop]; rewrite !(bind_run get_st _ r e r r e) by done.
  destruct ((match current r with None => openNextSegment | Some _ => ret None end) r e)
    as [[err r1] e1] eqn:Eo; rewrite !(bind_run _ _ _ _ _ _ _ Eo); destruct err as [err|]; [done|].
  pose proof (open_rounds r e None r1 e1 Eo eq_refl) as Hr.
  assert (forall r2 e2, at_segment (segIndex r1) (segments r1) r2 ->
    (upd_st closeCurrent ;;; read_loop f1) r2 e2 = (upd_st closeCurrent ;;; read_loop f2) r2 e2) as Hclose.
  { intros r2 e2 [Hi Hs]; rewrite !(bind_run (upd_st closeCurrent) _ r2 e2 tt (closeCurrent r2) e2) by done.
    assert (rounds (closeCurrent r2) = rounds (closeCurrent r1)) as Er by (unfold rounds; cbn; by rewrite Hi, Hs).
    apply IH; rewrite Er; lia. }
  rewrite !(bind_run get_st _ r1 e1 r1 r1 e1) by done.
  match goal with |- bind ?m _ _ _ = _ => set (hdr := m) end.
  assert (preserves (at_segment (segIndex r1) (segments r1)) hdr) as Hh
    by (unfold hdr; destruct (_ && _); [apply header_stays|preserves_tac]).
  specialize (Hh r1 e1 (conj eq_refl eq_refl)).
  destruct (hdr r1 e1) as [[h r2] e2] eqn:Eh; rewrite !(bind_run _ _ _ _ _ _ _ Eh); destruct h as [err|].
  { destruct (_ || _); [by apply Hclose|done]. }
  pose proof (entry_stays (segIndex r1) (segments r1) r2 e2 Hh) as Hen.
  destruct (readOneEntry r2 e2) as [[x r3] e3] eqn:Ee; rewrite !(bind_run _ _ _ _ _ _ _ Ee).
  destruct x as [x|err]; [done|]; destruct (_ || _); [by apply Hclose|done].
Qed.

(** More rounds than [Read] allows itself change nothing. *)
Lemma Read_fuel k r e : current r = None \/ (1 <= segIndex r <= length (segments r))%nat ->
  read_loop (S (length (segments r)) + k) r e = Read r e.
Proof.
  intros H; unfold Read; rewrite (bind_run get_st _ r e r r e) by done.
  apply read_loop_fuel; unfold rounds; destruct H as [->|H]; try destruct (current r); lia.
Qed.

(** ** What there is to read in a directory *)
Lemma seg_total_perm d l l' : l ≡ₚ l' -> seg_total d l = seg_total d l'.
Proof. unfold seg_total; induction 1; cbn [foldr]; lia. Qed.

Lemma seg_total_scan d : (seg_total d (scanSegments d) <= length (scanSegments d) + total_bytes d)%nat.
Proof.
  unfold scanSegments; rewrite (seg_total_perm _ _ _ (sort_slice_perm _ _)), (Permutation_length (sort_slice_perm _ _)).
  unfold total_bytes; assert (forall kv, kv ∈ map_to_list d -> d !! fst kv = Some (snd kv)) as H
    by (intros [k f] Hk; by apply elem_of_map_to_list in Hk).
  induction (map_to_list d) as [|[k f] l IH]; [done|].
  assert (d !! k = Some f) as Hk by (apply (H (k, f)); left).
  specialize (IH (fun kv Hkv => H kv ltac:(by right))); unfold seg_total in *; cbn [omap list_omap fst foldr snd length].
  destruct (parseSegmentFilename k); cbn [mbind option_bind foldr snd length]; [rewrite Hk; cbn [default id]; lia|lia].
Qed.
