(* ===== verification/WalReadFacts.v ===== *)
(** What the log's reader gets out of a directory of segments. *)

From Stdlib Require Import Ascii String.
From stdpp Require Import list strings gmap fin_maps.
From S2P Require Import Prelude Errors GoStrings Strconv Encoding Token Session WalCodec.
From S2P Require Import WalCodecSpec WalLog WalLogFacts.

Open Scope Z_scope.

Section Reader.
Context (cipher : option Cipher).

(** ** Segment contents *)

(** A frame that decodes to [e]. *)
Definition good (e : Entry) (frame : bytes) : Prop :=
  exists body, frame = (be32 (llen body) ++ body)%list /\ 5 <= llen body < 2 ^ 32 /\
    decodeEntryFrame body cipher = Ok e.
Definition seg_data (frames : list bytes) : bytes := (MagicBytes ++ concat frames)%list.
Definition closed_seg (frames : list bytes) : bytes :=
  (seg_data frames ++ sha256 (seg_data frames))%list.
(** What a write cut short leaves behind: a proper prefix of a frame. *)
Definition torn (junk : bytes) : Prop :=
  exists e frame n, good e frame /\ junk = firstn n frame /\ (n < length frame)%nat.

(** A segment file that holds the entries [es]: finalised, or open (without a
    valid trailer) and possibly torn. *)
Inductive seg_holds (f : bytes) (es : list Entry) : Prop :=
| holds_closed frames : Forall2 good es frames -> f = closed_seg frames -> seg_holds f es
| holds_open frames junk n : Forall2 good es frames -> junk = [] \/ torn junk ->
    f = (seg_data frames ++ junk)%list -> verifyChecksumTrailer f = Ok (false, n) -> seg_holds f es.

Lemma good_length e frame : good e frame -> (9 <= length frame)%nat.
Proof. intros (body & -> & Hb & _); rewrite length_app, be32_length; unfold llen in Hb; lia. Qed.

Lemma verify_closed frames :
  verifyChecksumTrailer (closed_seg frames) = Ok (true, llen (seg_data frames)).
Proof.
  unfold verifyChecksumTrailer.
  assert (llen (closed_seg frames) = llen (seg_data frames) + 32) as El
    by (unfold closed_seg, llen; rewrite length_app, sha256_length; lia).
  assert (8 <= llen (seg_data frames)) by (unfold seg_data, llen; rewrite length_app; cbn; lia).
  rewrite El; unfold MagicBytesSize, ChecksumSize.
  rewrite !(proj2 (Z.ltb_ge _ _)) by lia.
  assert (firstn 8 (closed_seg frames) = MagicBytes) as -> by reflexivity.
  rewrite bool_decide_true by done; cbn [negb].
  replace (Z.to_nat (llen (seg_data frames) + 32 - 32)) with (length (seg_data frames))
    by (unfold llen; lia).
  unfold closed_seg; rewrite firstn_app, Nat.sub_diag, firstn_all, firstn_0, app_nil_r,
    skipn_app, skipn_all, Nat.sub_diag, skipn_0; cbn [app].
  rewrite bool_decide_true by done; cbn [negb]; f_equal; f_equal; lia.
Qed.

(** ** Steps of the reader *)
Lemma ReadFull_ok r e a b n :
  current r = Some (a ++ b)%list -> length a = n ->
  ReadFull n r e = (Ok a, set_current (Some b) (headerOK r) r, e).
Proof.
  intros Hc <-; unfold ReadFull, bind, get_st, upd_st; rewrite Hc; cbn [default id].
  rewrite (proj2 (Nat.leb_le _ _)) by (rewrite length_app; lia).
  by rewrite skipn_app, firstn_app, Nat.sub_diag, skipn_all, firstn_all, firstn_0, app_nil_r, skipn_0.
Qed.

Lemma ReadFull_short r e c n :
  current r = Some c -> (length c < n)%nat ->
  ReadFull n r e = (Err (match c with [] => EOF | _ => ErrUnexpectedEOF end),
    set_current (Some []) (headerOK r) r, e).
Proof.
  intros Hc Hl; unfold ReadFull, bind, get_st, upd_st; rewrite Hc; cbn [default id].
  by rewrite (proj2 (Nat.leb_gt _ _)) by lia.
Qed.

Lemma readOneEntry_ok r e frame rest entry :
  current r = Some (frame ++ rest)%list -> r_cipher r = cipher -> good entry frame ->
  readOneEntry r e = (Ok entry, set_current (Some rest) (headerOK r) r, e).
Proof.
  intros Hc Hk (body & -> & Hl & Hd); unfold readOneEntry.
  rewrite <- app_assoc in Hc.
  erewrite bind_run by (apply ReadFull_ok; [exact Hc|apply be32_length]); cbn beta iota.
  rewrite be32_get_be32, (proj2 (Z.ltb_ge _ _)) by lia.
  erewrite bind_run by (apply (ReadFull_ok _ _ body rest); [reflexivity|unfold llen; lia]).
  cbn beta iota; unfold bind, get_st, ret; cbn [r_cipher set_current]; by rewrite Hk, Hd.
Qed.

(** The errors after which the reader moves on to the next segment. *)
Definition skips (err : error) : Prop := err = EOF \/ err = ErrUnexpectedEOF.

Lemma readOneEntry_torn r e junk :
  current r = Some junk -> junk = [] \/ torn junk ->
  exists err, skips err /\ readOneEntry r e = (Err err, set_current (Some []) (headerOK r) r, e).
Proof.
  assert (forall c : bytes, skips (match c with [] => EOF | _ => ErrUnexpectedEOF end)) as Hs
    by (intros []; [by left|by right]).
  intros Hc Hj; unfold readOneEntry.
  destruct (le_lt_dec 4 (length junk)) as [H4|H4].
  2:{ erewrite bind_run by (by apply ReadFull_short). eexists; split; [apply Hs|reflexivity]. }
  destruct Hj as [->|(entry & frame & n & (body & -> & Hl & _) & -> & Hn)]; [simpl in H4; lia|].
  rewrite length_app, be32_length in Hn; rewrite length_firstn in H4.
  assert (firstn n (be32 (llen body) ++ body) = be32 (llen body) ++ firstn (n - 4) body)%list as E.
  { rewrite firstn_app, be32_length, firstn_all2 by (rewrite be32_length; lia); done. }
  rewrite E in Hc; erewrite bind_run by (apply ReadFull_ok; [exact Hc|apply be32_length]).
  cbn beta iota; rewrite be32_get_be32, (proj2 (Z.ltb_ge _ _)) by lia.
  erewrite bind_run by (apply ReadFull_short; [reflexivity|rewrite length_firstn; unfold llen; lia]).
  eexists; split; [apply Hs|reflexivity].
Qed.

(** ** The entries a reader has yet to return *)
Definition rest_holds (r : Reader) (ess : list (list Entry)) : Prop :=
  Forall2 (fun s es => exists f, r_files r !! snd s = Some f /\ seg_holds f es)
    (drop (segIndex r) (segments r)) ess.
Definition closed_at (r : Reader) (ess : list (list Entry)) : Prop :=
  r_cipher r = cipher /\ startAt r = 0 /\ current r = None /\ rest_holds r ess.
Definition open_at (r : Reader) (es : list Entry) (ess : list (list Entry)) : Prop :=
  r_cipher r = cipher /\ startAt r = 0 /\ headerOK r = true /\ (1 <= segIndex r <= length (segments r))%nat /\
  rest_holds r ess /\
  exists frames junk, current r = Some (concat frames ++ junk)%list /\ Forall2 good es frames /\
    (junk = [] \/ torn junk).
Definition remaining (r : Reader) (es : list Entry) : Prop :=
  (exists ess, es = concat ess /\ closed_at r ess) \/
  (exists es0 ess, es = (es0 ++ concat ess)%list /\ open_at r es0 ess).

(** The outcome of reading when the entries [es] are left. *)
Definition next (es : list Entry) (e : env) (x : Res Entry * Reader * env) : Prop :=
  match es with
  | [] => exists r', x = (Err EOF, r', e)
  | e1 :: es' => exists r', x = (Ok e1, r', e) /\ remaining r' es'
  end.

Lemma openNextSegment_holds r e i path f es :
  current r = None -> startAt r = 0 -> segments r !! segIndex r = Some (i, path) ->
  r_files r !! path = Some f -> seg_holds f es ->
  exists frames junk, Forall2 good es frames /\ (junk = [] \/ torn junk) /\
    openNextSegment r e =
      (None, MkReader (r_files r) (r_cipher r) (segments r) (S (segIndex r))
               (Some (MagicBytes ++ (concat frames ++ junk))%list) 0 false, e).
Proof.
  intros Hc Hs Hseg Hf Hh; unfold openNextSegment, bind, upd_st, get_st, put_st, closeCurrent, set_current.
  cbn [segments segIndex r_files r_cipher startAt]; rewrite Hseg, Hf; cbn [default id]; rewrite Hs.
  destruct Hh as [frames Hg ->|frames junk n Hg Hj -> Hv].
  - exists frames, []; split_ands; [done|by left|].
    rewrite verify_closed; cbn [andb].
    rewrite (proj2 (Z.ltb_ge _ _))
      by (unfold seg_data, llen, MagicBytesSize; rewrite length_app; cbn; lia).
    unfold closed_seg, llen; rewrite Nat2Z.id, firstn_app, Nat.sub_diag, firstn_all, firstn_0, !app_nil_r.
    reflexivity.
  - exists frames, junk; split_ands; [done..|].
    rewrite Hv; unfold llen; rewrite Nat2Z.id, firstn_all; cbn [andb].
    unfold seg_data; rewrite <- app_assoc; reflexivity.
Qed.

Lemma header_ok r e c :
  current r = Some (MagicBytes ++ c)%list ->
  readAndValidateHeader r e = (None, set_current (Some c) true r, e).
Proof.
  intros Hc; unfold readAndValidateHeader.
  erewrite bind_run by (apply ReadFull_ok; [exact Hc|reflexivity]); cbn beta iota.
  rewrite bool_decide_true by done; reflexivity.
Qed.

(** Reading from a segment just opened is reading past its header. *)
Lemma read_loop_open fuel r e r1 c :
  current r = None -> openNextSegment r e = (None, r1, e) ->
  current r1 = Some (MagicBytes ++ c)%list -> headerOK r1 = false -> startAt r1 = 0 ->
  read_loop (S fuel) r e = read_loop (S fuel) (set_current (Some c) true r1) e.
Proof.
  intros Hc Ho H1 H2 H3; cbn [read_loop].
  erewrite bind_run by reflexivity; rewrite Hc; cbn beta iota.
  erewrite bind_run by exact Ho; cbn beta iota.
  erewrite bind_run by reflexivity; rewrite H2, H3; cbn [negb andb Z.eqb].
  erewrite bind_run by (by apply header_ok); cbn beta iota; reflexivity.
Qed.

(** An open segment yields its entries, then gives way to the next one. *)
Lemma read_loop_entries fuel r e es ess :
  open_at r es ess ->
  (forall r', closed_at r' ess -> next (concat ess) e (read_loop fuel r' e)) ->
  next (es ++ concat ess) e (read_loop (S fuel) r e).
Proof.
  intros (Hk & Hs & Hh & Hi & Hr & frames & junk & Hc & Hg & Hj) Hnext; cbn [read_loop].
  erewrite bind_run by reflexivity; rewrite Hc; cbn beta iota.
  erewrite bind_run by reflexivity; cbn beta iota.
  erewrite bind_run by reflexivity; rewrite Hh; cbn [negb andb].
  erewrite bind_run by reflexivity; cbn beta iota.
  destruct Hg as [|e1 f1 es frames Hg1 Hg]; cbn [concat app] in *.
  - destruct (readOneEntry_torn (set_current (current r) true r) e junk) as (err & Herr & E);
      [by rewrite Hc|done|].
    erewrite bind_run by exact E; cbn beta iota.
    destruct Herr as [-> | ->]; apply Hnext; unfold closed_at; split_ands; first [done | exact Hr].
  - rewrite <- app_assoc in Hc.
    erewrite bind_run by (apply (readOneEntry_ok _ _ f1 (concat frames ++ junk)%list e1); [by rewrite Hc|done..]).
    cbn beta iota; eexists; split; [reflexivity|].
    right; exists es, ess; split; [done|].
    unfold open_at; split_ands; first [done | exact Hr | apply Hi | by exists frames, junk].
Qed.

Lemma read_loop_closed ess : forall fuel r e, closed_at r ess -> (length ess < fuel)%nat ->
  next (concat ess) e (read_loop fuel r e).
Proof.
  induction ess as [|es ess IH]; intros [|fuel] r e (Hk & Hs & Hc & Hr) Hfuel; try (simpl in Hfuel; lia).
  - apply Forall2_nil_inv_r in Hr; eexists; cbn [read_loop].
    erewrite bind_run by reflexivity; rewrite Hc; cbn beta iota.
    assert (openNextSegment r e = (Some EOF, closeCurrent r, e)) as Ho.
    { unfold openNextSegment; erewrite bind_run by reflexivity; erewrite bind_run by reflexivity.
      unfold closeCurrent, set_current; cbn [segments segIndex].
      assert (segments r !! segIndex r = None) as ->; [|reflexivity].
      rewrite <- (Nat.add_0_r (segIndex r)), <- lookup_drop, Hr; done. }
    erewrite bind_run by exact Ho; reflexivity.
  - apply Forall2_cons_inv_r in Hr as ([i path] & segs & (f & Hf & Hh) & Hr & Hd).
    assert (segments r !! segIndex r = Some (i, path)) as Hseg
      by (rewrite <- (Nat.add_0_r (segIndex r)), <- lookup_drop, Hd; done).
    assert (drop (S (segIndex r)) (segments r) = segs) as Hd'
      by (rewrite <- Nat.add_1_r, <- drop_drop, Hd; done).
    destruct (openNextSegment_holds r e i path f es Hc Hs Hseg Hf Hh) as (frames & junk & Hg & Hj & Ho).
    rewrite (read_loop_open fuel r e _ (concat frames ++ junk) Hc Ho) by done.
    apply read_loop_entries.
    + assert (length (drop (segIndex r) (segments r)) <> 0)%nat as Hn by (by rewrite Hd).
      rewrite length_drop in Hn.
      unfold open_at; split_ands; try done; [simpl; lia..| |by exists frames, junk].
      unfold rest_holds; cbn [segIndex segments r_files set_current]; by rewrite Hd'.
    + intros r' Hr'; apply IH; [done|simpl in Hfuel; lia].
Qed.

Lemma rest_length r ess : rest_holds r ess -> length ess = (length (segments r) - segIndex r)%nat.
Proof. intros H%Forall2_length; by rewrite length_drop in H. Qed.

(** [Read] returns the next of the entries left, or the end of the log. *)
Lemma read_next r es e : remaining r es -> next es e (Read r e).
Proof.
  intros Hr; unfold Read; erewrite bind_run by reflexivity.
  destruct Hr as [(ess & -> & H)|(es0 & ess & -> & H)].
  - apply read_loop_closed; [done|]. destruct H as (_ & _ & _ & Hl%rest_length); lia.
  - apply read_loop_entries; [done|]. intros r' Hr'; apply read_loop_closed; [done|].
    destruct H as (_ & _ & _ & Hi & Hl%rest_length & _); lia.
Qed.

Lemma readall_remaining es : forall fuel out r e, remaining r es -> (length es < fuel)%nat ->
  exists r', readall_loop fuel out r e = (Ok (out ++ es)%list, r', e).
Proof.
  induction es as [|e1 es IH]; intros [|fuel] out r e Hr Hfuel; try (simpl in Hfuel; lia);
    pose proof (read_next r _ e Hr) as Hn; cbn [readall_loop].
  - destruct Hn as [r' Hn]; erewrite bind_run by exact Hn; exists r'; by rewrite app_nil_r.
  - destruct Hn as (r' & Hn & Hr'); erewrite bind_run by exact Hn; cbn beta iota.
    destruct (IH fuel (out ++ [e1])%list r' e Hr') as [r'' E]; [simpl in Hfuel; lia|].
    exists r''; by rewrite E, <- app_assoc.
Qed.

(** ** Whole logs *)
Lemma seg_holds_length f es : seg_holds f es -> (length es <= length f)%nat.
Proof.
  assert (forall es frames, Forall2 good es frames -> (length es <= length (concat frames))%nat) as H.
  { induction 1 as [|e1 f1 es1 frames Hg _ IH]; cbn [concat length]; [lia|].
    apply good_length in Hg; rewrite length_app; lia. }
  intros [frames Hg ->|frames junk n Hg _ -> _]; apply H in Hg;
    unfold closed_seg, seg_data; rewrite !length_app; lia.
Qed.

Lemma total_bytes_insert (d : Dir) k f : d !! k = None -> total_bytes (<[k := f]> d) = (length f + total_bytes d)%nat.
Proof.
  intros Hd; unfold total_bytes.
  transitivity (foldr (fun (kv : string * bytes) n => (length (snd kv) + n)%nat) 0%nat
    ((k, f) :: map_to_list d)); [|reflexivity].
  assert (forall l l' : list (string * bytes), l ≡ₚ l' ->
    foldr (fun kv n => (length (snd kv) + n)%nat) 0%nat l =
    foldr (fun kv n => (length (snd kv) + n)%nat) 0%nat l') as H
    by (induction 1; cbn; lia).
  by apply H, map_to_list_insert.
Qed.

Lemma holds_total i l ess : 0 <= i -> i + llen l <= two64 ->
  Forall2 seg_holds l ess -> (length (concat ess) <= total_bytes (dir_of i l))%nat.
Proof.
  unfold llen; intros Hi Hb H; revert i Hi Hb; induction H as [|f es l ess Hf _ IH];
    intros i Hi Hb; cbn [concat dir_of length] in *; [lia|].
  rewrite length_app, total_bytes_insert by (apply dir_of_fresh; unfold llen; lia).
  apply seg_holds_length in Hf; specialize (IH (i + 1)); lia.
Qed.

Lemma total_bytes_dir i l j f : 0 <= i -> i + llen l <= two64 -> l !! j = Some f ->
  (length f <= total_bytes (dir_of i l))%nat.
Proof.
  unfold llen; revert i j; induction l as [|g l IH]; intros i j Hi Hb Hj; [done|].
  cbn [dir_of length] in *; rewrite total_bytes_insert by (apply dir_of_fresh; unfold llen; lia).
  destruct j as [|j]; [injection Hj as ->; lia|].
  specialize (IH (i + 1) j ltac:(lia) ltac:(lia) Hj); lia.
Qed.

Lemma rest_holds_dir (d : Dir) i l ess :
  0 <= i -> i + llen l <= two64 -> Forall2 seg_holds l ess ->
  (forall j f, l !! j = Some f -> d !! formatSegmentFilename (i + Z.of_nat j) = Some f) ->
  Forall2 (fun s es => exists f, d !! snd s = Some f /\ seg_holds f es) (numbered i l) ess.
Proof.
  unfold llen; intros Hi Hb H; revert i Hi Hb; induction H as [|f es l ess Hf _ IH];
    intros i Hi Hb Hd; cbn [numbered length] in *; constructor.
  - exists f; split; [|done]. specialize (Hd 0%nat f eq_refl); by rewrite Z.add_0_r in Hd.
  - apply IH; [lia..|]. intros j g Hj; specialize (Hd (S j) g Hj).
    by replace (i + 1 + Z.of_nat j) with (i + Z.of_nat (S j)) by lia.
Qed.

Lemma reader_start i l ess :
  0 <= i -> i + llen l <= two64 -> Forall2 seg_holds l ess ->
  remaining (NewReader (dir_of i l) cipher) (concat ess).
Proof.
  intros Hi Hb Hl; left; exists ess; split; [done|]; unfold closed_at; split_ands; try done.
  unfold rest_holds, NewReader; cbn [segments segIndex r_files].
  rewrite scan_dir_of, drop_0 by done; apply rest_holds_dir; [done..|].
  intros j f Hj; pose proof (lookup_lt_Some _ _ _ Hj).
  rewrite dir_of_lookup by (unfold llen in *; lia).
  rewrite (proj2 (Z.leb_le _ _)), (proj2 (Z.ltb_lt _ _)) by (unfold llen; lia).
  by replace (Z.to_nat (i + Z.of_nat j - i)) with j by lia.
Qed.

(** A fresh reader returns everything the segments hold, in order. *)
Lemma readall_dir i l ess e :
  0 <= i -> i + llen l <= two64 -> Forall2 seg_holds l ess ->
  exists r', ReadAll (NewReader (dir_of i l) cipher) e = (Ok (concat ess), r', e).
Proof.
  intros Hi Hb Hl; unfold ReadAll; erewrite bind_run by reflexivity.
  destruct (readall_remaining (concat ess) (S (total_bytes (dir_of i l))) []
    (NewReader (dir_of i l) cipher) e) as [r' E]; [by apply reader_start| |by exists r'].
  pose proof (holds_total i l ess Hi Hb Hl); lia.
Qed.
End Reader.
