(* ===== verification/WalWriteFacts.v ===== *)
(** The writer's invariant: what is on disk, and what is still buffered. *)

From Stdlib Require Import Ascii String.
From stdpp Require Import list strings gmap fin_maps.
From S2P Require Import Prelude Errors GoStrings Strconv Encoding Token Session WalCodec.
From S2P Require Import WalCodecSpec WalLog WalLogFacts WalReadFacts.

Open Scope Z_scope.

Section Writer.
Context (cipher : option Cipher) (Hcipher : cipher_ok cipher).

(** The writer [w] holds the log whose segments start at number [i]: the
    entries [es] are in its files, [pend] in its buffer, and [k] more segments
    can be opened before the numbers run out. *)
Definition holds (i k : Z) (w : Writer) (es pend : list Entry) : Prop :=
  exists pre ess frames cur,
    Forall2 (seg_holds cipher) pre ess /\ Forall2 (good cipher) cur frames /\
    Forall2 (good cipher) pend (buffer w) /\
    files w = dir_of i (pre ++ [seg_data frames]) /\
    segmentID w = i + llen pre /\ file w = Some (formatSegmentFilename (segmentID w)) /\
    hash w = seg_data frames /\ fileSize w = llen (seg_data frames) /\
    es = (concat ess ++ cur)%list /\ CfgCipher (cfg w) = cipher /\
    1 <= i /\ 0 <= k /\ i + llen pre + k < two64.

Lemma holds_weaken i k k' w es pend : holds i k w es pend -> 0 <= k' <= k -> holds i k' w es pend.
Proof.
  intros (pre & ess & frames & cur & H) Hk; exists pre, ess, frames, cur.
  decompose [and] H; split_ands; auto; lia.
Qed.

Lemma llen_snoc {A} (l : list A) x : llen (l ++ [x]) = llen l + 1.
Proof. unfold llen; rewrite length_app; simpl; lia. Qed.

Lemma Forall2_snoc {A B} (R : A -> B -> Prop) l l' x y :
  Forall2 R l l' -> R x y -> Forall2 R (l ++ [x]) (l' ++ [y]).
Proof. intros H Hxy; apply Forall2_app; auto. Qed.

(** Rotation closes the current segment and opens an empty one. *)
Lemma finalize_holds i k w es pend e :
  holds i k w es pend -> exists w',
    finalizeSegmentWithoutFlushingLocked w e = (None, w', e) /\
    exists pre ess, Forall2 (seg_holds cipher) pre ess /\ es = concat ess /\
      files w' = dir_of i pre /\ llen pre = segmentID w - i + 1 /\
      (exists pre' frames, pre = pre' ++ [closed_seg frames])%list /\
      segmentID w' = segmentID w /\ buffer w' = buffer w /\ cfg w' = cfg w /\ closed w' = closed w /\
      segmentEntries w' = segmentEntries w.
Proof.
  intros (pre & ess & frames & cur & Hpre & Hcur & Hpend & Hf & Hid & Hfile & Hh & Hsz & -> & _ & Hi & Hk & Hb).
  unfold finalizeSegmentWithoutFlushingLocked, bind, get_st, put_st, ret; rewrite Hfile, Hf, Hid, Hh.
  eexists; split; [reflexivity|]; exists (pre ++ [closed_seg frames])%list, (ess ++ [cur])%list; cbn [files
    segmentID buffer cfg closed segmentEntries].
  split_ands; auto.
  - apply Forall2_snoc; [done|by eapply holds_closed].
  - by rewrite concat_app; cbn [concat]; rewrite app_nil_r.
  - assert (dir_of i (pre ++ [seg_data frames]) !! formatSegmentFilename (i + llen pre) =
      Some (seg_data frames)) as -> by (rewrite dir_of_snoc by lia; apply lookup_insert_eq).
    by rewrite dir_of_update by lia.
  - rewrite llen_snoc; lia.
  - by exists pre, frames.
Qed.

Lemma openNewSegment_holds i k (pre : list bytes) ess pend w e :
  Forall2 (seg_holds cipher) pre ess -> files w = dir_of i pre -> segmentID w = i + llen pre ->
  Forall2 (good cipher) pend (buffer w) -> CfgCipher (cfg w) = cipher ->
  1 <= i -> 0 <= k -> i + llen pre + k < two64 ->
  exists w', openNewSegment w e = (None, w', e) /\ holds i k w' (concat ess) pend /\
    buffer w' = buffer w /\ cfg w' = cfg w /\ closed w' = closed w.
Proof.
  intros Hpre Hf Hid Hpend Hc Hi Hk Hb.
  unfold openNewSegment, writeLocked, bind, get_st, put_st, ret; cbn [file files cfg segmentID fileSize
    segmentEntries hash buffer bufferBytes closed].
  eexists; split; [reflexivity|]; split; [|done].
  exists pre, ess, [], []; cbn [file files cfg segmentID fileSize hash buffer].
  split_ands; auto; [|by rewrite app_nil_r].
  rewrite lookup_insert_eq, insert_insert_eq, Hf, Hid, dir_of_snoc by lia; reflexivity.
Qed.

Lemma writeLocked_holds i k w es pend e (bs : list bytes) es' :
  holds i k w es pend -> Forall2 (good cipher) es' bs ->
  exists w', writeLocked (concat bs) w e = (None, w', e) /\ holds i k w' (es ++ es') pend /\
    buffer w' = buffer w /\ cfg w' = cfg w /\ closed w' = closed w /\ segmentID w' = segmentID w.
Proof.
  intros (pre & ess & frames & cur & Hpre & Hcur & Hpend & Hf & Hid & Hfile & Hh & Hsz & -> & Hc & Hi & Hk & Hb) Hbs.
  unfold writeLocked, bind, get_st, put_st, ret; rewrite Hfile; eexists; split; [reflexivity|].
  split; [|done].
  exists pre, ess, (frames ++ bs)%list, (cur ++ es')%list; cbn [file files cfg segmentID fileSize hash buffer].
  assert (seg_data frames ++ concat bs = seg_data (frames ++ bs))%list as Ed
    by (unfold seg_data; by rewrite concat_app, app_assoc).
  split_ands; auto; try lia.
  - by apply Forall2_app.
  - rewrite Hf, Hid.
    assert (dir_of i (pre ++ [seg_data frames]) !! formatSegmentFilename (i + llen pre) =
      Some (seg_data frames)) as -> by (rewrite dir_of_snoc by lia; apply lookup_insert_eq).
    cbn [default id]; rewrite Ed; by apply dir_of_update; lia.
  - by rewrite Hh.
  - rewrite Hsz, <- Ed; unfold llen; rewrite length_app; lia.
  - by rewrite app_assoc.
Qed.

(** ** The operations *)
Lemma concat_good es frames : Forall2 (good cipher) es frames -> llen es = llen frames.
Proof. intros H%Forall2_length; unfold llen; by rewrite H. Qed.

Definition same_config (w w' : Writer) : Prop := cfg w' = cfg w /\ closed w' = closed w.

Lemma flush_holds i k w es pend e :
  holds i (k + 1) w es pend -> 0 <= k ->
  exists w', flushLocked w e = (None, w', e) /\ holds i k w' (es ++ pend)%list [] /\ buffer w' = [] /\
    same_config w w'.
Proof.
  intros Hw Hk; assert (Forall2 (good cipher) pend (buffer w)) as Hpend
    by (destruct Hw as (? & ? & ? & ? & H); decompose [and] H; done).
  unfold flushLocked; erewrite bind_run by reflexivity.
  destruct (Z.eqb_spec (llen (buffer w)) 0) as [E0|_].
  { unfold llen in E0; assert (buffer w = []) as Eb by (destruct (buffer w); [done|simpl in E0; lia]).
    rewrite Eb in Hpend; apply Forall2_nil_inv_r in Hpend as ->; rewrite app_nil_r.
    exists w; split; [reflexivity|]; split; [eapply holds_weaken; [done|lia]|done]. }
  assert (exists f, file w = Some f) as [f Ef]
    by (destruct Hw as (? & ? & ? & ? & H); decompose [and] H; eauto).
  assert (exists w1, (if (MaxFileSize (cfg w) <? fileSize w + llen (concat (buffer w))) ||
               (MaxEntryCount (cfg w) <? segmentEntries w + llen (buffer w))
             then err <- finalizeSegmentWithoutFlushingLocked ;;
                  match err with
                  | Some err => ret (Some err)
                  | None => upd_st (fun w => set_segment (u64 (segmentID w + 1)) w) ;;; openNewSegment
                  end
             else ret None) w e = (None, w1, e) /\ holds i k w1 es pend /\ buffer w1 = buffer w /\
             same_config w w1) as (w1 & Hrot & Hw1 & Hb1 & Hc1).
  { destruct (_ || _); [|exists w; split_ands; try done; eapply holds_weaken; [done|lia]].
    destruct (finalize_holds _ _ _ _ _ e Hw) as (w1 & E1 & pre & ess & Hpre & -> & Hf & Hl & _ & Hid & Hb & Hc & Hcl & _).
    erewrite bind_run by exact E1; cbn beta iota; erewrite bind_run by reflexivity.
    destruct Hw as (pre0 & ess0 & frames & cur & H); decompose [and] H.
    destruct (openNewSegment_holds i k pre ess pend (set_segment (u64 (segmentID w1 + 1)) w1) e)
      as (w2 & E2 & Hw2 & Hb2 & Hc2 & Hcl2); cbn [files segmentID buffer cfg set_segment]; try done; try lia.
    - rewrite u64_id by (unfold llen in *; lia); lia.
    - by rewrite Hb.
    - by rewrite Hc.
    - exists w2; split_ands; try done; [by rewrite Hb2|]. split; [by rewrite Hc2|by rewrite Hcl2]. }
  rewrite Ef; erewrite bind_run by exact Hrot; cbn beta iota.
  destruct (writeLocked_holds i k w1 es pend e (buffer w) pend Hw1 Hpend) as (w2 & E2 & Hw2 & Hb2 & Hc2 & Hcl2 & _).
  erewrite bind_run by exact E2; cbn beta iota; erewrite bind_run by reflexivity.
  eexists; split; [reflexivity|].
  destruct Hw2 as (pre & ess & frames & cur & H); decompose [and] H.
  split_ands; [|done|split; cbn; [rewrite Hc2|rewrite Hcl2]; apply Hc1].
  exists pre, ess, frames, cur; unfold set_buffer, add_entries; cbn [files segmentID buffer cfg file hash fileSize].
  split_ands; auto.
Qed.

(** What makes an entry encodable: values in range and a frame under 4 GiB. *)
Definition loggable (x : Entry) : Prop :=
  entry_ok x /\ forall (w w' : Writer) e e' frame,
    encodeEntryFrame x cipher w e = (Ok frame, w', e') -> llen frame < 2 ^ 32.

Lemma encode_state {S} x (w w' : S) e e' r : encodeEntryFrame x cipher w e = (r, w', e') ->
  w' = w /\ (rnd_ok e -> rnd_ok e').
Proof.
  unfold encodeEntryFrame, Encrypt, bind, rand_read, ret.
  repeat (case_match; simplify_eq; try done).
  all: intros; simplify_eq; split; [done|]; intros Hr n l b Hb; apply (Hr _ _ _ Hb).
Qed.

Lemma append_holds i k w es pend x e r w' e' :
  holds i (k + 1) w es pend -> 0 <= k -> closed w = false -> rnd_ok e -> loggable x ->
  Append x w e = (r, w', e') ->
  same_config w w' /\ rnd_ok e' /\ exists es' pend', holds i k w' es' pend' /\
    (es' ++ pend' = es ++ pend ++ match r with None => [wire_entry x] | Some _ => [] end)%list.
Proof.
  intros Hw Hk Hcl Hrnd [Hx Hsmall]; unfold Append; erewrite bind_run by reflexivity; rewrite Hcl.
  assert (CfgCipher (cfg w) = cipher) as -> by (destruct Hw as (? & ? & ? & ? & H); decompose [and] H; done).
  destruct (encodeEntryFrame x cipher w e) as [[[frame|err] w1] e1] eqn:Ee;
    destruct (encode_state _ _ _ _ _ _ Ee) as [-> Hr1]; specialize (Hr1 Hrnd);
    erewrite bind_run by exact Ee; cbn beta iota.
  2:{ intros [= <- <- <-]; split; [by split|]. split; [done|]; exists es, pend; split; [|by rewrite app_nil_r].
      eapply holds_weaken; [exact Hw|lia]. }
  destruct (frame_ok x cipher w w e e1 frame Hx Hcipher Hrnd Ee (Hsmall _ _ _ _ _ Ee))
    as (body & -> & Hlen & _ & Hdec).
  set (frame := (be32 (llen body) ++ body)%list).
  set (w1 := set_buffer (buffer w ++ [frame]) (bufferBytes w + llen frame) w).
  assert (holds i (k + 1) w1 es (pend ++ [wire_entry x])) as Hw1.
  { destruct Hw as (pre & ess & frames & cur & H); decompose [and] H.
    exists pre, ess, frames, cur; split_ands; try done.
    apply Forall2_snoc; [done|]. by exists body. }
  erewrite bind_run by reflexivity; erewrite bind_run by reflexivity; fold w1.
  destruct (_ || _).
  - destruct (flush_holds i k w1 es _ e1 Hw1 Hk) as (w2 & E2 & Hw2 & Hb2 & Hc2); rewrite E2.
    intros [= <- <- <-]; split; [exact Hc2|]; split; [done|].
    eexists _, []; split; [exact Hw2|by rewrite app_nil_r].
  - intros [= <- <- <-]; split; [done|]; split; [done|].
    exists es, (pend ++ [wire_entry x])%list; split; [eapply holds_weaken; [exact Hw1|lia]|done].
Qed.

Lemma close_holds i k w es pend e :
  holds i (k + 1) w es pend -> 0 <= k -> closed w = false ->
  exists w' pre ess, Close w e = (None, w', e) /\ files w' = dir_of i pre /\
    Forall2 (seg_holds cipher) pre ess /\ concat ess = (es ++ pend)%list /\
    (exists pre' frames, pre = pre' ++ [closed_seg frames])%list /\ i + llen pre + k <= two64.
Proof.
  intros Hw Hk Hcl; unfold Close; erewrite bind_run by reflexivity; rewrite Hcl.
  erewrite bind_run by reflexivity; erewrite bind_run by reflexivity.
  assert (holds i (k + 1) (set_closed w) es pend) as Hw1
    by (destruct Hw as (pre & ess & frames & cur & H); by exists pre, ess, frames, cur).
  assert (exists f, file (set_closed w) = Some f) as [f Ef]
    by (destruct Hw1 as (? & ? & ? & ? & H); decompose [and] H; eauto).
  rewrite Ef; unfold finalizeSegmentLocked.
  destruct (flush_holds i k _ _ _ e Hw1 Hk) as (w2 & E2 & Hw2 & _).
  erewrite bind_run by exact E2; cbn beta iota; erewrite bind_run by reflexivity.
  assert (exists f, file w2 = Some f) as [f2 Ef2]
    by (destruct Hw2 as (? & ? & ? & ? & H); decompose [and] H; eauto).
  rewrite Ef2; destruct (finalize_holds _ _ _ _ _ e Hw2)
    as (w3 & E3 & pre & ess & Hpre & Hes & Hf & Hl & Hlast & _).
  exists w3, pre, ess; rewrite E3; split_ands; try done.
  destruct Hw2 as (pre0 & ess0 & fr & cur & H); decompose [and] H; unfold llen in *; lia.
Qed.

(** ** Opening *)

(** A directory the writer continues, with the entries it holds: no segment
    yet, a finalised last segment, or one that was never finalised but ends in
    a whole frame. *)
Inductive resumable (i : Z) : Dir -> list Entry -> Prop :=
| resume_new : i = 1 -> resumable i ∅ []
| resume_closed pre ess frames cur :
    Forall2 (seg_holds cipher) pre ess -> Forall2 (good cipher) cur frames ->
    resumable i (dir_of i (pre ++ [closed_seg frames])) (concat ess ++ cur)
| resume_open pre ess frames cur n :
    Forall2 (seg_holds cipher) pre ess -> Forall2 (good cipher) cur frames ->
    verifyChecksumTrailer (seg_data frames) = Ok (false, n) ->
    resumable i (dir_of i (pre ++ [seg_data frames])) (concat ess ++ cur).

Lemma numbered_snoc i l f : numbered i (l ++ [f]) = (numbered i l ++ [(i + llen l, formatSegmentFilename (i + llen l))])%list.
Proof.
  unfold llen; revert i; induction l as [|g l IH]; intros i; cbn [numbered app length].
  - by rewrite Z.add_0_r.
  - rewrite IH; by replace (i + 1 + Z.of_nat (length l)) with (i + Z.of_nat (S (length l))) by lia.
Qed.

Lemma findLatest_snoc i l f closed n :
  0 <= i -> i + llen l < two64 -> verifyChecksumTrailer f = Ok (closed, n) ->
  findLatestSegment (dir_of i (l ++ [f])) = Ok (i + llen l, formatSegmentFilename (i + llen l), closed).
Proof.
  intros Hi Hb Hv; unfold findLatestSegment.
  rewrite scan_dir_of, numbered_snoc, last_snoc by (rewrite ?llen_snoc; lia).
  by rewrite dir_of_snoc, lookup_insert_eq by lia; cbn [default id]; rewrite Hv.
Qed.

Lemma verify_open f n : verifyChecksumTrailer f = Ok (false, n) -> n = llen f.
Proof. unfold verifyChecksumTrailer; repeat case_match; intros; by simplify_eq. Qed.

Lemma NewWriter_resumes i k c d es e :
  resumable i d es -> Dir_ c <> "" -> CfgCipher c = cipher -> 1 <= i -> 0 <= k ->
  (forall l, d = dir_of i l -> i + llen l + k < two64) -> i + k < two64 ->
  exists w, NewWriter c d e = (Ok w, e) /\ closed w = false /\ buffer w = [] /\ holds i k w es [].
Proof.
  intros Hd Hdir Hc Hi Hk Hb Hb0; unfold NewWriter; rewrite (proj2 (String.eqb_neq _ _)) by done.
  assert (forall pre ess id, Forall2 (seg_holds cipher) pre ess -> id = i + llen pre -> 0 <= i + llen pre -> i + llen pre + k < two64 ->
    exists w, (let '(r, w', e') := openNewSegment (MkWriter (dir_of i pre) (applyDefaults c) (u64 id) None 0 0 [] [] 0 false) e in
      (match r with Some err => Err err | None => Ok w' end, e')) = (Ok w, e) /\
      closed w = false /\ buffer w = [] /\ holds i k w (concat ess) []) as Hnew.
  { intros pre ess id Hpre -> H0 Hb1; rewrite u64_id by lia.
    destruct (openNewSegment_holds i k pre ess []
      (MkWriter (dir_of i pre) (applyDefaults c) (i + llen pre) None 0 0 [] [] 0 false) e)
      as (w & E & Hw & Hb2 & _ & Hcl); try done.
    rewrite E; eauto. }
  destruct Hd as [->|pre ess frames cur Hpre Hcur|pre ess frames cur n Hpre Hcur Hv].
  - destruct (Hnew [] [] (0 + 1)) as (w & E & H); [constructor|by cbn..|].
    exists w; split; [|done]. unfold findLatestSegment, scanSegments; rewrite map_to_list_empty; exact E.
  - specialize (Hb _ eq_refl); rewrite llen_snoc in Hb.
    rewrite (findLatest_snoc i pre _ _ _ ltac:(lia) ltac:(lia) (verify_closed frames)), orb_true_r.
    destruct (Hnew (pre ++ [closed_seg frames])%list (ess ++ [cur])%list (i + llen pre + 1)) as (w & E & H1 & H2 & H3);
      [apply Forall2_snoc; [done|by eapply holds_closed]|rewrite llen_snoc; unfold llen in *; lia..|].
    rewrite concat_app in H3; cbn [concat] in H3; rewrite app_nil_r in H3.
    exists w; split; [exact E|done].
  - specialize (Hb _ eq_refl); rewrite llen_snoc in Hb.
    rewrite (findLatest_snoc i pre _ _ _ ltac:(lia) ltac:(lia) Hv), orb_false_r.
    rewrite (proj2 (Z.eqb_neq _ _)) by (unfold llen in *; lia).
    unfold openExistingOpenSegment, bind, get_st, put_st, ret; cbn [files].
    rewrite dir_of_snoc, lookup_insert_eq by (unfold llen in *; lia); cbn [default id].
    rewrite (proj2 (Z.ltb_ge _ _)) by (unfold seg_data, llen, MagicBytesSize; rewrite length_app; cbn; lia).
    assert (firstn 8 (seg_data frames) = MagicBytes) as -> by reflexivity.
    rewrite bool_decide_true, Hv by done; cbn [negb].
    eexists; split; [reflexivity|]; split; [done|]; split; [done|].
    apply verify_open in Hv as ->; exists pre, ess, frames, cur; cbn [files segmentID buffer cfg file hash fileSize].
    assert (firstn (Z.to_nat (llen (seg_data frames))) (seg_data frames) = seg_data frames) as ->
      by (unfold llen; by rewrite Nat2Z.id, firstn_all).
    split_ands; auto; try lia. by rewrite dir_of_snoc by (unfold llen in *; lia).
Qed.

(** A directory a reader can read, torn or not: opening a writer on it at most
    adds an empty segment. *)
Inductive readable (i : Z) : Dir -> list Entry -> Prop :=
| readable_new : i = 1 -> readable i ∅ []
| readable_dir l f ess : Forall2 (seg_holds cipher) (l ++ [f]) ess ->
    1 <= i -> i + llen (l ++ [f]) + 1 < two64 -> readable i (dir_of i (l ++ [f])) (concat ess).

Lemma open_new_files i pre c e : 1 <= i -> i + llen pre < two64 ->
  exists w, openNewSegment (MkWriter (dir_of i pre) (applyDefaults c) (i + llen pre) None 0 0 [] [] 0 false) e =
    (None, w, e) /\ files w = dir_of i (pre ++ [MagicBytes]).
Proof.
  intros Hi Hb; unfold openNewSegment, writeLocked, bind, get_st, put_st, ret; cbn [file files segmentID].
  eexists; split; [reflexivity|]; cbn [files].
  rewrite lookup_insert_eq, insert_insert_eq, dir_of_snoc by lia; reflexivity.
Qed.

Lemma NewWriter_files i c d es e :
  readable i d es -> Dir_ c <> "" ->
  exists w l ess, NewWriter c d e = (Ok w, e) /\ files w = dir_of i l /\ i + llen l <= two64 /\
    Forall2 (seg_holds cipher) l ess /\ concat ess = es /\ 1 <= i.
Proof.
  intros Hd Hdir; unfold NewWriter; rewrite (proj2 (String.eqb_neq _ _)) by done.
  assert (seg_holds cipher MagicBytes []) as Hempty by (eapply (holds_open _ _ _ [] []); [constructor|by left|done|reflexivity]).
  destruct Hd as [->|l f ess Hl Hi Hb].
  - destruct (open_new_files 1 [] c e) as (w & E & Hw); [lia|by vm_compute|].
    exists w, [MagicBytes], [[]]; split_ands; [|done|by vm_compute|by constructor|done|done].
    unfold findLatestSegment, scanSegments; rewrite map_to_list_empty; cbn [omap list_omap last orb Z.eqb].
    transitivity (let '(r, w', e') := openNewSegment (MkWriter (dir_of 1 []) (applyDefaults c)
      (1 + llen (@nil bytes)) None 0 0 [] [] 0 false) e in
      (match r with Some err => Err err | None => Ok w' end, e')); [reflexivity|by rewrite E].
  - rewrite llen_snoc in Hb; assert (0 <= llen l) by (unfold llen; lia).
    pose proof Hl as (ess' & [|cur [|? ?]] & _ & Hf & _)%Forall2_app_inv_l; try (by inversion Hf);
      [|by inversion Hf as [|? ? ? ? ? Hf']; inversion Hf'].
    apply Forall2_cons_1 in Hf as [Hf _]; destruct Hf as [frames _ ->|frames junk n _ _ Ef Hv].
    + rewrite (findLatest_snoc i l _ _ _ ltac:(lia) ltac:(lia) (verify_closed frames)), orb_true_r.
      rewrite u64_id by lia.
      destruct (open_new_files i (l ++ [closed_seg frames]) c e) as (w & E & Hw); [lia|rewrite llen_snoc; lia|].
      rewrite llen_snoc, Z.add_assoc in E; rewrite E; exists w, ((l ++ [closed_seg frames]) ++ [MagicBytes])%list, (ess ++ [[]])%list.
      rewrite !llen_snoc, concat_app; cbn [concat]; rewrite app_nil_r; split_ands; try done; [lia|by apply Forall2_snoc].
    + rewrite (findLatest_snoc i l f _ _ ltac:(lia) ltac:(lia) Hv), orb_false_r.
      rewrite (proj2 (Z.eqb_neq _ _)) by lia.
      unfold openExistingOpenSegment, bind, get_st, put_st, ret; cbn [files].
      assert (dir_of i (l ++ [f]) !! formatSegmentFilename (i + llen l) = Some f) as ->
        by (rewrite dir_of_snoc by lia; apply lookup_insert_eq); cbn [default id].
      rewrite (proj2 (Z.ltb_ge _ _)) by (rewrite Ef; unfold seg_data, llen, MagicBytesSize; rewrite !length_app; cbn; lia).
      assert (firstn 8 f = MagicBytes) as -> by (rewrite Ef; reflexivity).
      rewrite bool_decide_true, Hv by done; cbn [negb].
      eexists _, (l ++ [f])%list, ess; split; [reflexivity|]; cbn [files]; rewrite llen_snoc; split_ands; try done; lia.
Qed.
End Writer.
