(* ===== verification/WalLogSpec.v ===== *)
(** What the log guarantees: everything acknowledged before a close comes back
    in order, a crash leaves a prefix, compaction keeps what recovery needs; and
    what it does not: resuming at an offset, appending after a torn write. *)

From Stdlib Require Import Ascii String.
From stdpp Require Import list strings gmap fin_maps.
From S2P Require Import Prelude Errors GoStrings Strconv Encoding Token Session WalCodec.
From S2P Require Import WalCodecSpec WalLog WalLogFacts WalReadFacts WalWriteFacts.

Open Scope Z_scope.

(** A client of the writer: the entries whose [Append] returned no error. *)
Inductive wop := AppendOp (x : Entry) | FlushOp.
Fixpoint run_ops (l : list wop) : M Writer (list Entry) :=
  match l with
  | [] => ret []
  | AppendOp x :: l =>
      r <- Append x ;;
      acked <- run_ops l ;;
      ret (match r with None => wire_entry x :: acked | Some _ => acked end)
  | FlushOp :: l => Flush ;;; run_ops l
  end.

Section Log.
Context (cipher : option Cipher) (Hcipher : cipher_ok cipher).

Definition op_ok (o : wop) : Prop := match o with AppendOp x => loggable cipher x | FlushOp => True end.

Lemma run_holds i ops : forall k w es pend e acked w' e',
  holds cipher i (k + llen ops) w es pend -> 0 <= k -> closed w = false -> rnd_ok e ->
  Forall op_ok ops -> run_ops ops w e = (acked, w', e') ->
  closed w' = false /\ exists es' pend', holds cipher i k w' es' pend' /\
    (es' ++ pend' = es ++ pend ++ acked)%list.
Proof.
  induction ops as [|o ops IH]; intros k w es pend e acked w' e' Hw Hk Hcl Hrnd Hops; cbn [run_ops].
  { intros [= <- <- <-]; split; [done|]. exists es, pend; rewrite app_nil_r; split; [|done].
    eapply holds_weaken; [exact Hw|unfold llen; simpl; lia]. }
  apply Forall_cons in Hops as [Ho Hops].
  replace (k + llen (o :: ops)) with (k + llen ops + 1) in Hw by (unfold llen; simpl; lia).
  assert (0 <= k + llen ops) as Hk' by (unfold llen; lia).
  destruct o as [x|].
  - destruct (Append x w e) as [[r w1] e1] eqn:Ea; erewrite bind_run by exact Ea; cbn beta iota.
    destruct (append_holds cipher Hcipher i _ w es pend x e r w1 e1 Hw Hk' Hcl Hrnd Ho Ea)
      as ([_ Hcl1] & Hr1 & es1 & pend1 & Hw1 & E1).
    destruct (run_ops ops w1 e1) as [[acked1 w2] e2] eqn:Er; erewrite bind_run by exact Er.
    intros [= <- <- <-].
    destruct (IH k w1 es1 pend1 e1 acked1 w2 e2 Hw1 Hk ltac:(congruence) Hr1 Hops Er)
      as (Hcl2 & es2 & pend2 & Hw2 & E2).
    split; [done|]; exists es2, pend2; split; [done|].
    rewrite E2, app_assoc, E1, <- !app_assoc; by destruct r.
  - unfold Flush; destruct (flush_holds cipher i _ w es pend e Hw Hk') as (w1 & E1 & Hw1 & _ & _ & Hcl1).
    erewrite bind_run by exact E1; intros Er.
    destruct (IH k w1 _ _ e acked w' e' Hw1 Hk ltac:(congruence) Hrnd Hops Er)
      as (Hcl2 & es2 & pend2 & Hw2 & E2).
    split; [done|]; exists es2, pend2; split; [done|]. by rewrite E2, app_nil_l, <- app_assoc.
Qed.

(** Room for the segments a run can open. *)
Definition room (i : Z) (d : Dir) (ops : list wop) : Prop :=
  1 <= i /\ i + llen ops + 2 < two64 /\ forall l, d = dir_of i l -> i + llen l + llen ops + 2 < two64.

Lemma start_run i ops d es c e acked w w1 e1 :
  resumable cipher i d es -> room i d ops -> Dir_ c <> ""%string -> CfgCipher c = cipher -> rnd_ok e ->
  Forall op_ok ops -> NewWriter c d e = (Ok w, e) -> run_ops ops w e = (acked, w1, e1) ->
  closed w1 = false /\ exists es' pend', holds cipher i 2 w1 es' pend' /\
    (es' ++ pend' = es ++ acked)%list.
Proof.
  intros Hd (Hi & Hb0 & Hb) Hdir Hc Hrnd Hops Hn Hrun.
  destruct (NewWriter_resumes cipher i (2 + llen ops) c d es e) as (w0 & E & Hcl & _ & Hw); try done;
    [unfold llen; lia|intros l Hl; specialize (Hb l Hl); lia|lia|].
  rewrite E in Hn; injection Hn as ->.
  destruct (run_holds i ops 2 w es [] e acked w1 e1 Hw ltac:(lia) Hcl Hrnd Hops Hrun)
    as (Hcl1 & es' & pend' & Hw1 & Ee).
  split; [done|]; by exists es', pend'.
Qed.
End Log.

Section Cutting.
Context (cipher : option Cipher).

Lemma resumable_closed i pre ess frames :
  Forall2 (seg_holds cipher) (pre ++ [closed_seg frames]) ess ->
  resumable cipher i (dir_of i (pre ++ [closed_seg frames])) (concat ess).
Proof.
  intros H; apply Forall2_app_inv_l in H as (ess' & l & Hpre & Hl & ->).
  apply Forall2_cons_inv_l in Hl as (cur & l' & Hcur & Hn & ->); apply Forall2_nil_inv_l in Hn as ->.
  rewrite concat_app; cbn [concat]; rewrite app_nil_r.
  destruct Hcur as [fr Hg ->|fr junk n _ _ _ Hv]; [by apply resume_closed|].
  rewrite verify_closed in Hv; discriminate.
Qed.

(** Cutting frames anywhere leaves whole frames and perhaps a torn one. *)
Lemma cut_frames es frames n : Forall2 (good cipher) es frames ->
  exists es1 es2 frames1 junk, es = (es1 ++ es2)%list /\ Forall2 (good cipher) es1 frames1 /\
    (junk = [] \/ torn cipher junk) /\ firstn n (concat frames) = (concat frames1 ++ junk)%list /\
    ((length (concat frames) <= n)%nat -> es2 = []).
Proof.
  intros H; revert n; induction H as [|e1 f1 es frames Hg H IH]; intros n; cbn [concat].
  { exists [], [], [], []; split_ands; auto; by rewrite firstn_nil. }
  destruct (le_lt_dec (length f1) n) as [Hn|Hn].
  - destruct (IH (n - length f1)%nat) as (es1 & es2 & frames1 & junk & -> & Hg1 & Hj & E & Hall).
    exists (e1 :: es1), es2, (f1 :: frames1), junk; split_ands; auto.
    + rewrite firstn_app, firstn_all2, E by lia; cbn [concat]; by rewrite app_assoc.
    + rewrite length_app; intros; apply Hall; lia.
  - exists [], (e1 :: es), [], (firstn n f1); split_ands; auto.
    + right; by exists e1, f1, n.
    + rewrite firstn_app; replace (n - length f1)%nat with 0%nat by lia; by rewrite firstn_0, app_nil_r.
    + rewrite length_app; lia.
Qed.

Lemma cut_segment es frames n : Forall2 (good cipher) es frames -> (8 <= n)%nat ->
  exists es1 es2 frames1 junk, es = (es1 ++ es2)%list /\ Forall2 (good cipher) es1 frames1 /\
    (junk = [] \/ torn cipher junk) /\ firstn n (seg_data frames) = (seg_data frames1 ++ junk)%list /\
    ((length (seg_data frames) <= n)%nat -> es2 = []).
Proof.
  intros H Hn; destruct (cut_frames es frames (n - 8) H) as (es1 & es2 & frames1 & junk & -> & Hg & Hj & E & Hall).
  exists es1, es2, frames1, junk; unfold seg_data; split_ands; auto.
  - rewrite firstn_app, firstn_all2, <- app_assoc by (cbn; lia); f_equal; exact E.
  - rewrite length_app; cbn [length MagicBytes to_bytes]; intros Hl; apply Hall.
    change (length MagicBytes) with 8%nat in Hl; lia.
Qed.

(** A crash of a running writer: the file being written is cut. *)
Lemma cut_holds i k w es pend path f n m :
  holds cipher i k w es pend -> file w = Some path -> files w !! path = Some f -> (8 <= n)%nat ->
  verifyChecksumTrailer (firstn n f) = Ok (false, m) ->
  exists pre frames junk ess cur, firstn n f = (seg_data frames ++ junk)%list /\
    <[path := firstn n f]> (files w) = dir_of i (pre ++ [(seg_data frames ++ junk)%list]) /\
    Forall2 (seg_holds cipher) (pre ++ [(seg_data frames ++ junk)%list]) (ess ++ [cur]) /\
    1 <= i /\ 0 <= k /\ i + llen (pre ++ [(seg_data frames ++ junk)%list]) + k <= two64 /\
    concat (ess ++ [cur]) `prefix_of` (es ++ pend)%list /\
    ((length f <= n)%nat ->
     concat (ess ++ [cur]) = take (length (es ++ pend) - length (buffer w)) (es ++ pend)%list).
Proof.
  intros (pre & ess & frames & cur & Hpre & Hcur & Hpend & Hfiles & Hid & Hfile & _ & _ & -> & _ & Hi & Hk & Hb)
    Hpath Hf Hn Hcut.
  rewrite Hpath in Hfile; injection Hfile as ->.
  assert (f = seg_data frames) as ->.
  { rewrite Hfiles, Hid, dir_of_snoc, lookup_insert_eq in Hf by lia; by injection Hf. }
  destruct (cut_segment cur frames n Hcur Hn) as (cur1 & cur2 & frames1 & junk & -> & Hg & Hj & Ecut & Hall).
  exists pre, frames1, junk, ess, cur1; rewrite Hfiles, Hid, dir_of_update by lia; rewrite Ecut in *.
  rewrite concat_app; cbn [concat]; rewrite app_nil_r; split_ands; try done.
  - apply Forall2_snoc; [done|by eapply holds_open].
  - rewrite llen_snoc; lia.
  - exists (cur2 ++ pend)%list; by rewrite <- !app_assoc.
  - intros Hle; rewrite (Hall Hle), app_nil_r, !length_app.
    apply Forall2_length in Hpend; rewrite take_app_length'; [done|rewrite !length_app; lia].
Qed.
End Cutting.

Section Compaction.
Lemma wal_files_perm d :
  listWALFiles d ≡ₚ omap (fun kv : string * bytes => _ ← parseSegmentFilename (fst kv); Some (fst kv)) (map_to_list d).
Proof.
  unfold listWALFiles, sort_slice.
  assert (forall l acc, fold_left (fun rp x => insert_back String.ltb x rp) l acc ≡ₚ l ++ acc) as H.
  { induction l as [|x l IH]; intros acc; simpl; [done|].
    rewrite IH, insert_back_perm; symmetry; apply Permutation_middle. }
  by rewrite <- Permutation_rev, H, app_nil_r.
Qed.

Lemma FileCount_delete d k f id : d !! k = Some f -> parseSegmentFilename k = Some id ->
  FileCount d = 1 + FileCount (base.delete k d).
Proof.
  intros Hd Hp; unfold FileCount, llen; rewrite !wal_files_perm, <- (map_to_list_delete d k f Hd).
  cbn [omap list_omap fst]; rewrite Hp; cbn [mbind option_bind length]; lia.
Qed.

Lemma wal_files_elem d k : k ∈ listWALFiles d <-> is_Some (d !! k) /\ is_Some (parseSegmentFilename k).
Proof.
  rewrite wal_files_perm, list_elem_of_omap; split.
  - intros ([k' f] & Hin & E); apply elem_of_map_to_list in Hin; cbn [fst] in E.
    destruct (parseSegmentFilename k') eqn:Ep; [|done]; injection E as ->; by rewrite Hin, Ep.
  - intros [[f Hf] [id Hid]]; exists (k, f); rewrite elem_of_map_to_list; cbn [fst]; by rewrite Hid.
Qed.

Lemma wal_files_nodup d : NoDup (listWALFiles d).
Proof.
  rewrite wal_files_perm; induction d as [|k f d Hk IH] using map_ind.
  { rewrite map_to_list_empty; constructor. }
  rewrite map_to_list_insert by done; cbn [omap list_omap fst].
  destruct (parseSegmentFilename k); cbn [mbind option_bind]; [|done].
  constructor; [|done]. rewrite list_elem_of_omap; intros ([k' f'] & Hin & E).
  apply elem_of_map_to_list in Hin; cbn [fst] in E.
  destruct (parseSegmentFilename k'); [injection E as ->; congruence|done].
Qed.

Lemma delete_all_lookup (l : list string) (d : Dir) k :
  foldl (fun d f => base.delete f d) d l !! k = if decide (k ∈ l) then None else d !! k.
Proof.
  revert d; induction l as [|x l IH]; intros d; cbn [foldl]; [done|].
  rewrite IH; destruct (decide (k ∈ l)), (decide (k ∈ x :: l)); set_unfold; try tauto.
  - destruct (decide (k = x)) as [->|]; [apply lookup_delete_eq|tauto].
  - apply lookup_delete_ne; intros ->; tauto.
Qed.

Lemma delete_all_count (l : list string) : forall d, NoDup l ->
  (forall k, k ∈ l -> is_Some (d !! k) /\ is_Some (parseSegmentFilename k)) ->
  FileCount (foldl (fun d f => base.delete f d) d l) = FileCount d - llen l.
Proof.
  unfold llen; induction l as [|k l IH]; intros d Hn Hl; cbn [foldl length]; [lia|].
  apply NoDup_cons in Hn as [Hk Hn]; destruct (Hl k ltac:(set_solver)) as [[f Hf] [id Hid]].
  rewrite IH; [rewrite (FileCount_delete d k f id Hf Hid); lia|done|].
  intros k' Hk'; rewrite lookup_delete_ne by (intros ->; done). apply Hl; set_solver.
Qed.
End Compaction.

(** Whatever counts the options ask for, a compactor retains at least one file. *)
Lemma NewCompactor_retains (counts : list Z) : 1 <= NewCompactor (map WithRetainCount counts).
Proof.
  unfold NewCompactor; assert (forall c, 1 <= c -> 1 <= foldl (fun c opt => opt c) c (map WithRetainCount counts)) as H;
    [|by apply H].
  induction counts as [|n l IH]; intros c Hc; cbn [map foldl]; [done|]; apply IH; unfold WithRetainCount; destruct (Z.ltb_spec 0 n); lia.
Qed.

(** ** Resuming at an offset *)
Section Seeking.
Context (cipher : option Cipher).

Lemma composite_offset id pos : 0 <= id -> 0 <= pos < 2 ^ 32 ->
  let off := Z.lor (Z.shiftl id 32) pos in Z.shiftr off 32 = id /\ u32 off = pos.
Proof.
  intros Hid Hpos; cbn zeta.
  assert (Z.lor (Z.shiftl id 32) pos = id * 2 ^ 32 + pos) as ->.
  { rewrite <- Z.add_lor_land, <- Z.shiftl_mul_pow2 by lia.
    assert (Z.land (Z.shiftl id 32) pos = 0) as ->; [|lia].
    apply Z.bits_inj'; intros n Hn; rewrite Z.land_spec, Z.bits_0.
    destruct (Z.lt_ge_cases n 32); [by rewrite Z.shiftl_spec_low by lia|].
    rewrite andb_comm; destruct (Z.eq_dec pos 0) as [->|]; [by rewrite Z.bits_0|].
    rewrite (Z.bits_above_log2 pos n); [done|lia|]. apply Z.log2_lt_pow2; [lia|].
    apply Z.lt_le_trans with (2 ^ 32); [lia|apply Z.pow_le_mono_r; lia]. }
  unfold u32; rewrite Z.shiftr_div_pow2, Z.div_add_l, Z.div_small by lia.
  split; [lia|]. rewrite Z.add_comm, Z.mod_add, Z.mod_small by lia; done.
Qed.

Lemma find_numbered i l j : (j < length l)%nat -> find_segment (numbered i l) (i + Z.of_nat j) = j.
Proof.
  revert i j; induction l as [|f l IH]; intros i [|j] H; cbn [numbered find_segment length] in *; try lia.
  - by rewrite Z.add_0_r, Z.leb_refl.
  - rewrite (proj2 (Z.leb_gt _ _)) by lia; f_equal.
    replace (i + Z.of_nat (S j)) with (i + 1 + Z.of_nat j) by lia; apply IH; lia.
Qed.

Lemma numbered_lookup i l j : (j < length l)%nat ->
  numbered i l !! j = Some (i + Z.of_nat j, formatSegmentFilename (i + Z.of_nat j)).
Proof.
  revert i j; induction l as [|f l IH]; intros i [|j] H; cbn [numbered length] in *; try lia.
  - by rewrite Z.add_0_r.
  - change ((numbered (i + 1) l) !! j = Some (i + Z.of_nat (S j), formatSegmentFilename (i + Z.of_nat (S j)))).
    rewrite IH by lia; by replace (i + 1 + Z.of_nat j) with (i + Z.of_nat (S j)) by lia.
Qed.

(** A frame of ordinary size does not start like a segment. *)
Lemma frame_not_magic e frame rest : good cipher e frame -> llen frame < 2 ^ 30 ->
  firstn 8 (frame ++ rest) <> MagicBytes.
Proof.
  intros (body & -> & Hb & _) Hl E; unfold llen in Hl; rewrite length_app, be32_length in Hl.
  assert (firstn 4 (be32 (llen body)) = firstn 4 MagicBytes) as E4.
  { rewrite <- E, firstn_firstn, <- app_assoc, firstn_app, be32_length, firstn_all2
      by (rewrite be32_length; cbn; lia); cbn [firstn]; by rewrite app_nil_r. }
  apply (f_equal be32_get) in E4; rewrite firstn_all2, be32_get_be32 in E4
    by (rewrite ?be32_length; lia).
  change (be32_get (firstn 4 MagicBytes)) with 1414482765 in E4; unfold llen in *; lia.
Qed.
(** Where a segment's data ends, finalised or not. *)
Definition data_is (f data : bytes) : Prop :=
  f = (data ++ sha256 data)%list \/ f = data /\ exists n, verifyChecksumTrailer f = Ok (false, n).

Lemma openNextSegment_data frames f r e k path :
  data_is f (seg_data frames) -> current r = None -> segments r !! segIndex r = Some (k, path) ->
  r_files r !! path = Some f ->
  openNextSegment r e = (None, MkReader (r_files r) (r_cipher r) (segments r) (S (segIndex r))
    (Some (skipn (Z.to_nat (startAt r)) (seg_data frames))) 0 false, e).
Proof.
  intros Hseg Hc Hs Hf; unfold openNextSegment, bind, upd_st, get_st, put_st, ret, closeCurrent, set_current.
  cbn [segments segIndex r_files r_cipher startAt]; rewrite Hs, Hf; cbn [default id].
  assert (exists b, verifyChecksumTrailer f = Ok (b, llen (seg_data frames)) /\
    firstn (Z.to_nat (llen (seg_data frames))) f = seg_data frames /\
    (b = false -> llen f = llen (seg_data frames))) as (b & Hv & Hfirst & Hb).
  { destruct Hseg as [->|[-> [n Hv]]].
    - exists true; split_ands; [exact (verify_closed frames)| |done].
      unfold llen; by rewrite Nat2Z.id, firstn_app, Nat.sub_diag, firstn_all, firstn_0, app_nil_r.
    - exists false; split_ands; [|unfold llen; by rewrite Nat2Z.id, firstn_all|done].
      rewrite Hv; by apply verify_open in Hv as ->. }
  rewrite Hv, (proj2 (Z.ltb_ge _ _)), andb_false_r
    by (unfold seg_data, llen, MagicBytesSize; rewrite length_app; cbn; lia).
  assert ((if b then llen (seg_data frames) else llen f) = llen (seg_data frames)) as ->
    by (destruct b; [done|by apply Hb]).
  by rewrite Hfirst.
Qed.

(** Reading from a closed reader is reading from the segment it opens. *)
Lemma Read_opened r r1 e c : current r = None -> openNextSegment r e = (None, r1, e) ->
  current r1 = Some c -> segments r1 = segments r -> Read r e = Read r1 e.
Proof.
  intros Hc Ho H1 Hs; unfold Read; rewrite (bind_run get_st _ r e r r e), (bind_run get_st _ r1 e r1 r1 e) by done.
  rewrite Hs; cbn [read_loop].
  rewrite (bind_run get_st _ r e r r e), (bind_run get_st _ r1 e r1 r1 e), Hc, H1 by done.
  by rewrite (bind_run _ _ _ _ _ _ _ Ho).
Qed.

(** A reader sought to a frame boundary stands before the rest of the frames,
    and takes it for the start of a segment. *)
Lemma Read_seek i l j f frames1 frames2 e :
  0 <= i -> i + llen l <= 2 ^ 32 -> l !! j = Some f -> llen (seg_data frames1) < 2 ^ 32 ->
  data_is f (seg_data (frames1 ++ frames2)) ->
  Read (Seek (Z.lor (Z.shiftl (i + Z.of_nat j) 32) (llen (seg_data frames1))) (NewReader (dir_of i l) cipher)) e =
  Read (MkReader (dir_of i l) cipher (numbered i l) (S j) (Some (concat frames2)) 0 false) e.
Proof.
  intros Hi Hl Hf Hsize Hseg; pose proof (lookup_lt_Some _ _ _ Hf) as Hj.
  destruct (composite_offset (i + Z.of_nat j) (llen (seg_data frames1))) as [Ho1 Ho2];
    [lia|unfold llen in *; lia|]; set (off := Z.lor _ _) in *.
  assert (Seek off (NewReader (dir_of i l) cipher) =
    MkReader (dir_of i l) cipher (numbered i l) j None (llen (seg_data frames1)) false) as ->.
  { unfold Seek, NewReader; cbn [r_files r_cipher segments].
    rewrite scan_dir_of, Ho1, Ho2, find_numbered by (done || unfold two64; lia); done. }
  eapply Read_opened; [done| |reflexivity|reflexivity].
  rewrite (openNextSegment_data (frames1 ++ frames2) f _ _ (i + Z.of_nat j)
    (formatSegmentFilename (i + Z.of_nat j))); cbn [r_files r_cipher segments segIndex startAt]; try done.
  - repeat f_equal; unfold seg_data, llen.
    by rewrite concat_app, app_assoc, Nat2Z.id, skipn_app, Nat.sub_diag, skipn_all, skipn_0.
  - by apply numbered_lookup.
  - rewrite dir_of_lookup by (unfold two64, llen in *; lia).
    rewrite (proj2 (Z.leb_le _ _)), (proj2 (Z.ltb_lt _ _)) by (unfold llen; lia); cbn [andb].
    by replace (Z.to_nat (i + Z.of_nat j - i)) with j by lia.
Qed.
End Seeking.

Section Properties.
Context (cipher : option Cipher).

(** C3: A writer opened on a resumable log, driven through any sequence of
    appends and flushes and closed: opening and closing succeed, a reader then
    returns the old entries followed by exactly those whose [Append] succeeded,
    in order, across any rotation of segments, and the log is resumable again. *)
Theorem log_roundtrip (i : Z) (d : Dir) (es : list Entry) (c : Config) (ops : list wop) (e : env)
    (Hcipher : cipher_ok cipher) (Hd : resumable cipher i d es) (Hroom : room i d ops)
    (Hdir : Dir_ c <> ""%string) (Hc : CfgCipher c = cipher) (Hrnd : rnd_ok e)
    (Hops : Forall (op_ok cipher) ops) :
  exists w, NewWriter c d e = (Ok w, e) /\
    forall acked w1 e1, run_ops ops w e = (acked, w1, e1) ->
      exists w2, Close w1 e1 = (None, w2, e1) /\
        resumable cipher i (files w2) (es ++ acked)%list /\
        exists r, ReadAll (NewReader (files w2) cipher) e1 = (Ok (es ++ acked)%list, r, e1).
Proof.
  destruct Hroom as (Hi & Hb0 & Hb).
  destruct (NewWriter_resumes cipher i (2 + llen ops) c d es e) as (w & E & _ & _ & _); try done;
    [unfold llen; lia|intros l Hl; specialize (Hb l Hl); lia|lia|].
  exists w; split; [exact E|]; intros acked w1 e1 Hrun.
  destruct (start_run cipher Hcipher i ops d es c e acked w w1 e1) as (Hcl & es' & pend & Hw1 & <-); try done.
  destruct (close_holds cipher i 1 w1 es' pend e1 Hw1 ltac:(lia) Hcl)
    as (w2 & pre & ess & E2 & Hf & Hpre & <- & (pre' & frames & ->) & Hlen).
  exists w2; split; [exact E2|]; rewrite Hf; split.
  - by apply resumable_closed.
  - apply readall_dir; [lia|lia|done].
Qed.

(** C4: A crash loses at most a suffix: cut the file being written anywhere past
    its magic, drop the buffer, and a reader returns a prefix of the entries
    acknowledged, and all that had left the buffer when the file is not cut. *)
Theorem crash_prefix (i : Z) (d : Dir) (es : list Entry) (c : Config) (ops : list wop) (e : env)
    (w w1 : Writer) (e1 : env) (acked : list Entry) (path : string) (f : bytes) (n : nat) (m : Z)
    (Hcipher : cipher_ok cipher) (Hd : resumable cipher i d es) (Hroom : room i d ops)
    (Hdir : Dir_ c <> ""%string) (Hc : CfgCipher c = cipher) (Hrnd : rnd_ok e)
    (Hops : Forall (op_ok cipher) ops) (Hopen : NewWriter c d e = (Ok w, e))
    (Hrun : run_ops ops w e = (acked, w1, e1))
    (Hpath : file w1 = Some path) (Hf : files w1 !! path = Some f) (Hn : (8 <= n)%nat)
    (Hcut : verifyChecksumTrailer (firstn n f) = Ok (false, m)) :
  let d' := <[path := firstn n f]> (files w1) in
  exists p r, ReadAll (NewReader d' cipher) e1 = (Ok p, r, e1) /\
    p `prefix_of` (es ++ acked)%list /\
    ((length f <= n)%nat -> p = take (length (es ++ acked) - length (buffer w1)) (es ++ acked)%list).
Proof.
  destruct (start_run cipher Hcipher i ops d es c e acked w w1 e1) as (_ & es' & pend & Hw & <-); try done.
  destruct (cut_holds cipher _ _ _ _ _ _ _ _ _ Hw Hpath Hf Hn Hcut)
    as (pre & frames & junk & ess & cur & _ & -> & Hl & Hi & _ & Hb & Hp & Hall); cbn zeta.
  destruct (fun H1 H2 => readall_dir cipher i _ _ e1 H1 H2 Hl) as (r & Hr); [lia..|].
  by exists (concat (ess ++ [cur]))%list, r.
Qed.
(** C17: Compaction removes only segment files below the snapshot's segment, leaves
    every other file as it is, and keeps the number of segments asked for (all
    of them when there are fewer). *)
Theorem Compact_safe (retain off : Z) (d : Dir) :
  (forall k, Compact retain off d !! k = d !! k \/
     Compact retain off d !! k = None /\
       exists id, parseSegmentFilename k = Some id /\ id < Z.shiftr off 32) /\
  Z.min retain (FileCount d) <= FileCount (Compact retain off d) <= FileCount d.
Proof.
  unfold Compact; destruct (Z.eqb_spec (llen (listWALFiles d)) 0) as [E0|_].
  { split; [by left|lia]. }
  set (below := fun f => match parseSegmentFilename f with Some id => id <? Z.shiftr off 32 | None => false end).
  set (cand := List.filter below (listWALFiles d)).
  match goal with |- context [foldl _ d ?x] => set (del := x) end.
  assert (exists n, del = firstn n cand /\ llen del <= llen cand /\
    (llen del = llen cand -> retain <= llen (listWALFiles d) - llen cand \/ llen cand = 0) /\
    (llen del < llen cand -> llen del = 0 \/ llen (listWALFiles d) - llen del = retain)) as (n & Edel & Hle & Hc1 & Hc2).
  { subst del; fold below cand; destruct (Z.ltb_spec (llen (listWALFiles d) - llen cand) retain) as [H|H].
    - eexists; split; [reflexivity|]. unfold llen; rewrite length_firstn; unfold llen in H.
      case_match eqn:E; lia.
    - exists (length cand); rewrite firstn_all; split; [done|]; lia. }
  assert (forall k, k ∈ del -> k ∈ listWALFiles d /\ below k = true) as Hdel.
  { intros k Hk; assert (k ∈ cand) as Hk'.
    { rewrite <- (take_drop n cand), <- Edel; set_solver. }
    apply list_elem_of_In, List.filter_In in Hk' as [Hk' Hb]; by apply list_elem_of_In in Hk'. }
  assert (NoDup del) as Hnd.
  { rewrite Edel; apply (sublist_NoDup _ cand); [|apply sublist_take].
    apply NoDup_ListNoDup, List.NoDup_filter, NoDup_ListNoDup, wal_files_nodup. }
  split.
  - intros k; rewrite delete_all_lookup; destruct (decide (k ∈ del)) as [Hk|]; [|by left].
    right; split; [done|]. apply Hdel in Hk as [_ Hb]; unfold below in Hb.
    destruct (parseSegmentFilename k) as [id|]; [|done]; exists id; split; [done|by apply Z.ltb_lt].
  - rewrite delete_all_count by (done || (intros k [Hk _]%Hdel; by apply wal_files_elem)).
    unfold FileCount in *; assert (0 <= llen del) by (unfold llen; lia); lia.
Qed.
(** The reader seeks to a position but then expects a segment header there:
    from the offset of any frame boundary past the header, where the writer's
    [CurrentOffset] always points, the first [Read] fails with an invalid magic
    when frames follow, and reports the end of the log when none does, even if later
    segments hold entries. *)
Theorem Seek_loses_suffix (i : Z) (l : list bytes) (j : nat) (f : bytes) (es1 es2 : list Entry)
    (frames1 frames2 : list bytes) (e : env)
    (Hi : 0 <= i) (Hl : i + llen l <= 2 ^ 32) (Hf : l !! j = Some f)
    (Hg1 : Forall2 (good cipher) es1 frames1) (Hg2 : Forall2 (good cipher) es2 frames2)
    (Hsize : llen (seg_data (frames1 ++ frames2)) < 2 ^ 30)
    (Hseg : data_is f (seg_data (frames1 ++ frames2))) :
  let off := Z.lor (Z.shiftl (i + Z.of_nat j) 32) (llen (seg_data frames1)) in
  exists r, Read (Seek off (NewReader (dir_of i l) cipher)) e =
    (Err (match frames2 with [] => EOF | _ => errInvalidMagic end), r, e).
Proof.
  assert (llen (seg_data (frames1 ++ frames2)) = llen (seg_data frames1) + llen (concat frames2)) as Hlen
    by (unfold seg_data, llen; rewrite concat_app, !length_app; lia).
  assert (8 <= llen (seg_data frames1)) as H8 by (unfold seg_data, llen; rewrite length_app; cbn; lia).
  assert (0 <= llen (concat frames2)) by (unfold llen; lia); cbn zeta; set (off := Z.lor _ _).
  set (r1 := MkReader (dir_of i l) cipher (numbered i l) (S j) (Some (concat frames2)) 0 false).
  assert (Read (Seek off (NewReader (dir_of i l) cipher)) e = Read r1 e) as ->
    by (apply (Read_seek cipher i l j f frames1 frames2); done || lia).
  assert (exists r2 err, readAndValidateHeader r1 e = (Some err, r2, e) /\
    err = match frames2 with [] => EOF | _ => errInvalidMagic end) as (r2 & err & Eh & Herr).
  { unfold readAndValidateHeader; inversion Hg2 as [E1|e1 f1 es' fs' Hgd Hrest E1 E2]; subst.
    - erewrite bind_run by (apply (ReadFull_short _ _ [] 8); [reflexivity|simpl; lia]); by eexists _, _.
    - pose proof (good_length _ _ _ Hgd) as Hl1.
      erewrite bind_run by (apply (ReadFull_ok _ _ (firstn 8 (f1 ++ concat fs')) (skipn 8 (f1 ++ concat fs')));
        [unfold r1; cbn [current concat]; by rewrite firstn_skipn|rewrite length_firstn, length_app; lia]).
      cbn beta iota; rewrite bool_decide_false; [by eexists _, _|].
      eapply frame_not_magic; [exact Hgd|].
      unfold llen in *; cbn [concat] in Hlen; rewrite length_app in Hlen; lia. }
  exists r2; unfold Read; erewrite bind_run by reflexivity; cbn [read_loop].
  erewrite bind_run by reflexivity; cbn [current r1]; erewrite bind_run by reflexivity; cbn beta iota.
  erewrite bind_run by reflexivity; cbn [negb andb headerOK startAt r1 Z.eqb].
  erewrite bind_run by exact Eh; cbn beta iota; rewrite Herr; by destruct frames2.
Qed.
End Properties.

(** ** A concrete log *)
Definition demo_log_env : env := Env (fun _ => 0) (fun _ _ => Err EOF) (fun _ => Err EOF).
Definition demo_log_cfg : Config := MkConfig "wal" 1 0 0 0 None.
Definition demo_delete (t : Z) : Entry := MkEntry OpTypeDelete t "tmss-1" 0 None.
Definition demo_frame (t : Z) : bytes :=
  match encodeEntryFrame (demo_delete t) None tt demo_log_env with (Ok f, _, _) => f | _ => [] end.
(** A crash in the middle of the second frame. *)
Definition torn_dir : Dir :=
  {[ "wal-00000001.log"%string := (seg_data [demo_frame 1] ++ firstn 20 (demo_frame 2))%list ]}.

(** After a torn write the writer appends behind the torn frame: the entries it
    then acknowledges, in a log it closes without error, are not read back. *)
Theorem append_after_torn_write_lost :
  match NewWriter demo_log_cfg torn_dir demo_log_env with
  | (Ok w, e) =>
      let '(acked, w1, e1) := run_ops [AppendOp (demo_delete 3); AppendOp (demo_delete 4)] w e in
      let '(r, w2, e2) := Close w1 e1 in
      acked = [demo_delete 3; demo_delete 4] /\ r = None /\
      fst (fst (ReadAll (NewReader (files w2) None) e2)) = Ok [demo_delete 1]
  | _ => False
  end.
Proof. vm_compute; by split_ands. Qed.

Lemma demo_good : good None (demo_delete 1) (demo_frame 1).
Proof. exists (skipn 4 (demo_frame 1)); vm_compute; split_ands; done. Qed.

Lemma demo_loggable : loggable None (demo_delete 3).
Proof.
  split; [vm_compute; split_ands; done|].
  intros w w' e e' frame H; vm_compute in H; injection H as <- _ _; vm_compute; done.
Qed.

Definition demo_ops : list wop := [AppendOp (demo_delete 3); FlushOp].
Lemma demo_ops_ok : Forall (op_ok None) demo_ops.
Proof. repeat constructor; apply demo_loggable. Qed.

Lemma demo_room : room 1 ∅ demo_ops.
Proof.
  split; [lia|]; split; [vm_compute; done|]; intros l ->%dir_of_empty; vm_compute; done.
Qed.

Lemma demo_log_rnd_ok : rnd_ok demo_log_env.
Proof. intros n l b; discriminate. Qed.

Definition demo_writer : Writer :=
  match NewWriter demo_log_cfg ∅ demo_log_env with
  | (Ok w, _) => w
  | _ => MkWriter ∅ demo_log_cfg 0 None 0 0 [] [] 0 false
  end.
Definition demo_written : Writer := snd (fst (run_ops demo_ops demo_writer demo_log_env)).

Lemma log_roundtrip_witness :
  exists w, NewWriter demo_log_cfg ∅ demo_log_env = (Ok w, demo_log_env) /\
    forall acked w1 e1, run_ops demo_ops w demo_log_env = (acked, w1, e1) ->
      exists w2, Close w1 e1 = (None, w2, e1) /\ resumable None 1 (files w2) ([] ++ acked)%list /\
        exists r, ReadAll (NewReader (files w2) None) e1 = (Ok ([] ++ acked)%list, r, e1).
Proof.
  apply (log_roundtrip None 1 ∅ [] demo_log_cfg demo_ops demo_log_env I (resume_new None 1 eq_refl)
    demo_room); [discriminate|reflexivity|apply demo_log_rnd_ok|apply demo_ops_ok].
Defined.

Lemma crash_prefix_witness :
  exists p r,
    ReadAll (NewReader (<["wal-00000001.log"%string := firstn 20 (seg_data [demo_frame 3])]> (files demo_written)) None)
      demo_log_env = (Ok p, r, demo_log_env) /\
    p `prefix_of` ([] ++ [demo_delete 3])%list /\
    ((length (seg_data [demo_frame 3]) <= 20)%nat ->
       p = take (length ([] ++ [demo_delete 3]) - length (buffer demo_written)) ([] ++ [demo_delete 3])%list).
Proof.
  eapply (crash_prefix None 1 ∅ [] demo_log_cfg demo_ops demo_log_env demo_writer demo_written demo_log_env
    [demo_delete 3] "wal-00000001.log" (seg_data [demo_frame 3]) 20 20 I (resume_new None 1 eq_refl) demo_room);
    [discriminate|reflexivity|apply demo_log_rnd_ok|apply demo_ops_ok|vm_compute; reflexivity..|lia|
     vm_compute; reflexivity].
Defined.

Lemma Seek_loses_suffix_witness :
  exists r, Read (Seek (Z.lor (Z.shiftl (1 + Z.of_nat 0) 32) (llen (seg_data [demo_frame 1])))
    (NewReader (dir_of 1 [closed_seg ([demo_frame 1] ++ [demo_frame 1])]) None)) demo_log_env =
    (Err errInvalidMagic, r, demo_log_env).
Proof.
  apply (Seek_loses_suffix None 1 [closed_seg ([demo_frame 1] ++ [demo_frame 1])] 0
    (closed_seg ([demo_frame 1] ++ [demo_frame 1])) [demo_delete 1] [demo_delete 1]
    [demo_frame 1] [demo_frame 1] demo_log_env);
    [lia|vm_compute; done|reflexivity|repeat constructor; apply demo_good|
     repeat constructor; apply demo_good|vm_compute; done|left; reflexivity].
Defined.
