(* ===== verification/WalFaults.v ===== *)
(** The writer of the log when system calls fail: [internal/storage/wal/writer.go].

    [WalLog] is the writer on a disk that never fails.  Here every system call takes its outcome
    from a list (all succeed once it is empty), a write that fails may have written some of its
    bytes, and the fields that matter only then are kept: whether the open file has been closed,
    the header, the synchronisation mode and the loop that flushes.  With no failure to come the
    two writers are the same ([no_failure_same]), so that the theorems on [WalLog] carry over;
    the others say what a failure leaves behind. *)

From Stdlib Require Import Ascii String.
From stdpp Require Import list strings gmap fin_maps.
From S2P Require Import Prelude Errors GoStrings Strconv Encoding Token Session WalCodec.
From S2P Require Import WalCodecSpec WalLog WalLogFacts WalReadFacts WalWriteFacts WalLogSpec.

Open Scope string_scope.
Open Scope Z_scope.

(** ** Configuration *)
Definition SyncModeSync : string := "sync".
Definition SyncModeBatch : string := "batch".
Definition DefaultSyncInterval : Z := 1000000000.
Record FConfig := MkFConfig { Common : Config; SyncMode : string; SyncInterval : Z }.
Definition DefaultConfig (dir : string) : FConfig :=
  MkFConfig (MkConfig dir DefaultBatchCount DefaultBatchBytes DefaultMaxFileSize DefaultMaxEntryCount None)
    SyncModeBatch DefaultSyncInterval.
Definition applyDefaults (c : FConfig) : FConfig :=
  MkFConfig (WalLog.applyDefaults (Common c))
    (if String.eqb (SyncMode c) "" then SyncModeBatch else SyncMode c)
    (if SyncInterval c =? 0 then DefaultSyncInterval else SyncInterval c).

(** ** System calls *)

(** A call that fails may have done the first [n] bytes of its work. *)
Inductive outcome := Done | Fails (n : nat) (err : error).
(** [base] is the writer of [WalLog]; [isOpen] tells whether its file can still be used. *)
Record FWriter := MkF {
  base : Writer;
  isOpen : bool;
  headerWritten : bool;
  mode : string;
  syncTicker : bool;
  calls : list outcome;
}.
Definition set_base (w : Writer) (s : FWriter) : FWriter := MkF w (isOpen s) (headerWritten s) (mode s) (syncTicker s) (calls s).
Definition set_open (b : bool) (s : FWriter) : FWriter := MkF (base s) b (headerWritten s) (mode s) (syncTicker s) (calls s).
Definition set_header (b : bool) (s : FWriter) : FWriter := MkF (base s) (isOpen s) b (mode s) (syncTicker s) (calls s).
Definition set_ticker (b : bool) (s : FWriter) : FWriter := MkF (base s) (isOpen s) (headerWritten s) (mode s) b (calls s).
Definition set_calls (cs : list outcome) (s : FWriter) : FWriter := MkF (base s) (isOpen s) (headerWritten s) (mode s) (syncTicker s) cs.
Definition in_base {A} (m : M Writer A) : M FWriter A := zoom base set_base m.

Definition next_call : M FWriter outcome :=
  s <- get_st ;;
  match calls s with [] => ret Done | c :: cs => put_st (set_calls cs s) ;;; ret c end.
(** A call whose error is wrapped in a text. *)
Definition sys (what : string) : M FWriter (option error) :=
  c <- next_call ;; ret (match c with Done => None | Fails _ err => Some (WrapError what err) end).

Definition ErrClosed := SimpleError "file already closed".
Definition set_files (d : Dir) (w : Writer) : Writer :=
  MkWriter d (cfg w) (segmentID w) (file w) (fileSize w) (segmentEntries w) (hash w) (buffer w) (bufferBytes w) (closed w).
Definition on_disk (path : string) (p : bytes) (s : FWriter) : FWriter :=
  set_base (set_files (<[path := (default [] (files (base s) !! path) ++ p)%list]> (files (base s))) (base s)) s.
(** [os.File.Write]: how many bytes reached the file, and the error. *)
Definition os_write (path : string) (p : bytes) : M FWriter (nat * option error) :=
  s <- get_st ;;
  if negb (isOpen s) then ret (0%nat, Some ErrClosed)
  else
    c <- next_call ;;
    match c with
    | Done => upd_st (on_disk path p) ;;; ret (length p, None)
    | Fails n err => upd_st (on_disk path (firstn n p)) ;;; ret (length (firstn n p), Some err)
    end.
Definition os_sync : M FWriter (option error) :=
  s <- get_st ;;
  if negb (isOpen s) then ret (Some ErrClosed)
  else c <- next_call ;; ret (match c with Done => None | Fails _ err => Some err end).
(** The file is closed whatever [close] answers. *)
Definition os_close : M FWriter (option error) :=
  s <- get_st ;;
  if negb (isOpen s) then ret (Some ErrClosed)
  else
    c <- next_call ;;
    upd_st (set_open false) ;;;
    ret (match c with Done => None | Fails _ err => Some err end).

(** ** Writing *)
Definition count_written (p : bytes) (w : Writer) : Writer :=
  MkWriter (files w) (cfg w) (segmentID w) (file w) (fileSize w + llen p) (segmentEntries w) (hash w ++ p)%list
    (buffer w) (bufferBytes w) (closed w).
Definition writeLocked (p : bytes) : M FWriter (option error) :=
  s <- get_st ;;
  match file (base s) with
  | None => ret (Some (SimpleError "wal: file not open"))
  | Some path =>
      r <- os_write path p ;;
      (if (0 <? fst r)%nat then in_base (upd_st (count_written (firstn (fst r) p))) else ret tt) ;;;
      ret (snd r)
  end.
Definition writeHeaderLocked : M FWriter (option error) :=
  s <- get_st ;;
  if headerWritten s then ret None
  else
    err <- writeLocked MagicBytes ;;
    match err with
    | Some err => ret (Some err)
    | None => upd_st (set_header true) ;;; ret None
    end.
Definition fresh_segment (path : string) (w : Writer) : Writer :=
  MkWriter (<[path := []]> (files w)) (cfg w) (segmentID w) (Some path) 0 0 [] (buffer w) (bufferBytes w) (closed w).
Definition openNewSegment : M FWriter (option error) :=
  s <- get_st ;;
  let path := formatSegmentFilename (segmentID (base s)) in
  err <- sys "wal: open segment" ;;
  match err with
  | Some err => ret (Some err)
  | None =>
      in_base (upd_st (fresh_segment path)) ;;;
      upd_st (set_open true) ;;; upd_st (set_header false) ;;;
      err <- writeHeaderLocked ;;
      match err with
      | Some err => os_close ;;; ret (Some err)
      | None => ret None
      end
  end.

Definition no_file (w : Writer) : Writer :=
  MkWriter (files w) (cfg w) (segmentID w) None (fileSize w) (segmentEntries w) (hash w) (buffer w) (bufferBytes w) (closed w).
Definition finalizeSegmentWithoutFlushingLocked : M FWriter (option error) :=
  s <- get_st ;;
  match file (base s) with
  | None => ret (Some (SimpleError "wal: write checksum: invalid argument"))
  | Some path =>
      r <- os_write path (sha256 (hash (base s))) ;;
      match snd r with
      | Some err => ret (Some (WrapError "wal: write checksum" err))
      | None =>
          err <- os_sync ;;
          match err with
          | Some err => ret (Some (WrapError "wal: sync" err))
          | None =>
              err <- os_close ;;
              match err with
              | Some err => ret (Some (WrapError "wal: close" err))
              | None => in_base (upd_st no_file) ;;; ret None
              end
          end
      end
  end.

Definition must_rotate (w : Writer) : bool :=
  (MaxFileSize (cfg w) <? fileSize w + llen (concat (buffer w))) || (MaxEntryCount (cfg w) <? segmentEntries w + llen (buffer w)).
Definition rotate : M FWriter (option error) :=
  err <- finalizeSegmentWithoutFlushingLocked ;;
  match err with
  | Some err => ret (Some err)
  | None => in_base (upd_st (fun w => set_segment (u64 (segmentID w + 1)) w)) ;;; openNewSegment
  end.
Definition flushLocked : M FWriter (option error) :=
  s <- get_st ;;
  if llen (buffer (base s)) =? 0 then
    if String.eqb (mode s) SyncModeSync && bool_decide (is_Some (file (base s))) then os_sync else ret None
  else
    match file (base s) with
    | None => ret (Some (SimpleError "wal: file not open"))
    | Some _ =>
        rot <- (if must_rotate (base s) then rotate else ret None) ;;
        match rot with
        | Some err => ret (Some err)
        | None =>
            err <- writeLocked (concat (buffer (base s))) ;;
            match err with
            | Some err => ret (Some (WrapError "wal: write batch" err))
            | None =>
                in_base (upd_st (fun w => set_buffer [] 0 (add_entries (llen (buffer w)) w))) ;;;
                if String.eqb (mode s) SyncModeSync then os_sync else ret None
            end
        end
    end.
Definition Flush : M FWriter (option error) := flushLocked.

Definition Append (entry : Entry) : M FWriter (option error) :=
  s <- get_st ;;
  if closed (base s) then ret (Some (SimpleError "wal: writer is closed"))
  else
    r <- encodeEntryFrame entry (CfgCipher (cfg (base s))) ;;
    match r with
    | Err err => ret (Some err)
    | Ok frame =>
        in_base (upd_st (fun w => set_buffer (buffer w ++ [frame])%list (bufferBytes w + llen frame) w)) ;;;
        s <- get_st ;;
        if (BatchCount (cfg (base s)) <=? llen (buffer (base s))) || (BatchBytes (cfg (base s)) <=? bufferBytes (base s))
        then flushLocked else ret None
    end.

(** ** The loop that flushes *)

(** [time.NewTicker] panics on an interval that is not positive. *)
Definition startSyncLoop (interval : Z) : M FWriter (option unit) :=
  if interval <=? 0 then ret None else upd_st (set_ticker true) ;;; ret (Some tt).
(** A tick: the error of the flush is dropped. *)
Definition tick_round : M FWriter unit := Flush ;;; ret tt.

Definition finalizeSegmentLocked : M FWriter (option error) :=
  err <- flushLocked ;;
  match err with
  | Some err => ret (Some err)
  | None =>
      s <- get_st ;;
      match file (base s) with None => ret None | Some _ => finalizeSegmentWithoutFlushingLocked end
  end.
(** [late] is whether a tick comes between the closing of the channel and the end of the loop. *)
Definition Close (late : bool) : M FWriter (option error) :=
  s <- get_st ;;
  if closed (base s) then ret None
  else
    in_base (upd_st set_closed) ;;;
    (if syncTicker s && late then tick_round else ret tt) ;;;
    s <- get_st ;;
    match file (base s) with None => ret None | Some _ => finalizeSegmentLocked end.

(** ** Opening *)
Definition verifyChecksumTrailer (f : bytes) : M FWriter (Res (bool * Z)) :=
  let size := llen f in
  if size <? MagicBytesSize then ret (Ok (false, size))
  else
    err <- sys "wal: read magic" ;;
    match err with
    | Some err => ret (Err err)
    | None =>
        if negb (bool_decide (firstn 8 f = MagicBytes)) then ret (Err errInvalidMagic)
        else if size <? MagicBytesSize + ChecksumSize then ret (Ok (false, size))
        else
          err <- sys "wal: read checksum trailer" ;;
          match err with
          | Some err => ret (Err err)
          | None =>
              err <- sys "wal: hash" ;;
              match err with
              | Some err => ret (Err err)
              | None => ret (WalLog.verifyChecksumTrailer f)
              end
          end
    end.
Definition findLatestSegment : M FWriter (Res (Z * string * bool)) :=
  s <- get_st ;;
  err <- sys "wal: read dir" ;;
  match err with
  | Some err => ret (Err err)
  | None =>
      match last (scanSegments (files (base s))) with
      | None => ret (Ok (0, "", false))
      | Some (id, path) =>
          err <- sys "wal: open latest" ;;
          match err with
          | Some err => ret (Err err)
          | None =>
              err <- sys "wal: stat latest" ;;
              match err with
              | Some err => ret (Err err)
              | None =>
                  r <- verifyChecksumTrailer (default [] (files (base s) !! path)) ;;
                  ret (match r with
                       | Ok (closed, _) => Ok (id, path, closed)
                       | Err err => if errors_is err errInvalidMagic then Ok (id, path, false) else Err err
                       end)
              end
          end
      end
  end.
Definition continue_segment (path : string) (dataLen : Z) (data : bytes) (w : Writer) : Writer :=
  MkWriter (files w) (cfg w) (segmentID w) (Some path) dataLen (segmentEntries w) data (buffer w) (bufferBytes w) (closed w).
Definition openExistingOpenSegment (path : string) : M FWriter (option error) :=
  s <- get_st ;;
  let f := default [] (files (base s) !! path) in
  err <- sys "wal: open existing segment" ;;
  match err with
  | Some err => ret (Some err)
  | None =>
      err <- sys "wal: stat segment" ;;
      match err with
      | Some err => ret (Some err)
      | None =>
          err <- sys "wal: read magic" ;;
          match err with
          | Some err => ret (Some err)
          | None =>
              if llen f <? MagicBytesSize then
                ret (Some (WrapError "wal: read magic" (if llen f =? 0 then EOF else ErrUnexpectedEOF)))
              else if negb (bool_decide (firstn 8 f = MagicBytes)) then ret (Some errInvalidMagic)
              else
                r <- verifyChecksumTrailer f ;;
                match r with
                | Err err => ret (Some err)
                | Ok (true, _) => ret (Some (SimpleError "wal: latest segment already finalized"))
                | Ok (false, dataLen) =>
                    err <- sys "wal: hash existing segment" ;;
                    match err with
                    | Some err => ret (Some err)
                    | None =>
                        in_base (upd_st (continue_segment path dataLen (firstn (Z.to_nat dataLen) f))) ;;;
                        upd_st (set_open true) ;;; upd_st (set_header true) ;;;
                        sys "wal: seek"
                    end
                end
          end
      end
  end.
(** On the directory of the state; [None] is a panic. *)
Definition open_latest : M FWriter (option error) :=
  r <- findLatestSegment ;;
  match r with
  | Err err => ret (Some err)
  | Ok (latestID, latestPath, isClosed) =>
      if (latestID =? 0) || isClosed
      then in_base (upd_st (set_segment (u64 (latestID + 1)))) ;;; openNewSegment
      else in_base (upd_st (set_segment latestID)) ;;; openExistingOpenSegment latestPath
  end.
Definition unopened (c : FConfig) (d : Dir) (cs : list outcome) : FWriter :=
  let c := applyDefaults c in
  MkF (MkWriter d (Common c) 0 None 0 0 [] [] 0 false) false false (SyncMode c) false cs.
Definition start_loop (c : FConfig) : M FWriter (option (option error)) :=
  s <- get_st ;;
  if String.eqb (mode s) SyncModeBatch then
    started <- startSyncLoop (SyncInterval (applyDefaults c)) ;;
    ret (match started with Some _ => Some None | None => None end)
  else ret (Some None).
Definition NewWriter (c : FConfig) : M FWriter (option (option error)) :=
  if String.eqb (Dir_ (Common c)) "" then ret (Some (Some (SimpleError "wal: dir is required")))
  else
    err <- sys "wal: create dir" ;;
    match err with
    | Some err => ret (Some (Some err))
    | None =>
        err <- open_latest ;;
        match err with
        | Some err => ret (Some (Some err))
        | None => start_loop c
        end
    end.

(** ** A client of the writer *)
Inductive fop := AppendF (x : Entry) | FlushF | TickF.
Definition run_fop (o : fop) : M FWriter (option Entry) :=
  match o with
  | AppendF x => r <- Append x ;; ret (match r with None => Some (wire_entry x) | Some _ => None end)
  | FlushF => Flush ;;; ret None
  | TickF => tick_round ;;; ret None
  end.
(** The entries whose [Append] returned no error. *)
Definition run_fops (l : list fop) : M FWriter (list Entry) := for_collect l run_fop.

(** * No failure to come *)
Definition sound (s : FWriter) : Prop := calls s = [] /\ (is_Some (file (base s)) -> isOpen s = true).
(** One run of both writers, with the same answer and the same disk. *)
Definition same_at {A} (s : FWriter) (e : env) (m : M FWriter A) (m0 : M Writer A) : Prop :=
  exists r s' e', m s e = (r, s', e') /\ m0 (base s) e = (r, base s', e') /\ sound s' /\ mode s' = mode s /\ syncTicker s' = syncTicker s.

Lemma same_ret {A} s e (r : A) : sound s -> same_at s e (ret r) (ret r).
Proof. intros Hs; by exists r, s, e. Qed.
Lemma same_bind {A B} s e (m : M FWriter A) m0 (k : A -> M FWriter B) k0 :
  same_at s e m m0 -> (forall r s' e', m s e = (r, s', e') -> sound s' -> mode s' = mode s -> syncTicker s' = syncTicker s -> same_at s' e' (k r) (k0 r)) ->
  same_at s e (bind m k) (bind m0 k0).
Proof.
  intros (r & s1 & e1 & E & E0 & Hs & Hm & Ht) Hk; destruct (Hk r s1 e1 E Hs Hm Ht) as (r2 & s2 & e2 & E2 & E02 & Hs2 & Hm2 & Ht2).
  exists r2, s2, e2; rewrite (bind_run _ _ _ _ _ _ _ E), (bind_run _ _ _ _ _ _ _ E0); split_ands; congruence || done.
Qed.
Lemma same_get {B} s e (k : FWriter -> M FWriter B) k0 : same_at s e (k s) (k0 (base s)) -> same_at s e (bind get_st k) (bind get_st k0).
Proof. intros (r & s1 & e1 & H); by exists r, s1, e1. Qed.
Lemma same_upd s e f : sound s -> (is_Some (file (f (base s))) -> is_Some (file (base s))) -> same_at s e (in_base (upd_st f)) (upd_st f).
Proof. intros [Hc Ho] Hf; exists tt, (set_base (f (base s)) s), e; split_ands; try done; split; [done|]; intros H; by apply Ho, Hf. Qed.

(** Calls that succeed. *)
Lemma write_run s e path p : isOpen s = true -> calls s = [] -> os_write path p s e = ((length p, None), on_disk path p s, e).
Proof. intros Ho Hc; unfold os_write, next_call, bind, get_st, upd_st, ret; rewrite Ho; cbn [negb]; by rewrite Hc. Qed.
Lemma sync_run s e : isOpen s = true -> calls s = [] -> os_sync s e = (None, s, e).
Proof. intros Ho Hc; unfold os_sync, next_call, bind, get_st, ret; rewrite Ho; cbn [negb]; by rewrite Hc. Qed.
Lemma close_run s e : isOpen s = true -> calls s = [] -> os_close s e = (None, set_open false s, e).
Proof. intros Ho Hc; unfold os_close, next_call, bind, get_st, upd_st, ret; rewrite Ho; cbn [negb]; by rewrite Hc. Qed.

Lemma sys_run what s e : calls s = [] -> sys what s e = (None, s, e).
Proof. intros Hc; unfold sys, next_call, bind, get_st, ret; by rewrite Hc. Qed.

Lemma same_writeLocked s e p : sound s -> same_at s e (writeLocked p) (WalLog.writeLocked p).
Proof.
  intros Hs; pose proof Hs as [Hc Ho]; apply same_get; destruct (file (base s)) as [path|] eqn:Ef; [|by apply same_ret].
  specialize (Ho ltac:(by eexists)).
  exists None, (set_base (count_written p (base (on_disk path p s))) s), e; split_ands; try done; [|unfold bind, put_st, ret, count_written, on_disk, set_base, set_files; cbn; by rewrite Ef].
  erewrite bind_run by (by apply write_run); cbn [fst snd]; rewrite firstn_all; unfold in_base, zoom, bind, upd_st, ret; destruct p as [|b p]; [|done].
  cbn [length]; destruct s as [[] ? ? ? ? ?]; unfold on_disk, set_base, set_files, count_written; cbn.
  by rewrite Z.add_0_r, !app_nil_r.
Qed.
Lemma same_finalize s e : sound s -> same_at s e finalizeSegmentWithoutFlushingLocked WalLog.finalizeSegmentWithoutFlushingLocked.
Proof.
  intros Hs; pose proof Hs as [Hc Ho]; apply same_get; destruct (file (base s)) as [path|] eqn:Ef; [|by apply same_ret].
  specialize (Ho ltac:(by eexists)).
  exists None, (set_open false (set_base (no_file (base (on_disk path (sha256 (hash (base s))) s))) s)), e; split_ands; try done.
  - erewrite bind_run by (by apply write_run); cbn [snd]; cbn beta iota.
    erewrite bind_run by (by apply sync_run); cbn beta iota; by erewrite bind_run by (by apply close_run).
  - split; [done|]; cbn; by intros [].
Qed.
Lemma same_openNewSegment s e : calls s = [] -> same_at s e openNewSegment WalLog.openNewSegment.
Proof.
  intros Hc; set (path := formatSegmentFilename (segmentID (base s))).
  set (s1 := set_header false (set_open true (set_base (fresh_segment path (base s)) s))).
  assert (sound s1) as Hs1 by done.
  destruct (same_writeLocked s1 e MagicBytes Hs1) as (r & s2 & e2 & E & E0 & Hs2 & Hm & Ht).
  assert (r = None) as -> by (cbn in E0; by injection E0).
  exists None, (set_header true s2), e2; split_ands; try done.
  unfold openNewSegment; erewrite bind_run by reflexivity; erewrite bind_run by (by apply sys_run); cbn beta iota; fold path.
  do 3 erewrite bind_run by reflexivity; fold s1.
  assert (writeHeaderLocked s1 e = (None, set_header true s2, e2)) as E1.
  { unfold writeHeaderLocked; erewrite bind_run by reflexivity; change (headerWritten s1) with false; cbn beta iota.
    by rewrite (bind_run _ _ _ _ _ _ _ E). }
  by rewrite (bind_run _ _ _ _ _ _ _ E1).
Qed.
Lemma writeLocked_file p s e s' e' : writeLocked p s e = (None, s', e') -> is_Some (file (base s')).
Proof.
  unfold writeLocked, os_write, next_call, in_base, zoom, bind, get_st, upd_st, put_st, ret.
  destruct (file (base s)) as [path|] eqn:Ef; [|done]; destruct (negb (isOpen s)); [by cbn|].
  destruct (calls s) as [|[|n err] cs]; cbn [fst snd]; destruct (_ <? _)%nat; intros [= <- <-]; cbn; rewrite Ef; by eexists.
Qed.
Lemma same_flush s e : sound s -> same_at s e flushLocked WalLog.flushLocked.
Proof.
  intros Hs; apply same_get; destruct (llen (buffer (base s)) =? 0) eqn:E0.
  { destruct (_ && _) eqn:Es; [|by apply same_ret]; apply andb_prop in Es as [_ Ef%bool_decide_eq_true].
    exists None, s, e; split_ands; try done; destruct Hs as [Hc Ho]; apply sync_run; auto. }
  destruct (file (base s)); [|by apply same_ret].
  apply same_bind; unfold must_rotate; [destruct (_ || _); [|by apply same_ret]|].
  - apply same_bind; [by apply same_finalize|]; intros [err|] s1 e1 _ Hs1 _ _; [by apply same_ret|].
    apply same_bind; [apply same_upd; done|]; intros [] s2 e2 _ Hs2 _ _; apply same_openNewSegment, Hs2.
  - intros [err|] s1 e1 _ Hs1 Hm1 _; [by apply same_ret|].
    apply same_bind; [by apply same_writeLocked|]; intros [err|] s2 e2 E2 Hs2 Hm2 _; [by apply same_ret|].
    apply writeLocked_file in E2; destruct Hs2 as [Hc Ho].
    exists None, (set_base (set_buffer [] 0 (add_entries (llen (buffer (base s2))) (base s2))) s2), e2; split_ands; try done.
    unfold in_base, zoom, bind, upd_st; destruct (String.eqb (mode s) SyncModeSync); [|done].
    by rewrite sync_run by auto.
Qed.
Lemma encode_any {S T} x c (s : S) (t : T) e r s' e' : encodeEntryFrame x c s e = (r, s', e') -> s' = s /\ encodeEntryFrame x c t e = (r, t, e').
Proof.
  unfold encodeEntryFrame, Encrypt, bind, rand_read, ret; repeat (case_match; simplify_eq; try done).
  all: by intros [= <- <- <-].
Qed.
Lemma same_append x s e : sound s -> same_at s e (Append x) (WalLog.Append x).
Proof.
  intros Hs; apply same_get; destruct (closed (base s)); [by apply same_ret|].
  apply same_bind.
  { destruct (encodeEntryFrame x (CfgCipher (cfg (base s))) s e) as [[r s1] e1] eqn:E.
    destruct (encode_any x _ s (base s) e r s1 e1 E) as [-> E0]; by exists r, s, e1. }
  intros [frame|err] s1 e1 _ Hs1 _ _; [|by apply same_ret].
  apply same_bind; [by apply same_upd|]; intros [] s2 e2 _ Hs2 _ _; apply same_get; destruct (_ || _); [by apply same_flush|by apply same_ret].
Qed.

(** A flush leaves nothing for the next one. *)
Lemma flush_settles w e : is_Some (file w) -> exists w1, WalLog.flushLocked w e = (None, w1, e) /\ is_Some (file w1) /\ buffer w1 = [].
Proof.
  intros [path Hf]; unfold WalLog.flushLocked, bind, get_st, ret.
  destruct (llen (buffer w) =? 0) eqn:E0; [exists w; split_ands; [done|by eexists|]; destruct (buffer w); [done|]; apply Z.eqb_eq in E0; unfold llen in E0; cbn in E0; lia|].
  rewrite Hf; destruct (_ || _).
  - unfold WalLog.finalizeSegmentWithoutFlushingLocked, WalLog.openNewSegment, WalLog.writeLocked, bind, get_st, put_st, upd_st, ret; rewrite Hf; cbn.
    eexists; split_ands; [reflexivity|by eexists|done].
  - unfold WalLog.writeLocked, bind, get_st, put_st, upd_st, ret; rewrite Hf; cbn; eexists; split_ands; [reflexivity|by eexists|done].
Qed.
Lemma flush_fileless w e : file w = None -> snd (fst (WalLog.flushLocked w e)) = w /\ snd (WalLog.flushLocked w e) = e.
Proof. intros Hf; unfold WalLog.flushLocked, bind, get_st, ret; rewrite Hf; by destruct (_ =? _). Qed.
Definition close_tail : M Writer (option error) :=
  w <- get_st ;; match file w with None => ret None | Some _ => WalLog.finalizeSegmentLocked end.
Lemma close_after_flush w e : close_tail w e = (let '(_, w1, e1) := WalLog.flushLocked w e in close_tail w1 e1).
Proof.
  unfold close_tail at 1; erewrite bind_run by reflexivity; destruct (file w) as [path|] eqn:Hf.
  - destruct (flush_settles w e ltac:(by eexists)) as (w1 & E & [path1 Hf1] & Hb); rewrite E; unfold close_tail; erewrite bind_run by reflexivity; rewrite Hf1.
    assert (WalLog.flushLocked w1 e = (None, w1, e)) as E1 by (unfold WalLog.flushLocked; erewrite bind_run by reflexivity; by rewrite Hb).
    unfold WalLog.finalizeSegmentLocked; by rewrite (bind_run _ _ _ _ _ _ _ E), (bind_run _ _ _ _ _ _ _ E1).
  - destruct (flush_fileless w e Hf) as [H1 H2]; destruct (WalLog.flushLocked w e) as [[r w1] e1]; cbn in H1, H2; subst.
    unfold close_tail; erewrite bind_run by reflexivity; by rewrite Hf.
Qed.
Lemma same_close_tail s e : sound s ->
  same_at s e (s <- get_st ;; match file (base s) with None => ret None | Some _ => finalizeSegmentLocked end) close_tail.
Proof.
  intros Hs; apply same_get; destruct (file (base s)); [|by apply same_ret].
  apply same_bind; [by apply same_flush|]; intros [err|] s1 e1 _ Hs1 _ _; [by apply same_ret|].
  apply same_get; destruct (file (base s1)); [by apply same_finalize|by apply same_ret].
Qed.
Lemma same_close late s e : sound s -> same_at s e (Close late) WalLog.Close.
Proof.
  intros Hs; apply same_get; destruct (closed (base s)); [by apply same_ret|].
  apply same_bind; [by apply same_upd|]; intros [] s1 e1 _ Hs1 _ _; fold close_tail.
  destruct (syncTicker s && late); [|by apply same_close_tail].
  destruct (same_flush s1 e1 Hs1) as (r & s2 & e2 & E & E0 & Hs2 & Hm2 & Ht2).
  destruct (same_close_tail s2 e2 Hs2) as (r3 & s3 & e3 & E3 & E03 & H3).
  exists r3, s3, e3; rewrite close_after_flush, E0; split_ands; try apply H3; try done; [|destruct H3 as (_ & ? & ?); congruence..].
  erewrite bind_run by (unfold tick_round, Flush; erewrite bind_run by exact E; reflexivity); exact E3.
Qed.

Lemma verify_run f s e : calls s = [] -> verifyChecksumTrailer f s e = (WalLog.verifyChecksumTrailer f, s, e).
Proof.
  intros Hc; unfold verifyChecksumTrailer, WalLog.verifyChecksumTrailer; destruct (llen f <? MagicBytesSize) eqn:E1; [done|].
  erewrite bind_run by (by apply sys_run); cbn beta iota; destruct (negb (bool_decide (firstn 8 f = MagicBytes))) eqn:E2; [done|].
  destruct (llen f <? MagicBytesSize + ChecksumSize) eqn:E3; [done|].
  by erewrite bind_run by (by apply sys_run); cbn beta iota; erewrite bind_run by (by apply sys_run).
Qed.
Lemma findLatest_run s e : calls s = [] -> findLatestSegment s e = (WalLog.findLatestSegment (files (base s)), s, e).
Proof.
  intros Hc; unfold findLatestSegment, WalLog.findLatestSegment; erewrite bind_run by reflexivity; erewrite bind_run by (by apply sys_run); cbn beta iota.
  destruct (last _) as [[id path]|]; [|done]; do 2 (erewrite bind_run by (by apply sys_run); cbn beta iota).
  by erewrite bind_run by (by apply verify_run).
Qed.
Lemma same_openExisting path s e : sound s -> same_at s e (openExistingOpenSegment path) (WalLog.openExistingOpenSegment path).
Proof.
  intros Hs; pose proof Hs as [Hc Ho]; apply same_get.
  set (f := default [] (files (base s) !! path)).
  set (k := if llen f <? MagicBytesSize then _ else _).
  assert (forall m, same_at s e m k -> same_at s e (err <- sys "wal: open existing segment" ;; match err with Some err => ret (Some err) | None =>
    err <- sys "wal: stat segment" ;; match err with Some err => ret (Some err) | None =>
    err <- sys "wal: read magic" ;; match err with Some err => ret (Some err) | None => m end end end) k) as Hsys.
  { intros m (r & s1 & e1 & E & E0); exists r, s1, e1; split; [|exact E0]; do 3 (erewrite bind_run by (by apply sys_run); cbn beta iota); exact E. }
  apply Hsys; unfold k; destruct (llen f <? MagicBytesSize); [by apply same_ret|]; destruct (negb _); [by apply same_ret|].
  destruct (WalLog.verifyChecksumTrailer f) as [[closed dataLen]|err] eqn:Ev.
  - destruct closed.
    + exists (Some (SimpleError "wal: latest segment already finalized")), s, e; split_ands; try done.
      erewrite bind_run by (by apply verify_run); by rewrite Ev.
    + exists None, (set_header true (set_open true (set_base (continue_segment path dataLen (firstn (Z.to_nat dataLen) f) (base s)) s))), e.
      split_ands; try done; erewrite bind_run by (by apply verify_run); rewrite Ev.
      erewrite bind_run by (by apply sys_run); cbn beta iota; do 3 erewrite bind_run by reflexivity; by apply sys_run.
  - exists (Some err), s, e; split_ands; try done; erewrite bind_run by (by apply verify_run); by rewrite Ev.
Qed.
Lemma same_open_latest s e : calls s = [] -> file (base s) = None ->
  same_at s e open_latest (match WalLog.findLatestSegment (files (base s)) with
    | Err err => ret (Some err)
    | Ok (latestID, latestPath, isClosed) =>
        if (latestID =? 0) || isClosed
        then upd_st (set_segment (u64 (latestID + 1))) ;;; WalLog.openNewSegment
        else upd_st (set_segment latestID) ;;; WalLog.openExistingOpenSegment latestPath
    end).
Proof.
  intros Hc Hf; assert (sound s) as Hs by (split; [done|]; rewrite Hf; by intros []).
  assert (forall m, same_at s e (match WalLog.findLatestSegment (files (base s)) with Err err => ret (Some err) | Ok (latestID, latestPath, isClosed) =>
      if (latestID =? 0) || isClosed then in_base (upd_st (set_segment (u64 (latestID + 1)))) ;;; openNewSegment
      else in_base (upd_st (set_segment latestID)) ;;; openExistingOpenSegment latestPath end) m -> same_at s e open_latest m) as H.
  { intros m (r & s1 & e1 & E & E0); exists r, s1, e1; split; [|exact E0]; unfold open_latest; erewrite bind_run by (by apply findLatest_run); exact E. }
  apply H; destruct (WalLog.findLatestSegment _) as [[[id path] closed]|err]; [|by apply same_ret].
  destruct (_ || _); (apply same_bind; [by apply same_upd|]; intros [] s1 e1 _ Hs1 _ _);
    [apply same_openNewSegment, Hs1|by apply same_openExisting].
Qed.

Definition as_wop (o : fop) : wop := match o with AppendF x => AppendOp x | FlushF | TickF => FlushOp end.
Lemma same_ops l : forall s e, sound s -> same_at s e (run_fops l) (run_ops (map as_wop l)).
Proof.
  induction l as [|o l IH]; intros s e Hs; [by apply same_ret|]; unfold run_fops; cbn [for_collect map]; fold (run_fops l).
  destruct o as [x| |]; cbn [run_fop as_wop run_ops].
  - destruct (same_append x s e Hs) as (r & s1 & e1 & E & E0 & Hs1 & Hm1 & Ht1).
    destruct (IH s1 e1 Hs1) as (acked & s2 & e2 & E2 & E02 & Hs2 & Hm2 & Ht2).
    exists (match r with None => wire_entry x :: acked | Some _ => acked end), s2, e2; split_ands; try done; try congruence.
    + erewrite bind_run by (erewrite bind_run by exact E; reflexivity); erewrite bind_run by exact E2; by destruct r.
    + erewrite bind_run by exact E0; by erewrite bind_run by exact E02.
  - destruct (same_flush s e Hs) as (r & s1 & e1 & E & E0 & Hs1 & Hm1 & Ht1).
    destruct (IH s1 e1 Hs1) as (acked & s2 & e2 & E2 & E02 & Hs2 & Hm2 & Ht2).
    exists acked, s2, e2; split_ands; try done; try congruence.
    + erewrite bind_run by (erewrite bind_run by exact E; reflexivity); by erewrite bind_run by exact E2.
    + by erewrite bind_run by exact E0.
  - destruct (same_flush s e Hs) as (r & s1 & e1 & E & E0 & Hs1 & Hm1 & Ht1).
    destruct (IH s1 e1 Hs1) as (acked & s2 & e2 & E2 & E02 & Hs2 & Hm2 & Ht2).
    exists acked, s2, e2; split_ands; try done; try congruence.
    + erewrite bind_run by (erewrite bind_run by (unfold tick_round, Flush; erewrite bind_run by exact E; reflexivity); reflexivity); by erewrite bind_run by exact E2.
    + by erewrite bind_run by exact E0.
Qed.

Lemma WalLog_NewWriter_run c d e : Dir_ c <> "" ->
  WalLog.NewWriter c d e =
    (let '(r, w, e1) := (match WalLog.findLatestSegment d with
      | Err err => ret (Some err)
      | Ok (latestID, latestPath, isClosed) =>
          if (latestID =? 0) || isClosed
          then upd_st (set_segment (u64 (latestID + 1))) ;;; WalLog.openNewSegment
          else upd_st (set_segment latestID) ;;; WalLog.openExistingOpenSegment latestPath
      end : M Writer (option error)) (MkWriter d (WalLog.applyDefaults c) 0 None 0 0 [] [] 0 false) e in
    (match r with Some err => Err err | None => Ok w end, e1)).
Proof.
  intros Hd; unfold WalLog.NewWriter; rewrite (proj2 (String.eqb_neq _ _) Hd).
  destruct (WalLog.findLatestSegment d) as [[[id path] isClosed]|err]; [by destruct (_ || _)|done].
Qed.

(** C11: With no failure to come the writer is that of [WalLog]: it opens on a directory exactly where
    that one does and, driven through any operations, ticks of its loop among them, acknowledges
    the same entries and leaves the same files, in either mode of synchronisation, whether or not
    a tick comes while it closes. *)
Theorem no_failure_same (c : FConfig) (d : Dir) (l : list fop) (late : bool) (e : env)
  (Hi : 0 < SyncInterval (applyDefaults c)) :
  match WalLog.NewWriter (Common c) d e with
  | (Err err, e1) => exists s, NewWriter c (unopened c d []) e = (Some (Some err), s, e1)
  | (Ok w, e1) => exists s s2 s3 acked e2 e3 r, NewWriter c (unopened c d []) e = (Some None, s, e1) /\
      run_fops l s e1 = (acked, s2, e2) /\ run_ops (map as_wop l) w e1 = (acked, base s2, e2) /\
      Close late s2 e2 = (r, s3, e3) /\ WalLog.Close (base s2) e2 = (r, base s3, e3)
  end.
Proof.
  destruct (String.eqb (Dir_ (Common c)) "") eqn:Hdir.
  { unfold WalLog.NewWriter; rewrite Hdir; eexists; unfold NewWriter; by rewrite Hdir. }
  rewrite WalLog_NewWriter_run by (by apply String.eqb_neq); unfold NewWriter; rewrite Hdir; set (s0 := unopened c d []).
  destruct (same_open_latest s0 e eq_refl eq_refl) as (r & s & e1 & E & E0 & Hs & Hm & _); fold (WalLog.applyDefaults (Common c)).
  change (MkWriter d (WalLog.applyDefaults (Common c)) 0 None 0 0 [] [] 0 false) with (base s0); change (files (base s0)) with d in E0; rewrite E0.
  destruct r as [err|].
  { exists s; erewrite bind_run by (by apply sys_run); cbn beta iota; by erewrite bind_run by exact E. }
  assert (exists s1, start_loop c s e1 = (Some None, s1, e1) /\ base s1 = base s /\ sound s1) as (s1 & E1 & Hb & Hs1).
  { unfold start_loop, startSyncLoop; rewrite (proj2 (Z.leb_gt _ _)) by done; unfold bind, get_st; destruct (String.eqb (mode s) SyncModeBatch); eexists; split_ands; done. }
  rewrite <- Hb; destruct (same_ops l s1 e1 Hs1) as (acked & s2 & e2 & E2 & E02 & Hs2 & _ & _).
  destruct (same_close late s2 e2 Hs2) as (r3 & s3 & e3 & E3 & E03 & _).
  exists s1, s2, s3, acked, e2, e3, r3; split_ands; try done.
  erewrite bind_run by (by apply sys_run); cbn beta iota; erewrite bind_run by exact E; exact E1.
Qed.

(** * A rotation that cannot open its segment *)
Lemma write_done s e path p cs : isOpen s = true -> calls s = Done :: cs ->
  os_write path p s e = ((length p, None), on_disk path p (set_calls cs s), e).
Proof. intros Ho Hc; unfold os_write, next_call, bind, get_st, upd_st, put_st, ret; rewrite Ho; cbn [negb]; by rewrite Hc. Qed.
Lemma sync_done s e cs : isOpen s = true -> calls s = Done :: cs -> os_sync s e = (None, set_calls cs s, e).
Proof. intros Ho Hc; unfold os_sync, next_call, bind, get_st, put_st, ret; rewrite Ho; cbn [negb]; by rewrite Hc. Qed.
Lemma close_done s e cs : isOpen s = true -> calls s = Done :: cs -> os_close s e = (None, set_open false (set_calls cs s), e).
Proof. intros Ho Hc; unfold os_close, next_call, bind, get_st, upd_st, put_st, ret; rewrite Ho; cbn [negb]; by rewrite Hc. Qed.

(** The segment is finalised as on a disk that never fails. *)
Lemma finalize_done s e cs w : isOpen s = true -> calls s = Done :: Done :: Done :: cs ->
  WalLog.finalizeSegmentWithoutFlushingLocked (base s) e = (None, w, e) ->
  finalizeSegmentWithoutFlushingLocked s e = (None, set_open false (set_calls cs (set_base w s)), e).
Proof.
  intros Ho Hc Hw; unfold finalizeSegmentWithoutFlushingLocked; erewrite bind_run by reflexivity.
  unfold WalLog.finalizeSegmentWithoutFlushingLocked, bind, get_st, put_st, ret in Hw; destruct (file (base s)) as [path|] eqn:Ef; [|discriminate Hw].
  injection Hw as <-; erewrite bind_run by (by apply write_done); cbn [snd]; cbn beta iota.
  erewrite bind_run by (by eapply sync_done); cbn beta iota; by erewrite bind_run by (by eapply close_done).
Qed.

(** Frames are waiting, and the file [o] is missing or has been closed. *)
Definition stuck (d : Dir) (o : option string) (c : bool) (s : FWriter) : Prop :=
  files (base s) = d /\ file (base s) = o /\ (o = None \/ isOpen s = false) /\ buffer (base s) <> [] /\ closed (base s) = c.
Lemma buffered s : buffer (base s) <> [] -> (llen (buffer (base s)) =? 0) = false.
Proof. destruct (buffer (base s)) as [|f b]; [done|]; intros _; apply Z.eqb_neq; unfold llen; cbn [length]; lia. Qed.
Lemma stuck_flush d o c s e : stuck d o c s -> exists er, flushLocked s e = (Some er, s, e).
Proof.
  intros (_ & Hf & Ho & Hb & _); unfold flushLocked; erewrite bind_run by reflexivity; rewrite (buffered s Hb), Hf.
  destruct o as [path|]; [destruct Ho as [|Ho]; [done|]|by eexists].
  assert (forall p, os_write path p s e = ((0%nat, Some ErrClosed), s, e)) as Hwr by (intros p; unfold os_write, bind, get_st; by rewrite Ho).
  destruct (must_rotate (base s)).
  - unfold rotate, finalizeSegmentWithoutFlushingLocked, bind at 2, get_st, bind, ret; rewrite Hf, Hwr; by eexists.
  - unfold writeLocked, bind, get_st, ret; rewrite Hf, Hwr; by eexists.
Qed.
Lemma stuck_append d o c x s e : stuck d o c s -> stuck d o c (snd (fst (Append x s e))).
Proof.
  intros Hs; unfold Append; erewrite bind_run by reflexivity; destruct (closed (base s)); [done|].
  destruct (encodeEntryFrame x (CfgCipher (cfg (base s))) s e) as [[r s1] e1] eqn:E; destruct (encode_any x _ s s e r s1 e1 E) as [-> _].
  erewrite bind_run by exact E; destruct r as [frame|err]; [|done].
  do 2 erewrite bind_run by reflexivity; set (s1 := set_base _ s).
  assert (stuck d o c s1) as Hs1 by (destruct Hs as (Hf & Hd & Ho & Hb & Hc); split_ands; try done; cbn; by destruct (buffer (base s))).
  destruct (_ || _); [destruct (stuck_flush d o c s1 e1 Hs1) as [er Er]; by rewrite Er|done].
Qed.
(** What [Append] still acknowledges: what leaves the batch short of both of its limits. *)
Definition fits (s : FWriter) (frame : bytes) : Prop :=
  llen (buffer (base s)) + 1 < BatchCount (cfg (base s)) /\ bufferBytes (base s) + llen frame < BatchBytes (cfg (base s)).
Lemma stuck_append_answer d o x frame s s1 e e1 : stuck d o false s ->
  encodeEntryFrame x (CfgCipher (cfg (base s))) s e = (Ok frame, s1, e1) -> (fst (fst (Append x s e)) = None <-> fits s frame).
Proof.
  intros Hs E; destruct (encode_any x _ s s e _ s1 e1 E) as [-> _].
  unfold Append; erewrite bind_run by reflexivity; pose proof Hs as (Hd & Hf & Ho & Hb & Hc); rewrite Hc; cbv iota.
  erewrite bind_run by exact E; cbv beta iota; do 2 erewrite bind_run by reflexivity; set (sb := set_base _ s).
  assert (stuck d o false sb) as Hsb by (split_ands; try done; cbn; by destruct (buffer (base s))).
  destruct (stuck_flush d o false sb e1 Hsb) as [er Er]; unfold fits.
  assert (llen (buffer (base sb)) = llen (buffer (base s)) + 1) as -> by (cbn; unfold llen; rewrite length_app; cbn [length]; lia).
  change (cfg (base sb)) with (cfg (base s)); change (bufferBytes (base sb)) with (bufferBytes (base s) + llen frame).
  destruct (Z.leb_spec (BatchCount (cfg (base s))) (llen (buffer (base s)) + 1)), (Z.leb_spec (BatchBytes (cfg (base s))) (bufferBytes (base s) + llen frame));
    cbn -[flushLocked llen]; rewrite ?Er; cbn [fst]; (split; [intros ?; first [done|lia]|intros [? ?]; first [done|exfalso; lia]]).
Qed.
Lemma stuck_run d o c l : forall s e, stuck d o c s -> stuck d o c (snd (fst (run_fops l s e))).
Proof.
  induction l as [|op l IH]; intros s e Hs; [done|]; unfold run_fops; cbn [for_collect]; fold (run_fops l).
  assert (stuck d o c (snd (fst (run_fop op s e)))) as H1.
  { destruct (stuck_flush d o c s e Hs) as [er Er]; destruct op as [x| |]; cbn [run_fop]; unfold tick_round, Flush, bind; [|by rewrite Er..].
    pose proof (stuck_append d o c x s e Hs) as H; by destruct (Append x s e) as [[r s1] e1]. }
  unfold bind at 1; destruct (run_fop op s e) as [[r s1] e1]; cbn [fst snd] in H1; specialize (IH s1 e1 H1).
  unfold bind; by destruct (run_fops l s1 e1) as [[acked s2] e2], r.
Qed.
(** [Close] reports the frames it could not write only where there is a file. *)
Lemma stuck_close d o late s e : stuck d o false s ->
  exists r s1, Close late s e = (r, s1, e) /\ files (base s1) = d /\ (r = None <-> o = None).
Proof.
  intros Hs; unfold Close; erewrite bind_run by reflexivity; pose proof Hs as (Hd & Hf & _ & _ & ->).
  set (s1 := set_base (set_closed (base s)) s); assert (stuck d o true s1) as Hs1 by (destruct Hs as (? & ? & ? & ? & _); by split_ands).
  destruct (stuck_flush d o true s1 e Hs1) as [er Er]; erewrite bind_run by reflexivity; fold s1.
  assert ((if syncTicker s && late then tick_round else ret tt) s1 e = (tt, s1, e)) as Et
    by (destruct (_ && _); [unfold tick_round, Flush, bind; by rewrite Er|done]).
  rewrite (bind_run _ _ _ _ _ _ _ Et); erewrite bind_run by reflexivity; change (file (base s1)) with (file (base s)); rewrite Hf.
  destruct o as [path|]; [|by exists None, s1].
  exists (Some er), s1; split; [|by split]; unfold finalizeSegmentLocked; by rewrite (bind_run _ _ _ _ _ _ _ Er).
Qed.

Section Failures.
Context (cipher : option Cipher) (Hcipher : cipher_ok cipher).

Lemma holds_waits i k w es pend : holds cipher i k w es pend -> pend <> [] -> buffer w <> [] /\ is_Some (file w).
Proof.
  intros Hw Hp; destruct Hw as (? & ? & ? & ? & H); decompose [and] H; split; [|by eexists]; intros E; rewrite E in *.
  match goal with Hp : Forall2 _ pend [] |- _ => by apply Forall2_nil_inv_r in Hp end.
Qed.
Lemma flush_rotate_error s er s1 e : buffer (base s) <> [] -> is_Some (file (base s)) -> must_rotate (base s) = true ->
  rotate s e = (Some er, s1, e) -> Flush s e = (Some er, s1, e).
Proof.
  intros Hb [path Hf] Hrot Er; unfold Flush, flushLocked; erewrite bind_run by reflexivity; rewrite (buffered s Hb), Hf, Hrot.
  by rewrite (bind_run _ _ _ _ _ _ _ Er).
Qed.

(** C12: When a flush has finalised the full segment and cannot create the next one, the writer has no
    file, and never tries again: whatever the client does, and however the disk recovers, [Append]
    goes on to acknowledge exactly the entries that leave the batch below both of its limits,
    [Close] drops them all and reports success, and the log reads back as it was before the flush. *)
Theorem failed_rotation_loses (i k : Z) (s : FWriter) (es pend : list Entry) (n : nat) (err : error) (cs : list outcome) (e : env)
  (Hw : holds cipher i k (base s) es pend) (Hpend : pend <> [])
  (Ho : isOpen s = true) (Hcl : closed (base s) = false) (Hrot : must_rotate (base s) = true)
  (Hc : calls s = Done :: Done :: Done :: Fails n err :: cs) :
  exists s1, Flush s e = (Some (WrapError "wal: open segment" err), s1, e) /\
    forall l late acked s2 e2, run_fops l s1 e = (acked, s2, e2) ->
      (forall x frame s' e', encodeEntryFrame x (CfgCipher (cfg (base s2))) s2 e2 = (Ok frame, s', e') ->
         fst (fst (Append x s2 e2)) = None <-> fits s2 frame) /\
      exists s3, Close late s2 e2 = (None, s3, e2) /\
        exists rd, ReadAll (NewReader (files (base s3)) cipher) e2 = (Ok es, rd, e2).
Proof.
  destruct (finalize_holds cipher i k (base s) es pend e Hw) as (w & Ew & pre & ess & Hpre & -> & Hf & Hl & _ & Hid & Hb & Hcfg & Hcl' & _).
  assert (0 <= i /\ i + llen pre <= two64) as [Hi0 Hib] by (destruct Hw as (? & ? & ? & ? & H); decompose [and] H; lia).
  destruct (holds_waits _ _ _ _ _ Hw Hpend) as [Hbuf Hfile].
  set (s1 := set_calls cs (set_base (set_segment (u64 (segmentID w + 1)) w) (set_open false (set_calls (Fails n err :: cs) (set_base w s))))).
  exists s1; split.
  - apply flush_rotate_error; [done..|]; unfold rotate; erewrite bind_run by (by eapply finalize_done); cbn beta iota; by erewrite bind_run by reflexivity.
  - intros l late acked s2 e2 Hrun.
    assert (stuck (dir_of i pre) None false s1) as Hs1.
    { unfold stuck; split_ands; [done| |by left|by cbn; rewrite Hb|by cbn; rewrite Hcl']; cbn; revert Ew.
      unfold WalLog.finalizeSegmentWithoutFlushingLocked, bind, get_st, put_st, ret; destruct (file (base s)); [|done]; by intros [= <-]. }
    pose proof (stuck_run _ _ _ l s1 e Hs1) as Hs2; rewrite Hrun in Hs2; cbn [fst snd] in Hs2.
    split; [intros x frame s' e' Hx; by eapply stuck_append_answer|].
    destruct (stuck_close _ _ late s2 e2 Hs2) as (r & s3 & E3 & Hd & [_ Hr]); rewrite (Hr eq_refl) in E3; exists s3; split; [done|]; rewrite Hd.
    apply readall_dir; [lia|lia|done].
Qed.

(** A segment whose header was cut short makes every later start fail. *)
Lemma short_header_refused i pre n c e :
  1 <= i -> i + llen pre < two64 -> (n < 8)%nat -> Dir_ c <> "" ->
  exists er, WalLog.NewWriter c (dir_of i (pre ++ [firstn n MagicBytes])) e = (Err er, e).
Proof.
  intros Hi Hb Hn Hd; assert (llen (firstn n MagicBytes) = Z.of_nat n) as Hlen by (unfold llen; rewrite length_firstn; cbn [length MagicBytes]; f_equal; cbn; lia).
  assert (WalLog.verifyChecksumTrailer (firstn n MagicBytes) = Ok (false, Z.of_nat n)) as Hv.
  { unfold WalLog.verifyChecksumTrailer; rewrite Hlen; by rewrite (proj2 (Z.ltb_lt _ _)) by (unfold MagicBytesSize; lia). }
  assert (0 <= llen pre) by (unfold llen; lia).
  rewrite WalLog_NewWriter_run by done; rewrite (findLatest_snoc i pre _ false (Z.of_nat n)) by (done || lia).
  rewrite (proj2 (Z.eqb_neq _ _)) by lia; cbn [orb]; erewrite bind_run by reflexivity.
  unfold WalLog.openExistingOpenSegment; erewrite bind_run by reflexivity; cbn [files set_segment].
  rewrite dir_of_snoc, lookup_insert_eq by lia; cbn [default id]; rewrite Hlen, (proj2 (Z.ltb_lt _ _)) by (unfold MagicBytesSize; lia).
  by eexists.
Qed.

Lemma rotate_short_header s w n err cs e d : isOpen s = true -> closed (base s) = false ->
  WalLog.finalizeSegmentWithoutFlushingLocked (base s) e = (None, w, e) -> files w = d -> buffer w = buffer (base s) -> closed w = closed (base s) ->
  calls s = Done :: Done :: Done :: Done :: Fails n err :: cs ->
  let path := formatSegmentFilename (u64 (segmentID w + 1)) in
  exists s1, rotate s e = (Some err, s1, e) /\ files (base s1) = <[path := firstn n MagicBytes]> d /\ file (base s1) = Some path /\
    isOpen s1 = false /\ buffer (base s1) = buffer (base s) /\ closed (base s1) = false.
Proof.
  intros Ho Hcl Ew Hf Hb Hcl' Hc path; set (w1 := set_segment (u64 (segmentID w + 1)) w).
  set (sa := set_base w1 (set_open false (set_calls (Done :: Fails n err :: cs) (set_base w s)))).
  set (sb := set_header false (set_open true (set_base (fresh_segment path w1) (set_calls (Fails n err :: cs) sa)))).
  assert (exists s1, writeHeaderLocked sb e = (Some err, s1, e) /\ files (base s1) = <[path := firstn n MagicBytes]> d /\ file (base s1) = Some path /\
    isOpen s1 = true /\ buffer (base s1) = buffer (base s) /\ closed (base s1) = false) as (s1 & Eh & H1 & H2 & H3 & H4 & H5).
  { assert (os_write path MagicBytes sb e = ((length (firstn n MagicBytes), Some err), on_disk path (firstn n MagicBytes) (set_calls cs sb), e)) as Eo by done.
    unfold writeHeaderLocked; erewrite bind_run by reflexivity; change (headerWritten sb) with false; cbn beta iota.
    unfold writeLocked, bind, get_st, ret; change (file (base sb)) with (Some path); cbn beta iota; rewrite Eo; cbn [fst snd].
    assert (files (base (on_disk path (firstn n MagicBytes) (set_calls cs sb))) = <[path := firstn n MagicBytes]> d) as Hd
      by (cbn; by rewrite lookup_insert_eq, insert_insert_eq, Hf).
    destruct (0 <? _)%nat; (eexists; split_ands; [reflexivity|exact Hd|reflexivity|reflexivity|cbn; exact Hb|cbn; congruence]). }
  destruct (os_close s1 e) as [[x s2] e2] eqn:Ec.
  assert (e2 = e /\ base s2 = base s1 /\ isOpen s2 = false) as (-> & Hb2 & Ho2).
  { revert Ec; unfold os_close, next_call, bind, get_st, upd_st, put_st, ret; rewrite H3; cbn [negb]; destruct (calls s1); by intros [= <- <- <-]. }
  exists s2; rewrite Hb2; split_ands; try done; unfold rotate; erewrite bind_run by (by eapply finalize_done); cbn beta iota.
  erewrite bind_run by reflexivity; fold w1; unfold openNewSegment; erewrite bind_run by reflexivity; erewrite bind_run by reflexivity; cbn beta iota.
  do 3 erewrite bind_run by reflexivity; rewrite (bind_run _ _ _ _ _ _ _ Eh); cbn beta iota; by rewrite (bind_run _ _ _ _ _ _ _ Ec).
Qed.
(** When the new segment is created and its header cannot be written (a full disk), the writer
    keeps the file it has closed: every later flush fails, [Close] too, and the short file stays
    the latest segment, on which no writer opens any more. *)
Theorem failed_header_blocks (i k : Z) (s : FWriter) (es pend : list Entry) (n : nat) (err : error) (cs : list outcome) (e : env)
  (Hw : holds cipher i (k + 1) (base s) es pend) (Hk : 0 <= k) (Hpend : pend <> [])
  (Ho : isOpen s = true) (Hcl : closed (base s) = false) (Hrot : must_rotate (base s) = true)
  (Hn : (n < 8)%nat) (Hc : calls s = Done :: Done :: Done :: Done :: Fails n err :: cs) :
  exists s1, Flush s e = (Some err, s1, e) /\
    forall l late acked s2 e2, run_fops l s1 e = (acked, s2, e2) ->
      exists er s3, Close late s2 e2 = (Some er, s3, e2) /\
        forall c e3, Dir_ c <> "" -> exists er', WalLog.NewWriter c (files (base s3)) e3 = (Err er', e3).
Proof.
  destruct (finalize_holds cipher i (k + 1) (base s) es pend e Hw) as (w & Ew & pre & ess & Hpre & -> & Hf & Hl & _ & Hid & Hb & Hcfg & Hcl' & _).
  assert (1 <= i /\ i + llen pre < two64 /\ segmentID w + 1 = i + llen pre /\ u64 (segmentID w + 1) = segmentID w + 1) as (Hi & Hib & Hseg & Hu).
  { destruct Hw as (pre0 & ? & ? & ? & H); decompose [and] H; assert (0 <= llen pre0) by (unfold llen; lia).
    split_ands; try lia; apply u64_id; lia. }
  destruct (holds_waits _ _ _ _ _ Hw Hpend) as [Hbuf Hfile].
  destruct (rotate_short_header s w n err cs e _ Ho Hcl Ew Hf Hb Hcl' Hc) as (s1 & Er & Hs1 & Hs2 & Hs3 & Hs4 & Hs5).
  rewrite Hu, Hseg, <- dir_of_snoc in Hs1 by lia; rewrite Hu, Hseg in Hs2.
  exists s1; split.
  - by apply flush_rotate_error.
  - intros l late acked s2 e2 Hrun; assert (stuck (dir_of i (pre ++ [firstn n MagicBytes])) (Some (formatSegmentFilename (i + llen pre))) false s1) as Hst.
    { unfold stuck; split_ands; try done; [by right|by rewrite Hs4]. }
    pose proof (stuck_run _ _ _ l s1 e Hst) as Hst2; rewrite Hrun in Hst2; cbn [fst snd] in Hst2.
    destruct (stuck_close _ _ late s2 e2 Hst2) as (r & s3 & E3 & Hd & [Hr _]).
    destruct r as [er|]; [|by specialize (Hr eq_refl)]; exists er, s3; split; [done|]; rewrite Hd; intros c e3 Hdir; by apply short_header_refused.
Qed.

(** A frame in the buffer. *)
Lemma buffer_holds i k w es pend x (frame : bytes) n : holds cipher i k w es pend -> good cipher (wire_entry x) frame ->
  holds cipher i k (set_buffer (buffer w ++ [frame])%list n w) es (pend ++ [wire_entry x]).
Proof.
  intros (pre & ess & frames & cur & H) Hg; decompose [and] H; exists pre, ess, frames, cur; cbn [set_buffer buffer files segmentID file hash fileSize cfg].
  split_ands; try done; by apply Forall2_snoc.
Qed.
(** Writing nothing to the open file changes nothing. *)
Lemma holds_write_nothing i k w es pend path : holds cipher i k w es pend -> file w = Some path ->
  set_files (<[path := (default [] (files w !! path) ++ [])%list]> (files w)) w = w.
Proof.
  intros (pre & ess & frames & cur & H) Hp; decompose [and] H.
  assert (files w !! path = Some (seg_data frames)) as Hl.
  { match goal with Hf : files w = _, Hi : segmentID w = _, Hfile : file w = Some _ |- _ => rewrite Hfile, Hi in Hp; injection Hp as <-; rewrite Hf end.
    rewrite dir_of_snoc by lia; apply lookup_insert_eq. }
  rewrite Hl; cbn [default id]; rewrite app_nil_r, insert_id by done; by destruct w.
Qed.

Lemma write_refused s path p err cs e : file (base s) = Some path -> isOpen s = true -> calls s = Fails 0 err :: cs ->
  set_files (<[path := (default [] (files (base s) !! path) ++ [])%list]> (files (base s))) (base s) = base s ->
  writeLocked p s e = (Some err, set_calls cs s, e).
Proof.
  intros Hf Ho Hc Hsame; unfold writeLocked; erewrite bind_run by reflexivity; rewrite Hf.
  unfold os_write, next_call, bind, get_st, upd_st, put_st, ret; rewrite Ho; cbn [negb]; rewrite Hc; cbn [fst snd]; change (take 0 p) with (@nil Z); cbn [length Nat.ltb Nat.leb].
  assert (on_disk path [] (set_calls cs s) = set_calls cs s) as ->; [|done].
  unfold on_disk, set_base; cbn [base set_calls isOpen headerWritten mode syncTicker calls]; by rewrite Hsame.
Qed.
Lemma append_refused i k s es pend x frame err cs e e1 path :
  let w1 := set_buffer (buffer (base s) ++ [frame])%list (bufferBytes (base s) + llen frame) (base s) in
  holds cipher i k w1 es pend -> file (base s) = Some path -> isOpen s = true -> closed (base s) = false ->
  CfgCipher (cfg (base s)) = cipher -> encodeEntryFrame x cipher s e = (Ok frame, s, e1) ->
  BatchCount (cfg (base s)) <= llen (buffer (base s)) + 1 -> must_rotate w1 = false -> calls s = Fails 0 err :: cs ->
  Append x s e = (Some (WrapError "wal: write batch" err), set_calls cs (set_base w1 s), e1).
Proof.
  intros w1 Hw1 Hpath Ho Hcl Hcipher0 Henc Hbatch Hrot Hc.
  unfold Append; erewrite bind_run by reflexivity; rewrite Hcl, Hcipher0; erewrite bind_run by exact Henc; cbn beta iota.
  do 2 erewrite bind_run by reflexivity; fold w1; change (buffer (base (set_base w1 s))) with (buffer (base s) ++ [frame])%list.
  change (cfg (base (set_base w1 s))) with (cfg (base s)); rewrite llen_snoc, (proj2 (Z.leb_le _ _) Hbatch); cbn [orb].
  unfold flushLocked; erewrite bind_run by reflexivity; rewrite (buffered (set_base w1 s)) by (cbn; by destruct (buffer (base s))).
  change (base (set_base w1 s)) with w1; change (file w1) with (file (base s)); rewrite Hpath, Hrot.
  erewrite bind_run by reflexivity; cbn beta iota.
  erewrite bind_run by (by apply (write_refused _ path _ err cs); [..|apply (holds_write_nothing i k w1 es pend)]).
  done.
Qed.

(** An entry whose [Append] failed because the batch could not be written stays in the buffer: the
    next flush that succeeds logs it, ahead of everything acknowledged later, and it is read back
    with them. *)
Theorem refused_append_logged (i : Z) (s : FWriter) (es pend : list Entry) (x : Entry) (frame : bytes) (err : error)
  (l : list fop) (late : bool) (e e1 : env)
  (Hw : holds cipher i (1 + llen l) (base s) es pend) (Ho : isOpen s = true) (Hcl : closed (base s) = false) (He : rnd_ok e)
  (Hx : loggable cipher x) (Henc : encodeEntryFrame x cipher s e = (Ok frame, s, e1))
  (Hbatch : BatchCount (cfg (base s)) <= llen (buffer (base s)) + 1)
  (Hrot : must_rotate (set_buffer (buffer (base s) ++ [frame])%list 0 (base s)) = false)
  (Hc : calls s = [Fails 0 err]) (Hl : Forall (op_ok cipher) (map as_wop l)) :
  exists s1, Append x s e = (Some (WrapError "wal: write batch" err), s1, e1) /\
    forall acked s2 e2, run_fops l s1 e1 = (acked, s2, e2) ->
      exists s3, Close late s2 e2 = (None, s3, e2) /\
        exists rd, ReadAll (NewReader (files (base s3)) cipher) e2 = (Ok (es ++ pend ++ [wire_entry x] ++ acked)%list, rd, e2).
Proof.
  assert (CfgCipher (cfg (base s)) = cipher) as Hcipher0 by (destruct Hw as (? & ? & ? & ? & H); decompose [and] H; done).
  destruct (frame_ok x cipher s s e e1 frame (proj1 Hx) Hcipher He Henc (proj2 Hx (base s) (base s) e e1 frame (proj2 (encode_any x cipher s (base s) e _ _ _ Henc))))
    as (body & Hbody & Hlen & _ & Hdec).
  assert (good cipher (wire_entry x) frame) as Hg by (by exists body).
  assert (rnd_ok e1) as He1 by (destruct (encode_state cipher Hcipher x s s e e1 _ Henc) as [_ H]; auto).
  set (w1 := set_buffer (buffer (base s) ++ [frame])%list (bufferBytes (base s) + llen frame) (base s)).
  pose proof (buffer_holds i _ _ es pend x frame (bufferBytes (base s) + llen frame) Hw Hg) as Hw1; fold w1 in Hw1.
  assert (exists path, file (base s) = Some path) as [path Hpath] by (destruct Hw as (? & ? & ? & ? & H); decompose [and] H; by eexists).
  exists (set_calls [] (set_base w1 s)); split.
  { by apply (append_refused i (1 + llen l) s es (pend ++ [wire_entry x])%list x frame err [] e e1 path). }
  intros acked s2 e2 Hrun; assert (sound (set_calls [] (set_base w1 s))) as Hs1 by done.
  destruct (same_ops l _ e1 Hs1) as (acked' & s2' & e2' & E & E0 & Hs2 & _); rewrite E in Hrun; injection Hrun as <- <- <-.
  assert (llen (map as_wop l) = llen l) as Hll by (unfold llen; by rewrite length_map).
  destruct (run_holds cipher Hcipher i (map as_wop l) 1 w1 es (pend ++ [wire_entry x]) e1 acked' (base s2') e2')
    as (Hcl2 & es' & pend' & Hw2 & Hcat); try done; [by rewrite Hll|].
  destruct (same_close late s2' e2' Hs2) as (r & s3 & e3 & E3 & E03 & _).
  destruct (close_holds cipher i 0 (base s2') es' pend' e2' Hw2 ltac:(lia) Hcl2) as (w' & pre & ess & Ec & Hf & Hpre & Hess & _ & Hb).
  rewrite Ec in E03; injection E03 as <- -> <-; exists s3; split; [done|]; rewrite Hf.
  assert (0 <= i) by (destruct Hw as (? & ? & ? & ? & H); decompose [and] H; lia).
  destruct (readall_dir cipher i pre ess e2') as [rd Hrd]; [done|lia|done|]; exists rd; rewrite Hrd, Hess, Hcat, <- !app_assoc; done.
Qed.
End Failures.

(** * A write cut short *)
Definition demo_batch : FConfig := MkFConfig (MkConfig "wal" 3 0 0 0 None) "batch" 0.
(** A writer opened on an empty directory; [cs] are the calls that come after. *)
Definition demo_opened (c : FConfig) (cs : list outcome) : FWriter :=
  snd (fst (NewWriter c (unopened c ∅ (Done :: Done :: Done :: Done :: cs)) demo_log_env)).
Definition ENOSPC := SimpleError "no space left on device".
(** Two entries are buffered, a tick writes [n] bytes of them and fails, a third entry fills the
    batch, and the writer is closed: what was acknowledged, what [Close] answers, and the log. *)
Definition short_write_run (n : nat) : list Entry * option error * Res (list Entry) :=
  let '(acked, s1, e1) := run_fops [AppendF (demo_delete 1); AppendF (demo_delete 2); TickF; AppendF (demo_delete 3)]
    (demo_opened demo_batch [Fails n ENOSPC]) demo_log_env in
  let '(r, s2, e2) := Close false s1 e1 in (acked, r, fst (fst (ReadAll (NewReader (files (base s2)) None) e2))).

(** The frames of a batch cut short stay in the buffer and are written again behind the torn part:
    wherever inside the first frame the write stopped, every entry is acknowledged, the segment is
    finalised with a valid checksum, and nothing of it is read back. *)
Theorem short_write_loses (n : nat) (Hn : (0 < n < 32)%nat) :
  short_write_run n = ([demo_delete 1; demo_delete 2; demo_delete 3], None, Ok []).
Proof.
  assert (Forall (fun n => short_write_run n = ([demo_delete 1; demo_delete 2; demo_delete 3], None, Ok [])) (seq 1 31)) as H.
  { cbn [seq]; repeat (apply Forall_cons_2; [vm_compute; reflexivity|]); apply Forall_nil_2. }
  rewrite Forall_forall in H; apply H, elem_of_seq; lia.
Qed.

(** * Witnesses *)
Lemma no_failure_same_witness :
  exists w e1, WalLog.NewWriter (Common demo_batch) ∅ demo_log_env = (Ok w, e1) /\
    exists s s2 s3 acked e2 e3 r, NewWriter demo_batch (unopened demo_batch ∅ []) demo_log_env = (Some None, s, e1) /\
      run_fops [AppendF (demo_delete 1); TickF; AppendF (demo_delete 2)] s e1 = (acked, s2, e2) /\
      run_ops (map as_wop [AppendF (demo_delete 1); TickF; AppendF (demo_delete 2)]) w e1 = (acked, base s2, e2) /\
      Close true s2 e2 = (r, s3, e3) /\ WalLog.Close (base s2) e2 = (r, base s3, e3).
Proof.
  pose proof (no_failure_same demo_batch ∅ [AppendF (demo_delete 1); TickF; AppendF (demo_delete 2)] true demo_log_env eq_refl) as H.
  destruct (WalLog.NewWriter (Common demo_batch) ∅ demo_log_env) as [[w|err] e1] eqn:E; [|exfalso; vm_compute in E; discriminate E].
  exists w, e1; split; [reflexivity|exact H].
Defined.

(** One entry in the segment and one in the buffer. *)
Definition demo_config (count entries : Z) : FConfig := MkFConfig (MkConfig "wal" count 0 0 entries None) "batch" 0.
Definition demo_waiting (c : FConfig) (cs : list outcome) : FWriter :=
  set_calls cs (snd (fst (run_fops [AppendF (demo_delete 1); FlushF; AppendF (demo_delete 2)] (demo_opened c []) demo_log_env))).
Lemma demo_good_delete t : decodeEntryFrame (skipn 4 (demo_frame t)) None = Ok (demo_delete t) ->
  demo_frame t = (be32 (llen (skipn 4 (demo_frame t))) ++ skipn 4 (demo_frame t))%list ->
  5 <= llen (skipn 4 (demo_frame t)) < 2 ^ 32 -> good None (demo_delete t) (demo_frame t).
Proof. intros Hd Hf Hl; by exists (skipn 4 (demo_frame t)). Qed.
Ltac demo_frame_good := apply Forall2_cons; split; [apply demo_good_delete; vm_compute; by try split_ands|constructor].
Lemma demo_holds k s : 0 <= k < 9 -> files (base s) = dir_of 1 [seg_data [demo_frame 1]] -> segmentID (base s) = 1 ->
  file (base s) = Some (formatSegmentFilename 1) -> hash (base s) = seg_data [demo_frame 1] -> fileSize (base s) = llen (seg_data [demo_frame 1]) ->
  buffer (base s) = [demo_frame 2] -> CfgCipher (cfg (base s)) = None -> holds None 1 k (base s) [demo_delete 1] [demo_delete 2].
Proof.
  intros Hk Hf Hid Hfile Hh Hsz Hb Hc; exists [], [], [demo_frame 1], [demo_delete 1]; rewrite Hb, Hid.
  split_ands; try done; [demo_frame_good|demo_frame_good|lia|].
  assert (100 < two64) by (vm_compute; reflexivity); change (llen (@nil bytes)) with 0; lia.
Qed.
Lemma failed_rotation_loses_witness :
  fst (fst (run_fops [AppendF (demo_delete 3)] (snd (fst (Flush (demo_waiting (demo_config 3 1) [Done; Done; Done; Fails 0 ENOSPC]) demo_log_env))) demo_log_env))
    = [demo_delete 3] /\
  exists s1, Flush (demo_waiting (demo_config 3 1) [Done; Done; Done; Fails 0 ENOSPC]) demo_log_env = (Some (WrapError "wal: open segment" ENOSPC), s1, demo_log_env) /\
    forall l late acked s2 e2, run_fops l s1 demo_log_env = (acked, s2, e2) ->
      (forall x frame s' e', encodeEntryFrame x (CfgCipher (cfg (base s2))) s2 e2 = (Ok frame, s', e') ->
         fst (fst (Append x s2 e2)) = None <-> fits s2 frame) /\
      exists s3, Close late s2 e2 = (None, s3, e2) /\
        exists rd, ReadAll (NewReader (files (base s3)) None) e2 = (Ok [demo_delete 1], rd, e2).
Proof.
  split; [vm_compute; reflexivity|].
  apply (failed_rotation_loses None 1 2 _ [demo_delete 1] [demo_delete 2] 0 ENOSPC []).
  - apply demo_holds; [lia|vm_compute; reflexivity..].
  - discriminate.
  - vm_compute; reflexivity.
  - vm_compute; reflexivity.
  - vm_compute; reflexivity.
  - reflexivity.
Defined.
Lemma failed_header_blocks_witness :
  exists s1, Flush (demo_waiting (demo_config 3 1) [Done; Done; Done; Done; Fails 3 ENOSPC]) demo_log_env = (Some ENOSPC, s1, demo_log_env) /\
    forall l late acked s2 e2, run_fops l s1 demo_log_env = (acked, s2, e2) ->
      exists er s3, Close late s2 e2 = (Some er, s3, e2) /\
        forall c e3, Dir_ c <> "" -> exists er', WalLog.NewWriter c (files (base s3)) e3 = (Err er', e3).
Proof.
  apply (failed_header_blocks None 1 2 _ [demo_delete 1] [demo_delete 2] 3 ENOSPC []).
  - apply demo_holds; [lia|vm_compute; reflexivity..].
  - lia.
  - discriminate.
  - vm_compute; reflexivity.
  - vm_compute; reflexivity.
  - vm_compute; reflexivity.
  - lia.
  - reflexivity.
Defined.
Lemma refused_append_logged_witness :
  exists s1, Append (demo_delete 3) (demo_waiting (demo_config 2 0) [Fails 0 ENOSPC]) demo_log_env = (Some (WrapError "wal: write batch" ENOSPC), s1, demo_log_env) /\
    forall acked s2 e2, run_fops [AppendF (demo_delete 3)] s1 demo_log_env = (acked, s2, e2) ->
      exists s3, Close true s2 e2 = (None, s3, e2) /\
        exists rd, ReadAll (NewReader (files (base s3)) None) e2 = (Ok ([demo_delete 1] ++ [demo_delete 2] ++ [demo_delete 3] ++ acked)%list, rd, e2).
Proof.
  apply (refused_append_logged None I 1 (demo_waiting (demo_config 2 0) [Fails 0 ENOSPC]) [demo_delete 1] [demo_delete 2] (demo_delete 3) (demo_frame 3) ENOSPC
    [AppendF (demo_delete 3)] true demo_log_env demo_log_env).
  - apply demo_holds; [unfold llen; cbn [length]; lia|vm_compute; reflexivity..].
  - vm_compute; reflexivity.
  - vm_compute; reflexivity.
  - exact demo_log_rnd_ok.
  - exact demo_loggable.
  - reflexivity.
  - vm_compute; discriminate.
  - vm_compute; reflexivity.
  - reflexivity.
  - constructor; [exact demo_loggable|constructor].
Defined.
Lemma short_write_loses_witness :
  (0 < 20 < 32)%nat /\ short_write_run 20 = ([demo_delete 1; demo_delete 2; demo_delete 3], None, Ok []).
Proof. split; [lia|]; apply short_write_loses; lia. Defined.
