(* ===== verification/SessionService.v ===== *)
(** The session service: [internal/core/service/session.go] and
    [session_lifecycle.go].

    The service works against a session repository (the interface
    [SessionRepository], here a type class with the laws the service relies on;
    the in-memory store is an instance, the storage engine another).  A session
    read from the repository is a copy, so the read-modify-write operations are
    sequences of repository calls between which others may run. *)

From Stdlib Require Import Ascii String.
From stdpp Require Import list strings gmap fin_maps.
From S2P Require Import Prelude Errors GoStrings Strconv Token Session MemoryStore TokenService.

Open Scope string_scope.
Open Scope Z_scope.

(** [List] answers [None] when it panics; [Update] also returns the session as
    the call leaves it. *)
Class SessionRepository (R : Type) := {
  repo_Create : Session -> M R (option error);
  repo_Get : string -> M R (Res Session);
  repo_Update : Session -> Z -> M R (option error * Session);
  repo_Delete : string -> M R (option error);
  repo_List : SessionFilter -> M R (option (Res (list Session * Z)));
  repo_CountByUserID : string -> M R (Res Z);
  repo_ListByUserID : string -> M R (Res (list Session));
  repo_DeleteByUserID : string -> M R (Res Z);
  repo_DeleteExpired : M R (Res Z);
}.

Definition err_result {S A} (err : error) : M S (Res A) := ret (Err err).
Definition missing (what : string) : error := WithDetails ErrMissingArgument (what +:+ " is required").

Section Service.
Context {R : Type} `{SessionRepository R} `{UlidLib}.

(** ** Creation *)
Record CreateSessionRequest := MkCreateRequest {
  c_UserID : string; c_DeviceID : string; c_Data : option (gmap string string); c_TTL : Z;
  c_Token : string; c_CreatedBy : string; c_ClientIP : string; c_UserAgent : string }.
Record CreateSessionResponse := MkCreateResponse {
  cr_SessionID : string; cr_Token : string; cr_ExpiresAt : Z; cr_Session : Session }.

Definition quota_error (count : Z) : error :=
  WithDetails ErrSessionQuotaExceeded
    ("user has " +:+ FormatInt count +:+ " sessions (max " +:+ FormatInt MaxSessionsPerUser +:+ ")").

(** The quota check the three creating operations share. *)
Definition check_quota (userID : string) : M R (option error) :=
  r <- repo_CountByUserID userID ;;
  ret (match r with
       | Err err => Some (WithCause ErrStorageError err)
       | Ok count => if MaxSessionsPerUser <=? count then Some (quota_error count) else None
       end).

(** Their common end: expiry, validation, storage, response. *)
Definition DefaultSessionTTL : Z := 24 * 3600 * second.
Definition finish_create (session : Session) (reqTTL : Z) (plainToken : string)
    : M R (Res CreateSessionResponse) :=
  session <- SetExpiration (if reqTTL =? 0 then DefaultSessionTTL else reqTTL) session ;;
  match Session.Validate session with
  | Some err => ret (Err err)
  | None =>
      err <- repo_Create session ;;
      match err with
      | Some err => ret (Err (WithCause ErrStorageError err))
      | None => ret (Ok (MkCreateResponse (ID session) plainToken (ExpiresAt session) session))
      end
  end.

Definition or_empty (d : option (gmap string string)) : option (gmap string string) :=
  match d with None => Some ∅ | Some m => Some m end.

(** The token of the request, or a new one, with its hash. *)
Definition request_token (token : string) : M R (Res (string * string)) :=
  if negb (String.eqb token "") then
    if negb (ValidateTokenFormat token)
    then ret (Err (WithDetails ErrTokenMalformed "provided token format is invalid"))
    else ret (Ok (token, ComputeTokenHash token))
  else
    r <- GenerateToken ;;
    ret (match r with Err err => Err (WithCause ErrInternalServer err) | Ok p => Ok p end).

Definition Create (req : CreateSessionRequest) : M R (Res CreateSessionResponse) :=
  if String.eqb (c_UserID req) "" then ret (Err (missing "user_id"))
  else
    q <- check_quota (c_UserID req) ;;
    match q with
    | Some err => ret (Err err)
    | None =>
        pt <-? request_token (c_Token req) ;;
        r <- NewSession (c_UserID req) ;;
        match r with
        | Err err => ret (Err (WithCause ErrInternalServer err))
        | Ok s =>
            finish_create
              (MkSession (ID s) (UserID s) (snd pt) (c_ClientIP req) (c_UserAgent req)
                 (c_ClientIP req) (c_UserAgent req) (c_DeviceID req) (c_CreatedBy req)
                 (CreatedAt s) (ExpiresAt s) (LastActive s) (or_empty (c_Data req)) (Version s)
                 (ShardID s) (TTL s) (IsDeleted s))
              (c_TTL req) (fst pt)
        end
    end.

(** The sessions the client names: built from the request, the clock read
    twice. *)
Definition named_session (id user hash ip ua device : string) (data : option (gmap string string))
    : M R Session :=
  created <- now_milli ;;
  active <- now_milli ;;
  ret (MkSession id user hash ip ua ip ua device "" created 0 active (or_empty data) 1 0 0 false).

Record CreateSessionWithTokenRequest := MkCreateWithToken {
  ct_SessionID : string; ct_UserID : string; ct_Token : string; ct_DeviceID : string;
  ct_Data : option (gmap string string); ct_TTL : Z; ct_ClientIP : string; ct_UserAgent : string }.

Definition CreateWithToken (req : CreateSessionWithTokenRequest) : M R (Res CreateSessionResponse) :=
  if String.eqb (ct_SessionID req) "" then ret (Err (missing "session_id"))
  else if String.eqb (ct_UserID req) "" then ret (Err (missing "user_id"))
  else if String.eqb (ct_Token req) "" then ret (Err (missing "token"))
  else if negb (IsValidSessionID (ct_SessionID req))
  then ret (Err (WithDetails ErrInvalidArgument "invalid session_id format"))
  else if negb (ValidateTokenFormat (ct_Token req))
  then ret (Err (WithDetails ErrTokenMalformed "invalid token format"))
  else
    q <- check_quota (ct_UserID req) ;;
    match q with
    | Some err => ret (Err err)
    | None =>
        session <- named_session (ct_SessionID req) (ct_UserID req) (ComputeTokenHash (ct_Token req))
                     (ct_ClientIP req) (ct_UserAgent req) (ct_DeviceID req) (ct_Data req) ;;
        finish_create session (ct_TTL req) (ct_Token req)
    end.

Record CreateSessionWithIDRequest := MkCreateWithID {
  ci_SessionID : string; ci_UserID : string; ci_DeviceID : string;
  ci_Data : option (gmap string string); ci_TTL : Z; ci_ClientIP : string; ci_UserAgent : string }.

Definition CreateWithID (req : CreateSessionWithIDRequest) : M R (Res CreateSessionResponse) :=
  if String.eqb (ci_SessionID req) "" then ret (Err (missing "session_id"))
  else if String.eqb (ci_UserID req) "" then ret (Err (missing "user_id"))
  else if negb (IsValidSessionID (ci_SessionID req))
  then ret (Err (WithDetails ErrInvalidArgument "invalid session_id format"))
  else
    q <- check_quota (ci_UserID req) ;;
    match q with
    | Some err => ret (Err err)
    | None =>
        r <- GenerateToken ;;
        match r with
        | Err err => ret (Err (WithCause ErrInternalServer err))
        | Ok (plainToken, tokenHash) =>
            session <- named_session (ci_SessionID req) (ci_UserID req) tokenHash
                         (ci_ClientIP req) (ci_UserAgent req) (ci_DeviceID req) (ci_Data req) ;;
            finish_create session (ci_TTL req) plainToken
        end
    end.

(** ** Reading *)
Definition Get (sessionID : string) : M R (Res Session) :=
  if String.eqb sessionID "" then ret (Err (missing "session_id"))
  else
    r <- repo_Get sessionID ;;
    match r with
    | Err err => ret (Err (WithCause ErrSessionNotFound err))
    | Ok session =>
        expired <- IsExpired session ;;
        if expired then ret (Err ErrSessionExpired)
        else if IsDeleted session then ret (Err ErrSessionNotFound)
        else ret (Ok session)
    end.

Record ListSessionsResponse := MkListResponse {
  l_Items : list Session; l_Total : Z; l_Page : Z; l_PageSize : Z }.
Definition list_defaults (f : SessionFilter) : SessionFilter :=
  MkFilter (f_UserID f) (f_DeviceID f) (f_CreatedBy f) (f_IPAddress f) (f_Status f)
    (f_CreatedAfter f) (f_CreatedBefore f) (f_ActiveAfter f)
    (if String.eqb (f_SortBy f) "" then "created_at" else f_SortBy f)
    (if String.eqb (f_SortOrder f) "" then "desc" else f_SortOrder f)
    (if f_Page f =? 0 then 1 else f_Page f)
    (if f_PageSize f =? 0 then 20 else if 100 <? f_PageSize f then 100 else f_PageSize f).
(** [None] is a panic. *)
Definition List (filter : SessionFilter) : M R (option (Res ListSessionsResponse)) :=
  let f := list_defaults filter in
  r <- repo_List f ;;
  ret (match r with
       | None => None
       | Some (Err err) => Some (Err (WithCause ErrStorageError err))
       | Some (Ok (items, total)) => Some (Ok (MkListResponse items total (f_Page f) (f_PageSize f)))
       end).

(** ** Read, modify, write *)

(** What [Update] and [Renew] do first: the session, if it is there, has not
    expired and is not deleted. *)
Definition fetch (sessionID : string) : M R (Res Session) :=
  r <- repo_Get sessionID ;;
  match r with
  | Err err => ret (Err (WithCause ErrSessionNotFound err))
  | Ok session =>
      expired <- IsExpired session ;;
      if expired then ret (Err ErrSessionExpired)
      else if IsDeleted session then ret (Err ErrSessionNotFound)
      else ret (Ok session)
  end.

(** And last: a write against the version that was read. *)
Definition write_back (session : Session) (oldVersion : Z) : M R (Res Session) :=
  r <- repo_Update session oldVersion ;;
  ret (match r with
       | (Some err, _) => Err (WithCause ErrSessionVersionConflict err)
       | (None, session) => Ok session
       end).

Record UpdateSessionRequest := MkUpdateRequest {
  u_SessionID : string; u_UserID : string; u_DeviceID : string;
  u_Data : option (gmap string string); u_TTL : Z }.

Definition Update_write (req : UpdateSessionRequest) (session : Session) : M R (Res Session) :=
  let oldVersion := Version session in
  if negb (String.eqb (u_UserID req) "") && negb (String.eqb (u_UserID req) (UserID session))
  then ret (Err (WithDetails ErrInvalidArgument "cannot change session user_id (immutable field)"))
  else
    let s := if String.eqb (u_DeviceID req) "" then session else set_DeviceID (u_DeviceID req) session in
    let s := match u_Data req with None => s | Some d => set_Data (Some d) s end in
    s <- (if 0 <? u_TTL req then SetExpiration (u_TTL req) s else ret s) ;;
    now <- now_milli ;;
    let s := IncrVersion (set_LastActive now s) in
    match Session.Validate s with
    | Some err => ret (Err err)
    | None => write_back s oldVersion
    end.
Definition Update (req : UpdateSessionRequest) : M R (Res Session) :=
  if String.eqb (u_SessionID req) "" then ret (Err (missing "session_id"))
  else session <-? fetch (u_SessionID req) ;; Update_write req session.

(** The new expiry. *)
Definition Renew_write (ttl : Z) (session : Session) : M R (Res Z) :=
  let oldVersion := Version session in
  s <- SetExpiration ttl session ;;
  now <- now_milli ;;
  let s := IncrVersion (set_LastActive now s) in
  s <-? write_back s oldVersion ;; ret (Ok (ExpiresAt s)).
Definition Renew (sessionID : string) (ttl : Z) : M R (Res Z) :=
  if String.eqb sessionID "" then ret (Err (missing "session_id"))
  else if ttl <=? 0 then ret (Err (WithDetails ErrInvalidArgument "ttl must be positive"))
  else session <-? fetch sessionID ;; Renew_write ttl session.

(** The field updates of [Touch]; the address is stored as it comes. *)
Definition touched (now : Z) (clientIP : string) (s : Session) : Session :=
  let s := set_LastActive now s in
  IncrVersion (if String.eqb clientIP "" then s else set_access clientIP (LastAccessUA s) s).

(** On a version conflict, one more attempt on the session as it is now. *)
Definition Touch_write (sessionID clientIP : string) (session : Session) : M R (Res Z) :=
  now <- now_milli ;;
  r <- repo_Update (touched now clientIP session) (Version session) ;;
  match r with
  | (None, s) => ret (Ok (LastActive s))
  | (Some err, _) =>
      if IsDomainError err "TM-SESS-4091" then
        session <-? repo_Get sessionID ;;
        r <- repo_Update (touched now clientIP session) (Version session) ;;
        match r with
        | (None, s) => ret (Ok (LastActive s))
        | (Some err, _) => ret (Err (WithCause ErrStorageError err))
        end
      else ret (Err (WithCause ErrStorageError err))
  end.
Definition Touch_read (sessionID : string) : M R (Res Session) :=
  session <-? repo_Get sessionID ;;
  expired <- IsExpired session ;;
  if expired
  then ret (Err (WithDetails ErrSessionExpired ("session " +:+ sessionID +:+ " has expired")))
  else ret (Ok session).
Definition Touch (sessionID clientIP : string) : M R (Res Z) :=
  if String.eqb sessionID "" then ret (Err (missing "session_id"))
  else session <-? Touch_read sessionID ;; Touch_write sessionID clientIP session.

(** ** Removal *)
Definition Revoke (sessionID : string) : M R (Res bool) :=
  if String.eqb sessionID "" then ret (Err (missing "session_id"))
  else
    err <- repo_Delete sessionID ;;
    ret (match err with
         | None => Ok true
         | Some err => if IsDomainError err "TM-SESS-4040" then Ok true
                       else Err (WithCause ErrStorageError err)
         end).

Definition RevokeByUser (userID : string) : M R (Res Z) :=
  if String.eqb userID "" then ret (Err (missing "user_id"))
  else
    r <- repo_ListByUserID userID ;;
    match r with
    | Err err => ret (Err (WithCause ErrStorageError err))
    | Ok sessions =>
        if 1000 <? llen sessions then
          ret (Err (WithDetails ErrSessionQuotaExceeded
            ("user has " +:+ FormatInt (llen sessions) +:+ " sessions, batch revoke limit is 1000")))
        else
          r <- repo_DeleteByUserID userID ;;
          ret (match r with Err err => Err (WithCause ErrStorageError err) | Ok count => Ok count end)
    end.

Definition GC : M R (Res Z) :=
  r <- repo_DeleteExpired ;;
  ret (match r with Err err => Err (WithCause ErrStorageError err) | Ok count => Ok count end).
End Service.
