(* ===== verification/SessionServiceSpec.v ===== *)
(** What the session service promises, over any repository that keeps the
    laws of [SessionRepositoryLaws], and end to end over the in-memory store. *)

From Stdlib Require Import Ascii String.
From stdpp Require Import list strings gmap fin_maps.
From S2P Require Import Prelude Errors GoStrings Strconv Token Session MemoryStore.
From S2P Require Import MemoryStoreFacts TokenService SessionService.

Open Scope string_scope.
Open Scope Z_scope.

(** The part of a session no write may change. *)
Definition same_identity (x y : Session) : Prop :=
  ID x = ID y /\ UserID x = UserID y /\ TokenHash x = TokenHash y.

(** A repository holds sessions by id; a successful write has exactly the
    effect asked for, a failed one none, and a write goes through only against the version
    stored. *)
Class SessionRepositoryLaws (R : Type) `{SessionRepository R} := {
  sr_ok : R -> Prop;
  sr_sessions : R -> gmap string Session;
  sr_id : forall r id x, sr_ok r -> sr_sessions r !! id = Some x -> ID x = id;
  get_law : forall r id e, sr_ok r -> exists e', repo_Get id r e =
    (match sr_sessions r !! id with
     | None => Err ErrSessionNotFound
     | Some x => if expired_at (unix_milli (clk e 0%nat)) x then Err ErrSessionExpired else Ok x
     end, r, e');
  count_law : forall r u e, repo_CountByUserID u r e = (fst (fst (repo_CountByUserID u r e)), r, e);
  create_law : forall r x e err r' e', sr_ok r -> repo_Create x r e = (err, r', e') ->
    sr_ok r' /\
    match err with
    | None => sr_sessions r !! ID x = None /\ sr_sessions r' = <[ID x := x]> (sr_sessions r)
    | Some _ => sr_sessions r' = sr_sessions r
    end;
  update_law' : forall r x y v e err x' r' e', sr_ok r -> sr_sessions r !! ID x = Some y ->
    same_identity x y -> repo_Update x v r e = ((err, x'), r', e') ->
    sr_ok r' /\
    match err with
    | None => Version y = v /\ x' = IncrVersion x /\
        sr_sessions r' = <[ID x := IncrVersion x]> (sr_sessions r)
    | Some _ => sr_sessions r' = sr_sessions r
    end;
  delete_law : forall r id e err r' e', sr_ok r -> repo_Delete id r e = (err, r', e') ->
    sr_ok r' /\
    match err with
    | None => sr_sessions r' = delete id (sr_sessions r)
    | Some er => sr_sessions r' = sr_sessions r /\
        (IsDomainError er "TM-SESS-4040" = true -> sr_sessions r !! id = None)
    end;
}.

(** ** The in-memory store is such a repository *)
#[export] Instance Store_SessionRepository : SessionRepository Store := {
  repo_Create := MemoryStore.Create;
  repo_Get := MemoryStore.Get;
  repo_Update := MemoryStore.Update;
  repo_Delete := MemoryStore.Delete;
  repo_List := fun f => r <- MemoryStore.List f ;; ret (option_map Ok r);
  repo_CountByUserID := fun u => n <- MemoryStore.CountByUserID u ;; ret (Ok n);
  repo_ListByUserID := fun u => l <- MemoryStore.ListByUserID u ;; ret (Ok l);
  repo_DeleteByUserID := fun u => n <- MemoryStore.DeleteByUserID u ;; ret (Ok n);
  repo_DeleteExpired := n <- MemoryStore.DeleteExpired ;; ret (Ok n);
}.

Lemma Store_Create_law s x e err s' e' : Inv s -> MemoryStore.Create x s e = (err, s', e') ->
  Inv s' /\ e' = e /\
  match err with
  | None => sessions s !! ID x = None /\ s' = put_session x s
  | Some _ => s' = s
  end.
Proof.
  intros Hs; unfold MemoryStore.Create; destruct (Session.Validate x); [by intros [= <- <- <-]|].
  unfold bind, get_st, upd_st, ret; cbn beta iota.
  destruct (_ <=? _); [by intros [= <- <- <-]|].
  case_decide as Hid; [by intros [= <- <- <-]|]; rewrite <- eq_None_not_Some in Hid.
  destruct (negb _ && _) eqn:E; [by intros [= <- <- <-]|]; intros [= <- <- <-].
  split_ands; try done; apply Inv_put_session; [done..|].
  destruct (String.eqb_spec (TokenHash x) ""); [by left|right]; cbn [negb andb] in E.
  apply bool_decide_eq_false in E; by apply eq_None_not_Some.
Qed.

Lemma sessions_put x s : sessions (put_session x s) = <[ID x := x]> (sessions s).
Proof. unfold put_session; simpl; by rewrite Session.Clone_id. Qed.

Lemma Store_Update_law s x y v e err x' s' e' : Inv s -> sessions s !! ID x = Some y ->
  same_identity x y -> MemoryStore.Update x v s e = ((err, x'), s', e') ->
  Inv s' /\ e' = e /\
  match err with
  | None => Version y = v /\ x' = IncrVersion x /\ sessions s' = <[ID x := IncrVersion x]> (sessions s) /\
      tokens s' = tokens s
  | Some er => s' = s /\ x' = x /\ (er = ErrSessionVersionConflict -> Version y <> v)
  end.
Proof.
  intros Hs Hy (Hid & Hu & Ht); unfold MemoryStore.Update; destruct (Session.Validate x) as [er|] eqn:Hv.
  { intros [= <- <- <- <-]; split_ands; try done; intros ->.
    unfold Session.Validate in Hv; by repeat case_match. }
  unfold bind, get_st, upd_st, ret; cbn beta iota; rewrite Hy.
  destruct (Z.eqb_spec (Version y) v) as [Ev|Ev]; cbn [negb]; [|by intros [= <- <- <- <-]].
  rewrite (proj2 (String.eqb_eq _ _)) by done; rewrite Session.Clone_id; intros [= <- <- <- <-].
  split; [|by split_ands].
  change (ID x) with (ID (IncrVersion x)) in Hy |- *; eapply Inv_replace; eauto.
Qed.

#[export] Instance Store_SessionRepositoryLaws : SessionRepositoryLaws Store.
Proof.
  refine {| sr_ok := Inv; sr_sessions := sessions |}.
  - intros r id x Hr; by apply inv_id.
  - intros r id e _; apply Get_run.
  - done.
  - intros r x e err r' e' Hr H; destruct (Store_Create_law _ _ _ _ _ _ Hr H) as (Hi & _ & Hm).
    split; [done|]; destruct err; [by rewrite Hm|]. destruct Hm as [? ->]; split; [done|apply sessions_put].
  - intros r x y v e err x' r' e' Hr Hy Hsame H.
    destruct (Store_Update_law _ _ _ _ _ _ _ _ _ Hr Hy Hsame H) as (Hi & _ & Hm).
    split; [done|]; destruct err; [by destruct Hm as [-> _]|naive_solver].
  - intros r id e err r' e' Hr H; rewrite Delete_run in H; injection H as <- <- <-.
    split; [by apply Inv_drop_id|]; rewrite sessions_drop_id.
    destruct (sessions r !! id) eqn:E; [done|]; split; [|done]. by apply delete_id.
Defined.

(** ** Creation *)
Section Creation.
Context {R : Type} `{SessionRepositoryLaws R} `{UlidLib}.

Inductive creation :=
| ByRequest (req : CreateSessionRequest)
| WithToken (req : CreateSessionWithTokenRequest)
| WithID (req : CreateSessionWithIDRequest).
Definition run_creation (c : creation) : M R (Res CreateSessionResponse) :=
  match c with ByRequest q => Create q | WithToken q => CreateWithToken q | WithID q => CreateWithID q end.
Definition creation_user (c : creation) : string :=
  match c with ByRequest q => c_UserID q | WithToken q => ct_UserID q | WithID q => ci_UserID q end.

(** What a creation did, as its response tells it. *)
Definition stored (r r' : R) (user : string) (res : Res CreateSessionResponse) : Prop :=
  match res with
  | Err _ => sr_sessions r' = sr_sessions r
  | Ok resp =>
      let s := cr_Session resp in
      sr_sessions r !! ID s = None /\ sr_sessions r' = <[ID s := s]> (sr_sessions r) /\
      ID s = cr_SessionID resp /\ ExpiresAt s = cr_ExpiresAt resp /\
      ValidateTokenFormat (cr_Token resp) = true /\ TokenHash s = HashToken (cr_Token resp) /\
      UserID s = user /\ Version s = 1 /\ IsDeleted s = false
  end.

Lemma finish_create_spec s ttl plain r e res r' e' :
  sr_ok r -> ValidateTokenFormat plain = true -> TokenHash s = HashToken plain -> Version s = 1 ->
  IsDeleted s = false -> finish_create s ttl plain r e = (res, r', e') ->
  sr_ok r' /\ stored r r' (UserID s) res.
Proof.
  intros Hr Hf Ht Hv Hd; unfold finish_create.
  destruct (SetExpiration (if ttl =? 0 then DefaultSessionTTL else ttl) s r e) as [[s1 r1] e1] eqn:E1; erewrite bind_run by exact E1.
  unfold SetExpiration, bind, time_now, ret in E1; injection E1 as <- <- <-.
  destruct (Session.Validate _); [by intros [= <- <- _]|].
  destruct (repo_Create (set_expiry (unix_milli (clk e 0%nat + (if ttl =? 0 then DefaultSessionTTL else ttl)))
    (Z.quot (if ttl =? 0 then DefaultSessionTTL else ttl) 1000000) s) r (Env (fun n => clk e (n + 1)%nat) (rnd e) (ulids e)))
    as [[err r2] e2] eqn:E2; erewrite bind_run by exact E2.
  apply create_law in E2 as [Hok Hm]; [|done].
  destruct err; intros [= <- <- _]; split; try done.
  destruct Hm as [Hn Hi]; unfold stored; cbn [cr_Session cr_SessionID cr_ExpiresAt cr_Token].
  split_ands; done.
Qed.

Lemma check_quota_spec u r e q r' e' : check_quota u r e = (q, r', e') -> r' = r /\ e' = e.
Proof. unfold check_quota; erewrite bind_run by apply count_law. by intros [= _ <- <-]. Qed.

Lemma named_session_spec id u h ip ua d data (r : R) e s r' e' :
  named_session id u h ip ua d data r e = (s, r', e') ->
  r' = r /\ ID s = id /\ UserID s = u /\ TokenHash s = h /\ Version s = 1 /\ IsDeleted s = false.
Proof. unfold named_session, now_milli, bind, time_now, ret; by intros [= <- <- _]. Qed.

Lemma request_token_spec t (r : R) e p r' e' : rnd_ok e -> request_token t r e = (Ok p, r', e') ->
  r' = r /\ ValidateTokenFormat (fst p) = true /\ snd p = HashToken (fst p).
Proof.
  intros Hr; unfold request_token; destruct (String.eqb t ""); cbn [negb].
  - destruct (GenerateToken r e) as [[g r1] e1] eqn:E; erewrite bind_run by exact E.
    destruct g as [[pt h]|]; [|discriminate]; intros [= <- <- _].
    by apply GenerateToken_run in E as (? & ? & ->).
  - destruct (ValidateTokenFormat t) eqn:Hf; cbn [negb]; [|discriminate]. by intros [= <- <- _].
Qed.

Lemma request_token_state t (r : R) e p r' e' : request_token t r e = (p, r', e') -> r' = r.
Proof.
  unfold request_token; destruct (String.eqb t ""); cbn [negb].
  - unfold GenerateToken, bind, rand_read, ret; destruct (rnd e _ _); by intros [= _ <- _].
  - destruct (ValidateTokenFormat t); by intros [= _ <- _].
Qed.

Lemma NewSession_spec u (r : R) e s r' e' : NewSession u r e = (Ok s, r', e') ->
  r' = r /\ UserID s = u /\ Version s = 1 /\ IsDeleted s = false.
Proof.
  unfold NewSession, GenerateSessionID; destruct (String.eqb u ""); [discriminate|].
  destruct (_ <? _); [discriminate|]; unfold bind, ulid_new, now_milli, time_now, ret.
  destruct (ulids e 0%nat); by intros [= <- <- _].
Qed.
Lemma NewSession_state u (r : R) e s r' e' : NewSession u r e = (s, r', e') -> r' = r.
Proof.
  unfold NewSession, GenerateSessionID; destruct (String.eqb u ""); [by intros [= _ <- _]|].
  destruct (_ <? _); [by intros [= _ <- _]|]; unfold bind, ulid_new, now_milli, time_now, ret.
  destruct (ulids e 0%nat); by intros [= _ <- _].
Qed.

Lemma Create_stored q r e res r' e' : sr_ok r -> rnd_ok e -> Create q r e = (res, r', e') ->
  sr_ok r' /\ stored r r' (c_UserID q) res.
Proof.
  intros Hr Hrnd; unfold Create; destruct (String.eqb _ ""); [by intros [= <- <- _]|].
  destruct (check_quota (c_UserID q) r e) as [[qe r1] e1] eqn:E1; erewrite bind_run by exact E1.
  apply check_quota_spec in E1 as [-> ->]; destruct qe; [by intros [= <- <- _]|].
  destruct (request_token (c_Token q) r e) as [[pt r2] e2] eqn:E2; erewrite bind_run by exact E2; cbn beta iota.
  pose proof (request_token_state _ _ _ _ _ _ E2) as ->.
  destruct pt as [[plain h]|]; [|by intros [= <- <- _]].
  apply request_token_spec in E2 as (_ & Hf & Hh); [|done]; cbn [fst snd] in *.
  destruct (NewSession (c_UserID q) r e2) as [[ns r3] e3] eqn:E3; erewrite bind_run by exact E3; cbn beta iota.
  pose proof (NewSession_state _ _ _ _ _ _ E3) as ->; destruct ns as [s|]; [|by intros [= <- <- _]].
  apply NewSession_spec in E3 as (_ & Hu & Hv & Hd); intros E4.
  apply finish_create_spec in E4; try done; cbn [UserID] in E4; by rewrite Hu in E4.
Qed.

Lemma CreateWithToken_stored q r e res r' e' : sr_ok r -> CreateWithToken q r e = (res, r', e') ->
  sr_ok r' /\ stored r r' (ct_UserID q) res.
Proof.
  intros Hr; unfold CreateWithToken.
  repeat (destruct (String.eqb _ ""); [by intros [= <- <- _]|]).
  destruct (negb (IsValidSessionID _)); [by intros [= <- <- _]|].
  destruct (ValidateTokenFormat _) eqn:Hf; cbn [negb]; [|by intros [= <- <- _]].
  destruct (check_quota (ct_UserID q) r e) as [[qe r1] e1] eqn:E1; erewrite bind_run by exact E1.
  apply check_quota_spec in E1 as [-> ->]; destruct qe; [by intros [= <- <- _]|].
  destruct (named_session (ct_SessionID q) (ct_UserID q) (ComputeTokenHash (ct_Token q))
    (ct_ClientIP q) (ct_UserAgent q) (ct_DeviceID q) (ct_Data q) r e) as [[s r2] e2] eqn:E2; erewrite bind_run by exact E2.
  apply named_session_spec in E2 as (-> & _ & Hu & Ht & Hv & Hd); intros E3.
  apply finish_create_spec in E3; try done; by rewrite Hu in E3.
Qed.

Lemma CreateWithID_stored q r e res r' e' : sr_ok r -> rnd_ok e -> CreateWithID q r e = (res, r', e') ->
  sr_ok r' /\ stored r r' (ci_UserID q) res.
Proof.
  intros Hr Hrnd; unfold CreateWithID.
  repeat (destruct (String.eqb _ ""); [by intros [= <- <- _]|]).
  destruct (negb (IsValidSessionID _)); [by intros [= <- <- _]|].
  destruct (check_quota (ci_UserID q) r e) as [[qe r1] e1] eqn:E1; erewrite bind_run by exact E1.
  apply check_quota_spec in E1 as [-> ->]; destruct qe; [by intros [= <- <- _]|].
  destruct (GenerateToken r e) as [[g r2] e2] eqn:E2; erewrite bind_run by exact E2.
  destruct g as [[plain h]|err].
  2:{ unfold GenerateToken, bind, rand_read, ret in E2; intros [= <- <- _].
      by repeat case_match; simplify_eq. }
  apply GenerateToken_run in E2 as (Hf & -> & ->); [|done].
  destruct (named_session (ci_SessionID q) (ci_UserID q) (HashToken plain)
    (ci_ClientIP q) (ci_UserAgent q) (ci_DeviceID q) (ci_Data q) r e2) as [[s r3] e3] eqn:E3; erewrite bind_run by exact E3.
  apply named_session_spec in E3 as (-> & _ & Hu & Ht & Hv & Hd); intros E4.
  apply finish_create_spec in E4; try done; by rewrite Hu in E4.
Qed.

Lemma creation_stored c r e res r' e' : sr_ok r -> rnd_ok e -> run_creation c r e = (res, r', e') ->
  sr_ok r' /\ stored r r' (creation_user c) res.
Proof.
  destruct c; cbn [run_creation creation_user]; eauto using Create_stored, CreateWithToken_stored, CreateWithID_stored.
Qed.
End Creation.

(** ** Read, modify, write *)
Section Writes.
Context {R : Type} `{SessionRepositoryLaws R}.








End Writes.

Section Properties.
Context {R : Type} `{SessionRepositoryLaws R}.

End Properties.

(** ** With the token service, over the in-memory store *)
Definition token_request (token : string) : ValidateTokenRequest := MkValidateTokenRequest token false "" "".

(** What token validation answers, from the store's point of view. *)
Lemma validate_run s c w token e :
  Inv s -> ValidateTokenFormat token = true ->
  exists e1 e', later e e1 /\ TokenService.Validate (token_request token) (MkTokenService s c w) e =
  (match store_find s (HashToken token) with
   | None => (invalid, Some (WithCause ErrTokenInvalid ErrTokenInvalid))
   | Some x =>
       if expired_at (unix_milli (clk e 0%nat)) x
       then (invalid, Some (WithCause ErrTokenInvalid ErrSessionExpired))
       else if expired_at (unix_milli (clk e1 0%nat)) x then (invalid, Some ErrSessionExpired)
       else if IsDeleted x then (invalid, Some ErrSessionNotFound)
       else (MkValidateTokenResponse true (Some x), None)
   end, MkTokenService s c w, e').
Proof.
  intros Hs Hf; unfold TokenService.Validate; cbn [req_Token token_request]; rewrite Hf; cbn [negb].
  unfold store_find; destruct (GetByToken_run (HashToken token) s e Hs) as (e1 & E1); exists e1.
  assert (later e e1) as Hl.
  { assert (advances (GetByToken (HashToken token))) as Ha by (unfold GetByToken; advances_tac).
    specialize (Ha s e); by rewrite E1 in Ha. }
  assert (zoom ts_repo set_ts_repo (GetSessionByTokenHash (ComputeTokenHash token)) (MkTokenService s c w) e =
    (fst (fst (GetByToken (HashToken token) s e)), MkTokenService s c w, e1)) as E0
    by (unfold zoom; cbn [ts_repo GetSessionByTokenHash Store_TokenRepository];
        unfold MemoryStore.GetSessionByTokenHash, ComputeTokenHash; by rewrite E1).
  erewrite bind_run by exact E0; rewrite E1; cbn [fst]; clear E0 E1.
  destruct (tokens s !! HashToken token) as [id|]; [|by eexists]; cbn [mbind option_bind].
  destruct (sessions s !! id) as [x|]; [|by eexists].
  destruct (expired_at (unix_milli (clk e 0%nat)) x); [by eexists|].
  destruct (IsExpired_run x (MkTokenService s c w) e1) as (e2 & E2); erewrite bind_run by exact E2.
  destruct (expired_at _ x); [by eexists|]. destruct (IsDeleted x); by eexists.
Qed.

Lemma not_expired x now : now <= ExpiresAt x -> expired_at now x = false.
Proof. intros H; unfold expired_at; rewrite (proj2 (Z.ltb_ge _ _)) by lia; apply andb_false_r. Qed.

Lemma find_stored s x : Inv s -> sessions s !! ID x = Some x -> TokenHash x <> "" ->
  store_find s (TokenHash x) = Some x.
Proof.
  intros Hs Hx Hne; unfold store_find.
  assert (tokens s !! TokenHash x = Some (ID x)) as ->; [|done].
  apply (inv_tok s Hs); split; [done|]; by exists x.
Qed.

(** A session that has been dropped is no longer found by its token. *)
Lemma find_dropped s id h : Inv s -> (forall i, tokens s !! h = Some i -> i = id) -> store_find (drop_id id s) h = None.
Proof.
  intros Hs Hown; pose proof (Inv_drop_id s id Hs) as Hs'.
  unfold store_find; destruct (tokens (drop_id id s) !! h) as [i|] eqn:E; [|done].
  apply (inv_tok _ Hs') in E as (Hne & x & Hx & Ht); rewrite sessions_drop_id in Hx.
  apply lookup_delete_Some in Hx as [Hi Hx]; exfalso; apply Hi; symmetry; apply Hown.
  apply (inv_tok s Hs); split; [done|by exists x].
Qed.

Lemma find_revoked s id h : Inv s -> (forall x, sessions s !! id = Some x -> TokenHash x = h) ->
  is_Some (sessions s !! id) -> store_find (drop_id id s) h = None.
Proof.
  intros Hs Hown [y Hy]; apply find_dropped; [done|]; intros i E; pose proof E as (Hne & _)%(inv_tok s Hs).
  assert (tokens s !! h = Some id) as E1 by (apply (inv_tok s Hs); split; [done|exists y; auto]).
  congruence.
Qed.

(** A live session that is stored under the hash of a token is what that token opens. *)
Lemma stored_token_validates s x token c w e : Inv s -> ValidateTokenFormat token = true ->
  sessions s !! ID x = Some x -> TokenHash x = HashToken token -> IsDeleted x = false ->
  (forall k, unix_milli (clk e k) <= ExpiresAt x) ->
  exists e', TokenService.Validate (token_request token) (MkTokenService s c w) e =
    ((MkValidateTokenResponse true (Some x), None), MkTokenService s c w, e').
Proof.
  intros Hs Hf Hx Ht Hd Hclock; destruct (validate_run s c w token e Hs Hf) as (e1 & e' & [n Hn] & ->); exists e'.
  assert (store_find s (HashToken token) = Some x) as ->
    by (rewrite <- Ht; apply find_stored; [done|done|rewrite Ht; apply HashToken_nonempty]).
  by rewrite !not_expired, Hd by (rewrite ?Hn; apply Hclock).
Qed.

Section EndToEnd.
Context `{UlidLib}.

(** C6: Whichever way a session was created: the token in the response
    authenticates, as that session, for as long as the clock has not passed
    the expiry in the response. *)
Theorem created_token_validates (c : creation) (s s' : Store) (e e' e2 : env)
    (resp : CreateSessionResponse) (cache : NonceCache) (w : Z)
    (Hs : Inv s) (Hrnd : rnd_ok e) (Hrun : run_creation c s e = (Ok resp, s', e'))
    (Hclock : forall k, unix_milli (clk e2 k) <= cr_ExpiresAt resp) :
  UserID (cr_Session resp) = creation_user c /\ ID (cr_Session resp) = cr_SessionID resp /\
  exists e3, TokenService.Validate (token_request (cr_Token resp)) (MkTokenService s' cache w) e2 =
    ((MkValidateTokenResponse true (Some (cr_Session resp)), None), MkTokenService s' cache w, e3).
Proof.
  pose proof (creation_stored (R := Store) c s e (Ok resp) s' e') as Hst0.
  destruct (Hst0 Hs Hrnd Hrun) as [Hs' (_ & Hst & Hid & Hexp & Hf & Ht & Hu & _ & Hd)].
  split; [done|]; split; [done|].
  apply stored_token_validates; auto; [cbn in Hst; by rewrite Hst, lookup_insert_eq|by rewrite Hexp].
Qed.

(** C16: Revocation takes effect at once, on the in-memory store as the repository: on a
    non-empty id, found or not, it succeeds, removes that session and no other, succeeds again
    when repeated, and no token that opened the session, or none, validates afterwards.  (On the
    engine [Delete] can fail when the log does, and the session stays.) *)
Theorem revoked_token_rejected (s : Store) (id token : string) (e e2 : env) (cache : NonceCache) (w : Z)
    (Hs : Inv s) (Hid : id <> "") (Hf : ValidateTokenFormat token = true)
    (Hown : forall i, tokens s !! HashToken token = Some i -> i = id) :
  exists s', Revoke id s e = (Ok true, s', e) /\ sessions s' = delete id (sessions s) /\
    Revoke id s' e = (Ok true, s', e) /\
    exists e3, TokenService.Validate (token_request token) (MkTokenService s' cache w) e2 =
      ((invalid, Some (WithCause ErrTokenInvalid ErrTokenInvalid)), MkTokenService s' cache w, e3).
Proof.
  assert (forall s0, Inv s0 -> Revoke id s0 e = (Ok true, drop_id id s0, e)) as Hrev.
  { intros s0 _; unfold Revoke; rewrite (proj2 (String.eqb_neq _ _)) by done; cbn [repo_Delete Store_SessionRepository].
    erewrite bind_run by apply Delete_run; by destruct (sessions s0 !! id). }
  pose proof (Inv_drop_id s id Hs) as Hs'; exists (drop_id id s).
  split; [by apply Hrev|]; split; [apply sessions_drop_id|]; split.
  - rewrite Hrev by done; f_equal; f_equal; unfold drop_id at 1.
    by rewrite sessions_drop_id, lookup_delete_eq.
  - destruct (validate_run (drop_id id s) cache w token e2 Hs' Hf) as (e4 & e3 & _ & ->); exists e3.
    by rewrite (find_dropped s id (HashToken token) Hs Hown).
Qed.
End EndToEnd.

(** ** Witnesses *)
#[local] Instance demo_ulid : UlidLib := fun _ => true.
Definition demo_sess_env : env :=
  Env (fun _ => 5000000000) (fun _ n => Ok (repeat 7 n)) (fun _ => Ok "01ARZ3NDEKTSV4RRFFQ69G5FAV").


Definition demo_creation : creation := ByRequest (MkCreateRequest "bob" "" None 0 "" "" "" "").
Lemma created_token_validates_witness :
  match run_creation demo_creation (New 50) demo_sess_env with
  | (Ok resp, s', _) =>
      UserID (cr_Session resp) = "bob" /\ ID (cr_Session resp) = cr_SessionID resp /\
      exists e3, TokenService.Validate (token_request (cr_Token resp))
          (MkTokenService s' (NewNonceCache 3 5) 0) demo_sess_env =
        ((MkValidateTokenResponse true (Some (cr_Session resp)), None),
         MkTokenService s' (NewNonceCache 3 5) 0, e3)
  | _ => False
  end.
Proof.
  assert (match fst (fst (run_creation demo_creation (New 50) demo_sess_env)) with
          | Ok resp => cr_ExpiresAt resp = 86405000 | Err _ => False end) as Hexp by (vm_compute; reflexivity).
  destruct (run_creation demo_creation (New 50) demo_sess_env) as [[[resp|err] s'] e'] eqn:E; [|done].
  apply (created_token_validates demo_creation (New 50) s' demo_sess_env e' demo_sess_env resp
    (NewNonceCache 3 5) 0); [apply Inv_New| |exact E|].
  - intros k n b [= <-]; split; [apply repeat_length|].
    apply Forall_forall; intros x Hx; apply list_elem_of_In, repeat_spec in Hx as ->; unfold is_byte; lia.
  - cbn in Hexp; rewrite Hexp; intros k; vm_compute; discriminate.
Defined.

Lemma revoked_token_rejected_witness :
  exists s', Revoke "s1" demo_token_store demo_sess_env = (Ok true, s', demo_sess_env) /\
    sessions s' = delete "s1" (sessions demo_token_store) /\
    Revoke "s1" s' demo_sess_env = (Ok true, s', demo_sess_env) /\
    exists e3, TokenService.Validate (token_request demo_token)
        (MkTokenService s' (NewNonceCache 3 5) 0) demo_sess_env =
      ((invalid, Some (WithCause ErrTokenInvalid ErrTokenInvalid)),
       MkTokenService s' (NewNonceCache 3 5) 0, e3).
Proof.
  apply (revoked_token_rejected demo_token_store "s1" demo_token demo_sess_env demo_sess_env
    (NewNonceCache 3 5) 0).
  - apply (Inv_put_session (New 50)); [apply Inv_New|reflexivity|by right].
  - discriminate.
  - vm_compute; reflexivity.
  - intros i; vm_compute; intros [= <-]; reflexivity.
Defined.
