(* ===== verification/Snapshot.v ===== *)
(** Snapshots: [internal/storage/snapshot/manager.go].

    The directory maps file names to contents and modification times (system
    calls succeed; the temporary file of [Create] is renamed before the call
    returns, so it never shows).  A file is the magic bytes, a length-prefixed JSON header, the
    length-prefixed JSON list of sessions (encrypted if there is a cipher) and
    the SHA-256 of all that. *)

From Stdlib Require Import Ascii String.
From stdpp Require Import list strings gmap fin_maps.
From S2P Require Import Prelude Errors GoStrings Strconv Encoding Json Session WalCodec WalLog.

Open Scope string_scope.
Open Scope Z_scope.

Definition magicBytes : bytes := to_bytes "TOKMSNAP".
Definition filePrefix : string := "snapshot-".
Definition fileExtension : string := ".snap".
Definition checksumSize : Z := 32.
Definition headerVersion : Z := 1.
Definition DefaultRetentionCount : Z := 5.
Definition DefaultRetentionDays : Z := 7.

Definition ErrInvalidMagic := SimpleError "snapshot: invalid magic bytes".
Definition ErrChecksumMismatch := SimpleError "snapshot: checksum mismatch".
Definition ErrNoSnapshots := SimpleError "snapshot: no snapshots available".

(** [t.Format] with the layout of the file names: year to second, in the local
    time zone of the machine. *)
Class TimeFormat := format_time : Z -> string.

Record SnapFile := MkSnapFile { content : bytes; mtime : Z }.
Abbreviation SnapDir := (gmap string SnapFile).

(** ** JSON of the header and of a session *)
Record snapshotHeader := MkHeader {
  h_Version : Z; h_CreatedAt : Z; h_NodeID : string; h_SessionCount : Z; h_WALLastOffset : Z;
  h_Encrypted : bool }.
Definition header_json (h : snapshotHeader) : json :=
  JObj ([("version", JNum (FormatInt (h_Version h))); ("created_at", JNum (FormatInt (h_CreatedAt h)))] ++
    (if String.eqb (h_NodeID h) "" then [] else [("node_id", JStr (h_NodeID h))]) ++
    [("session_count", JNum (FormatUint (h_SessionCount h)));
     ("wal_last_offset", JNum (FormatUint (h_WALLastOffset h))); ("encrypted", JBool (h_Encrypted h))])%list.
Definition zero_header : snapshotHeader := MkHeader 0 0 "" 0 0 false.
Definition assign_header (k : string) (v : json) (h : snapshotHeader) : option snapshotHeader :=
  ver ← (if String.eqb k "version" then dec_int v (h_Version h) else Some (h_Version h));
  created ← (if String.eqb k "created_at" then dec_int v (h_CreatedAt h) else Some (h_CreatedAt h));
  node ← (if String.eqb k "node_id" then dec_string v (h_NodeID h) else Some (h_NodeID h));
  count ← (if String.eqb k "session_count" then dec_uint v (h_SessionCount h) else Some (h_SessionCount h));
  off ← (if String.eqb k "wal_last_offset" then dec_uint v (h_WALLastOffset h) else Some (h_WALLastOffset h));
  enc ← (if String.eqb k "encrypted" then dec_bool v (h_Encrypted h) else Some (h_Encrypted h));
  Some (MkHeader ver created node count off enc).
Definition dec_header (v : json) : option snapshotHeader :=
  match v with
  | JNull => Some zero_header
  | JObj m => dec_members assign_header m zero_header
  | _ => None
  end.

(** [snapshotSession] has the members of a session's own JSON and, unlike it,
    the three internal fields; [snapshotSessionFromDomain] and [toDomain] copy
    every field. *)
Definition snap_members (s : Session) : list (string * json) :=
  (session_members s ++ [("shard_id", JNum (FormatUint (ShardID s))); ("ttl", JNum (FormatInt (TTL s)));
    ("is_deleted", JBool (IsDeleted s))])%list.
Definition set_internal (shard ttl : Z) (deleted : bool) (s : Session) : Session :=
  MkSession (ID s) (UserID s) (TokenHash s) (IPAddress s) (UserAgent s) (LastAccessIP s)
    (LastAccessUA s) (DeviceID s) (CreatedBy s) (CreatedAt s) (ExpiresAt s) (LastActive s) (Data s)
    (Version s) shard ttl deleted.
Definition assign_snap (k : string) (v : json) (s : Session) : option Session :=
  s ← assign_session k v s;
  shard ← (if String.eqb k "shard_id" then dec_uint32 v (ShardID s) else Some (ShardID s));
  ttl ← (if String.eqb k "ttl" then dec_int v (TTL s) else Some (TTL s));
  del ← (if String.eqb k "is_deleted" then dec_bool v (IsDeleted s) else Some (IsDeleted s));
  Some (set_internal shard ttl del s).
Definition dec_snap (v : json) : option Session :=
  match v with
  | JNull => Some zero_session
  | JObj m => dec_members assign_snap m zero_session
  | _ => None
  end.
Definition dec_sessions (v : json) : option (list Session) :=
  match v with
  | JNull => Some []
  | JArr l => mapM dec_snap l
  | _ => None
  end.

Definition Unmarshal_header (b : bytes) : option snapshotHeader := v ← parse (of_bytes b); dec_header v.
Definition Unmarshal_sessions (b : bytes) : option (list Session) := v ← parse (of_bytes b); dec_sessions v.

(** ** The manager *)
Record SnapConfig := MkSnapConfig {
  s_Dir : string; RetentionCount : Z; RetentionDays : Z; s_Cipher : option Cipher; s_NodeID : string }.
Record Manager := MkManager { snaps : SnapDir; m_cfg : SnapConfig }.
Definition set_snaps (d : SnapDir) (m : Manager) : Manager := MkManager d (m_cfg m).

Definition NewManager (cfg : SnapConfig) (d : SnapDir) : Res Manager :=
  if String.eqb (s_Dir cfg) "" then Err (SimpleError "snapshot: dir is required")
  else Ok (MkManager d (MkSnapConfig (s_Dir cfg)
    (if RetentionCount cfg =? 0 then DefaultRetentionCount else RetentionCount cfg)
    (if RetentionDays cfg =? 0 then DefaultRetentionDays else RetentionDays cfg)
    (s_Cipher cfg) (s_NodeID cfg))).

Record Info := MkInfo {
  i_ID : string; i_WALLastOffset : Z; i_SessionCount : Z; i_CreatedAt : Z; i_Size : Z;
  i_Path : string; i_Checksum : string; i_NodeID : string }.

Definition generateID `{TimeFormat} (d : SnapDir) (t : Z) : string :=
  let ts := format_time t in
  let taken := List.filter (fun name => HasPrefix name (filePrefix +:+ ts +:+ "-") &&
    HasSuffix name fileExtension) (map fst (map_to_list d)) in
  filePrefix +:+ ts +:+ "-" +:+ pad_uint 4 (1 + llen taken).

(** The bytes of a snapshot file up to its checksum. *)
Definition snapshot_body (h : snapshotHeader) (data : bytes) : bytes :=
  let hdr := Marshal (header_json h) in
  (magicBytes ++ be32 (u32 (llen hdr)) ++ hdr ++ be32 (u32 (llen data)) ++ data)%list.

Definition Create `{TimeFormat} (sessions : list Session) (walLastOffset : Z) : M Manager (Res Info) :=
  now <- time_now ;;
  m <- get_st ;;
  let id := generateID (snaps m) now in
  let hdr := MkHeader headerVersion (unix_milli now) (s_NodeID (m_cfg m)) (llen sessions)
               walLastOffset (match s_Cipher (m_cfg m) with Some _ => true | None => false end) in
  let data := Marshal (JArr (map (fun s => JObj (snap_members s)) sessions)) in
  r <- (match s_Cipher (m_cfg m) with
        | None => ret (Ok data)
        | Some c => Encrypt c data []
        end) ;;
  match r with
  | Err err => ret (Err (WrapError "snapshot: encrypt" err))
  | Ok data =>
      let body := snapshot_body hdr data in
      let sum := sha256 body in
      written <- time_now ;;
      let path := id +:+ fileExtension in
      upd_st (fun m => set_snaps (<[path := MkSnapFile (body ++ sum)%list written]> (snaps m)) m) ;;;
      ret (Ok (MkInfo id walLastOffset (llen sessions) (unix_milli now) (llen body + checksumSize)
             path (hex_encode sum) (s_NodeID (m_cfg m))))
  end.

(** [strings.TrimSuffix]. *)
Definition TrimSuffix (s suffix : string) : string :=
  if HasSuffix s suffix then upto (String.length s - String.length suffix) s else s.

(** [io.ReadFull] of [n] bytes from what is left of a file. *)
Definition take_full (n : nat) (b : bytes) : Res (bytes * bytes) :=
  if (n <=? length b)%nat then Ok (firstn n b, skipn n b)
  else Err (match b with [] => EOF | _ => ErrUnexpectedEOF end).

(** The sessions of the data block; none of an encrypted one without cipher. *)
Definition decode_data (cipher : option Cipher) (encrypted : bool) (data : bytes) : Res (list Session) :=
  let decode b := match Unmarshal_sessions b with
    | None => Err (SimpleError "snapshot: unmarshal sessions") | Some l => Ok l end in
  match encrypted, cipher with
  | true, None => Ok []
  | true, Some c => match Decrypt c data [] with
                    | Err err => Err (WrapError "snapshot: decrypt" err)
                    | Ok plain => decode plain
                    end
  | false, Some _ => Err (SimpleError "snapshot: expected encrypted snapshot")
  | false, None => decode data
  end.

Definition res_bind {A B} (r : Res A) (k : A -> Res B) : Res B :=
  match r with Ok a => k a | Err err => Err err end.

Definition loadFile (cipher : option Cipher) (path : string) (f : bytes) : Res (list Session * Info) :=
  let size := llen f in
  if size <? llen magicBytes + checksumSize then Err ErrChecksumMismatch
  else
    let dataLen := Z.to_nat (size - checksumSize) in
    let expected := skipn dataLen f in
    if negb (bool_decide (sha256 (firstn dataLen f) = expected)) then Err ErrChecksumMismatch
    else
      res_bind (take_full (length magicBytes) (firstn dataLen f)) (fun '(magic, b) =>
      if negb (bool_decide (magic = magicBytes)) then Err ErrInvalidMagic
      else
        res_bind (take_full 4 b) (fun '(lenBuf, b) =>
        let hdrLen := be32_get lenBuf in
        if hdrLen =? 0 then Err (SimpleError "snapshot: empty header")
        else
          res_bind (take_full (Z.to_nat hdrLen) b) (fun '(hdrJSON, b) =>
          match Unmarshal_header hdrJSON with
          | None => Err (SimpleError "snapshot: unmarshal header")
          | Some hdr =>
              res_bind (take_full 4 b) (fun '(lenBuf, b) =>
              res_bind (take_full (Z.to_nat (be32_get lenBuf)) b) (fun '(data, _) =>
              res_bind (decode_data cipher (h_Encrypted hdr) data) (fun sessions =>
              Ok (sessions, MkInfo (TrimSuffix path fileExtension) (h_WALLastOffset hdr)
                    (i64 (h_SessionCount hdr)) (h_CreatedAt hdr) size path (hex_encode expected)
                    (h_NodeID hdr)))))
          end))).

(** The snapshot files, sorted by name. *)
Definition List (d : SnapDir) : list Info :=
  let paths := sort_slice String.ltb (List.filter (fun name => HasPrefix name filePrefix &&
    HasSuffix name fileExtension) (map fst (map_to_list d))) in
  omap (fun p => f ← d !! p;
    Some (MkInfo (TrimSuffix p fileExtension) 0 0 0 (llen (content f)) p "" "")) paths.

(** From the last of the list backwards, skipping corrupted files. *)
Fixpoint load_newest (d : SnapDir) (cipher : option Cipher) (rev_infos : list Info)
    : Res (list Session * Info) :=
  match rev_infos with
  | [] => Err ErrNoSnapshots
  | info :: older =>
      match loadFile cipher (i_Path info) (content (default (MkSnapFile [] 0) (d !! i_Path info))) with
      | Ok r => Ok r
      | Err err =>
          if errors_is err ErrChecksumMismatch || errors_is err ErrInvalidMagic
          then load_newest d cipher older
          else Err err
      end
  end.
Definition Load (m : Manager) : Res (list Session * Info) :=
  load_newest (snaps m) (s_Cipher (m_cfg m)) (rev (List (snaps m))).

(** Keeps the last [RetentionCount], the young enough and the newest. *)
Definition day : Z := 24 * 3600 * 1000000000.
Definition Prune : M Manager (option error) :=
  m <- get_st ;;
  let infos := List (snaps m) in
  if llen infos <=? 1 then ret None
  else
    let n := RetentionCount (m_cfg m) in
    let last_n := if 0 <? n then skipn (Z.to_nat (llen infos - n)) infos else [] in
    young <- (if 0 <? RetentionDays (m_cfg m) then
                now <- time_now ;;
                let cutoff := now + i64 (- (RetentionDays (m_cfg m) * day)) in
                ret (List.filter (fun i => match snaps m !! i_Path i with
                  | Some f => cutoff <? mtime f | None => false end) infos)
              else ret []) ;;
    let newest := match last infos with Some i => [i] | None => [] end in
    let keep := map i_Path (last_n ++ young ++ newest) in
    for_range infos (fun i =>
      if existsb (String.eqb (i_Path i)) keep then ret tt
      else upd_st (fun m => set_snaps (base.delete (i_Path i) (snaps m)) m)) ;;;
    ret None.
