(* ===== verification/SnapshotSpec.v ===== *)
(** Snapshots load back to what they were made from, and corrupted ones are
    passed over. *)

From Stdlib Require Import Ascii String.
From stdpp Require Import list strings gmap fin_maps.
From S2P Require Import Prelude Errors GoStrings Strconv Encoding Json JsonFacts Token Session.
From S2P Require Import WalCodec WalCodecSpec WalLog Snapshot.

Open Scope string_scope.
Open Scope Z_scope.

(** ** JSON *)

(** One member assigned, given what its value decodes to. *)
Ltac assign_with E1 E2 E3 E4 :=
  erewrite dec_members_cons;
  [|norm_key; unfold assign_snap, assign_session, assign_header;
    cbn [String.eqb Ascii.eqb Bool.eqb mbind option_bind dec_string dec_bool];
    rewrite ?E1, ?E2, ?E3, ?E4; cbn [mbind option_bind];
    unfold set_internal, wire, zero_header;
    cbn [ID UserID TokenHash IPAddress UserAgent LastAccessIP LastAccessUA DeviceID CreatedBy CreatedAt
      ExpiresAt LastActive Data Version ShardID TTL IsDeleted h_Version h_CreatedAt h_NodeID
      h_SessionCount h_WALLastOffset h_Encrypted];
    reflexivity].

Definition snap_ok (s : Session) : Prop :=
  wire_ok s /\ 0 <= ShardID s < 2 ^ 32 /\ in_i64 (TTL s).

Lemma session_members_ok s : wire_ok s ->
  Forall (fun kv => utf8_ok (fst kv) = true /\ json_ok (snd kv) = true) (session_members s).
Proof.
  intros (Ha & Hd & H1 & H2 & H3 & H4); cbn [forallb] in Ha; rewrite !andb_true_iff in Ha.
  decompose [and] Ha; clear Ha; unfold session_members.
  repeat apply Forall_cons_2; try apply Forall_nil_2; (split; [reflexivity|]); cbn [snd];
    first [ assumption | by apply valid_FormatInt | by apply valid_uint | by apply json_ok_map ].
Qed.

Lemma snap_json_ok s : snap_ok s -> json_ok (JObj (snap_members s)) = true.
Proof.
  intros (Hw & Hsh & Ht); apply json_ok_obj, Forall_app; split; [by apply session_members_ok|].
  repeat apply Forall_cons_2; try apply Forall_nil_2; (split; [reflexivity|]); cbn [snd];
    first [ by apply valid_FormatInt | apply valid_uint; unfold two64; lia | by destruct (IsDeleted s) ].
Qed.

(** Assigning the session's own members leaves the internal fields. *)
Lemma assign_snap_session m : forall s s',
  Forall (fun kv => ToLower (fst kv) <> "shard_id" /\ ToLower (fst kv) <> "ttl" /\
    ToLower (fst kv) <> "is_deleted") m ->
  dec_members assign_session m s = Some s' -> dec_members assign_snap m s = Some s'.
Proof.
  induction m as [|[k v] m IH]; intros s s' Hk H; [done|]; cbn [dec_members] in *.
  apply Forall_cons in Hk as [(H1 & H2 & H3) Hk]; cbn [fst] in H1, H2, H3.
  destruct (assign_session (ToLower k) v s) as [s1|] eqn:E; [|discriminate].
  assert (assign_snap (ToLower k) v s = Some s1) as ->; [|by apply IH].
  unfold assign_snap; rewrite E; cbn [mbind option_bind].
  rewrite (proj2 (String.eqb_neq _ "shard_id")), (proj2 (String.eqb_neq _ "ttl")),
    (proj2 (String.eqb_neq _ "is_deleted")) by done; by destruct s1.
Qed.

Lemma dec_snap_json s : snap_ok s -> dec_snap (JObj (snap_members s)) = Some s.
Proof.
  intros (Hw & Hsh & Ht); unfold dec_snap, snap_members.
  rewrite (dec_members_app _ _ _ _ (wire s)).
  2:{ apply assign_snap_session; [|by apply dec_session_members].
      unfold session_members; repeat apply Forall_cons_2; try apply Forall_nil_2; cbn [fst];
        (split; [discriminate|split; discriminate]). }
  assert (forall old, dec_uint32 (JNum (FormatUint (ShardID s))) old = Some (ShardID s)) as E1.
  { intros old; unfold dec_uint32, dec_uint; rewrite ParseUint_Format by (unfold two64; lia).
    by rewrite (proj2 (Z.ltb_lt _ _)) by lia. }
  assert (forall old, dec_int (JNum (FormatInt (TTL s))) old = Some (TTL s)) as E2
    by (intros; unfold dec_int; by rewrite ParseInt_Format).
  repeat assign_with E1 E2 E1 E2.
  cbn [dec_members]; unfold wire; by destruct s.
Qed.

Lemma mapM_snap l : Forall snap_ok l -> mapM dec_snap (map (fun s => JObj (snap_members s)) l) = Some l.
Proof.
  induction 1 as [|s l Hs Hl IH]; [done|]; cbn [map mapM]; rewrite dec_snap_json by done.
  cbn [mbind option_bind]; by rewrite IH.
Qed.

Lemma Unmarshal_sessions_Marshal l : Forall snap_ok l ->
  Unmarshal_sessions (Marshal (JArr (map (fun s => JObj (snap_members s)) l))) = Some l.
Proof.
  intros Hl; unfold Unmarshal_sessions, Marshal; rewrite of_to_bytes, parse_print_value.
  - cbn [mbind option_bind dec_sessions]; by apply mapM_snap.
  - cbn [json_ok]; apply forallb_forall; intros v Hv; apply in_map_iff in Hv as (s & <- & Hs).
    apply snap_json_ok; rewrite Forall_forall in Hl; by apply Hl, list_elem_of_In.
Qed.

Definition header_ok (h : snapshotHeader) : Prop :=
  in_i64 (h_Version h) /\ in_i64 (h_CreatedAt h) /\ utf8_ok (h_NodeID h) = true /\
  0 <= h_SessionCount h < two64 /\ 0 <= h_WALLastOffset h < two64.

Lemma Unmarshal_header_Marshal h : header_ok h -> Unmarshal_header (Marshal (header_json h)) = Some h.
Proof.
  intros (H1 & H2 & H3 & H4 & H5); unfold Unmarshal_header, Marshal; rewrite of_to_bytes, parse_print_value.
  2:{ apply json_ok_obj; rewrite !Forall_app; split_ands.
      - repeat apply Forall_cons_2; try apply Forall_nil_2; (split; [reflexivity|]); by apply valid_FormatInt.
      - destruct (String.eqb (h_NodeID h) ""); repeat constructor; done.
      - repeat apply Forall_cons_2; try apply Forall_nil_2; (split; [reflexivity|]); cbn [snd];
          first [by apply valid_uint | by destruct (h_Encrypted h)]. }
  cbn [mbind option_bind]; unfold header_json, dec_header, zero_header.
  destruct h as [ver created node count off enc]; cbn [h_Version h_CreatedAt h_NodeID h_SessionCount
    h_WALLastOffset h_Encrypted] in *.
  assert (forall old, dec_int (JNum (FormatInt ver)) old = Some ver) as E1
    by (intros; unfold dec_int; by rewrite ParseInt_Format).
  assert (forall old, dec_int (JNum (FormatInt created)) old = Some created) as E2
    by (intros; unfold dec_int; by rewrite ParseInt_Format).
  assert (forall old, dec_uint (JNum (FormatUint count)) old = Some count) as E3
    by (intros; unfold dec_uint; by rewrite ParseUint_Format).
  assert (forall old, dec_uint (JNum (FormatUint off)) old = Some off) as E4
    by (intros; unfold dec_uint; by rewrite ParseUint_Format).
  erewrite dec_members_app by (repeat assign_with E1 E2 E3 E4; reflexivity).
  rewrite (dec_members_app _ _ _ _ (MkHeader ver created node 0 0 false)).
  2:{ destruct (String.eqb_spec node "") as [->|]; [done|]. by repeat assign_with E1 E2 E3 E4. }
  by repeat assign_with E1 E2 E3 E4.
Qed.

(** ** Files *)
Lemma take_full_app a b n : length a = n -> take_full n (a ++ b)%list = Ok (a, b).
Proof.
  intros <-; unfold take_full; rewrite (proj2 (Nat.leb_le _ _)) by (rewrite length_app; lia).
  by rewrite firstn_app, skipn_app, Nat.sub_diag, firstn_all, skipn_all, firstn_0, app_nil_r, skipn_0.
Qed.

Lemma TrimSuffix_app s t : TrimSuffix (s +:+ t) t = s.
Proof.
  unfold TrimSuffix; rewrite HasSuffix_app; apply upto_app_le.
Qed.

Definition body_small (h : snapshotHeader) (data : bytes) : Prop := llen (snapshot_body h data) < 2 ^ 32.

Lemma loadFile_body cipher h data path sessions :
  header_ok h -> body_small h data -> Marshal (header_json h) <> [] ->
  decode_data cipher (h_Encrypted h) data = Ok sessions ->
  loadFile cipher path (snapshot_body h data ++ sha256 (snapshot_body h data))%list =
  Ok (sessions, MkInfo (TrimSuffix path fileExtension) (h_WALLastOffset h) (i64 (h_SessionCount h))
    (h_CreatedAt h) (llen (snapshot_body h data) + checksumSize) path
    (hex_encode (sha256 (snapshot_body h data))) (h_NodeID h)).
Proof.
  intros Hh Hs Hne Hd; set (body := snapshot_body h data) in *.
  assert (llen (body ++ sha256 body)%list = llen body + 32) as El
    by (unfold llen; rewrite length_app, sha256_length; lia).
  assert (llen body = 16 + llen (Marshal (header_json h)) + llen data) as Eb.
  { unfold body, snapshot_body, llen; rewrite !length_app, !be32_length; cbn; lia. }
  assert (0 < llen (Marshal (header_json h))) as Hpos
    by (unfold llen; destruct (Marshal (header_json h)); [done|cbn; lia]).
  assert (0 <= llen data) by (unfold llen; lia); unfold body_small in Hs; fold body in Hs.
  unfold loadFile; rewrite El; unfold checksumSize; change (llen magicBytes) with 8.
  rewrite (proj2 (Z.ltb_ge _ _)) by lia.
  replace (Z.to_nat (llen body + 32 - 32)) with (length body) by (unfold llen; lia).
  rewrite firstn_app, skipn_app, Nat.sub_diag, firstn_all, skipn_all, firstn_0, skipn_0, app_nil_r.
  cbn [app]; rewrite bool_decide_true by done; cbn [negb].
  unfold body at 1, snapshot_body; rewrite take_full_app by done; cbn [res_bind].
  rewrite bool_decide_true by done; cbn [negb].
  rewrite take_full_app by apply be32_length; cbn [res_bind].
  rewrite be32_get_be32, u32_id, (proj2 (Z.eqb_neq _ _)) by (rewrite ?u32_id; lia).
  rewrite take_full_app by (unfold llen; lia); cbn [res_bind].
  rewrite Unmarshal_header_Marshal by done.
  rewrite take_full_app by apply be32_length; cbn [res_bind].
  rewrite be32_get_be32, u32_id by (rewrite ?u32_id; lia).
  assert (take_full (Z.to_nat (llen data)) data = Ok (data, [])) as ->.
  { rewrite <- (take_full_app data [] (Z.to_nat (llen data))) by (unfold llen; lia); by rewrite app_nil_r. }
  cbn [res_bind]; by rewrite Hd.
Qed.

Lemma header_nonempty h : Marshal (header_json h) <> [].
Proof. unfold Marshal, header_json; rewrite print_JObj; discriminate. Qed.

(** A file that [Load] passes over. *)
Definition corrupted (m : Manager) (path : string) : Prop :=
  exists err, loadFile (s_Cipher (m_cfg m)) path (content (default (MkSnapFile [] 0) (snaps m !! path))) = Err err /\
    errors_is err ErrChecksumMismatch || errors_is err ErrInvalidMagic = true.

Lemma load_newest_skip m l1 l2 : Forall (fun i => corrupted m (i_Path i)) l1 ->
  load_newest (snaps m) (s_Cipher (m_cfg m)) (l1 ++ l2) = load_newest (snaps m) (s_Cipher (m_cfg m)) l2.
Proof.
  induction 1 as [|i l1 (err & E & He) _ IH]; [done|]; cbn [app load_newest]; rewrite E.
  by rewrite He.
Qed.

Lemma load_newest_inv m l r : load_newest (snaps m) (s_Cipher (m_cfg m)) l = Ok r ->
  exists older i newer, rev l = (older ++ i :: newer)%list /\
    Forall (fun j => corrupted m (i_Path j)) newer /\
    loadFile (s_Cipher (m_cfg m)) (i_Path i)
      (content (default (MkSnapFile [] 0) (snaps m !! i_Path i))) = Ok r.
Proof.
  induction l as [|i l IH]; cbn [load_newest]; [discriminate|].
  destruct (loadFile _ (i_Path i) _) as [r'|err] eqn:E.
  - intros [= ->]; exists (rev l), i, []; cbn [rev]; by split_ands.
  - destruct (errors_is err ErrChecksumMismatch || errors_is err ErrInvalidMagic) eqn:Ee; [|discriminate].
    intros Hl; destruct (IH Hl) as (older & j & newer & Hrev & Hc & Hj).
    exists older, j, (newer ++ [i])%list; cbn [rev]; rewrite Hrev, <- app_assoc; split; [done|].
    split; [|done]; apply Forall_app; split; [done|]; repeat constructor; by exists err.
Qed.

Section Properties.
Context `{TimeFormat}.

(** C14: What a snapshot writes it reads back: the file that [Create] adds to the
    directory, encrypted or not, loads as the same sessions, every field of them,
    under the same id, log offset, counts, size and checksum that [Create] reported. *)
Theorem snapshot_roundtrip (sessions : list Session) (off : Z) (m m' : Manager) (e e' : env) (info : Info)
    (Hs : Forall snap_ok sessions) (Hoff : 0 <= off < two64) (Hrnd : rnd_ok e)
    (Hc : cipher_ok (s_Cipher (m_cfg m))) (Hnode : utf8_ok (s_NodeID (m_cfg m)) = true)
    (Hclk : in_i64 (unix_milli (clk e 0%nat))) (Hn : llen sessions < 2 ^ 63)
    (Hrun : Create sessions off m e = (Ok info, m', e')) (Hsize : i_Size info < 2 ^ 32) :
  exists f, snaps m' = <[i_Path info := f]> (snaps m) /\ m_cfg m' = m_cfg m /\
    i_WALLastOffset info = off /\ i_Path info = i_ID info +:+ fileExtension /\
    loadFile (s_Cipher (m_cfg m)) (i_Path info) (content f) = Ok (sessions, info).
Proof.
  unfold Create in Hrun; erewrite bind_run in Hrun by reflexivity; erewrite bind_run in Hrun by reflexivity.
  cbv zeta in Hrun; set (e0 := Env _ _ _) in Hrun; set (hdr := MkHeader _ _ _ _ _ _) in Hrun.
  set (plain := Marshal _) in Hrun; set (id := generateID _ _) in Hrun.
  assert (header_ok hdr) as Hh.
  { split; [by cbv|]; split; [done|]; split; [done|]; split; [|done].
    cbn [h_SessionCount hdr]; unfold llen, two64 in *; lia. }
  assert (exists data e1, (match s_Cipher (m_cfg m) with None => ret (Ok plain)
      | Some c => Encrypt c plain [] end) m e0 = (Ok data, m, e1) /\
    decode_data (s_Cipher (m_cfg m)) (h_Encrypted hdr) data = Ok sessions) as (data & e1 & E1 & Hdec).
  { cbn [h_Encrypted hdr]; destruct (s_Cipher (m_cfg m)) as [c|].
    - destruct (Encrypt c plain [] m e0) as [[[ct|] m1] e1] eqn:E.
      2:{ erewrite bind_run in Hrun by exact E; discriminate. }
      assert (m1 = m) as -> by (unfold Encrypt, bind, rand_read, ret in E; by destruct (rnd e0 0%nat _); simplify_eq).
      exists ct, e1; split; [done|]; unfold decode_data.
      destruct (Decrypt_Encrypt c plain m m e0 e1 ct Hc Hrnd (to_bytes_byte _) E) as (-> & _).
      unfold plain; by rewrite Unmarshal_sessions_Marshal.
    - exists plain, e0; split; [done|]; unfold decode_data, plain; by rewrite Unmarshal_sessions_Marshal. }
  erewrite bind_run in Hrun by exact E1; cbn beta iota in Hrun.
  erewrite bind_run in Hrun by reflexivity; erewrite bind_run in Hrun by reflexivity; cbv zeta in Hrun.
  set (info0 := MkInfo _ _ _ _ _ _ _ _) in Hrun; unfold ret in Hrun.
  assert (Ok info0 = Ok info /\ set_snaps (<[id +:+ fileExtension := MkSnapFile (snapshot_body hdr data ++
    sha256 (snapshot_body hdr data))%list (clk e1 0%nat)]> (snaps m)) m = m') as [Ei <-] by (split; congruence).
  assert (info0 = info) as <- by congruence; clear Ei Hrun.
  eexists; split; [reflexivity|]; split; [done|]; split; [done|]; split; [done|]; cbn [content].
  rewrite (loadFile_body _ hdr data _ sessions); try done;
    [|change (i_Size info0) with (llen (snapshot_body hdr data) + checksumSize) in Hsize;
      unfold body_small, checksumSize in *; lia].
  change (i_Path info0) with (id +:+ fileExtension).
  rewrite TrimSuffix_app, i64_id by (cbn [h_SessionCount hdr]; unfold in_i64, llen in *; lia); done.
Qed.

(** [Load] returns the newest snapshot that is not corrupted: every newer
    file failed its checksum or magic, and an answer of no snapshot means all did. *)
Theorem Load_newest_intact (m : Manager) :
  (forall older i newer r, List (snaps m) = (older ++ i :: newer)%list ->
     Forall (fun j => corrupted m (i_Path j)) newer ->
     loadFile (s_Cipher (m_cfg m)) (i_Path i)
       (content (default (MkSnapFile [] 0) (snaps m !! i_Path i))) = Ok r ->
     Load m = Ok r) /\
  (Forall (fun j => corrupted m (i_Path j)) (List (snaps m)) -> Load m = Err ErrNoSnapshots) /\
  (forall r, Load m = Ok r -> exists older i newer, List (snaps m) = (older ++ i :: newer)%list /\
     Forall (fun j => corrupted m (i_Path j)) newer /\
     loadFile (s_Cipher (m_cfg m)) (i_Path i)
       (content (default (MkSnapFile [] 0) (snaps m !! i_Path i))) = Ok r).
Proof.
  unfold Load; split_ands.
  - intros older i newer r -> Hc Hl; rewrite rev_app_distr; cbn [rev]; rewrite <- app_assoc.
    rewrite load_newest_skip by (by apply Forall_rev); cbn [app load_newest]; by rewrite Hl.
  - intros Hc; rewrite <- (app_nil_r (rev _)), load_newest_skip by (by apply Forall_rev); done.
  - intros r Hr; apply load_newest_inv in Hr; by rewrite rev_involutive in Hr.
Qed.
End Properties.

(** ** Witnesses *)
#[local] Instance demo_time : TimeFormat := fun _ => "20260101000000".
Definition demo_manager : Manager :=
  MkManager ∅ (MkSnapConfig "snapshots" 5 7 (Some demo_cipher) "n1").
Definition demo_snap_session : Session := set_internal 3 (-1) true demo_session.
Definition demo_snap := Create [demo_snap_session; demo_session] 4294967304 demo_manager demo_codec_env.
Definition demo_info : Info :=
  match demo_snap with (Ok i, _, _) => i | _ => MkInfo "" 0 0 0 0 "" "" "" end.
Definition demo_after : Manager := snd (fst demo_snap).

Lemma snapshot_roundtrip_witness :
  exists f, snaps demo_after = <[i_Path demo_info := f]> ∅ /\ m_cfg demo_after = m_cfg demo_manager /\
    i_WALLastOffset demo_info = 4294967304 /\ i_Path demo_info = i_ID demo_info +:+ fileExtension /\
    loadFile (Some demo_cipher) (i_Path demo_info) (content f) =
      Ok ([demo_snap_session; demo_session], demo_info).
Proof.
  apply (snapshot_roundtrip [demo_snap_session; demo_session] 4294967304 demo_manager demo_after
    demo_codec_env (snd demo_snap) demo_info).
  - repeat constructor; try (vm_compute; done); vm_compute; by split_ands.
  - vm_compute; by split.
  - intros k n b [= <-]; split; [apply repeat_length|].
    apply Forall_forall; intros x Hx; apply list_elem_of_In, repeat_spec in Hx as ->; unfold is_byte; lia.
  - exact toy_aead_ok.
  - reflexivity.
  - vm_compute; by split.
  - vm_compute; done.
  - vm_compute; reflexivity.
  - vm_compute; done.
Defined.

(** The newest file damaged, the one before it intact. *)
Definition demo_damaged : Manager :=
  set_snaps (<["snapshot-20260102000000-0001.snap" := MkSnapFile (repeat 0 60) 0]> (snaps demo_after)) demo_after.
Lemma Load_newest_intact_witness :
  Load demo_damaged = Ok ([demo_snap_session; demo_session], demo_info).
Proof.
  apply (proj1 (Load_newest_intact demo_damaged) []
    (MkInfo (i_ID demo_info) 0 0 0 (i_Size demo_info) (i_Path demo_info) "" "")
    [MkInfo "snapshot-20260102000000-0001" 0 0 0 60 "snapshot-20260102000000-0001.snap" "" ""]).
  - vm_compute; reflexivity.
  - repeat constructor; exists ErrChecksumMismatch; split; [vm_compute|]; reflexivity.
  - vm_compute; reflexivity.
Defined.
