(* ===== verification/SnapFaults.v ===== *)
(** The snapshot manager when system calls fail: [internal/storage/snapshot/manager.go].

    [Snapshot] writes a snapshot in one step on a disk that never fails.  Here [Create] makes its
    calls one by one, in the temporary file, and each takes its outcome from a list; a process
    that dies is one whose calls all fail from some point on.  What the other operations see of
    the directory, the files with the extension of snapshots, changes only by the renaming of a
    complete file ([snapshot_atomic]). *)

From Stdlib Require Import Ascii String Sorting.Sorted.
From stdpp Require Import list sorting strings gmap fin_maps.
From S2P Require Import Prelude Errors GoStrings Strconv Encoding Json Token Session WalCodec.
From S2P Require Import WalCodecSpec WalLog WalFaults.
From S2P Require Import Snapshot SnapshotSpec.

Open Scope string_scope.
Open Scope Z_scope.

(** The directory with the temporary files, and the outcomes of the calls to come. *)
Record FManager := MkFM { mgr : Manager; m_calls : list outcome }.
Definition next_outcome : M FManager outcome :=
  s <- get_st ;;
  match m_calls s with [] => ret Done | c :: cs => put_st (MkFM (mgr s) cs) ;;; ret c end.
Definition in_dir (f : SnapDir -> SnapDir) : M FManager unit :=
  upd_st (fun s => MkFM (set_snaps (f (snaps (mgr s))) (mgr s)) (m_calls s)).

(** A call that only succeeds or fails: [Sync], [Close], [Stat]. *)
Definition plain_call : M FManager (option error) :=
  c <- next_outcome ;; ret (match c with Done => None | Fails _ err => Some err end).
Definition os_Create (path : string) : M FManager (option error) :=
  c <- next_outcome ;;
  match c with
  | Done => in_dir (insert path (MkSnapFile [] 0)) ;;; ret None
  | Fails _ err => ret (Some err)
  end.
Definition add_to (path : string) (p : bytes) (d : SnapDir) : SnapDir :=
  alter (fun f => MkSnapFile (content f ++ p)%list (mtime f)) path d.
Definition os_Write (path : string) (p : bytes) : M FManager (option error) :=
  c <- next_outcome ;;
  match c with
  | Done => in_dir (add_to path p) ;;; ret None
  | Fails n err => in_dir (add_to path (firstn n p)) ;;; ret (Some err)
  end.
(** The file keeps the time of its last write. *)
Definition os_Rename (from to : string) (written : Z) : M FManager (option error) :=
  c <- next_outcome ;;
  match c with
  | Done =>
      in_dir (fun d => match d !! from with
        | Some f => <[to := MkSnapFile (content f) written]> (base.delete from d) | None => d end) ;;; ret None
  | Fails _ err => ret (Some err)
  end.
Definition os_Remove (path : string) : M FManager unit :=
  c <- next_outcome ;;
  match c with Done => in_dir (base.delete path) | Fails _ _ => ret tt end.

(** ** Writing a snapshot *)
Definition wrapped (what : string) (m : M FManager (option error)) : M FManager (option error) :=
  err <- m ;; ret (match err with Some err => Some (WrapError what err) | None => None end).
(** On an error the file is closed, and the answer of that call dropped. *)
Definition or_close (m : M FManager (option error)) : M FManager (option error) :=
  err <- m ;;
  match err with Some err => plain_call ;;; ret (Some err) | None => ret None end.
Fixpoint run_steps (l : list (M FManager (option error))) : M FManager (option error) :=
  match l with
  | [] => ret None
  | m :: l => err <- m ;; match err with Some err => ret (Some err) | None => run_steps l end
  end.
Definition header_steps (tmp : string) (hdr : bytes) : list (M FManager (option error)) :=
  [or_close (os_Write tmp magicBytes);
   or_close (wrapped "snapshot: write header length" (os_Write tmp (be32 (u32 (llen hdr)))));
   or_close (wrapped "snapshot: write header" (os_Write tmp hdr))].
Definition data_steps (tmp : string) (data : bytes) : list (M FManager (option error)) :=
  [or_close (wrapped "snapshot: write data length" (os_Write tmp (be32 (u32 (llen data)))));
   or_close (wrapped "snapshot: write data" (os_Write tmp data))].
Definition end_steps (tmp : string) (sum : bytes) : list (M FManager (option error)) :=
  [or_close (wrapped "snapshot: write checksum" (os_Write tmp sum));
   or_close (wrapped "snapshot: sync" plain_call);
   wrapped "snapshot: close" plain_call;
   plain_call].

Section Manager.
Context `{TimeFormat}.

Definition write_snapshot (tmp id : string) (now : Z) (sessions : list Session) (off : Z) : M FManager (Res Info) :=
  s <- get_st ;;
  let cfg := m_cfg (mgr s) in
  let hdr := MkHeader headerVersion (unix_milli now) (s_NodeID cfg) (llen sessions) off
    (match s_Cipher cfg with Some _ => true | None => false end) in
  err <- run_steps (header_steps tmp (Marshal (header_json hdr))) ;;
  match err with
  | Some err => ret (Err err)
  | None =>
      let data := Marshal (JArr (map (fun s => JObj (snap_members s)) sessions)) in
      r <- (match s_Cipher cfg with None => ret (Ok data) | Some c => Encrypt c data [] end) ;;
      match r with
      | Err err => plain_call ;;; ret (Err (WrapError "snapshot: encrypt" err))
      | Ok data =>
          let body := snapshot_body hdr data in
          let sum := sha256 body in
          written <- time_now ;;
          err <- run_steps (data_steps tmp data ++ end_steps tmp sum)%list ;;
          match err with
          | Some err => ret (Err err)
          | None =>
              let path := id +:+ fileExtension in
              err <- wrapped "snapshot: rename" (os_Rename tmp path written) ;;
              ret (match err with
                   | Some err => Err err
                   | None => Ok (MkInfo id off (llen sessions) (unix_milli now) (llen body + checksumSize) path (hex_encode sum) (s_NodeID cfg))
                   end)
          end
      end
  end.
Definition Create (sessions : list Session) (walLastOffset : Z) : M FManager (Res Info) :=
  now <- time_now ;;
  s <- get_st ;;
  let id := generateID (snaps (mgr s)) now in
  let tmp := id +:+ ".tmp" in
  err <- wrapped "snapshot: create temp file" (os_Create tmp) ;;
  match err with
  | Some err => ret (Err err)
  | None =>
      r <- write_snapshot tmp id now sessions walLastOffset ;;
      os_Remove tmp ;;;
      ret r
  end.
End Manager.

(** * What the other operations see *)
Definition is_snapshot (name : string) : bool := HasPrefix name filePrefix && HasSuffix name fileExtension.
Definition visible (d : SnapDir) : SnapDir := filter (fun kv => is_snapshot (fst kv) = true) d.

Lemma tmp_invisible id : is_snapshot (id +:+ ".tmp") = false.
Proof.
  unfold is_snapshot; destruct (HasSuffix (id +:+ ".tmp") fileExtension) eqn:E; [|by rewrite andb_false_r].
  apply HasSuffix_inv in E as [t E]; apply (f_equal (fun s => rev (list_ascii_of_string s))) in E.
  assert (forall a b, list_ascii_of_string (a +:+ b) = list_ascii_of_string a ++ list_ascii_of_string b)%list as Happ.
  { intros a b; induction a as [|x a IH]; [done|]; change (String x a +:+ b) with (String x (a +:+ b)); cbn; by rewrite IH. }
  rewrite !Happ, !rev_app_distr in E; discriminate E.
Qed.
Lemma visible_delete tmp d : is_snapshot tmp = false -> visible (base.delete tmp d) = visible d.
Proof.
  intros Ht; apply map_eq; intros k; apply option_eq; intros f; unfold visible; rewrite !map_lookup_filter_Some; cbn [fst].
  rewrite lookup_delete_Some; split; [tauto|]; intros [Hk Hv]; split_ands; try done; intros ->; congruence.
Qed.
Lemma visible_same tmp d d' : is_snapshot tmp = false -> base.delete tmp d = base.delete tmp d' -> visible d = visible d'.
Proof. intros Ht E; by rewrite <- (visible_delete tmp d), <- (visible_delete tmp d'), E. Qed.
Lemma visible_insert k f d d' : visible d = visible d' -> visible (<[k := f]> d) = visible (<[k := f]> d').
Proof.
  intros E; apply map_eq; intros k'; apply option_eq; intros g; apply (f_equal (lookup k')) in E.
  assert (forall d, visible d !! k' = Some g <-> d !! k' = Some g /\ is_snapshot k' = true) as Hv by (intros; apply map_lookup_filter_Some).
  rewrite !Hv, !lookup_insert_Some; assert (d !! k' = Some g /\ is_snapshot k' = true <-> d' !! k' = Some g /\ is_snapshot k' = true) by (by rewrite <- !Hv, E).
  naive_solver.
Qed.

(** The list of snapshots, and with it the newest one, is a function of what is visible. *)
Lemma string_leb_spec a b : String.leb a b = true <-> String.compare a b <> Gt.
Proof. unfold String.leb; destruct (String.compare a b); split; congruence. Qed.
Lemma compare_trans a : forall b c, String.compare a b <> Gt -> String.compare b c <> Gt -> String.compare a c <> Gt.
Proof.
  induction a as [|x a IH]; intros [|y b] [|z c]; cbn; try congruence.
  pose proof (N.compare_spec (N_of_ascii x) (N_of_ascii y)) as Hxy; pose proof (N.compare_spec (N_of_ascii y) (N_of_ascii z)) as Hyz;
    pose proof (N.compare_spec (N_of_ascii x) (N_of_ascii z)) as Hxz; unfold Ascii.compare.
  destruct (N_of_ascii x ?= N_of_ascii y)%N, (N_of_ascii y ?= N_of_ascii z)%N, (N_of_ascii x ?= N_of_ascii z)%N;
    inversion Hxy; inversion Hyz; inversion Hxz; intros; try congruence; try lia; eauto.
Qed.
Lemma leb_trans a b c : String.leb a b = true -> String.leb b c = true -> String.leb a c = true.
Proof. rewrite !string_leb_spec; apply compare_trans. Qed.
Lemma ltb_leb a b : (if String.ltb a b then String.leb a b else String.leb b a) = true.
Proof.
  unfold String.ltb, String.leb; rewrite (String.compare_antisym b a); by destruct (String.compare a b).
Qed.
Lemma sorted_names l l' : l ≡ₚ l' -> sort_slice String.ltb l = sort_slice String.ltb l'.
Proof.
  assert (forall x y z : string, String.leb x y = true -> String.leb y z = true -> String.leb x z = true) as Ht by apply leb_trans.
  assert (forall x y, String.ltb x y = true -> String.leb x y = true) as H1 by (intros x y E; pose proof (ltb_leb x y); by rewrite E in *).
  assert (forall x y, String.ltb x y = false -> String.leb y x = true) as H2 by (intros x y E; pose proof (ltb_leb x y); by rewrite E in *).
  intros Hp; destruct (sort_slice_spec String.ltb (fun a b => String.leb a b = true) Ht H1 H2 l) as [Hp1 Hs1],
    (sort_slice_spec String.ltb (fun a b => String.leb a b = true) Ht H1 H2 l') as [Hp2 Hs2].
  apply (StronglySorted_unique_strong (fun a b => String.leb a b = true)); [|done|done|by rewrite Hp1, Hp2].
  intros a b _ _ Ha Hb; by apply String.leb_antisym.
Qed.
Definition snapshot_names (d : SnapDir) : list string := List.filter is_snapshot (map fst (map_to_list d)).
Lemma names_elem (d : SnapDir) k : k ∈ map fst (map_to_list d) <-> is_Some (d !! k).
Proof.
  rewrite list_elem_of_fmap; split.
  - intros ([k' f] & -> & Hin); apply elem_of_map_to_list in Hin; by eexists.
  - intros [f Hf]; exists (k, f); split; [done|]; by apply elem_of_map_to_list.
Qed.
Lemma snapshot_names_visible d : snapshot_names d ≡ₚ map fst (map_to_list (visible d)).
Proof.
  apply NoDup_Permutation; [|apply (NoDup_fst_map_to_list (visible d))|].
  - apply NoDup_ListNoDup, List.NoDup_filter, NoDup_ListNoDup, (NoDup_fst_map_to_list d).
  - intros k; rewrite names_elem; unfold snapshot_names; rewrite list_elem_of_In, List.filter_In, <- list_elem_of_In, names_elem.
    unfold visible; split.
    + intros [[f Hf] Hk]; exists f; by apply map_lookup_filter_Some_2.
    + intros [f [Hf Hk]%map_lookup_filter_Some]; split; [by exists f|done].
Qed.
Lemma visible_lookup d k : is_snapshot k = true -> visible d !! k = d !! k.
Proof.
  intros Hk; apply option_eq; intros f; unfold visible; rewrite map_lookup_filter_Some; cbn [fst]; tauto.
Qed.
Lemma listed_names d : sort_slice String.ltb (List.filter (fun name => HasPrefix name filePrefix && HasSuffix name fileExtension) (map fst (map_to_list d))) =
  sort_slice String.ltb (map fst (map_to_list (visible d))).
Proof. apply sorted_names, snapshot_names_visible. Qed.
Lemma List_visible d d' : visible d = visible d' -> Snapshot.List d = Snapshot.List d'.
Proof.
  intros E; unfold Snapshot.List; rewrite !listed_names, E; apply list_omap_ext, Forall_Forall2_diag, Forall_forall.
  intros k Hk; rewrite sort_slice_perm, names_elem in Hk; destruct Hk as [f Hf].
  assert (is_snapshot k = true) as Hs by (by apply map_lookup_filter_Some in Hf as [_ Hk']).
  by rewrite <- (visible_lookup d k Hs), <- (visible_lookup d' k Hs), E.
Qed.
Lemma listed_visible d i : i ∈ Snapshot.List d -> is_snapshot (i_Path i) = true.
Proof.
  unfold Snapshot.List; rewrite listed_names, list_elem_of_omap; intros (k & Hk & Hi); rewrite sort_slice_perm, names_elem in Hk.
  destruct Hk as [f Hf]; apply map_lookup_filter_Some in Hf as [Hf Hk]; rewrite Hf in Hi; cbn in Hi; injection Hi as <-; exact Hk.
Qed.
(** So is what [Load] returns. *)
Lemma load_newest_visible d d' cipher l : visible d = visible d' -> Forall (fun i => is_snapshot (i_Path i) = true) l ->
  load_newest d cipher l = load_newest d' cipher l.
Proof.
  intros E; induction 1 as [|i l Hi _ IH]; [done|]; cbn [load_newest].
  by rewrite <- (visible_lookup d _ Hi), <- (visible_lookup d' _ Hi), E, IH.
Qed.
Lemma Load_visible m m' : visible (snaps m) = visible (snaps m') -> s_Cipher (m_cfg m) = s_Cipher (m_cfg m') -> Load m = Load m'.
Proof.
  intros E Hc; unfold Load; rewrite Hc, (List_visible _ _ E); apply load_newest_visible; [done|].
  apply Forall_forall; intros i Hi; rewrite list_elem_of_In, <- in_rev, <- list_elem_of_In in Hi; by apply listed_visible in Hi.
Qed.

(** * The steps *)

(** The temporary file holds [c]. *)
Definition has (tmp : string) (c : bytes) (s : FManager) : Prop := content <$> snaps (mgr s) !! tmp = Some c.
(** A step touches the temporary file only, and adds [p] to it where it succeeds. *)
Definition appends (tmp : string) (p : bytes) (m : M FManager (option error)) : Prop := forall s e, exists r s',
  m s e = (r, s', e) /\ base.delete tmp (snaps (mgr s')) = base.delete tmp (snaps (mgr s)) /\ m_cfg (mgr s') = m_cfg (mgr s) /\
  (r = None -> forall c, has tmp c s -> has tmp (c ++ p) s').

Lemma next_outcome_run s e : exists c s', next_outcome s e = (c, s', e) /\ mgr s' = mgr s.
Proof. unfold next_outcome, bind, get_st, put_st, ret; destruct (m_calls s) as [|c cs]; by eexists _, _. Qed.
Lemma appends_plain tmp : appends tmp [] plain_call.
Proof.
  intros s e; destruct (next_outcome_run s e) as (c & s' & E & Hs'); unfold plain_call; eexists _, s'.
  rewrite (bind_run _ _ _ _ _ _ _ E); split_ands; [reflexivity|by rewrite Hs'..|]; intros _ b; unfold has; by rewrite Hs', app_nil_r.
Qed.
Lemma delete_add_to tmp p d : base.delete tmp (add_to tmp p d) = base.delete tmp d.
Proof. unfold add_to; apply delete_alter_eq. Qed.
Lemma appends_write tmp p : appends tmp p (os_Write tmp p).
Proof.
  intros s e; destruct (next_outcome_run s e) as (c & s' & E & Hs'); unfold os_Write; rewrite (bind_run _ _ _ _ _ _ _ E).
  unfold in_dir, bind, upd_st, ret; destruct c as [|n err]; (eexists _, _; split_ands; [reflexivity|cbn; by rewrite Hs', delete_add_to|cbn; by rewrite Hs'|]); [|done].
  intros _ c; unfold has; cbn; rewrite Hs'; unfold add_to; rewrite lookup_alter_eq; by destruct (snaps (mgr s) !! tmp); [intros [= <-]|].
Qed.
Lemma appends_wrapped tmp what p m : appends tmp p m -> appends tmp p (wrapped what m).
Proof.
  intros Hm s e; destruct (Hm s e) as (r & s' & E & Hd & Hc & Hh); eexists _, s'; unfold wrapped; rewrite (bind_run _ _ _ _ _ _ _ E).
  split_ands; [reflexivity|done|done|]; destruct r; [done|by intros _; apply Hh].
Qed.
Lemma appends_or_close tmp p m : appends tmp p m -> appends tmp p (or_close m).
Proof.
  intros Hm s e; destruct (Hm s e) as (r & s' & E & Hd & Hc & Hh); unfold or_close; rewrite (bind_run _ _ _ _ _ _ _ E).
  destruct r as [err|]; [|by exists None, s'].
  destruct (appends_plain tmp s' e) as (r2 & s2 & E2 & Hd2 & Hc2 & _); exists (Some err), s2; rewrite (bind_run _ _ _ _ _ _ _ E2).
  split_ands; [reflexivity|congruence|congruence|done].
Qed.
Lemma appends_steps tmp ps l : Forall2 (appends tmp) ps l -> appends tmp (concat ps) (run_steps l).
Proof.
  induction 1 as [|p m ps l Hm _ IH]; intros s e; cbn [run_steps concat].
  { exists None, s; split_ands; try done; intros _ c; by rewrite app_nil_r. }
  destruct (Hm s e) as (r & s' & E & Hd & Hc & Hh); rewrite (bind_run _ _ _ _ _ _ _ E); destruct r as [err|]; [by exists (Some err), s'|].
  destruct (IH s' e) as (r2 & s2 & E2 & Hd2 & Hc2 & Hh2); exists r2, s2; split_ands; [exact E2|congruence|congruence|].
  intros Hr c Hc0; rewrite (assoc_L (++)%list); apply Hh2; [done|]; by apply Hh.
Qed.
Create HintDb snapfaults.
#[export] Hint Resolve appends_plain appends_write appends_wrapped appends_or_close : snapfaults.
Ltac steps := repeat (apply Forall2_cons; split; [eauto with snapfaults|]); apply Forall2_nil_2.

Lemma header_appends tmp hdr : appends tmp (magicBytes ++ be32 (u32 (llen hdr)) ++ hdr) (run_steps (header_steps tmp hdr)).
Proof.
  replace (magicBytes ++ be32 (u32 (llen hdr)) ++ hdr)%list with (concat [magicBytes; be32 (u32 (llen hdr)); hdr]) by (cbn [concat]; by rewrite app_nil_r).
  apply appends_steps; unfold header_steps; steps.
Qed.
Lemma rest_appends tmp data sum : appends tmp (be32 (u32 (llen data)) ++ data ++ sum) (run_steps (data_steps tmp data ++ end_steps tmp sum)).
Proof.
  replace (be32 (u32 (llen data)) ++ data ++ sum)%list with (concat [be32 (u32 (llen data)); data; sum; []; []; []])
    by (cbn [concat]; by rewrite !app_nil_r).
  apply appends_steps; unfold data_steps, end_steps; cbn [app]; steps.
Qed.

Lemma encrypt_run (o : option Cipher) data e : exists r e1, forall S (s : S),
  (match o with None => ret (Ok data) | Some c => Encrypt c data [] end) s e = (r, s, e1).
Proof.
  destruct o as [c|]; [|by eexists _, _]; unfold Encrypt, bind, rand_read, ret; destruct (rnd e 0%nat _); by eexists _, _.
Qed.
Lemma rename_run tmp path written s e c : tmp <> path -> has tmp c s -> exists r s', os_Rename tmp path written s e = (r, s', e) /\
  m_cfg (mgr s') = m_cfg (mgr s) /\
  match r with
  | Some _ => snaps (mgr s') = snaps (mgr s)
  | None => snaps (mgr s') = <[path := MkSnapFile c written]> (base.delete tmp (snaps (mgr s)))
  end.
Proof.
  intros Hne Hh; destruct (next_outcome_run s e) as (o & s' & E & Hs'); unfold os_Rename; rewrite (bind_run _ _ _ _ _ _ _ E).
  unfold in_dir, bind, upd_st, ret; destruct o as [|n err]; (eexists _, _; split_ands; [reflexivity|cbn; by rewrite Hs'|cbn; rewrite Hs']); [|done].
  unfold has in Hh; destruct (snaps (mgr s) !! tmp); [|done]; by injection Hh as <-.
Qed.
Lemma remove_run tmp s e : exists s', os_Remove tmp s e = (tt, s', e) /\ m_cfg (mgr s') = m_cfg (mgr s) /\
  base.delete tmp (snaps (mgr s')) = base.delete tmp (snaps (mgr s)).
Proof.
  destruct (next_outcome_run s e) as (o & s' & E & Hs'); unfold os_Remove; rewrite (bind_run _ _ _ _ _ _ _ E).
  destruct o; (eexists; split_ands; [reflexivity|cbn; by rewrite Hs'|cbn; rewrite Hs'; try done; apply delete_delete_eq]).
Qed.

Section Atomic.
Context `{TimeFormat}.

(** What [write_snapshot] leaves, for the caller with the temporary file [tmp] and for the rest. *)
Lemma write_snapshot_run tmp id now sessions off s e :
  is_snapshot tmp = false -> tmp <> id +:+ fileExtension -> has tmp [] s ->
  exists r s' e', write_snapshot tmp id now sessions off s e = (r, s', e') /\ m_cfg (mgr s') = m_cfg (mgr s) /\
    match r with
    | Err _ => visible (snaps (mgr s')) = visible (snaps (mgr s))
    | Ok info => exists d f, visible d = visible (snaps (mgr s)) /\ snaps (mgr s') = <[id +:+ fileExtension := f]> d /\
        let hdr := MkHeader headerVersion (unix_milli now) (s_NodeID (m_cfg (mgr s))) (llen sessions) off
          (match s_Cipher (m_cfg (mgr s)) with Some _ => true | None => false end) in
        exists data e1, (forall S (s0 : S), (match s_Cipher (m_cfg (mgr s)) with None => ret (Ok (Marshal (JArr (map (fun s => JObj (snap_members s)) sessions))))
            | Some c => Encrypt c (Marshal (JArr (map (fun s => JObj (snap_members s)) sessions))) [] end) s0 e = (Ok data, s0, e1)) /\
          f = MkSnapFile (snapshot_body hdr data ++ sha256 (snapshot_body hdr data)) (clk e1 0%nat) /\
          e' = Env (fun n => clk e1 (n + 1)%nat) (rnd e1) (ulids e1) /\
          info = MkInfo id off (llen sessions) (unix_milli now) (llen (snapshot_body hdr data) + checksumSize) (id +:+ fileExtension)
            (hex_encode (sha256 (snapshot_body hdr data))) (s_NodeID (m_cfg (mgr s)))
    end.
Proof.
  intros Hinv Hne Hh; unfold write_snapshot; erewrite bind_run by reflexivity; cbv zeta; set (hdr := MkHeader _ _ _ _ _ _).
  destruct (header_appends tmp (Marshal (header_json hdr)) s e) as (r1 & s1 & E1 & Hd1 & Hc1 & Hh1); rewrite (bind_run _ _ _ _ _ _ _ E1).
  destruct r1 as [err|]; [by eexists _, s1, e; split_ands; [reflexivity|done|by apply (visible_same tmp)]|].
  set (plain := Marshal (JArr _)); destruct (encrypt_run (s_Cipher (m_cfg (mgr s))) plain e) as (rd & e1 & Hrd); rewrite (bind_run _ _ _ _ _ _ _ (Hrd _ s1)).
  destruct rd as [data|err].
  2:{ destruct (appends_plain tmp s1 e1) as (r2 & s2 & E2 & Hd2 & Hc2 & _); rewrite (bind_run _ _ _ _ _ _ _ E2).
      eexists _, s2, e1; split_ands; [reflexivity|congruence|apply (visible_same tmp); congruence]. }
  erewrite bind_run by reflexivity; set (e2 := Env _ _ _); set (body := snapshot_body hdr data).
  destruct (rest_appends tmp data (sha256 body) s1 e2) as (r2 & s2 & E2 & Hd2 & Hc2 & Hh2); rewrite (bind_run _ _ _ _ _ _ _ E2).
  destruct r2 as [err|]; [eexists _, s2, e2; split_ands; [reflexivity|congruence|apply (visible_same tmp); congruence]|].
  specialize (Hh2 eq_refl _ (Hh1 eq_refl _ Hh)); rewrite app_nil_l in Hh2.
  destruct (rename_run tmp (id +:+ fileExtension) (clk e1 0%nat) s2 e2 _ Hne Hh2) as (r3 & s3 & E3 & Hc3 & Hs3).
  erewrite bind_run by (unfold wrapped; rewrite (bind_run _ _ _ _ _ _ _ E3); reflexivity).
  destruct r3 as [err|]; [eexists _, s3, e2; split_ands; [reflexivity|congruence|rewrite Hs3; apply (visible_same tmp); congruence]|].
  eexists _, s3, e2; split_ands; [reflexivity|congruence|].
  eexists (base.delete tmp (snaps (mgr s2))), _; split; [rewrite visible_delete by done; apply (visible_same tmp); congruence|]; split; [exact Hs3|].
  exists data, e1; split_ands; [exact Hrd| |done|done]; f_equal; unfold body, snapshot_body; by rewrite <- !(assoc_L (++)%list).
Qed.

(** C15: A snapshot is all or nothing.  Whatever calls fail, and wherever the process dies in between,
    what listing and loading see of the directory is either exactly what it was, and then [Create]
    did not report a snapshot, or exactly what the snapshot written on a disk that never fails
    makes of it. *)
Theorem snapshot_atomic (sessions : list Session) (off : Z) (s s' : FManager) (e e' : env) (r : Res Info)
  (Hrun : Create sessions off s e = (r, s', e')) :
  match r with
  | Err _ => Snapshot.List (snaps (mgr s')) = Snapshot.List (snaps (mgr s)) /\ Load (mgr s') = Load (mgr s)
  | Ok info => exists m', Snapshot.Create sessions off (mgr s) e = (Ok info, m', e') /\
      Snapshot.List (snaps (mgr s')) = Snapshot.List (snaps m') /\ Load (mgr s') = Load m'
  end.
Proof.
  assert (m_cfg (mgr s') = m_cfg (mgr s) /\ match r with
    | Err _ => visible (snaps (mgr s')) = visible (snaps (mgr s))
    | Ok info => exists m', Snapshot.Create sessions off (mgr s) e = (Ok info, m', e') /\ m_cfg m' = m_cfg (mgr s) /\ visible (snaps (mgr s')) = visible (snaps m')
    end) as [Hcfg Hv].
  2:{ destruct r as [info|err].
      - destruct Hv as (m' & E & Hc & Hv); exists m'; split_ands; [done|by apply List_visible|apply Load_visible; [done|congruence]].
      - split; [by apply List_visible|apply Load_visible; [done|congruence]]. }
  unfold Create in Hrun; do 2 erewrite bind_run in Hrun by reflexivity; cbv zeta in Hrun.
  set (e0 := Env _ _ _) in Hrun; set (id := generateID _ _) in Hrun; set (tmp := id +:+ ".tmp") in Hrun.
  pose proof (tmp_invisible id : is_snapshot tmp = false) as Hinv.
  assert (tmp <> id +:+ fileExtension) as Hne.
  { intros E; unfold is_snapshot in Hinv; apply (f_equal String.length) in E; unfold tmp in E; rewrite !length_app_str in E; cbn in E; lia. }
  destruct (next_outcome_run s e0) as (o & s1 & E1 & Hs1); destruct o as [|n err].
  2:{ assert (wrapped "snapshot: create temp file" (os_Create tmp) s e0 = (Some (WrapError "snapshot: create temp file" err), s1, e0)) as Ec
        by (unfold wrapped, os_Create; erewrite bind_run by (rewrite (bind_run _ _ _ _ _ _ _ E1); reflexivity); reflexivity).
      rewrite (bind_run _ _ _ _ _ _ _ Ec) in Hrun; injection Hrun as <- <- <-; by rewrite Hs1. }
  set (s2 := MkFM (set_snaps (insert tmp (MkSnapFile [] 0) (snaps (mgr s1))) (mgr s1)) (m_calls s1)).
  assert (wrapped "snapshot: create temp file" (os_Create tmp) s e0 = (None, s2, e0)) as Ec
    by (unfold wrapped, os_Create; erewrite bind_run by (rewrite (bind_run _ _ _ _ _ _ _ E1); reflexivity); reflexivity).
  rewrite (bind_run _ _ _ _ _ _ _ Ec) in Hrun; assert (has tmp [] s2) as Hh by (unfold has; cbn; by rewrite lookup_insert_eq).
  assert (visible (snaps (mgr s2)) = visible (snaps (mgr s))) as Hv2
    by (apply (visible_same tmp); [done|]; cbn; by rewrite Hs1, delete_insert_eq).
  destruct (write_snapshot_run tmp id (clk e 0%nat) sessions off s2 e0 Hinv Hne Hh) as (rw & s3 & e3 & Ew & Hc3 & Hw).
  rewrite (bind_run _ _ _ _ _ _ _ Ew) in Hrun; destruct (remove_run tmp s3 e3) as (s4 & E4 & Hc4 & Hd4).
  rewrite (bind_run _ _ _ _ _ _ _ E4) in Hrun; injection Hrun as <- <- <-.
  assert (m_cfg (mgr s2) = m_cfg (mgr s)) as Hc2 by (cbn; by rewrite Hs1).
  split; [congruence|]; pose proof (visible_same tmp _ _ Hinv Hd4) as Hv4; destruct rw as [info|err]; [|congruence].
  destruct Hw as (d & f & Hd & Hs3 & data & e1 & Hrd & -> & -> & ->); rewrite Hc2 in *.
  eexists; unfold Snapshot.Create; split_ands.
  - do 2 erewrite bind_run by reflexivity; cbv zeta; fold e0 id; rewrite (bind_run _ _ _ _ _ _ _ (Hrd _ (mgr s))).
    do 2 erewrite bind_run by reflexivity; reflexivity.
  - done.
  - etransitivity; [rewrite Hv4, Hs3; apply visible_insert; etransitivity; [exact Hd|exact Hv2]|reflexivity].
Qed.
End Atomic.

(** The disk fills up while the sessions are written, and the temporary file cannot be removed. *)
#[local] Existing Instance SnapshotSpec.demo_time.
Definition demo_full_disk : FManager :=
  MkFM demo_after [Done; Done; Done; Done; Done; Fails 7 ENOSPC; Done; Fails 0 ENOSPC].
Definition demo_failed := Create [demo_session] 0 demo_full_disk demo_codec_env.
Lemma snapshot_atomic_witness :
  fst (fst demo_failed) = Err (WrapError "snapshot: write data" ENOSPC) /\
  map fst (map_to_list (snaps (mgr (snd (fst demo_failed))))) <> map fst (map_to_list (snaps demo_after)) /\
  Snapshot.List (snaps (mgr (snd (fst demo_failed)))) = Snapshot.List (snaps demo_after) /\
  Load (mgr (snd (fst demo_failed))) = Load demo_after.
Proof.
  split; [vm_compute; reflexivity|]; split; [vm_compute; discriminate|].
  assert (demo_failed = (Err (WrapError "snapshot: write data" ENOSPC), snd (fst demo_failed), snd demo_failed)) as E by (vm_compute; reflexivity).
  pose proof (snapshot_atomic [demo_session] 0 demo_full_disk _ demo_codec_env _ _ E) as H; cbn beta iota in H.
  change (mgr demo_full_disk) with demo_after in H; exact H.
Defined.
