(* ===== verification/Engine.v ===== *)
(** The storage engine: [internal/storage/engine.go].

    The engine owns a memory store, the writer of the log and the snapshot
    manager; the directories of the last two are part of their states.  An
    operation writes its log entry first and then the store.  Recovery loads the newest
    snapshot and replays the log from the snapshot's offset.  Log messages, and
    the clock readings that only appear in them, are left out; the ticks of
    [backgroundLoop] come at arbitrary times. *)

From Stdlib Require Import Ascii String.
From stdpp Require Import list strings gmap fin_maps.
From S2P Require Import Prelude Errors GoStrings Session MemoryStore WalCodec WalLog Snapshot.

Open Scope string_scope.
Open Scope Z_scope.

Record EngineConfig := MkEngineConfig {
  DataDir : string;
  WAL : WalLog.Config;
  SnapshotCfg : SnapConfig;
  MaxPerUser : Z;
  SnapshotInterval : Z;
  EngineCipher : option Cipher;
  NodeID : string;
}.
Definition DefaultSnapshotInterval : Z := 3600 * 1000000000.
Definition DefaultWALDir : string := "data/wal".
Definition DefaultSnapshotDir : string := "data/snapshots".
Definition DefaultConfig (dataDir : string) : EngineConfig :=
  MkEngineConfig dataDir
    (MkConfig (dataDir +:+ "/" +:+ DefaultWALDir) DefaultBatchCount DefaultBatchBytes
       DefaultMaxFileSize DefaultMaxEntryCount None)
    (MkSnapConfig (dataDir +:+ "/" +:+ DefaultSnapshotDir) DefaultRetentionCount
       DefaultRetentionDays None "")
    0 DefaultSnapshotInterval None "".

Record Engine := MkEngine {
  e_cfg : EngineConfig;
  store : Store;
  wal : Writer;
  snapshot : Manager;
  lastWALOffset : Z;
  stopped : bool;
}.
Definition set_store (s : Store) (e : Engine) : Engine :=
  MkEngine (e_cfg e) s (wal e) (snapshot e) (lastWALOffset e) (stopped e).
Definition set_wal (w : Writer) (e : Engine) : Engine :=
  MkEngine (e_cfg e) (store e) w (snapshot e) (lastWALOffset e) (stopped e).
Definition set_snapshot (m : Manager) (e : Engine) : Engine :=
  MkEngine (e_cfg e) (store e) (wal e) m (lastWALOffset e) (stopped e).
Definition set_lastWALOffset (off : Z) (e : Engine) : Engine :=
  MkEngine (e_cfg e) (store e) (wal e) (snapshot e) off (stopped e).
Definition set_stopped (e : Engine) : Engine :=
  MkEngine (e_cfg e) (store e) (wal e) (snapshot e) (lastWALOffset e) true.

Definition in_store {A} (m : M Store A) : M Engine A := zoom store set_store m.
Definition in_wal {A} (m : M Writer A) : M Engine A := zoom wal set_wal m.
Definition in_snapshot {A} (m : M Manager A) : M Engine A := zoom snapshot set_snapshot m.
Definition mark_offset : M Engine unit :=
  upd_st (fun e => set_lastWALOffset (CurrentOffset (wal e)) e).

(** The configuration with the common fields copied into the components'. *)
Definition spread_config (c : EngineConfig) : EngineConfig :=
  let w := WAL c in
  let n := SnapshotCfg c in
  MkEngineConfig (DataDir c)
    (MkConfig (Dir_ w) (BatchCount w) (BatchBytes w) (MaxFileSize w) (MaxEntryCount w)
       (EngineCipher c))
    (MkSnapConfig (s_Dir n) (RetentionCount n) (RetentionDays n) (EngineCipher c) (NodeID c))
    (MaxPerUser c) (SnapshotInterval c) (EngineCipher c) (NodeID c).

(** The new engine, or the error and the log directory it leaves. *)
Definition New (c : EngineConfig) (wal_dir : Dir) (snap_dir : SnapDir)
    : env -> (Engine + error * Dir) * env := fun env0 =>
  if String.eqb (DataDir c) "" then
    (inr (SimpleError "storage: data_dir is required", wal_dir), env0)
  else
    let c := spread_config c in
    let st := MemoryStore.New (if 0 <? MaxPerUser c then MaxPerUser c else DefaultMaxSessionsPerUser) in
    match NewWriter (WAL c) wal_dir env0 with
    | (Err err, env1) => (inr (WrapError "storage: create wal writer" err, wal_dir), env1)
    | (Ok w, env1) =>
        match NewManager (SnapshotCfg c) snap_dir with
        | Err err =>
            let '(_, w', env2) := WalLog.Close w env1 in
            (inr (WrapError "storage: create snapshot manager" err, files w'), env2)
        | Ok m => (inl (MkEngine c st w m 0 false), env1)
        end
    end.

(** ** Recovery *)
Definition applyEntry (entry : Entry) : M Store (option error) :=
  if OpType entry =? OpTypeCreate then
    match ESession entry with
    | None => ret (Some (SimpleError "missing session data for CREATE"))
    | Some session =>
        err <- MemoryStore.Create session ;;
        ret (match err with
             | Some err => if errors_is err ErrSessionConflict then None else Some err
             | None => None
             end)
    end
  else if OpType entry =? OpTypeUpdate then
    match ESession entry with
    | None => ret (Some (SimpleError "missing session data for UPDATE"))
    | Some session =>
        r <- MemoryStore.Update session (u64 (Version session - 1)) ;;
        ret (match fst r with
             | Some err => if errors_is err ErrSessionNotFound || errors_is err ErrSessionVersionConflict
                           then None else Some err
             | None => None
             end)
    end
  else if OpType entry =? OpTypeDelete then
    err <- MemoryStore.Delete (SessionID entry) ;;
    ret (match err with
         | Some err => if errors_is err ErrSessionNotFound then None else Some err
         | None => None
         end)
  else ret (Some (SimpleError "unknown entry type")).

(** The session of a CREATE entry has expired. *)
Definition skipped_entry (now : Z) (entry : Entry) : bool :=
  (OpType entry =? OpTypeCreate) &&
  match ESession entry with Some s => ExpiresAt s <? now | None => false end.

(** The loop over the reader [r]; the number of entries applied. *)
Fixpoint replay_loop (fuel : nat) (r : Reader) (now applied : Z) : M Engine (option Z) :=
  match fuel with
  | O => ret None
  | S fuel' =>
      x <- with_local r Read ;;
      match x with
      | (Err err, r) =>
          if errors_is err EOF then ret (Some applied) else replay_loop fuel' r now applied
      | (Ok entry, r) =>
          if skipped_entry now entry then replay_loop fuel' r now applied
          else
            err <- in_store (applyEntry entry) ;;
            match err with
            | Some _ => replay_loop fuel' r now applied
            | None => mark_offset ;;; replay_loop fuel' r now (applied + 1)
            end
      end
  end.

(** Every reading consumes a byte or opens a segment, so the loop goes round at
    most once per byte and segment. *)
Definition replay_fuel (d : Dir) : nat := (2 + total_bytes d + length (scanSegments d))%nat.
Definition replayWAL (fromOffset : Z) : M Engine (option Z) :=
  e <- get_st ;;
  let d := files (wal e) in
  let reader := Seek fromOffset (NewReader d (CfgCipher (WAL (e_cfg e)))) in
  now <- now_milli ;;
  replay_loop (replay_fuel d) reader now 0.

(** [None] would be the loop running out of fuel. *)
Definition Recover : M Engine (option (option error)) :=
  e <- get_st ;;
  let replay off := n <- replayWAL off ;; ret (match n with Some _ => Some None | None => None end) in
  match Load (snapshot e) with
  | Err err => if errors_is err ErrNoSnapshots then replay 0
               else ret (Some (Some (WrapError "load snapshot" err)))
  | Ok (loaded, info) =>
      for_range loaded (fun s => in_store (MemoryStore.Create s) ;;; ret tt) ;;;
      upd_st (set_lastWALOffset (i_WALLastOffset info)) ;;;
      replay (i_WALLastOffset info)
  end.

(** ** Operations *)
Definition write_wal (new_entry : M Writer Entry) : M Engine (option error) :=
  entry <- in_wal new_entry ;;
  err <- in_wal (Append entry) ;;
  ret (option_map (WrapError "write wal") err).

Definition Create (session : Session) : M Engine (option error) :=
  err <- write_wal (NewCreateEntry session) ;;
  match err with
  | Some err => ret (Some err)
  | None =>
      err <- in_store (MemoryStore.Create session) ;;
      match err with
      | Some err => ret (Some err)
      | None => mark_offset ;;; ret None
      end
  end.

Definition Get (id : string) : M Engine (Res Session) := in_store (MemoryStore.Get id).
Definition GetByToken (tokenHash : string) : M Engine (Res Session) :=
  in_store (MemoryStore.GetByToken tokenHash).

(** With the caller's session as the call leaves it. *)
Definition Update (session : Session) (expectedVersion : Z) : M Engine (option error * Session) :=
  err <- write_wal (NewUpdateEntry session) ;;
  match err with
  | Some err => ret (Some err, session)
  | None =>
      r <- in_store (MemoryStore.Update session expectedVersion) ;;
      match r with
      | (Some err, session) => ret (Some err, session)
      | (None, session) => mark_offset ;;; ret (None, session)
      end
  end.

Definition UpdateSession (session : Session) : M Engine (option error) :=
  err <- write_wal (NewUpdateEntry session) ;;
  match err with
  | Some err => ret (Some err)
  | None =>
      err <- in_store (MemoryStore.UpdateSession session) ;;
      match err with
      | Some err => ret (Some err)
      | None => mark_offset ;;; ret None
      end
  end.

Definition Delete (id : string) : M Engine (option error) :=
  err <- write_wal (NewDeleteEntry id) ;;
  match err with
  | Some err => ret (Some err)
  | None =>
      err <- in_store (MemoryStore.Delete id) ;;
      match err with
      | Some err => ret (Some err)
      | None => mark_offset ;;; ret None
      end
  end.

Definition List (filter : SessionFilter) : M Engine (option (list Session * Z)) :=
  in_store (MemoryStore.List filter).
Definition CountByUserID (userID : string) : M Engine Z := in_store (MemoryStore.CountByUserID userID).
Definition ListByUserID (userID : string) : M Engine (list Session) :=
  in_store (MemoryStore.ListByUserID userID).

(** A failed [Append] is only logged. *)
Definition DeleteByUserID (userID : string) : M Engine Z :=
  l <- in_store (MemoryStore.ListByUserID userID) ;;
  for_range l (fun sess => write_wal (NewDeleteEntry (ID sess)) ;;; ret tt) ;;;
  in_store (MemoryStore.DeleteByUserID userID).

Definition GetSessionByTokenHash (tokenHash : string) : M Engine (Res Session) :=
  in_store (MemoryStore.GetSessionByTokenHash tokenHash).

Definition TriggerSnapshot `{TimeFormat} : M Engine (Res Info) :=
  e <- get_st ;;
  info <- in_snapshot (Snapshot.Create (All (store e)) (lastWALOffset e)) ;;
  match info with
  | Err err => ret (Err (WrapError "create snapshot" err))
  | Ok info =>
      in_snapshot Prune ;;;
      in_wal (upd_st (fun w => MkWriter (Compact DefaultRetainCount (i_WALLastOffset info) (files w))
        (cfg w) (segmentID w) (file w) (fileSize w) (segmentEntries w) (hash w) (buffer w)
        (bufferBytes w) (closed w))) ;;;
      ret (Ok info)
  end.

(** The loop over the ticks that come before it is told to stop; errors are logged only. *)
Fixpoint backgroundLoop `{TimeFormat} (ticks : nat) : M Engine unit :=
  match ticks with O => ret tt | S n => TriggerSnapshot ;;; backgroundLoop n end.

(** [None] is the panic of closing a closed channel. *)
Definition Close : M Engine (option (option error)) :=
  e <- get_st ;;
  if stopped e then ret None
  else
    upd_st set_stopped ;;;
    err <- in_wal WalLog.Close ;;
    ret (Some err).

Definition Count : M Engine Z := e <- get_st ;; ret (MemoryStore.Count (store e)).
Definition DeleteExpired : M Engine Z := in_store MemoryStore.DeleteExpired.
