(* ===== verification/EngineFacts.v ===== *)
(** How the engine's log and its store stay in step: the effect of a log entry
    on the store, its invariance under the wire format, and the replay loop. *)

From Stdlib Require Import Ascii String.
From stdpp Require Import list strings gmap fin_maps.
From S2P Require Import Prelude Errors GoStrings Token Session MemoryStore WalCodec WalCodecSpec.
From S2P Require Import WalLog WalLogFacts WalReadFacts WalWriteFacts WalLogSpec Snapshot Engine.

Open Scope string_scope.
Open Scope Z_scope.

(** ** The effect of an entry *)

(** [applyEntry] reads neither clock nor random source. *)
Definition no_env : env := Env (fun _ => 0) (fun _ _ => Err EOF) (fun _ => Err EOF).
Definition apply_result (x : Entry) (s : Store) : option error * Store :=
  fst (applyEntry x s no_env).
Definition step (s : Store) (x : Entry) : Store := snd (apply_result x s).
Definition replay_step (now : Z) (s : Store) (x : Entry) : Store :=
  if skipped_entry now x then s else step s x.

Definition pure_op {S A} (m : M S A) : Prop := forall s e e', m s e = (fst (m s e'), e).
Lemma pure_ret {S A} (a : A) : pure_op (S := S) (ret a).
Proof. done. Qed.
Lemma pure_get {S} : pure_op (S := S) get_st.
Proof. done. Qed.
Lemma pure_upd {S} (f : S -> S) : pure_op (upd_st f).
Proof. done. Qed.
Lemma pure_bind {S A B} (m : M S A) (k : A -> M S B) :
  pure_op m -> (forall a, pure_op (k a)) -> pure_op (bind m k).
Proof.
  intros Hm Hk s e e'; unfold bind; rewrite (Hm s e e').
  destruct (m s e') as [[a s1] e1]; cbn [fst]; apply Hk.
Qed.
#[export] Hint Resolve pure_ret pure_get pure_upd : go.
Ltac pure_tac :=
  repeat first [ progress intros | apply pure_bind | solve [eauto with go] | case_goal ].

Lemma Create_pure x : pure_op (MemoryStore.Create x).
Proof. unfold MemoryStore.Create; pure_tac. Qed.
Lemma Update_pure x v : pure_op (MemoryStore.Update x v).
Proof. unfold MemoryStore.Update; pure_tac. Qed.
Lemma Delete_pure id : pure_op (MemoryStore.Delete id).
Proof. unfold MemoryStore.Delete; pure_tac. Qed.
Lemma UpdateSession_pure x : pure_op (MemoryStore.UpdateSession x).
Proof. unfold MemoryStore.UpdateSession; pure_tac. Qed.
#[export] Hint Resolve Create_pure Update_pure Delete_pure UpdateSession_pure : go.
Lemma applyEntry_pure x : pure_op (applyEntry x).
Proof. unfold applyEntry; pure_tac. Qed.

Lemma applyEntry_run x s e : applyEntry x s e = (fst (apply_result x s), step s x, e).
Proof.
  rewrite (applyEntry_pure x s e no_env); unfold step, apply_result; by destruct (fst _).
Qed.

(** The store operations do what the replay of their entries does. *)
Definition create_entry (now : Z) (s : Session) : Entry := MkEntry OpTypeCreate now (ID s) (Version s) (Some s).
Definition update_entry (now : Z) (s : Session) : Entry := MkEntry OpTypeUpdate now (ID s) (Version s) (Some s).
Definition delete_entry (now : Z) (id : string) : Entry := MkEntry OpTypeDelete now id 0 None.

(** The state a store operation leaves. *)
Definition after {A} (m : M Store A) (s : Store) : Store := snd (fst (m s no_env)).
Lemma run_after {A} (m : M Store A) s e : pure_op m -> m s e = (fst (fst (m s no_env)), after m s, e).
Proof. intros H; rewrite (H s e no_env); unfold after; by destruct (fst _). Qed.
Lemma after_ret {A B} (m : M Store A) (f : A -> B) s : after (a <- m ;; ret (f a)) s = after m s.
Proof. unfold after, bind, ret; by destruct (m s no_env) as [[? ?] ?]. Qed.

Lemma step_create now x s : step s (create_entry now x) = after (MemoryStore.Create x) s.
Proof. exact (after_ret _ _ _). Qed.
Lemma step_update now x s :
  step s (update_entry now x) = after (MemoryStore.Update x (u64 (Version x - 1))) s.
Proof. exact (after_ret _ _ _). Qed.
Lemma step_delete now id s : step s (delete_entry now id) = after (MemoryStore.Delete id) s.
Proof. exact (after_ret _ _ _). Qed.

(** ** The wire format drops nothing the store looks at *)
Definition wire_store (s : Store) : Store :=
  MkStore (wire <$> sessions s) (tokens s) (userIndex s) (maxSessionsPerUser s).
Definition entry_good (x : Entry) : Prop :=
  match ESession x with
  | Some s => OpType x = OpTypeCreate \/ OpType x = OpTypeUpdate
  | None => OpType x = OpTypeDelete
  end.

Lemma wire_Validate x : Session.Validate (wire x) = Session.Validate x.
Proof. done. Qed.
Lemma wire_lookup s id : sessions (wire_store s) !! id = wire <$> sessions s !! id.
Proof. apply lookup_fmap. Qed.

Lemma wire_create x s :
  after (MemoryStore.Create (wire x)) (wire_store s) = wire_store (after (MemoryStore.Create x) s).
Proof.
  unfold after, MemoryStore.Create; rewrite wire_Validate.
  destruct (Session.Validate x); [done|].
  unfold bind, get_st, upd_st, ret; cbn [wire_store maxSessionsPerUser userIndex tokens wire UserID ID TokenHash].
  destruct (_ <=? _); [done|]; rewrite wire_lookup.
  destruct (sessions s !! ID x); cbn [fmap option_fmap option_map].
  { by rewrite !decide_True by (by eexists). }
  rewrite !decide_False by (by intros [? ?]); destruct (negb _ && _); [done|].
  unfold wire_store, put_session; cbn -[wire]; f_equal; by rewrite fmap_insert.
Qed.

Lemma wire_delete id s :
  after (MemoryStore.Delete id) (wire_store s) = wire_store (after (MemoryStore.Delete id) s).
Proof.
  unfold after, MemoryStore.Delete, bind, get_st, upd_st, ret; rewrite wire_lookup.
  destruct (sessions s !! id); [|done]; cbn -[wire].
  unfold wire_store, drop_session; cbn -[wire]; f_equal; by rewrite fmap_delete.
Qed.

Lemma wire_update x v s :
  after (MemoryStore.Update (wire x) v) (wire_store s) = wire_store (after (MemoryStore.Update x v) s).
Proof.
  unfold after, MemoryStore.Update; rewrite wire_Validate; destruct (Session.Validate x); [done|].
  unfold bind, get_st, upd_st, ret; rewrite wire_lookup; change (ID (wire x)) with (ID x).
  destruct (sessions s !! ID x) as [y|]; [|done]; cbn -[wire u64 IncrVersion]; change (Version (wire y)) with (Version y).
  destruct (negb _); [done|].
  change (TokenHash (wire y)) with (TokenHash y); change (TokenHash (wire x)) with (TokenHash x).
  repeat (case_match; try done); unfold wire_store; cbn -[wire IncrVersion]; f_equal; by rewrite fmap_insert.
Qed.

Lemma step_wire s x : entry_good x -> step (wire_store s) (wire_entry x) = wire_store (step s x).
Proof.
  unfold entry_good; destruct x as [op ts sid ver [y|]]; cbn [ESession OpType].
  - intros [-> | ->]; [exact (eq_trans (after_ret _ _ _) (eq_trans (wire_create y s) (eq_sym (f_equal _ (after_ret _ _ _)))))|].
    exact (eq_trans (after_ret _ _ _) (eq_trans (wire_update y _ s) (eq_sym (f_equal _ (after_ret _ _ _))))).
  - intros ->; exact (eq_trans (after_ret _ _ _) (eq_trans (wire_delete sid s) (eq_sym (f_equal _ (after_ret _ _ _))))).
Qed.

Lemma steps_wire l s : Forall entry_good l ->
  foldl step (wire_store s) (map wire_entry l) = wire_store (foldl step s l).
Proof.
  intros H; revert s; induction H as [|x l Hx _ IH]; intros s; cbn [foldl map]; [done|].
  by rewrite step_wire.
Qed.

(** ** Replaying *)
Section Replay.
Context (cipher : option Cipher).

(** Nothing but the store and the offset changes. *)
Definition same_parts (a b : Engine) : Prop :=
  wal b = wal a /\ snapshot b = snapshot a /\ e_cfg b = e_cfg a /\ stopped b = stopped a.

Lemma replay_run es : forall fuel r now n en e, remaining cipher r es -> (length es < fuel)%nat ->
  exists n' en', replay_loop fuel r now n en e = (Some n', en', e) /\
    store en' = foldl (replay_step now) (store en) es /\ same_parts en en'.
Proof.
  induction es as [|x es IH]; intros [|fuel] r now n en e Hr Hf; try (simpl in Hf; lia);
    pose proof (read_next cipher r _ e Hr) as Hn; cbn [replay_loop foldl].
  - destruct Hn as [r' Hn].
    erewrite bind_run by (unfold with_local; rewrite Hn; reflexivity); by eexists _, en.
  - destruct Hn as (r' & Hn & Hr'); simpl in Hf.
    erewrite bind_run by (unfold with_local; rewrite Hn; reflexivity); cbn beta iota.
    unfold replay_step at 2; destruct (skipped_entry now x); [by apply IH; [|lia]|].
    erewrite bind_run by (unfold in_store, zoom; rewrite applyEntry_run; reflexivity).
    destruct (fst (apply_result x (store en))).
    + destruct (IH fuel r' now n (set_store (step (store en) x) en) e Hr' ltac:(lia)) as (n' & en' & E & H).
      by exists n', en'.
    + erewrite bind_run by reflexivity.
      destruct (IH fuel r' now (n + 1) (set_lastWALOffset (CurrentOffset (wal en)) (set_store (step (store en) x) en))
        e Hr' ltac:(lia)) as (n' & en' & E & H).
      by exists n', en'.
Qed.

Lemma find_segment_zero i l : 0 <= i -> find_segment (numbered i l) 0 = 0%nat.
Proof. intros; destruct l; cbn [numbered find_segment]; [done|]. by rewrite (proj2 (Z.leb_le _ _)). Qed.

(** A log read from its beginning. *)
Lemma replayWAL_run i l ess en e :
  files (wal en) = dir_of i l -> CfgCipher (WAL (e_cfg en)) = cipher ->
  0 <= i -> i + llen l <= two64 -> Forall2 (seg_holds cipher) l ess ->
  exists n en' e', replayWAL 0 en e = (Some n, en', e') /\ same_parts en en' /\
    store en' = foldl (replay_step (unix_milli (clk e 0%nat))) (store en) (concat ess) /\
    e' = Env (fun n => clk e (n + 1)%nat) (rnd e) (ulids e).
Proof.
  intros Hf Hc Hi Hb Hl; unfold replayWAL; erewrite bind_run by reflexivity; rewrite Hf, Hc.
  erewrite bind_run by reflexivity.
  assert (Seek 0 (NewReader (dir_of i l) cipher) = NewReader (dir_of i l) cipher) as ->.
  { unfold Seek, NewReader; cbn [segments r_files r_cipher]; rewrite scan_dir_of by done.
    change (Z.shiftr 0 32) with 0; by rewrite find_segment_zero. }
  destruct (replay_run (concat ess) (replay_fuel (dir_of i l)) (NewReader (dir_of i l) cipher)
    (unix_milli (clk e 0%nat)) 0 en (Env (fun n => clk e (n + 1)%nat) (rnd e) (ulids e)))
    as (n & en' & E & Hs & Hp).
  - by apply reader_start.
  - pose proof (holds_total cipher i l ess Hi Hb Hl); unfold replay_fuel; lia.
  - by eexists n, en', _.
Qed.
End Replay.

(** Snapshots in the background leave the sessions alone. *)
Lemma TriggerSnapshot_store `{TimeFormat} en e : store (snd (fst (TriggerSnapshot en e))) = store en.
Proof.
  unfold TriggerSnapshot, in_snapshot, in_wal, zoom, bind, get_st, upd_st, ret.
  repeat case_match; simplify_eq/=; done.
Qed.
Lemma backgroundLoop_store `{TimeFormat} n : forall en e, store (snd (fst (backgroundLoop n en e))) = store en.
Proof.
  induction n as [|n IH]; intros en e; [done|]; cbn [backgroundLoop]; unfold bind.
  pose proof (TriggerSnapshot_store en e) as Hs; destruct (TriggerSnapshot en e) as [[r en1] e1]; by rewrite IH.
Qed.
