(* ===== verification/EngineRepo.v ===== *)
(** The storage engine behind the session service: the engine is a session
    repository with the laws the service relies on, so everything proved of the service
    against [SessionRepositoryLaws] holds of the service over the engine. *)

From Stdlib Require Import Ascii String.
From stdpp Require Import list strings gmap fin_maps.
From S2P Require Import Prelude Errors GoStrings Session MemoryStore MemoryStoreFacts WalCodec.
From S2P Require Import WalLog.
From S2P Require Import SessionService SessionServiceSpec Snapshot Engine EngineFacts.

Open Scope string_scope.
Open Scope Z_scope.

#[export] Instance Engine_SessionRepository : SessionRepository Engine := {
  repo_Create := Engine.Create;
  repo_Get := Engine.Get;
  repo_Update := Engine.Update;
  repo_Delete := Engine.Delete;
  repo_List := fun f => r <- Engine.List f ;; ret (option_map Ok r);
  repo_CountByUserID := fun u => n <- Engine.CountByUserID u ;; ret (Ok n);
  repo_ListByUserID := fun u => l <- Engine.ListByUserID u ;; ret (Ok l);
  repo_DeleteByUserID := fun u => n <- Engine.DeleteByUserID u ;; ret (Ok n);
  repo_DeleteExpired := n <- Engine.DeleteExpired ;; ret (Ok n);
}.

(** Writing the log leaves the store alone. *)
Lemma write_wal_store new en e err en' e' : write_wal new en e = (err, en', e') -> store en' = store en.
Proof.
  unfold write_wal, in_wal, zoom, bind, ret; destruct (new (wal en) e) as [[x w] e1]; cbn [wal set_wal].
  destruct (Append x w e1) as [[r w1] e2]; by intros [= _ <- _].
Qed.

(** The log's own errors are not domain errors. *)
Definition plain (o : option error) : Prop :=
  match o with Some err => errors_as_domain err = None | None => True end.
Definition plainly {A} (err_of : A -> option error) (m : M Writer A) : Prop :=
  forall w e, plain (err_of (fst (fst (m w e)))).
Lemma plain_bind {A B} f (m : M Writer A) (k : A -> M Writer B) :
  (forall a, plainly f (k a)) -> plainly f (bind m k).
Proof. intros H w e; unfold bind; destruct (m w e) as [[a w1] e1]; apply H. Qed.
Lemma plain_bind_err {B} f (m : M Writer (option error)) (k : option error -> M Writer B) :
  plainly (fun o => o) m -> (forall a, plain a -> plainly f (k a)) -> plainly f (bind m k).
Proof.
  intros Hm H w e; unfold bind; specialize (Hm w e); destruct (m w e) as [[a w1] e1]; by apply H.
Qed.
Lemma plain_ret {A} (f : A -> option error) x : plain (f x) -> plainly f (ret x).
Proof. by intros H w e. Qed.

Lemma plain_write p : plainly (fun o => o) (writeLocked p).
Proof. intros w e; unfold writeLocked, bind, get_st, put_st, ret; by destruct (file w). Qed.
Lemma plain_finalize : plainly (fun o => o) finalizeSegmentWithoutFlushingLocked.
Proof. intros w e; unfold finalizeSegmentWithoutFlushingLocked, bind, get_st, put_st, ret; by destruct (file w). Qed.
Lemma plain_open : plainly (fun o => o) openNewSegment.
Proof. unfold openNewSegment; apply plain_bind; intros w; apply plain_bind; intros []; apply plain_write. Qed.
Lemma plain_flush : plainly (fun o => o) flushLocked.
Proof.
  unfold flushLocked; apply plain_bind; intros w; destruct (_ =? 0); [by apply plain_ret|].
  destruct (file w); [|by apply plain_ret].
  apply plain_bind_err; [|intros [err|] ?; [by apply plain_ret|]].
  - destruct (_ || _); [|by apply plain_ret].
    apply plain_bind_err; [apply plain_finalize|intros [err|] ?; [by apply plain_ret|]].
    apply plain_bind; intros ?; apply plain_open.
  - apply plain_bind_err; [apply plain_write|intros [err|] ?; [by apply plain_ret|]].
    apply plain_bind; intros ?; by apply plain_ret.
Qed.
Lemma encode_delete {S} now id c (w : S) e : exists r, encodeEntryFrame (delete_entry now id) c w e = (r, w, e) /\
  match r with Err err => err = ErrCorruptedEntry | Ok _ => True end.
Proof.
  unfold encodeEntryFrame, bind, ret.
  change (OpType (delete_entry now id) =? OpTypeUnspecified) with false.
  change (OpType (delete_entry now id) =? OpTypeDelete) with true; cbn [negb andb]; cbv iota beta.
  destruct (_ <? 5); eexists; by split.
Qed.
Lemma plain_append_delete now id : plainly (fun o => o) (Append (delete_entry now id)).
Proof.
  intros w e; unfold Append; erewrite bind_run by reflexivity; destruct (closed w); [done|].
  destruct (encode_delete now id (CfgCipher (cfg w)) w e) as (r & E & Hr); erewrite bind_run by exact E.
  destruct r as [frame|err]; [|by subst]; revert w e E.
  assert (forall w : Writer, plainly (fun o => o) (upd_st (fun w => set_buffer (buffer w ++ [frame]) (bufferBytes w + llen frame) w) ;;;
    w <- get_st ;; if (BatchCount (cfg w) <=? llen (buffer w)) || (BatchBytes (cfg w) <=? bufferBytes w)
      then flushLocked else ret None)) as H; [|intros w e _; apply (H w)].
  intros _; apply plain_bind; intros []; apply plain_bind; intros w; destruct (_ || _);
    [apply plain_flush|by apply plain_ret].
Qed.

Lemma IsDomainError_plain err code : errors_as_domain err = None -> IsDomainError (WrapError "write wal" err) code = false.
Proof. unfold IsDomainError; cbn; by intros ->. Qed.

Lemma write_wal_error new x en e e1 err en' e' code :
  new (wal en) e = (x, wal en, e1) -> plainly (fun o => o) (Append x) ->
  write_wal new en e = (Some err, en', e') -> IsDomainError err code = false.
Proof.
  intros Hn Hp; unfold write_wal, in_wal, zoom, bind, ret; rewrite Hn; cbn [wal set_wal].
  specialize (Hp (wal en) e1); destruct (Append x (wal en) e1) as [[[r|] w1] e2]; [|discriminate].
  intros H; injection H as <- _ _; by apply IsDomainError_plain.
Qed.

Lemma in_store_id {A} (m : M Store A) en e a e' : m (store en) e = (a, store en, e') -> in_store m en e = (a, en, e').
Proof. unfold in_store, zoom; intros ->; by destruct en. Qed.

#[export] Instance Engine_SessionRepositoryLaws : SessionRepositoryLaws Engine.
Proof.
  refine {| sr_ok := fun en => Inv (store en); sr_sessions := fun en => sessions (store en) |}.
  - intros en id x Hr; by apply inv_id.
  - intros en id e _; destruct (Get_run id (store en) e) as [e' E]; exists e'; by apply in_store_id.
  - done || (intros en u e; unfold repo_CountByUserID; cbn; unfold Engine.CountByUserID, in_store, zoom, MemoryStore.CountByUserID, bind, get_st, ret; cbn; by destruct en).
  - intros en x e err en' e' Hr H; cbn in H; unfold Engine.Create in H.
    destruct (write_wal (NewCreateEntry x) en e) as [[w en1] e1] eqn:Ew; pose proof (write_wal_store _ _ _ _ _ _ Ew) as Hs.
    erewrite bind_run in H by exact Ew; destruct w as [er|]; [injection H as <- <- <-; rewrite Hs; done|].
    unfold bind, in_store, zoom in H; destruct (MemoryStore.Create x (store en1) e1) as [[o s] e2] eqn:Ec.
    rewrite Hs in Ec; destruct (Store_Create_law _ _ _ _ _ _ Hr Ec) as (Hi & _ & Hm).
    destruct o as [er|]; injection H as <- <- <-; cbn; [by rewrite Hm|].
    split; [done|]; destruct Hm as [? ->]; by rewrite sessions_put.
  - intros en x y v e err x' en' e' Hr Hy Hxy H; cbn in H; unfold Engine.Update in H.
    destruct (write_wal (NewUpdateEntry x) en e) as [[w en1] e1] eqn:Ew; pose proof (write_wal_store _ _ _ _ _ _ Ew) as Hs.
    erewrite bind_run in H by exact Ew; destruct w as [er|]; [injection H as <- <- <- <-; rewrite Hs; done|].
    unfold bind, in_store, zoom in H; destruct (MemoryStore.Update x v (store en1) e1) as [[[o x1] s] e2] eqn:Ec.
    rewrite Hs in Ec; destruct (Store_Update_law _ _ _ _ _ _ _ _ _ Hr Hy Hxy Ec) as (Hi & _ & Hm).
    destruct o as [er|]; injection H as <- <- <- <-; cbn; (split; [done|]).
    + by destruct Hm as [-> _].
    + by destruct Hm as (? & ? & ? & _).
  - intros en id e err en' e' Hr H; cbn in H; unfold Engine.Delete in H.
    destruct (write_wal (NewDeleteEntry id) en e) as [[w en1] e1] eqn:Ew; pose proof (write_wal_store _ _ _ _ _ _ Ew) as Hs.
    erewrite bind_run in H by exact Ew; destruct w as [er|].
    { injection H as <- <- <-; rewrite Hs; split; [done|]; split; [done|].
      rewrite (write_wal_error _ _ _ _ _ _ _ _ _ (eq_refl : NewDeleteEntry id (wal en) e =
        (delete_entry (unix_milli (clk e 0%nat)) id, wal en, Env (fun n => clk e (n + 1)%nat) (rnd e) (ulids e)))
        (plain_append_delete _ _) Ew); discriminate. }
    unfold bind, in_store, zoom in H; rewrite Delete_run, Hs in H.
    assert (Inv (drop_id id (store en))) by (by apply Inv_drop_id).
    destruct (sessions (store en) !! id) as [x|] eqn:E; injection H as <- <- <-; cbn; rewrite sessions_drop_id.
    + done.
    + split; [done|]; split; [by apply delete_id|done].
Defined.
