(* ===== verification/EngineSpec.v ===== *)
(** What the storage engine promises: recovery rebuilds the store from the log,
    also after a crash; and where it does not: behind a snapshot, for sessions
    whose creation has expired, and for updates without version. *)

From Stdlib Require Import Ascii String.
From stdpp Require Import list strings gmap fin_maps.
From S2P Require Import Prelude Errors GoStrings Encoding Token Session MemoryStore WalCodec.
From S2P Require Import WalCodecSpec WalLog WalLogFacts WalReadFacts WalWriteFacts WalLogSpec.
From S2P Require Import Snapshot Engine EngineFacts.

Open Scope string_scope.
Open Scope Z_scope.

(** ** A running engine *)

(** The writes of a client; an update is made against the version before the one of
    the session passed, as the session service does. *)
Inductive eop := CreateOp (s : Session) | UpdateOp (s : Session) | DeleteOp (id : string).
Definition run_eop (o : eop) : M Engine unit :=
  match o with
  | CreateOp s => Engine.Create s ;;; ret tt
  | UpdateOp s => Engine.Update s (u64 (Version s - 1)) ;;; ret tt
  | DeleteOp id => Engine.Delete id ;;; ret tt
  end.
Definition run_eops (l : list eop) : M Engine unit := for_range l run_eop.

(** [New], then [Recover]. *)
Definition start (c : EngineConfig) (d : Dir) (sd : SnapDir) (e : env) : option (Engine * env) :=
  match New c d sd e with
  | (inl en, e1) =>
      match Recover en e1 with (Some None, en', e2) => Some (en', e2) | _ => None end
  | _ => None
  end.

Definition entry_of (o : eop) (now : Z) : Entry :=
  match o with
  | CreateOp s => create_entry now s
  | UpdateOp s => update_entry now s
  | DeleteOp id => delete_entry now id
  end.

Section Live.
Context (cipher : option Cipher) (Hcipher : cipher_ok cipher) (max : Z).

(** The entries of a write are encodable, whenever it is made. *)
Definition eop_ok (e : env) (o : eop) : Prop :=
  forall n, loggable cipher (entry_of o (unix_milli (clk e n))).

(** The log holds the entries [log], and the store is their effect. *)
Definition tracks (i k : Z) (en : Engine) (log : list Entry) : Prop :=
  exists es pend, holds cipher i k (wal en) es pend /\ (es ++ pend = map wire_entry log)%list /\
    closed (wal en) = false /\ Forall entry_good log /\
    store en = foldl step (MemoryStore.New max) log.

Lemma entry_of_good o now : entry_good (entry_of o now).
Proof. destruct o; cbn; auto. Qed.

Lemma eop_ok_later e e' o : later e e' -> eop_ok e o -> eop_ok e' o.
Proof. intros [n Hn] H k; rewrite Hn; apply H. Qed.

Lemma later_tick e : later e (Env (fun n => clk e (n + 1)%nat) (rnd e) (ulids e)).
Proof. exists 1%nat; intros; cbn; f_equal; lia. Qed.

Lemma advances_Append x : advances (Append x).
Proof.
  assert (forall S e c, advances (S := S) (encodeEntryFrame e c)) as H
    by (intros; unfold encodeEntryFrame, Encrypt; advances_tac).
  unfold Append, flushLocked, finalizeSegmentWithoutFlushingLocked, openNewSegment, writeLocked.
  repeat first [apply advances_bind; [solve [eauto with go]|] | progress advances_tac].
Qed.

(** Writing an entry: what the step leaves, whether it succeeds or not. *)
Lemma write_wal_run o (new : M Writer Entry) i k en log e err en' e' :
  (forall w e, new w e = (entry_of o (unix_milli (clk e 0%nat)), w,
     Env (fun n => clk e (n + 1)%nat) (rnd e) (ulids e))) ->
  tracks i (k + 1) en log -> 0 <= k -> rnd_ok e -> eop_ok e o ->
  write_wal new en e = (err, en', e') ->
  rnd_ok e' /\ store en' = store en /\ snapshot en' = snapshot en /\ e_cfg en' = e_cfg en /\
  stopped en' = stopped en /\ closed (wal en') = false /\
  exists es pend, holds cipher i k (wal en') es pend /\
    exists now, (es ++ pend = map wire_entry (log ++ match err with None => [entry_of o now] | Some _ => [] end))%list.
Proof.
  intros Hnew (es & pend & Hw & Hes & Hcl & Hg & Hst) Hk He Ho; unfold write_wal.
  set (e1 := Env (fun n => clk e (n + 1)%nat) (rnd e) (ulids e)).
  set (x := entry_of o (unix_milli (clk e 0%nat))).
  erewrite bind_run by (unfold in_wal, zoom; rewrite Hnew; reflexivity); fold x e1; cbn [set_wal wal].
  destruct (Append x (wal en) e1) as [[r w1] e2] eqn:Ea.
  destruct (append_holds cipher Hcipher i k (wal en) es pend x e1 r w1 e2 Hw Hk Hcl)
    as ([_ Hcl1] & Hr2 & es1 & pend1 & Hw1 & E1); [exact He|apply Ho|exact Ea|].
  erewrite bind_run by (unfold in_wal, zoom; cbn [set_wal wal]; rewrite Ea; reflexivity).
  intros [= <- <- <-]; split; [done|]; cbn [set_wal wal store snapshot e_cfg stopped].
  split_ands; try done; [congruence|]; exists es1, pend1; split; [done|].
  exists (unix_milli (clk e 0%nat)); rewrite E1, app_assoc, Hes, map_app; by destruct r.
Qed.

(** One write: the log grows by its entry, or the entry could not be written
    and nothing changes. *)
Lemma eop_run o i k en log e en' e' :
  tracks i (k + 1) en log -> 0 <= k -> rnd_ok e -> eop_ok e o -> run_eop o en e = (tt, en', e') ->
  rnd_ok e' /\ snapshot en' = snapshot en /\ e_cfg en' = e_cfg en /\ stopped en' = stopped en /\
  exists log', tracks i k en' log' /\ (log' = log \/ exists now, log' = (log ++ [entry_of o now])%list).
Proof.
  intros Ht Hk He Ho Hrun.
  assert (exists new (m : M Store (option error)),
    (forall w e, new w e = (entry_of o (unix_milli (clk e 0%nat)), w,
       Env (fun n => clk e (n + 1)%nat) (rnd e) (ulids e))) /\ pure_op m /\
    (forall s now, after m s = step s (entry_of o now)) /\
    run_eop o en e = (err <- write_wal new ;;
      match err with Some _ => ret tt | None =>
        err <- in_store m ;; match err with Some _ => ret tt | None => mark_offset end end) en e)
    as (new & m & Hnew & Hm & Hstep & E).
  { destruct o as [s|s|id]; cbn [run_eop entry_of]; unfold Create, Update, Delete, bind.
    - exists (NewCreateEntry s), (MemoryStore.Create s); split_ands; auto with go; [by intros; rewrite step_create|].
      destruct (write_wal (NewCreateEntry s) en e) as [[[?|] en1] e1]; [done|].
      by destruct (in_store (MemoryStore.Create s) en1 e1) as [[[?|] ?] ?].
    - exists (NewUpdateEntry s), (r <- MemoryStore.Update s (u64 (Version s - 1)) ;; ret (fst r)).
      split_ands; auto with go; [apply pure_bind; auto with go|
        intros; rewrite step_update; apply after_ret|].
      destruct (write_wal (NewUpdateEntry s) en e) as [[[?|] en1] e1]; [done|].
      unfold in_store, zoom, bind, ret.
      by destruct (MemoryStore.Update s (u64 (Version s - 1)) (store en1) e1) as [[[[?|] ?] ?] ?].
    - exists (NewDeleteEntry id), (MemoryStore.Delete id); split_ands; auto with go; [by intros; rewrite step_delete|].
      destruct (write_wal (NewDeleteEntry id) en e) as [[[?|] en1] e1]; [done|].
      by destruct (in_store (MemoryStore.Delete id) en1 e1) as [[[?|] ?] ?]. }
  rewrite E in Hrun; clear E.
  destruct (write_wal new en e) as [[err en1] e1] eqn:Ew.
  destruct (write_wal_run o new i k en log e err en1 e1 Hnew Ht Hk He Ho Ew)
    as (He1 & Hs1 & Hsn & Hcf & Hst & Hcl & es & pend & Hw & now & Hlog).
  destruct Ht as (_ & _ & _ & _ & _ & Hg & Hstore).
  erewrite bind_run in Hrun by exact Ew; destruct err as [err|].
  { injection Hrun as <- <-; split_ands; try done; exists log; split; [|by left].
    exists es, pend; split_ands; try done; [by rewrite Hlog, app_nil_r|congruence]. }
  erewrite bind_run in Hrun by (unfold in_store, zoom; rewrite run_after by done; reflexivity).
  assert (en' = set_lastWALOffset (lastWALOffset en') (set_store (after m (store en1)) en1) /\ e' = e1) as [E ->]
    by (by destruct (fst (fst _)); injection Hrun as <- <-).
  rewrite E; cbn; split_ands; try done; exists (log ++ [entry_of o now])%list; split; [|right; by exists now].
  exists es, pend; cbn; split_ands; try done.
  - apply Forall_app; split; [done|]; constructor; [apply entry_of_good|done].
  - by rewrite foldl_app, <- Hstore; cbn [foldl]; rewrite <- (Hstep _ now), Hs1.
Qed.

Lemma advances_write_wal new : advances new -> advances (write_wal new).
Proof.
  intros; unfold write_wal, in_wal; repeat (apply advances_bind; [by apply advances_zoom|intros]).
  apply advances_bind; [apply advances_zoom, advances_Append|intros; apply advances_ret].
Qed.
Lemma advances_eop o : advances (run_eop o).
Proof.
  pose proof advances_write_wal as Hw.
  assert (forall A (m : M Store A), pure_op m -> advances (in_store m)) as Hs.
  { intros A m Hm; apply advances_zoom; intros s e; rewrite (Hm s e no_env); cbn; apply later_refl. }
  destruct o; cbn [run_eop]; unfold Create, Update, Delete, NewCreateEntry, NewUpdateEntry, NewDeleteEntry;
    (apply advances_bind; [|intros; apply advances_ret]);
    (apply advances_bind; [apply Hw; advances_tac|intros [?|]; [apply advances_ret|]]);
    (apply advances_bind; [apply Hs; eauto with go|]); unfold mark_offset; advances_tac.
Qed.
Lemma advances_eops l : advances (run_eops l).
Proof. apply advances_for_range, advances_eop. Qed.

(** A run of writes; each state of the log between the two ends was reached. *)
Lemma eops_run ops : forall i k en log e en' e',
  tracks i (k + llen ops) en log -> 0 <= k -> rnd_ok e -> Forall (eop_ok e) ops ->
  run_eops ops en e = (tt, en', e') ->
  rnd_ok e' /\ snapshot en' = snapshot en /\ e_cfg en' = e_cfg en /\ stopped en' = stopped en /\
  exists log', tracks i k en' log' /\
    (forall x, x ∈ log' -> x ∈ log \/ exists o now, o ∈ ops /\ x = entry_of o now) /\
    log `prefix_of` log' /\
    forall p, log `prefix_of` p -> p `prefix_of` log' -> exists j enj ej,
      run_eops (take j ops) en e = (tt, enj, ej) /\ store enj = foldl step (MemoryStore.New max) p.
Proof.
  induction ops as [|o ops IH]; intros i k en log e en' e' Ht Hk He Hops; cbn [run_eops for_range].
  { intros [= <- <-]; split_ands; try done; exists log; change (llen (@nil eop)) with 0 in Ht; rewrite Z.add_0_r in Ht.
    split_ands; auto. intros p H1 H2; assert (p = log) as -> by (by apply (anti_symm prefix)).
    exists 0%nat, en, e; split; [done|]; by destruct Ht as (? & ? & ? & ? & ? & ? & ?). }
  apply Forall_cons in Hops as [Ho Hops].
  replace (k + llen (o :: ops)) with (k + llen ops + 1) in Ht by (unfold llen; cbn [length]; lia).
  assert (0 <= k + llen ops) as Hk' by (unfold llen; lia).
  destruct (run_eop o en e) as [[[] en1] e1] eqn:Er; erewrite bind_run by exact Er; intros Hrest.
  destruct (eop_run o i _ en log e en1 e1 Ht Hk' He Ho Er) as (He1 & Hs1 & Hc1 & Hst1 & log1 & Ht1 & Hlog1).
  assert (Forall (eop_ok e1) ops) as Hops1.
  { eapply Forall_impl; [exact Hops|]; intros x; apply eop_ok_later.
    pose proof (advances_eop o en e) as Hl; by rewrite Er in Hl. }
  destruct (IH i k en1 log1 e1 en' e' Ht1 Hk He1 Hops1 Hrest) as (He2 & Hs2 & Hc2 & Hst2 & log2 & Ht2 & Hin & Hpre & Hall).
  split_ands; try congruence; try done; exists log2; split; [done|]; split_ands.
  - intros x [Hx|(o' & now & Ho' & ->)]%Hin; [|right; exists o', now; split; [by right|done]].
    destruct Hlog1 as [->|[now ->]]; [by left|]. apply elem_of_app in Hx as [Hx| ->%list_elem_of_singleton]; [by left|].
    right; exists o, now; split; [by left|done].
  - destruct Hlog1 as [->|[now ->]]; [done|]. etrans; [|exact Hpre]; by apply prefix_app_r.
  - intros p H1 H2.
    assert (p = log \/ log1 `prefix_of` p) as [->|Hp].
    { destruct Hlog1 as [->|[now ->]]; [by right|]. destruct H1 as [[|y q] ->]; [left; by rewrite app_nil_r|right].
      destruct Hpre as [z ->]; rewrite <- app_assoc in H2; apply prefix_app_inv in H2.
      apply prefix_cons_inv_1 in H2 as ->; apply prefix_app; by exists q. }
    + exists 0%nat, en, e; split; [done|]; by destruct Ht as (? & ? & ? & ? & ? & ? & ?).
    + destruct (Hall p Hp H2) as (j & enj & ej & Ej & Hj); exists (S j), enj, ej; split; [|done].
      cbn [take for_range run_eops]; by erewrite bind_run by exact Er.
Qed.
End Live.

(** ** Starting on a log *)
Section Start.
Context (cipher : option Cipher).

Definition config_ok (c : EngineConfig) : Prop :=
  DataDir c <> "" /\ Dir_ (WAL c) <> "" /\ s_Dir (SnapshotCfg c) <> "" /\ EngineCipher c = cipher.
Definition capacity (c : EngineConfig) : Z :=
  if 0 <? MaxPerUser c then MaxPerUser c else DefaultMaxSessionsPerUser.
Definition tick (e : env) : env := Env (fun n => clk e (n + 1)%nat) (rnd e) (ulids e).

(** Room for [k] more segments. *)
Definition space (k i : Z) (d : Dir) : Prop :=
  1 <= i /\ i + k < two64 /\ forall l, d = dir_of i l -> i + llen l + k < two64.

Lemma resumable_readable i d es : space 1 i d -> resumable cipher i d es -> readable cipher i d es.
Proof.
  intros Hs Hd; revert Hs; destruct Hd as [->|pre ess frames cur Hpre Hcur|pre ess frames cur n Hpre Hcur Hv];
    intros (Hi & _ & Hb); [by constructor| |].
  all: replace (concat ess ++ cur)%list with (concat (ess ++ [cur])) by
    (rewrite concat_app; cbn [concat]; by rewrite app_nil_r).
  all: constructor; [apply Forall2_snoc; [done|]|done|by apply Hb].
  - by eapply holds_closed.
  - eapply holds_open; [done|by left| |done]; by rewrite app_nil_r.
Qed.

Lemma engine_start_run c d sd i es e :
  config_ok c -> readable cipher i d es -> Snapshot.List sd = [] ->
  exists en w, start c d sd e = Some (en, tick e) /\
    NewWriter (WAL (spread_config c)) d e = (Ok w, e) /\ wal en = w /\ stopped en = false /\
    (exists l ess, files w = dir_of i l /\ Forall2 (seg_holds cipher) l ess /\ concat ess = es) /\
    store en = foldl (replay_step (unix_milli (clk e 0%nat))) (MemoryStore.New (capacity c)) es.
Proof.
  intros (Hc1 & Hc2 & Hc3 & Hc4) Hd Hsd.
  destruct (NewWriter_files cipher i (WAL (spread_config c)) d es e Hd Hc2)
    as (w & l & ess & E & Hf & Hlen & Hl & <- & Hi).
  unfold start, New; rewrite (proj2 (String.eqb_neq _ _)) by done; rewrite E.
  unfold NewManager; cbn [SnapshotCfg spread_config s_Dir].
  rewrite (proj2 (String.eqb_neq _ _)) by done.
  match goal with |- context [Recover ?x] => set (en0 := x) end.
  destruct (replayWAL_run cipher i l ess en0 e) as (n & en & e' & Hr & (Hw & _ & _ & Hs) & Hst & ->); try done; [lia|].
  assert (Recover en0 e = (Some None, en, tick e)) as ->.
  { unfold Recover; erewrite bind_run by reflexivity.
    assert (Load (snapshot en0) = Err ErrNoSnapshots) as -> by (unfold Load; cbn [en0 snapshot snaps]; by rewrite Hsd).
    change (errors_is ErrNoSnapshots ErrNoSnapshots) with true; cbv iota; by erewrite bind_run by exact Hr. }
  exists en, w; split_ands; try done. by exists l, ess.
Qed.

Definition alive (now : Z) (x : Entry) : Prop := skipped_entry now x = false.
Lemma replay_alive now l s : Forall (alive now) l -> foldl (replay_step now) s l = foldl step s l.
Proof.
  intros H; revert s; induction H as [|x l Hx _ IH]; intros s; cbn [foldl]; [done|].
  rewrite IH; unfold replay_step; by rewrite Hx.
Qed.
Lemma wire_alive now x : skipped_entry now (wire_entry x) = skipped_entry now x.
Proof. unfold skipped_entry, wire_entry; by destruct x as [? ? ? ? [?|]]. Qed.

(** Recovering a log none of whose creations has expired. *)
Lemma recovered_store now c log :
  Forall entry_good log -> Forall (alive now) log ->
  foldl (replay_step now) (MemoryStore.New (capacity c)) (map wire_entry log) =
  wire_store (foldl step (MemoryStore.New (capacity c)) log).
Proof.
  intros Hg Ha; rewrite replay_alive; [by rewrite <- steps_wire by done|].
  apply Forall_map; eapply Forall_impl; [exact Ha|]; intros x; unfold alive; by rewrite wire_alive.
Qed.
End Start.

(** ** Recovery *)

(** Creations the replay does not skip before the clock passes [T]. *)
Definition outlives (T : Z) (x : Entry) : Prop :=
  match ESession x with Some s => OpType x = OpTypeCreate -> T <= ExpiresAt s | None => True end.
Definition op_outlives (T : Z) (o : eop) : Prop :=
  match o with CreateOp s => T <= ExpiresAt s | _ => True end.

Lemma outlives_alive T now l : now <= T -> Forall (outlives T) l -> Forall (alive now) l.
Proof.
  intros Hn H; eapply Forall_impl; [exact H|]; unfold outlives, alive, skipped_entry; intros x Hx.
  destruct (ESession x) as [s|]; [|by rewrite andb_false_r].
  destruct (Z.eqb_spec (OpType x) OpTypeCreate) as [E|]; [|done]; apply Z.ltb_ge; specialize (Hx E); lia.
Qed.
Lemma entry_of_outlives T o now : op_outlives T o -> outlives T (entry_of o now).
Proof. destruct o; cbn; auto; discriminate. Qed.

Lemma clock_later T e e' : (forall n, unix_milli (clk e n) <= T) -> later e e' ->
  forall n, unix_milli (clk e' n) <= T.
Proof. intros H [k Hk] n; rewrite Hk; apply H. Qed.

Lemma run_clock T ops en e e' en' : (forall n, unix_milli (clk e n) <= T) ->
  run_eops ops en (tick e) = (tt, en', e') -> forall n, unix_milli (clk e' n) <= T.
Proof.
  intros H Hrun; apply (clock_later T e); [done|]; eapply later_trans; [apply later_tick|].
  pose proof (advances_eops ops en (tick e)) as Hl; by rewrite Hrun in Hl.
Qed.

Section Recovery.
Context (cipher : option Cipher) (Hcipher : cipher_ok cipher) (c : EngineConfig) (sd : SnapDir).
Context (Hcfg : config_ok cipher c) (Hsd : Snapshot.List sd = []).

(** A start on an intact log leaves an engine that tracks it. *)
Lemma start_tracks i k d log e T :
  resumable cipher i d (map wire_entry log) -> Forall entry_good log -> Forall (outlives T) log ->
  (forall n, unix_milli (clk e n) <= T) -> 0 <= k -> space (1 + k) i d ->
  exists en, start c d sd e = Some (en, tick e) /\ stopped en = false /\
    tracks cipher (capacity c) i k en (map wire_entry log).
Proof.
  intros Hd Hg Ha Hclk Hk (Hi & Hb0 & Hb).
  destruct (engine_start_run cipher c d sd i (map wire_entry log) e Hcfg) as (en & w & E & Ew & Hw & Hs & _ & Hst); [|done|].
  { apply resumable_readable; [|done]; split; [done|]; split; [lia|]. intros l Hl; specialize (Hb l Hl); lia. }
  destruct (NewWriter_resumes cipher i k (WAL (spread_config c)) d (map wire_entry log) e)
    as (w' & Ew' & Hcl & _ & Hholds); try done; try lia; [apply Hcfg..| |].
  { intros l Hl; specialize (Hb l Hl); lia. }
  assert (w' = w) as -> by congruence.
  exists en; split_ands; [done..|]; exists (map wire_entry log), []; rewrite Hw; split_ands; try done.
  - rewrite app_nil_r, map_map; apply map_ext; intros x; unfold wire_entry; cbn.
    by destruct x as [? ? ? ? [?|]].
  - apply Forall_map; eapply Forall_impl; [exact Hg|]; intros x; unfold entry_good, wire_entry; by destruct x as [? ? ? ? [?|]].
  - rewrite Hst, replay_alive; [done|]. apply Forall_map.
    eapply Forall_impl; [apply (outlives_alive T); [apply Hclk|exact Ha]|].
    intros x; unfold alive; by rewrite wire_alive.
Qed.

(** Recovering the log of a tracking engine. *)
Lemma restart_store i log d e T :
  readable cipher i d (map wire_entry log) -> Forall entry_good log -> Forall (outlives T) log ->
  (forall n, unix_milli (clk e n) <= T) ->
  exists en, start c d sd e = Some (en, tick e) /\
    store en = wire_store (foldl step (MemoryStore.New (capacity c)) log).
Proof.
  intros Hd Hg Ha Hclk; destruct (engine_start_run cipher c d sd i _ e Hcfg Hd Hsd) as (en & _ & E & _ & _ & _ & _ & Hst).
  exists en; split; [done|]; rewrite Hst; apply recovered_store; [done|].
  by apply (outlives_alive T).
Qed.

(** Closing a running engine and starting again. *)
Lemma close_restart i en es pend log e T :
  holds cipher i 3 (wal en) es pend -> (es ++ pend = map wire_entry log)%list ->
  closed (wal en) = false -> stopped en = false ->
  Forall entry_good log -> Forall (outlives T) log -> (forall n, unix_milli (clk e n) <= T) ->
  exists en2, Close en e = (Some None, en2, e) /\
    resumable cipher i (files (wal en2)) (map wire_entry log) /\
    exists en3, start c (files (wal en2)) sd e = Some (en3, tick e) /\
      store en3 = wire_store (foldl step (MemoryStore.New (capacity c)) log).
Proof.
  intros Hw Hes Hcl Hs Hg Hlog Hclk.
  assert (1 <= i) as Hi by (destruct Hw as (? & ? & ? & ? & H); decompose [and] H; done).
  destruct (close_holds cipher i 2 (wal en) es pend e Hw ltac:(lia) Hcl)
    as (w2 & pre & ess & Ec & Hf & Hpre & Hcat & (pre' & frames & ->) & Hlen); rewrite Hes in Hcat.
  exists (set_wal w2 (set_stopped en)); split; [|split].
  - unfold Close; erewrite bind_run by reflexivity; rewrite Hs.
    erewrite bind_run by reflexivity; unfold in_wal, zoom, bind; cbn [wal set_stopped]; by rewrite Ec.
  - cbn; rewrite Hf, <- Hcat; by apply resumable_closed.
  - cbn; rewrite Hf.
    destruct (restart_store i log (dir_of i (pre' ++ [closed_seg frames])) e T) as (en3 & E3 & Hst3); try done.
    { rewrite <- Hcat; constructor; [done|done|lia]. }
    by exists en3.
Qed.

(** What was logged is what the log held and what the writes added. *)
Lemma logged_outlives T log log' ops : Forall (outlives T) log -> Forall (op_outlives T) ops ->
  (forall x, x ∈ log' -> x ∈ log \/ exists o now, o ∈ ops /\ x = entry_of o now) -> Forall (outlives T) log'.
Proof.
  rewrite !Forall_forall; intros Hl Ho Hin x Hx; destruct (Hin x Hx) as [?|(o & now & H & ->)]; [auto|].
  apply entry_of_outlives; auto.
Qed.
Lemma wire_outlives T log : Forall (outlives T) log -> Forall (outlives T) (map wire_entry log).
Proof. intros H; apply Forall_map; eapply Forall_impl; [exact H|]; by intros [? ? ? ? [?|]]. Qed.

(** C1: A restart after a clean shutdown, in a directory without snapshots: on a log
    written by an engine, starting, any sequence of creations, versioned updates and
    deletions, and closing all succeed, and starting again on the files left gives
    back the store at the close as the log carries it: the same token map and user
    index, and every session but for its [ShardID], [TTL] and [IsDeleted], whatever
    failed on the way, as long as no session's creation has expired. *)
Theorem recovery_rebuilds (i T : Z) (d : Dir) (log : list Entry) (ops : list eop) (e : env)
    (Hd : resumable cipher i d (map wire_entry log)) (Hg : Forall entry_good log)
    (Hspace : space (4 + llen ops) i d) (He : rnd_ok e) (Hops : Forall (eop_ok cipher e) ops)
    (Hclk : forall n, unix_milli (clk e n) <= T)
    (Hlog : Forall (outlives T) log) (Hnew : Forall (op_outlives T) ops) :
  exists en e1, start c d sd e = Some (en, e1) /\
    forall en1 e2, run_eops ops en e1 = (tt, en1, e2) ->
      exists en2 e3, Close en1 e2 = (Some None, en2, e3) /\
        exists log', resumable cipher i (files (wal en2)) (map wire_entry log') /\
        exists en3 e4, start c (files (wal en2)) sd e3 = Some (en3, e4) /\
          store en3 = wire_store (store en1).
Proof.
  assert (0 <= llen ops) as Hn by (unfold llen; lia).
  destruct (start_tracks i (3 + llen ops) d log e T Hd Hg Hlog Hclk) as (en & E & Hs & Ht); [lia| |].
  { by replace (1 + (3 + llen ops)) with (4 + llen ops) by lia. }
  exists en, (tick e); split; [done|]; intros en1 e2 Hrun.
  destruct (eops_run cipher Hcipher (capacity c) ops i 3 en (map wire_entry log) (tick e) en1 e2) as
    (He2 & _ & _ & Hs1 & log1 & (es & pend & Hw & Hes & Hcl & Hg1 & Hst) & Hin & _); try done.
  { eapply Forall_impl; [exact Hops|]; intros x; apply eop_ok_later, later_tick. }
  destruct (close_restart i en1 es pend log1 e2 T) as (en2 & Ec & Hr & en3 & E3 & Hst3); try done;
    [congruence|by eapply logged_outlives; [apply wire_outlives| |]|
     by apply (run_clock T ops en e e2 en1)|].
  exists en2, e2; split; [done|]; exists log1; split; [done|]; exists en3, (tick e2); split; [done|].
  by rewrite Hst3, Hst.
Qed.

(** C2: A restart after a crash, with no snapshot: an engine started on an empty
    directory, driven through any sequence of writes and killed, with the file being
    written cut anywhere past the eight bytes of its magic, so that it does not end in a
    valid trailer: as long as no creation has expired it starts again, and its store is
    the one some first part of the writes had led to, as the log carries it (without
    [ShardID], [TTL] and [IsDeleted]); it is the last one when the file was not cut and
    no entry was buffered.  (A file cut inside its magic stops every later start.) *)
Theorem recovery_after_crash (T : Z) (ops : list eop) (e : env)
    (Hspace : 5 + llen ops < two64) (He : rnd_ok e) (Hops : Forall (eop_ok cipher e) ops)
    (Hclk : forall n, unix_milli (clk e n) <= T) (Hnew : Forall (op_outlives T) ops) :
  exists en e1, start c ∅ sd e = Some (en, e1) /\
    forall en1 e2 path f n m, run_eops ops en e1 = (tt, en1, e2) ->
      file (wal en1) = Some path -> files (wal en1) !! path = Some f -> (8 <= n)%nat ->
      verifyChecksumTrailer (firstn n f) = Ok (false, m) ->
      exists en3 e3 j enj ej, start c (<[path := firstn n f]> (files (wal en1))) sd e2 = Some (en3, e3) /\
        run_eops (take j ops) en e1 = (tt, enj, ej) /\ store en3 = wire_store (store enj) /\
        ((length f <= n)%nat -> buffer (wal en1) = [] -> store en3 = wire_store (store en1)).
Proof.
  assert (0 <= llen ops) as Hn by (unfold llen; lia).
  destruct (start_tracks 1 (3 + llen ops) ∅ [] e T) as (en & E & Hs & Ht); try done; try lia;
    [by apply resume_new|split; [lia|split; [lia|intros l ->%dir_of_empty; change (llen []) with 0; lia]]|].
  exists en, (tick e); split; [done|]; intros en1 e2 path f n m Hrun Hpath Hf Hn8 Hcut.
  destruct (eops_run cipher Hcipher (capacity c) ops 1 3 en [] (tick e) en1 e2) as
    (He2 & _ & _ & _ & log1 & (es & pend & Hw & Hes & Hcl & Hg1 & Hst) & Hin & _ & Hall); try done.
  { eapply Forall_impl; [exact Hops|]; intros x; apply eop_ok_later, later_tick. }
  destruct (cut_holds cipher 1 3 (wal en1) es pend path f n m Hw Hpath Hf Hn8 Hcut)
    as (pre & frames & junk & ess & cur & _ & -> & Hl & _ & _ & Hb & Hp & Hfull).
  rewrite Hes in Hp, Hfull.
  assert (exists q, concat (ess ++ [cur]) = map wire_entry q /\ q `prefix_of` log1) as (q & Hq & Hq1).
  { exists (take (length (concat (ess ++ [cur]))) log1); split; [|apply prefix_take].
    destruct Hp as [r Hr]; rewrite <- firstn_map, Hr; by rewrite take_app_length. }
  destruct (Hall q ltac:(apply prefix_nil) Hq1) as (j & enj & ej & Ej & Hj).
  assert (forall x, x ∈ q -> x ∈ log1) as Hsub by (destruct Hq1 as [r ->]; set_solver).
  destruct (restart_store 1 q (dir_of 1 (pre ++ [(seg_data frames ++ junk)%list])) e2 T) as (en3 & E3 & Hst3).
  - rewrite <- Hq; constructor; [done|done|lia].
  - rewrite Forall_forall in Hg1 |- *; auto.
  - eapply (logged_outlives T [] q ops); [constructor|done|auto].
  - by apply (run_clock T ops en e e2 en1).
  - exists en3, (tick e2), j, enj, ej; split_ands; [done|done|by rewrite Hst3, Hj|].
    intros Hlen Hbuf; specialize (Hfull Hlen); rewrite Hbuf, Nat.sub_0_r, firstn_all, Hq in Hfull.
    rewrite Hst3, Hst; f_equal; f_equal.
    apply (f_equal length) in Hfull; rewrite !length_map in Hfull.
    destruct Hq1 as [r ->]; rewrite length_app in Hfull; destruct r; [by rewrite app_nil_r|cbn in Hfull; lia].
Qed.
End Recovery.

(** ** A concrete engine *)
Definition demo_engine_cfg : EngineConfig :=
  MkEngineConfig "data" (MkConfig "wal" 1 0 0 0 None) (MkSnapConfig "snap" 0 0 None "") 0
    DefaultSnapshotInterval None "n1".
(** The clock stands at five seconds. *)
Definition demo_engine_env : env := Env (fun _ => 5000000000) (fun _ _ => Err EOF) (fun _ => Err EOF).
Definition demo_user_session (id hash : string) (version expires : Z) : Session :=
  MkSession id "u1" hash "10.0.0.1" "ua" "" "" "dev" "" 1000 expires 1000 None version 0 0 false.
Definition demo_writes : list eop :=
  [CreateOp (demo_user_session "tmss-1" "h1" 1 9000); CreateOp (demo_user_session "tmss-2" "h2" 1 9000);
   UpdateOp (demo_user_session "tmss-1" "h1" 2 20000); DeleteOp "tmss-2"].

Ltac demo_loggable :=
  intros ?; split; [vm_compute; split_ands; try done; by (left + right)|];
  let H := fresh in intros ?w ?w' ?e ?e' ?frame H; vm_compute in H; injection H as <- _ _; vm_compute; done.
Lemma demo_writes_ok : Forall (eop_ok None demo_engine_env) demo_writes.
Proof. unfold demo_writes; rewrite !Forall_cons; split_ands; [demo_loggable..|apply Forall_nil_2]. Qed.
Lemma demo_cfg_ok : config_ok None demo_engine_cfg.
Proof. by vm_compute; split_ands. Qed.
Lemma demo_no_snaps : Snapshot.List ∅ = [].
Proof. by vm_compute. Qed.
Lemma demo_writes_outlive : Forall (op_outlives 9000) demo_writes.
Proof. unfold demo_writes; rewrite !Forall_cons; split_ands; try apply Forall_nil_2; vm_compute; done. Qed.
Lemma demo_engine_rnd : rnd_ok demo_engine_env.
Proof. intros n l b; discriminate. Qed.
Lemma demo_clock n : unix_milli (clk demo_engine_env n) <= 9000.
Proof. vm_compute; done. Qed.

Lemma recovery_rebuilds_witness :
  exists en e1, start demo_engine_cfg ∅ ∅ demo_engine_env = Some (en, e1) /\
    forall en1 e2, run_eops demo_writes en e1 = (tt, en1, e2) ->
      exists en2 e3, Close en1 e2 = (Some None, en2, e3) /\
        exists log', resumable None 1 (files (wal en2)) (map wire_entry log') /\
        exists en3 e4, start demo_engine_cfg (files (wal en2)) ∅ e3 = Some (en3, e4) /\
          store en3 = wire_store (store en1).
Proof.
  apply (recovery_rebuilds None I demo_engine_cfg ∅ demo_cfg_ok demo_no_snaps 1 9000 ∅ [] demo_writes demo_engine_env
    (resume_new None 1 eq_refl)); [constructor| |apply demo_engine_rnd|apply demo_writes_ok|apply demo_clock|constructor|
    apply demo_writes_outlive].
  split; [lia|split; [by vm_compute|intros l ->%dir_of_empty; by vm_compute]].
Defined.

Lemma recovery_after_crash_witness :
  exists en e1, start demo_engine_cfg ∅ ∅ demo_engine_env = Some (en, e1) /\
    forall en1 e2 path f n m, run_eops demo_writes en e1 = (tt, en1, e2) ->
      file (wal en1) = Some path -> files (wal en1) !! path = Some f -> (8 <= n)%nat ->
      verifyChecksumTrailer (firstn n f) = Ok (false, m) ->
      exists en3 e3 j enj ej,
        start demo_engine_cfg (<[path := firstn n f]> (files (wal en1))) ∅ e2 = Some (en3, e3) /\
        run_eops (take j demo_writes) en e1 = (tt, enj, ej) /\ store en3 = wire_store (store enj) /\
        ((length f <= n)%nat -> buffer (wal en1) = [] -> store en3 = wire_store (store en1)).
Proof.
  apply (recovery_after_crash None I demo_engine_cfg ∅ demo_cfg_ok demo_no_snaps 9000);
    [by vm_compute|apply demo_engine_rnd|apply demo_writes_ok|apply demo_clock|apply demo_writes_outlive].
Defined.
