(* ===== verification/EngineLimits.v ===== *)
(** Recovery always ends; and the cases where it succeeds without giving back
    what was acknowledged. *)

From Stdlib Require Import Ascii String.
From stdpp Require Import list strings gmap fin_maps.
From S2P Require Import Prelude Errors GoStrings Encoding Token Session MemoryStore WalCodec.
From S2P Require Import WalCodecSpec WalLog WalLogFacts WalProgress WalReadFacts WalWriteFacts.
From S2P Require Import WalLogSpec Snapshot Engine EngineFacts EngineSpec.

Open Scope string_scope.
Open Scope Z_scope.

(** ** Termination *)
Lemma replay_ends fuel : forall r now n en e, (left_over r < fuel)%nat ->
  exists n' en' e', replay_loop fuel r now n en e = (Some n', en', e') /\ same_parts en en'.
Proof.
  induction fuel as [|fuel IH]; intros r now n en e Hf; [lia|]; cbn [replay_loop].
  pose proof (Read_progress r e) as Hp; destruct (Read r e) as [[x r'] e'] eqn:Er.
  erewrite bind_run by (unfold with_local; rewrite Er; reflexivity); cbn beta iota.
  destruct Hp as (_ & [Hend|Hlt]).
  - destruct x as [x|err]; [done|]; cbn [ends] in Hend; rewrite Hend; by eexists _, en, _.
  - assert (left_over r' < fuel)%nat as Hf' by lia.
    destruct x as [x|err]; [|destruct (errors_is err EOF); [by eexists _, en, _|by apply IH]].
    destruct (skipped_entry now x); [by apply IH|].
    erewrite bind_run by (unfold in_store, zoom; rewrite applyEntry_run; reflexivity).
    destruct (fst (apply_result x (store en))); cbn beta iota; [|erewrite bind_run by reflexivity];
      (edestruct IH as (n' & en' & e2 & E & H); [exact Hf'|]; rewrite E; by eexists _, _, _).
Qed.

Lemma drop_total d n l : (seg_total d (drop n l) <= seg_total d l)%nat.
Proof.
  revert n; induction l as [|x l IH]; intros [|n]; cbn [drop]; try done.
  specialize (IH n); unfold seg_total in *; cbn [foldr]; lia.
Qed.

(** C39: Recovery ends on any log directory, whatever is in it, from any offset: the
    loop that goes on after errors never runs forever, and it changes nothing but the store
    and the offset. *)
Theorem recovery_terminates (en : Engine) (off : Z) (e : env) :
  (exists n en' e', replayWAL off en e = (Some n, en', e') /\ same_parts en en') /\
  exists err, fst (fst (Recover en e)) = Some err.
Proof.
  assert (forall off en e, exists n en' e', replayWAL off en e = (Some n, en', e') /\ same_parts en en') as H.
  { clear; intros off en e; unfold replayWAL; erewrite bind_run by reflexivity; erewrite bind_run by reflexivity.
    apply replay_ends; unfold left_over, Seek, NewReader, replay_fuel; cbn [current default id r_files segments segIndex length].
    pose proof (drop_total (files (wal en)) (find_segment (scanSegments (files (wal en))) (Z.shiftr off 32))
      (scanSegments (files (wal en)))).
    pose proof (seg_total_scan (files (wal en))); lia. }
  split; [apply H|]; unfold Recover; erewrite bind_run by reflexivity.
  destruct (Load (snapshot en)) as [[l info]|err].
  - unfold bind at 1; destruct (for_range _ _ en e) as [[[] en1] e1]; erewrite bind_run by reflexivity.
    match goal with |- context [replayWAL ?o] => destruct (H o (set_lastWALOffset o en1) e1) as (n & en' & e' & E & _) end.
    erewrite bind_run by exact E; by eexists.
  - destruct (errors_is err ErrNoSnapshots); [|by eexists].
    destruct (H 0 en e) as (n & en' & e' & E & _); erewrite bind_run by exact E; by eexists.
Qed.

(** ** The suffix of the log behind a snapshot *)
Section Suffix.
Context (cipher : option Cipher).

(** No eight bytes at a multiple of eight look like the magic of a segment. *)
Definition no_magic (b : bytes) : Prop := forall n, firstn 8 (skipn (8 * n) b) <> MagicBytes.

(** A reader that takes such bytes for a segment header goes on in steps of
    eight and ends. *)
Lemma replay_garbage fuel : forall r now n en e b,
  current r = Some b -> headerOK r = false -> startAt r = 0 -> no_magic b -> (length b < fuel)%nat ->
  replay_loop fuel r now n en e = (Some n, en, e).
Proof.
  induction fuel as [|fuel IH]; intros r now n en e b Hc Hh Hs Hm Hf; [lia|]; cbn [replay_loop].
  assert (exists err r', readAndValidateHeader r e = (Some err, r', e) /\
    (errors_is err ErrCorrupted || errors_is err (SimpleError "wal: checksum mismatch") = false) /\
    (errors_is err EOF = true \/ errors_is err EOF = false /\
      exists b', current r' = Some b' /\ headerOK r' = false /\ startAt r' = 0 /\ no_magic b' /\
        (length b' < length b)%nat)) as (err & r' & Eh & Hn & Hnext).
  { unfold readAndValidateHeader; destruct (le_lt_dec 8 (length b)) as [H8|H8].
    - erewrite bind_run by (apply (ReadFull_ok _ _ (firstn 8 b) (skipn 8 b)); [by rewrite firstn_skipn|
        rewrite length_firstn; lia]); cbn beta iota.
      rewrite bool_decide_false by apply (Hm 0%nat); eexists _, _; split; [reflexivity|]; split; [done|].
      right; split; [done|]; exists (skipn 8 b); cbn; split_ands; try done; [|rewrite length_skipn; lia].
      intros k; rewrite skipn_skipn; replace (8 * k + 8)%nat with (8 * S k)%nat by lia; apply Hm.
    - erewrite bind_run by (by apply ReadFull_short); eexists _, _; split; [reflexivity|].
      destruct b as [|x b]; [split; [done|by left]|]; split; [done|]; right; split; [done|].
      exists []; cbn; split_ands; try done; [|lia]. intros k; by rewrite skipn_nil. }
  assert (Read r e = (Err err, r', e)) as Er.
  { unfold Read; erewrite bind_run by reflexivity; cbn [read_loop]; erewrite bind_run by reflexivity.
    rewrite Hc; erewrite bind_run by reflexivity; cbn beta iota; erewrite bind_run by reflexivity.
    rewrite Hh, Hs; cbn [negb andb Z.eqb]; erewrite bind_run by exact Eh; cbn beta iota; by rewrite Hn. }
  erewrite bind_run by (unfold with_local; rewrite Er; reflexivity); cbn beta iota.
  destruct Hnext as [-> | (-> & b' & Hc' & Hh' & Hs' & Hm' & Hl)]; [done|]; eapply IH; eauto; lia.
Qed.
End Suffix.

Section AfterSnapshot.
Context (cipher : option Cipher).

(** What loading a snapshot's sessions into a store gives. *)
Definition load_sessions (s : Store) (l : list Session) : Store :=
  foldl (fun s x => after (MemoryStore.Create x) s) s l.
Lemma load_run l : forall en e,
  for_range l (fun s => in_store (MemoryStore.Create s) ;;; ret tt) en e =
  (tt, set_store (load_sessions (store en) l) en, e).
Proof.
  induction l as [|x l IH]; intros en e; cbn [for_range load_sessions foldl]; [by destruct en|].
  erewrite bind_run by (erewrite bind_run by
    (unfold in_store, zoom; rewrite run_after by auto with go; reflexivity); reflexivity).
  by rewrite IH.
Qed.

(** Recovery from a snapshot gives the snapshot's sessions and nothing else: the
    snapshot's offset points behind the header of a segment, where the reader
    expects one, so nothing logged since, in that segment or in any later one, is applied,
    and recovery reports success. *)
Theorem recovery_drops_suffix (en : Engine) (i : Z) (l : list bytes) (j : nat) (f : bytes)
    (frames1 frames2 : list bytes) (loaded : list Session) (info : Info) (e : env)
    (Hload : Load (snapshot en) = Ok (loaded, info))
    (Hoff : i_WALLastOffset info = Z.lor (Z.shiftl (i + Z.of_nat j) 32) (llen (seg_data frames1)))
    (Hfiles : files (wal en) = dir_of i l) (Hi : 0 <= i) (Hl : i + llen l <= 2 ^ 32)
    (Hf : l !! j = Some f) (Hsize : llen (seg_data frames1) < 2 ^ 32)
    (Hseg : data_is f (seg_data (frames1 ++ frames2))) (Hm : no_magic (concat frames2)) :
  exists en' e', Recover en e = (Some None, en', e') /\ store en' = load_sessions (store en) loaded.
Proof.
  set (en1 := set_lastWALOffset (i_WALLastOffset info) (set_store (load_sessions (store en) loaded) en)).
  exists en1, (tick e); split; [|done].
  unfold Recover; erewrite bind_run by reflexivity; rewrite Hload.
  erewrite bind_run by apply load_run; erewrite bind_run by reflexivity; fold en1.
  assert (replayWAL (i_WALLastOffset info) en1 e = (Some 0, en1, tick e)) as E; [|by erewrite bind_run by exact E].
  unfold replayWAL; erewrite bind_run by reflexivity; erewrite bind_run by reflexivity; fold (tick e).
  change (wal en1) with (wal en); rewrite Hfiles, Hoff.
  set (cip := CfgCipher _); set (fuel := S (1 + total_bytes (dir_of i l) + length (scanSegments (dir_of i l)))).
  change (replay_fuel (dir_of i l)) with fuel.
  set (r1 := MkReader (dir_of i l) cip (numbered i l) (S j) (Some (concat frames2)) 0 false).
  transitivity (replay_loop fuel r1 (unix_milli (clk e 0%nat)) 0 en1 (tick e)).
  - unfold fuel; cbn [replay_loop]; unfold bind at 1 2, with_local.
    by rewrite (Read_seek cip i l j f frames1 frames2 (tick e)).
  - apply (replay_garbage _ r1 _ _ _ _ (concat frames2)); try done.
    assert (length (concat frames2) <= total_bytes (dir_of i l))%nat; [|unfold fuel; lia].
    transitivity (length f); [|eapply total_bytes_dir; [done|unfold two64; lia|exact Hf]].
    destruct Hseg as [->|[-> _]]; unfold seg_data; rewrite concat_app, !length_app; lia.
Qed.
End AfterSnapshot.

(** ** Sessions and updates the replay ignores *)
Lemma create_absent y s id : sessions s !! id = None -> ID y <> id ->
  sessions (after (MemoryStore.Create y) s) !! id = None.
Proof.
  intros Hs Hy; unfold after, MemoryStore.Create; destruct (Session.Validate y); [done|].
  unfold bind, get_st, upd_st, ret; destruct (_ <=? _); [done|]; case_decide; [done|].
  destruct (negb _ && _); [done|]; cbn [fst snd put_session sessions]; by rewrite lookup_insert_ne.
Qed.
Lemma update_absent y v s id : sessions s !! id = None -> sessions (after (MemoryStore.Update y v) s) !! id = None.
Proof.
  intros Hs; unfold after, MemoryStore.Update; destruct (Session.Validate y); [done|].
  unfold bind, get_st, upd_st, ret; destruct (sessions s !! ID y) eqn:E; [|done].
  assert (ID y <> id) by congruence; destruct (negb _); [done|].
  destruct (String.eqb _ _); [cbn [fst snd sessions]; by rewrite lookup_insert_ne|].
  destruct (String.eqb (TokenHash y) _); [cbn [fst snd sessions]; by rewrite lookup_insert_ne|].
  case_decide; cbn [fst snd sessions]; [done|by rewrite lookup_insert_ne].
Qed.
Lemma delete_absent i s id : sessions s !! id = None -> sessions (after (MemoryStore.Delete i) s) !! id = None.
Proof.
  intros Hs; unfold after, MemoryStore.Delete, bind, get_st, upd_st, ret.
  destruct (sessions s !! i); [|done]; cbn [fst snd drop_session sessions].
  destruct (decide (i = id)) as [->|]; [by rewrite lookup_delete_eq|by rewrite lookup_delete_ne].
Qed.

Lemma step_absent s x id : sessions s !! id = None ->
  (forall y, OpType x = OpTypeCreate -> ESession x = Some y -> ID y <> id) -> sessions (step s x) !! id = None.
Proof.
  intros Hs Hx; unfold step, apply_result, applyEntry.
  destruct (Z.eqb_spec (OpType x) OpTypeCreate) as [E|_].
  { destruct (ESession x) as [y|]; [|done].
    erewrite <- (create_absent y s id); [exact (f_equal (fun s => sessions s !! id) (after_ret _ _ _))|done|by apply Hx]. }
  destruct (OpType x =? OpTypeUpdate).
  { destruct (ESession x) as [y|]; [|done].
    erewrite <- (update_absent y _ s id) by done; exact (f_equal (fun s => sessions s !! id) (after_ret _ _ _)). }
  destruct (OpType x =? OpTypeDelete); [|done].
  erewrite <- (delete_absent _ s id) by done; exact (f_equal (fun s => sessions s !! id) (after_ret _ _ _)).
Qed.

Lemma replay_absent now log id s : sessions s !! id = None ->
  (forall x y, x ∈ log -> OpType x = OpTypeCreate -> ESession x = Some y -> ID y = id -> ExpiresAt y < now) ->
  sessions (foldl (replay_step now) s log) !! id = None.
Proof.
  revert s; induction log as [|x log IH]; intros s Hs Hx; cbn [foldl]; [done|].
  apply IH; [|intros; eapply Hx; eauto; by right].
  unfold replay_step; destruct (skipped_entry now x) eqn:E; [done|]; apply step_absent; [done|].
  intros y Ho Hy <-; unfold skipped_entry in E; rewrite Ho, Hy in E; cbn in E; apply Z.ltb_ge in E.
  specialize (Hx x y ltac:(left) Ho Hy eq_refl); lia.
Qed.

Section Lost.
Context (cipher : option Cipher) (Hcipher : cipher_ok cipher) (c : EngineConfig) (sd : SnapDir).
Context (Hcfg : config_ok cipher c) (Hsd : Snapshot.List sd = []).

(** A session whose creation entries carry an expiry that lies before the clock at recovery is
    gone, whatever renewals the log also holds; an expiry of zero,
    which means that the session never expires, counts as passed. *)
Theorem expired_creation_lost (i : Z) (d : Dir) (log : list Entry) (id : string) (e : env)
    (Hd : readable cipher i d (map wire_entry log))
    (Hexp : forall x y, x ∈ log -> OpType x = OpTypeCreate -> ESession x = Some y -> ID y = id ->
       ExpiresAt y < unix_milli (clk e 0%nat)) :
  exists en, start c d sd e = Some (en, tick e) /\ sessions (store en) !! id = None.
Proof.
  destruct (engine_start_run cipher c d sd i _ e Hcfg Hd Hsd) as (en & _ & E & _ & _ & _ & _ & Hst).
  exists en; split; [done|]; rewrite Hst; apply replay_absent; [apply lookup_empty|].
  intros x y Hx Ho Hy Hid; apply list_elem_of_fmap in Hx as (x0 & -> & Hx0).
  destruct x0 as [op ts sid ver [y0|]]; cbn in Ho, Hy; [|discriminate]; injection Hy as <-.
  exact (Hexp _ y0 Hx0 Ho eq_refl Hid).
Qed.

(** An update without version check is acknowledged, visible at once and
    written to the log, and undone by the next restart, unless the caller happened to raise the
    version by one: the replay treats it as a versioned update. *)
Theorem unversioned_update_lost (i T : Z) (en : Engine) (log : list Entry) (x y : Session) (e e1 : env) (en1 : Engine)
    (Ht : tracks cipher (capacity c) i 4 en log) (Hs : stopped en = false) (He : rnd_ok e)
    (Hlog : Forall (outlives T) log) (Hclk : forall n, unix_milli (clk e n) <= T)
    (Hx : forall n, loggable cipher (update_entry (unix_milli (clk e n)) x))
    (Hy : sessions (store en) !! ID x = Some y) (Hv : Version y <> u64 (Version x - 1))
    (Hrun : UpdateSession x en e = (None, en1, e1)) :
  sessions (store en1) !! ID x = Some x /\
  exists en2 en3 e3, Engine.Close en1 e1 = (Some None, en2, e1) /\
    start c (files (wal en2)) sd e1 = Some (en3, e3) /\ store en3 = wire_store (store en).
Proof.
  unfold UpdateSession in Hrun; destruct (write_wal (NewUpdateEntry x) en e) as [[err en0] e0] eqn:Ew.
  destruct (write_wal_run cipher Hcipher (capacity c) (UpdateOp x) (NewUpdateEntry x) i 3 en log e err en0 e0)
    as (_ & Hst0 & _ & _ & Hs0 & Hcl0 & es & pend & Hw & now & Hes); try done.
  pose proof (advances_write_wal (NewUpdateEntry x) ltac:(unfold NewUpdateEntry; advances_tac) en e) as Hlater.
  rewrite Ew in Hlater; cbn [snd] in Hlater.
  erewrite bind_run in Hrun by exact Ew; destruct err as [err|]; [discriminate|].
  unfold bind, in_store, zoom, MemoryStore.UpdateSession in Hrun; rewrite Hst0 in Hrun.
  destruct (Session.Validate x) eqn:Hval; [discriminate|].
  unfold bind, get_st, upd_st, ret, mark_offset in Hrun; rewrite Hy in Hrun; injection Hrun as <- <-.
  split; [cbn; rewrite lookup_insert_eq; by rewrite Session.Clone_id|].
  match goal with |- context [Engine.Close ?z e0] => set (en1 := z) end.
  destruct Ht as (_ & _ & _ & _ & _ & Hg & Hst).
  destruct (close_restart cipher c sd Hcfg Hsd i en1 es pend (log ++ [update_entry now x])%list e0 T)
    as (en2 & Ec & _ & en3 & E3 & Hst3); try done.
  - cbn; congruence.
  - apply Forall_app; split; [done|]; repeat constructor; by right.
  - apply Forall_app; split; [done|]; repeat constructor; unfold outlives; cbn; discriminate.
  - by apply (clock_later T e).
  - exists en2, en3, (tick e0); split_ands; try done; rewrite Hst3, foldl_app, <- Hst; cbn [foldl]; f_equal.
    rewrite step_update; unfold after, MemoryStore.Update; rewrite Hval; unfold bind, get_st; rewrite Hy.
    by rewrite (proj2 (Z.eqb_neq _ _)).
Qed.
End Lost.

(** ** Concrete runs *)
Lemma no_magic_check b :
  forallb (fun n => negb (bool_decide (firstn 8 (skipn (8 * n) b) = MagicBytes))) (seq 0 (S (length b))) = true ->
  no_magic b.
Proof.
  intros H n E; rewrite forallb_forall in H.
  assert (n < S (length b))%nat as Hn.
  { destruct (le_lt_dec (8 * n) (length b)); [lia|]. by rewrite skipn_all2, firstn_nil in E by lia. }
  specialize (H n ltac:(apply in_seq; lia)); by rewrite bool_decide_true in H.
Qed.

(** A session is created, a snapshot taken, another session created; the process
    then shuts down and starts again. *)
#[local] Instance demo_limits_time : TimeFormat := fun _ => "20260101000000".
Definition demo_first : Session := demo_user_session "tmss-1" "h1" 1 9000.
Definition demo_second : Session := demo_user_session "tmss-2" "h2" 1 9000.
Definition demo_engine : Engine :=
  match start demo_engine_cfg ∅ ∅ demo_engine_env with
  | Some (en, _) => en
  | None => MkEngine demo_engine_cfg (MemoryStore.New 0) (MkWriter ∅ demo_log_cfg 0 None 0 0 [] [] 0 false)
              (MkManager ∅ (SnapshotCfg demo_engine_cfg)) 0 false
  end.
Definition demo_stopped : Engine :=
  snd (fst ((Engine.Create demo_first ;;; TriggerSnapshot ;;; Engine.Create demo_second ;;; Engine.Close)
    demo_engine demo_engine_env)).
Definition new_or (d : Engine) (r : (Engine + error * Dir) * env) : Engine :=
  match r with (inl en, _) => en | _ => d end.
Definition demo_restarted : Engine :=
  new_or demo_engine (New demo_engine_cfg (files (wal demo_stopped)) (snaps (snapshot demo_stopped)) demo_engine_env).
Definition demo_entry_frame (x : Entry) : bytes :=
  match encodeEntryFrame x None tt demo_engine_env with (Ok f, _, _) => f | _ => [] end.
Definition demo_f1 := demo_entry_frame (create_entry 5000 demo_first).
Definition demo_f2 := demo_entry_frame (create_entry 5000 demo_second).
Definition ok_or {A} (d : A) (r : Res A) : A := match r with Ok a => a | Err _ => d end.
Definition demo_loaded : list Session * Info :=
  ok_or ([], MkInfo "" 0 0 0 0 "" "" "") (Load (snapshot demo_restarted)).

Lemma recovery_drops_suffix_witness :
  fst demo_loaded = [demo_first] /\ is_Some (sessions (store demo_stopped) !! "tmss-2") /\
  exists en' e', Recover demo_restarted demo_engine_env = (Some None, en', e') /\
    store en' = load_sessions (store demo_restarted) (fst demo_loaded).
Proof.
  split; [by vm_compute|]; split; [vm_compute; by eexists|].
  apply (recovery_drops_suffix demo_restarted 1 [closed_seg ([demo_f1] ++ [demo_f2]); MagicBytes] 0
    (closed_seg ([demo_f1] ++ [demo_f2])) [demo_f1] [demo_f2] (fst demo_loaded) (snd demo_loaded) demo_engine_env);
    [vm_compute; reflexivity..|vm_compute; discriminate|vm_compute; discriminate|reflexivity|
     vm_compute; reflexivity|left; unfold closed_seg; reflexivity|apply no_magic_check; vm_compute; reflexivity].
Defined.

(** A session created for a short time and renewed in time. *)
Definition demo_short : Session := demo_user_session "tmss-1" "h1" 1 4000.
Definition demo_renewed : Session := demo_user_session "tmss-1" "h1" 2 20000.
Definition demo_renewal : list Entry := [create_entry 1000 demo_short; update_entry 2000 demo_renewed].
Lemma demo_good_frame x : wire_entry x = x ->
  decodeEntryFrame (skipn 4 (demo_entry_frame x)) None = Ok x ->
  demo_entry_frame x = (be32 (llen (skipn 4 (demo_entry_frame x))) ++ skipn 4 (demo_entry_frame x))%list ->
  5 <= llen (skipn 4 (demo_entry_frame x)) < 2 ^ 32 -> good None (wire_entry x) (demo_entry_frame x).
Proof. intros -> Hd Hf Hl; by exists (skipn 4 (demo_entry_frame x)). Qed.
Ltac demo_good := apply demo_good_frame; vm_compute; by try split_ands.

Lemma demo_renewal_readable :
  readable None 1 (dir_of 1 [closed_seg (map demo_entry_frame demo_renewal)]) (map wire_entry demo_renewal).
Proof.
  apply (readable_dir None 1 [] _ [map wire_entry demo_renewal]); [|lia|by vm_compute].
  constructor; [|constructor]; eapply holds_closed; [|reflexivity].
  constructor; [demo_good|constructor; [demo_good|constructor]].
Qed.

Lemma expired_creation_lost_witness :
  sessions (foldl step (MemoryStore.New 50) demo_renewal) !! "tmss-1" = Some (IncrVersion demo_renewed) /\
  expired_at 5000 demo_renewed = false /\
  exists en, start demo_engine_cfg (dir_of 1 [closed_seg (map demo_entry_frame demo_renewal)]) ∅ demo_engine_env =
    Some (en, tick demo_engine_env) /\ sessions (store en) !! "tmss-1" = None.
Proof.
  split; [by vm_compute|]; split; [by vm_compute|].
  apply (expired_creation_lost None demo_engine_cfg ∅ demo_cfg_ok demo_no_snaps 1 _ demo_renewal "tmss-1"
    demo_engine_env demo_renewal_readable).
  intros x y Hx; unfold demo_renewal in Hx; rewrite !elem_of_cons in Hx.
  destruct Hx as [-> |[-> |Hx]]; [|discriminate|by apply elem_of_nil in Hx].
  intros _ [= <-] _; by vm_compute.
Defined.

(** A token check that records the access on a session read from the store. *)
Definition demo_old : list Entry := [create_entry 1000 demo_first].
Definition demo_touched : Session := set_LastActive 5000 demo_first.
Definition engine_or (d : Engine) (o : option (Engine * env)) : Engine :=
  match o with Some (en, _) => en | None => d end.
Definition demo_old_dir : Dir := dir_of 1 [closed_seg (map demo_entry_frame demo_old)].
Definition demo_running : Engine := engine_or demo_engine (start demo_engine_cfg demo_old_dir ∅ demo_engine_env).
Definition demo_touch := UpdateSession demo_touched demo_running demo_engine_env.

Lemma demo_old_tracks c k : config_ok None c -> 0 <= k <= 9 ->
  exists en, start c demo_old_dir ∅ demo_engine_env = Some (en, tick demo_engine_env) /\ stopped en = false /\
    tracks None (capacity c) 1 k en (map wire_entry demo_old).
Proof.
  intros Hc Hk; apply (start_tracks None c ∅ Hc demo_no_snaps 1 k demo_old_dir demo_old demo_engine_env 9000).
  - unfold demo_old_dir; refine (resume_closed None 1 [] [] (map demo_entry_frame demo_old) (map wire_entry demo_old) _ _);
      [constructor|].
    constructor; [demo_good|constructor].
  - repeat constructor; by left.
  - repeat constructor; vm_compute; discriminate.
  - apply demo_clock.
  - lia.
  - assert (100 < two64) as Hb by (vm_compute; reflexivity).
    split; [done|]; split; [clear -Hk Hb; lia|]; intros l Hl.
    assert (llen l = 1) as ->; [|clear -Hk Hb; lia].
    destruct l as [|f l]; [symmetry in Hl; apply (f_equal (lookup (formatSegmentFilename 1))) in Hl;
      unfold demo_old_dir in Hl; cbn [dir_of] in Hl; by rewrite lookup_insert_eq in Hl|].
    destruct l as [|g l]; [done|]; exfalso.
    apply (f_equal (lookup (formatSegmentFilename 2))) in Hl; unfold demo_old_dir in Hl; cbn [dir_of] in Hl.
    rewrite lookup_insert_ne in Hl by (vm_compute; discriminate); rewrite lookup_empty in Hl.
    rewrite (lookup_insert_ne _ (formatSegmentFilename 1)) in Hl by (vm_compute; discriminate).
    by rewrite lookup_insert_eq in Hl.
Qed.
Lemma demo_running_tracks k : 0 <= k <= 9 ->
  stopped demo_running = false /\ tracks None (capacity demo_engine_cfg) 1 k demo_running (map wire_entry demo_old).
Proof.
  intros Hk; destruct (demo_old_tracks demo_engine_cfg k demo_cfg_ok Hk) as (en & E & Hs & Ht).
  assert (demo_running = en) as ->; [unfold demo_running; rewrite E; reflexivity|exact (conj Hs Ht)].
Qed.

Lemma unversioned_update_lost_witness :
  sessions (store (snd (fst demo_touch))) !! "tmss-1" = Some demo_touched /\
  exists en2 en3 e3, Engine.Close (snd (fst demo_touch)) (snd demo_touch) = (Some None, en2, snd demo_touch) /\
    start demo_engine_cfg (files (wal en2)) ∅ (snd demo_touch) = Some (en3, e3) /\
    store en3 = wire_store (store demo_running).
Proof.
  apply (unversioned_update_lost None I demo_engine_cfg ∅ demo_cfg_ok demo_no_snaps 1 9000 demo_running
    (map wire_entry demo_old) demo_touched demo_first demo_engine_env (snd demo_touch) (snd (fst demo_touch))
    (proj2 (demo_running_tracks 4 ltac:(lia))) (proj1 (demo_running_tracks 4 ltac:(lia))) demo_engine_rnd).
  - repeat constructor; vm_compute; discriminate.
  - apply demo_clock.
  - demo_loggable.
  - vm_compute; reflexivity.
  - vm_compute; discriminate.
  - vm_compute; reflexivity.
Defined.
