(* ===== verification/EngineRace.v ===== *)
(** Requests that write at the same time: [internal/storage/engine.go].

    The engine has no lock of its own.  A write appends its entry to the log and then changes the
    store, each under the lock of that part, so between the two other writes can run.  Here a
    write is its two parts, and a run is a list of parts of any writes: what the store holds is
    decided by the order of the second parts, what a restart brings back by the order of the
    first. *)

From Stdlib Require Import Ascii String.
From stdpp Require Import list strings gmap fin_maps.
From S2P Require Import Prelude Errors GoStrings Encoding Token Session MemoryStore WalCodec.
From S2P Require Import WalCodecSpec WalLog WalLogFacts WalReadFacts WalWriteFacts WalLogSpec.
From S2P Require Import Snapshot Engine EngineFacts EngineSpec EngineLimits.

Open Scope string_scope.
Open Scope Z_scope.

(** ** The parts of a write *)
Definition new_entry (o : eop) : M Writer Entry :=
  match o with CreateOp s => NewCreateEntry s | UpdateOp s => NewUpdateEntry s | DeleteOp id => NewDeleteEntry id end.
Definition store_op (o : eop) : M Store (option error) :=
  match o with
  | CreateOp s => MemoryStore.Create s
  | UpdateOp s => r <- MemoryStore.Update s (u64 (Version s - 1)) ;; ret (fst r)
  | DeleteOp id => MemoryStore.Delete id
  end.
(** A write after it appended its entry. *)
Definition apply_part (o : eop) : M Engine (option error) :=
  err <- in_store (store_op o) ;;
  match err with Some err => ret (Some err) | None => mark_offset ;;; ret None end.

Inductive part := Logs (o : eop) | Applies (o : eop).
Definition run_part (p : part) : M Engine (option error) :=
  match p with Logs o => write_wal (new_entry o) | Applies o => apply_part o end.
Definition run_parts (l : list part) : M Engine (list (option error)) := for_collect l (fun p => r <- run_part p ;; ret (Some r)).

(** A write is its parts one after the other. *)
Lemma write_parts o en e :
  run_eop o en e = (err <- run_part (Logs o) ;; match err with Some _ => ret tt | None => run_part (Applies o) ;;; ret tt end) en e.
Proof.
  destruct o as [s|s|id]; cbn [run_eop run_part new_entry]; unfold apply_part, store_op, Create, Update, Delete, bind;
    [destruct (write_wal (NewCreateEntry s) en e) as [[[?|] en1] e1]; [done|]|
     destruct (write_wal (NewUpdateEntry s) en e) as [[[?|] en1] e1]; [done|]|
     destruct (write_wal (NewDeleteEntry id) en e) as [[[?|] en1] e1]; [done|]]; unfold in_store, zoom, ret.
  - by destruct (MemoryStore.Create s (store en1) e1) as [[[?|] ?] ?].
  - by destruct (MemoryStore.Update s (u64 (Version s - 1)) (store en1) e1) as [[[[?|] ?] ?] ?].
  - by destruct (MemoryStore.Delete id (store en1) e1) as [[[?|] ?] ?].
Qed.

(** What a write does to a store, whenever and for whichever result. *)
Definition effect (s : Store) (o : eop) : Store := after (store_op o) s.
Lemma effect_step o now s : step s (entry_of o now) = effect s o.
Proof.
  unfold effect, store_op; destruct o; cbn [entry_of]; [apply step_create| |apply step_delete].
  rewrite step_update; symmetry; apply after_ret.
Qed.
Lemma store_op_pure o : pure_op (store_op o).
Proof. destruct o; cbn [store_op]; [auto with go|apply pure_bind; auto with go|auto with go]. Qed.
Lemma new_entry_run o w e :
  new_entry o w e = (entry_of o (unix_milli (clk e 0%nat)), w, Env (fun n => clk e (n + 1)%nat) (rnd e) (ulids e)).
Proof. by destruct o. Qed.

(** The writes that change the store, and those whose entry got into the log, in order. *)
Definition applied (l : list part) : list eop := omap (fun p => match p with Applies o => Some o | Logs _ => None end) l.
Fixpoint logged (l : list part) (rs : list (option error)) : list eop :=
  match l, rs with
  | Logs o :: l, None :: rs => o :: logged l rs
  | _ :: l, _ :: rs => logged l rs
  | _, _ => []
  end.

(** The answers of the writes, by the store they reach; that of a first part is whether the
    entry was written. *)
Fixpoint answers (s : Store) (l : list part) (rs : list (option error)) : Prop :=
  match l, rs with
  | [], [] => True
  | Logs _ :: l, _ :: rs => answers s l rs
  | Applies o :: l, r :: rs => r = fst (fst (store_op o s no_env)) /\ answers (effect s o) l rs
  | _, _ => False
  end.

Lemma in_wal_set_store {A} (m : M Writer A) s en e :
  in_wal m (set_store s en) e = (fst (fst (in_wal m en e)), set_store s (snd (fst (in_wal m en e))), snd (in_wal m en e)).
Proof. unfold in_wal, zoom; cbn [set_store wal]; by destruct (m (wal en) e) as [[a w] e']. Qed.
Lemma write_wal_set_store new s en e err en' e' :
  write_wal new en e = (err, en', e') -> write_wal new (set_store s en) e = (err, set_store s en', e').
Proof.
  unfold write_wal, bind, ret; rewrite in_wal_set_store; destruct (in_wal new en e) as [[x en1] e1]; cbn [fst snd].
  rewrite in_wal_set_store; destruct (in_wal (Append x) en1 e1) as [[r en2] e2]; cbn [fst snd]; by intros [= <- <- <-].
Qed.

Section Parts.
Context (cipher : option Cipher) (Hcipher : cipher_ok cipher).

(** The log holds what was logged; the store is anything. *)
Definition logs (i k : Z) (en : Engine) (log : list Entry) : Prop :=
  exists es pend, holds cipher i k (wal en) es pend /\ (es ++ pend = map wire_entry log)%list /\
    closed (wal en) = false /\ Forall entry_good log.
Lemma tracks_logs max i k en log : tracks cipher max i k en log -> logs i k en log.
Proof. intros (es & pend & H1 & H2 & H3 & H4 & _); by exists es, pend. Qed.
Lemma logs_tracks max i k en log : logs i k en log -> tracks cipher max i k (set_store (foldl step (MemoryStore.New max) log) en) log.
Proof. intros (es & pend & H1 & H2 & H3 & H4); by exists es, pend. Qed.

Lemma log_part_run o i k en log e err en' e' :
  logs i (k + 1) en log -> 0 <= k -> rnd_ok e -> eop_ok cipher e o -> run_part (Logs o) en e = (err, en', e') ->
  rnd_ok e' /\ later e e' /\ store en' = store en /\ e_cfg en' = e_cfg en /\ stopped en' = stopped en /\
  exists new, logs i k en' (log ++ new) /\
    match err with None => exists now, new = [entry_of o now] | Some _ => new = [] end.
Proof.
  intros Hl Hk He Ho Hr; cbn [run_part] in Hr.
  pose proof (write_wal_set_store _ (foldl step (MemoryStore.New 0) log) _ _ _ _ _ Hr) as Hr'.
  destruct (write_wal_run cipher Hcipher 0 o (new_entry o) i k _ log e err _ e' (new_entry_run o) (logs_tracks 0 _ _ _ _ Hl) Hk He Ho Hr')
    as (He' & _ & _ & Hc & Hs & Hcl & es & pend & Hh & now & Hes).
  assert (store en' = store en) as Hst.
  { revert Hr; unfold write_wal, bind, ret, in_wal, zoom; destruct (new_entry o (wal en) e) as [[x w] e1]; cbn [set_wal wal].
    destruct (Append x w e1) as [[r w'] e2]; by intros [= <- <- <-]. }
  assert (later e e') as Hlat.
  { pose proof (advances_write_wal (new_entry o)) as Ha; specialize (Ha ltac:(destruct o; unfold new_entry, NewCreateEntry, NewUpdateEntry, NewDeleteEntry; advances_tac) en e).
    by rewrite Hr in Ha. }
  cbn [set_store e_cfg stopped wal] in *; split_ands; try done.
  exists (match err with None => [entry_of o now] | Some _ => [] end); split; [|by destruct err; [|exists now]].
  exists es, pend; split_ands; try done; destruct Hl as (? & ? & _ & _ & _ & Hg); apply Forall_app; split; [done|].
  destruct err; repeat constructor; apply entry_of_good.
Qed.
Lemma apply_part_run o en e r en' e' : run_part (Applies o) en e = (r, en', e') ->
  e' = e /\ wal en' = wal en /\ e_cfg en' = e_cfg en /\ stopped en' = stopped en /\ store en' = effect (store en) o /\
  r = fst (fst (store_op o (store en) no_env)).
Proof.
  cbn [run_part]; unfold apply_part, bind, in_store, zoom; rewrite (run_after _ _ _ (store_op_pure o)).
  destruct (fst (fst (store_op o (store en) no_env))); unfold mark_offset, bind, upd_st, ret; intros [= <- <- <-]; cbn; by split_ands.
Qed.

(** A run of parts: the store by the order of the applications, the log by that of the entries. *)
Lemma parts_run l : forall i k en log e rs en' e',
  logs i (k + llen l) en log -> 0 <= k -> rnd_ok e -> Forall (fun p => match p with Logs o => eop_ok cipher e o | _ => True end) l ->
  run_parts l en e = (rs, en', e') ->
  store en' = foldl effect (store en) (applied l) /\ answers (store en) l rs /\ e_cfg en' = e_cfg en /\ stopped en' = stopped en /\ later e e' /\
  exists new, logs i k en' (log ++ new) /\ Forall2 (fun o x => exists now, x = entry_of o now) (logged l rs) new.
Proof.
  induction l as [|p l IH]; intros i k en log e rs en' e' Hl Hk He Hops; unfold run_parts; cbn [for_collect].
  { intros [= <- <- <-]; split_ands; try done; [apply later_refl|]; exists []; rewrite app_nil_r; split; [|constructor].
    change (llen (@nil part)) with 0 in Hl; by rewrite Z.add_0_r in Hl. }
  apply Forall_cons in Hops as [Hp Hops]; replace (k + llen (p :: l)) with (k + llen l + 1) in Hl by (unfold llen; cbn [length]; lia).
  assert (0 <= k + llen l) as Hk' by (unfold llen; lia); intros Hrun.
  destruct (run_part p en e) as [[r en1] e1] eqn:Ep.
  erewrite bind_run in Hrun by (erewrite bind_run by exact Ep; reflexivity).
  destruct (run_parts l en1 e1) as [[rs1 en2] e2] eqn:El; unfold run_parts in El; erewrite bind_run in Hrun by exact El.
  injection Hrun as <- <- <-; destruct p as [o|o].
  - destruct (log_part_run o i (k + llen l) en log e r en1 e1 Hl Hk' He Hp Ep) as (He1 & Hlat & Hst & Hc & Hs & new & Hl1 & Hnew).
    destruct (IH i k en1 (log ++ new)%list e1 rs1 en2 e2 Hl1 Hk He1) as (Hst2 & Ha2 & Hc2 & Hs2 & Hlat2 & new2 & Hl2 & Hn2); [|done|].
    { eapply Forall_impl; [exact Hops|]; intros [x|x]; [by apply eop_ok_later|done]. }
    split_ands; try congruence; [by rewrite Hst2, Hst|by cbn [answers]; rewrite <- Hst|by eapply later_trans|].
    exists (new ++ new2)%list; rewrite (assoc_L (++)%list); split; [done|]; cbn [logged].
    destruct r; [by rewrite Hnew|]; destruct Hnew as [now ->]; constructor; [by exists now|done].
  - destruct (apply_part_run o en e r en1 e1 Ep) as (-> & Hw & Hc & Hs & Hst & Hr).
    assert (logs i (k + llen l) en1 log) as Hl1.
    { destruct Hl as (es & pend & H1 & H2 & H3 & H4); exists es, pend; rewrite Hw; split_ands; try done; eapply holds_weaken; [exact H1|lia]. }
    destruct (IH i k en1 log e rs1 en2 e2 Hl1 Hk He Hops) as (Hst2 & Ha2 & Hc2 & Hs2 & Hlat2 & new2 & Hl2 & Hn2); [done|].
    split_ands; try congruence; [by rewrite Hst2, Hst|cbn [answers]; split; [done|by rewrite <- Hst]|]; by exists new2.
Qed.
End Parts.

(** ** A restart *)
Section Restart.
Context (cipher : option Cipher) (Hcipher : cipher_ok cipher) (c : EngineConfig) (sd : SnapDir).
Context (Hcfg : config_ok cipher c) (Hsd : Snapshot.List sd = []).

(** Closing leaves the log on disk, and a start at any later time replays it. *)
Lemma close_then_start i en log e e2 : logs cipher i 3 en log -> stopped en = false ->
  exists en2 en3, Close en e = (Some None, en2, e) /\ start c (files (wal en2)) sd e2 = Some (en3, tick e2) /\
    store en3 = foldl (replay_step (unix_milli (clk e2 0%nat))) (MemoryStore.New (capacity c)) (map wire_entry log).
Proof.
  intros (es & pend & Hw & Hes & Hcl & Hg) Hs.
  assert (1 <= i) as Hi by (destruct Hw as (? & ? & ? & ? & H); decompose [and] H; done).
  destruct (close_holds cipher i 2 (wal en) es pend e Hw ltac:(lia) Hcl)
    as (w2 & pre & ess & Ec & Hf & Hpre & Hcat & (pre' & frames & ->) & Hlen); rewrite Hes in Hcat.
  destruct (engine_start_run cipher c (files w2) sd i (map wire_entry log) e2 Hcfg) as (en3 & _ & E3 & _ & _ & _ & _ & Hst3); [|done|].
  { rewrite Hf, <- Hcat; constructor; [done|done|lia]. }
  exists (set_wal w2 (set_stopped en)), en3; split_ands; [|done|done].
  unfold Close; erewrite bind_run by reflexivity; rewrite Hs.
  erewrite bind_run by reflexivity; unfold in_wal, zoom, bind; cbn [wal set_stopped]; by rewrite Ec.
Qed.

(** C5: Any interleaving of any writes, then a shutdown and a start, with no snapshot in the
    directory: the running store and the answers are those of the writes in the order in which
    they reached it; as long as no creation has expired, the restarted store is that of the
    writes in the order in which their entries reached the log, whatever was answered, as the log
    carries it.  So a restart changes nothing where the two orders have the same effect, and
    forgets or revives writes where they do not. *)
Theorem restart_follows_log (i T : Z) (en : Engine) (log : list Entry) (parts : list part) (e : env) rs en1 e1
  (Ht : tracks cipher (capacity c) i (3 + llen parts) en log) (Hs : stopped en = false) (He : rnd_ok e)
  (Hops : Forall (fun p => match p with Logs o => eop_ok cipher e o /\ op_outlives T o | Applies _ => True end) parts)
  (Hlog : Forall (outlives T) log) (Hclk : forall n, unix_milli (clk e n) <= T)
  (Hrun : run_parts parts en e = (rs, en1, e1)) :
  store en1 = foldl effect (store en) (applied parts) /\ answers (store en) parts rs /\
  exists en2 en3, Close en1 e1 = (Some None, en2, e1) /\ start c (files (wal en2)) sd e1 = Some (en3, tick e1) /\
    store en3 = wire_store (foldl effect (store en) (logged parts rs)).
Proof.
  destruct (parts_run cipher Hcipher parts i 3 en log e rs en1 e1) as (Hst & Hans & _ & Hs1 & Hlat & new & Hl & Hnew); try done.
  { by eapply tracks_logs. }
  { eapply Forall_impl; [exact Hops|]; by intros [o|o]; [intros [? _]|]. }
  split; [done|]; split; [done|]; destruct (close_then_start i en1 (log ++ new) e1 e1 Hl) as (en2 & en3 & Ec & E3 & Hst3); [congruence|].
  exists en2, en3; split_ands; try done; rewrite Hst3; destruct Hl as (_ & _ & _ & _ & _ & Hg).
  destruct Ht as (_ & _ & _ & _ & _ & _ & Hst0).
  rewrite recovered_store; [|done|].
  - f_equal; rewrite foldl_app, <- Hst0; clear -Hnew; generalize (store en) as s; induction Hnew as [|o x os xs [now ->] _ IH]; intros s; [done|].
    cbn [foldl]; rewrite effect_step; apply IH.
  - apply (outlives_alive T); [apply (clock_later T e); done|]; apply Forall_app; split; [done|].
    assert (Forall (op_outlives T) (logged parts rs)) as Ho.
    { clear -Hops; revert rs; induction Hops as [|p parts Hp _ IH]; intros rs; [by destruct rs|].
      destruct p as [o|o], rs as [|[r|] rs]; cbn [logged]; try apply IH; try apply Forall_nil_2.
      by apply Forall_cons_2; [apply Hp|]. }
    clear -Hnew Ho; induction Hnew as [|o x os xs [now ->] _ IH]; [constructor|]; apply Forall_cons in Ho as [Ho Hos].
    constructor; [by apply entry_of_outlives|by apply IH].
Qed.

(** ** Two updates of one session *)
Lemma update_runs s cur x : Session.Validate x = None -> sessions s !! ID x = Some cur -> Version cur = u64 (Version x - 1) -> TokenHash cur = TokenHash x ->
  store_op (UpdateOp x) s no_env =
    (None, MkStore (<[ID x := IncrVersion x]> (sessions s)) (tokens s) (userIndex s) (maxSessionsPerUser s), no_env).
Proof.
  intros Hval Hx Hv Ht; unfold store_op, MemoryStore.Update, bind, get_st, upd_st, ret; rewrite Hval, Hx, Hv, Z.eqb_refl; cbn [negb].
  by rewrite Ht, String.eqb_refl, Session.Clone_id.
Qed.
Lemma update_conflicts s cur x : Session.Validate x = None -> sessions s !! ID x = Some cur -> Version cur <> u64 (Version x - 1) ->
  store_op (UpdateOp x) s no_env = (Some ErrSessionVersionConflict, s, no_env).
Proof.
  intros Hval Hx Hv; unfold store_op, MemoryStore.Update, bind, get_st, upd_st, ret; rewrite Hval, Hx, (proj2 (Z.eqb_neq _ _)) by done; done.
Qed.
Lemma two_apart v : u64 (v + 1) <> u64 (v - 1).
Proof. unfold u64, two64; pose proof (Z.div_mod (v + 1) (2 ^ 64)); pose proof (Z.div_mod (v - 1) (2 ^ 64)); lia. Qed.

(** Two requests that read the same version of a session write their entries in one order and
    reach the store in the other.  The second entry is acknowledged and the first refused; after
    a restart the session is as the refused request wanted it. *)
Theorem concurrent_update_lost (i T : Z) (en : Engine) (log : list Entry) (cur a b : Session) (e : env) rb ra en1 e1
  (Ht : tracks cipher (capacity c) i 7 en log) (Hs : stopped en = false) (He : rnd_ok e)
  (Ha : eop_ok cipher e (UpdateOp a)) (Hb : eop_ok cipher e (UpdateOp b))
  (Hlog : Forall (outlives T) log) (Hclk : forall n, unix_milli (clk e n) <= T)
  (Hcur : sessions (store en) !! ID a = Some cur) (Hid : ID b = ID a)
  (Hva : Session.Validate a = None) (Hvb : Session.Validate b = None)
  (Hra : Version cur = u64 (Version a - 1)) (Hrb : Version cur = u64 (Version b - 1))
  (Hta : TokenHash cur = TokenHash a) (Htb : TokenHash cur = TokenHash b)
  (Hrun : run_parts [Logs (UpdateOp a); Logs (UpdateOp b); Applies (UpdateOp b); Applies (UpdateOp a)] en e = ([None; None; rb; ra], en1, e1)) :
  rb = None /\ ra = Some ErrSessionVersionConflict /\ sessions (store en1) !! ID a = Some (IncrVersion b) /\
  exists en2 en3, Close en1 e1 = (Some None, en2, e1) /\ start c (files (wal en2)) sd e1 = Some (en3, tick e1) /\
    sessions (store en3) !! ID a = Some (wire (IncrVersion a)).
Proof.
  destruct (restart_follows_log i T en log [Logs (UpdateOp a); Logs (UpdateOp b); Applies (UpdateOp b); Applies (UpdateOp a)] e
    [None; None; rb; ra] en1 e1) as (Hlive & Hans & en2 & en3 & Ec & E3 & Hback); try done.
  { repeat apply Forall_cons_2; try done; apply Forall_nil_2. }
  cbn [applied logged omap list_omap foldl answers] in Hlive, Hback, Hans; revert Hlive Hback Hans; unfold effect, after.
  assert (forall x y, ID y = ID x -> Session.Validate x = None -> Version cur = u64 (Version y - 1) -> Version cur = u64 (Version x - 1) ->
    forall s, sessions s !! ID x = Some (IncrVersion y) -> store_op (UpdateOp x) s no_env = (Some ErrSessionVersionConflict, s, no_env)) as Hconf.
  { intros x y Hxy Hv Hy Hx s Hl; apply (update_conflicts s (IncrVersion y)); [done|done|].
    rewrite <- Hx, Hy; apply two_apart. }
  assert (sessions (store en) !! ID b = Some cur) as Hcurb by congruence.
  rewrite (update_runs _ cur b Hvb Hcurb Hrb Htb), (update_runs _ cur a Hva Hcur Hra Hta); cbn [fst snd].
  rewrite (Hconf a b Hid Hva Hrb Hra) by (cbn; rewrite Hid; apply lookup_insert_eq).
  rewrite (Hconf b a (eq_sym Hid) Hvb Hra Hrb) by (cbn; rewrite Hid; apply lookup_insert_eq); cbn [fst snd]; intros Hlive Hback (-> & -> & _).
  split_ands; try done; [by rewrite Hlive; cbn; rewrite Hid, lookup_insert_eq|].
  exists en2, en3; split_ands; try done; rewrite Hback, wire_lookup; cbn [sessions]; by rewrite lookup_insert_eq.
Qed.

(** ** A creation that was refused *)
Section Refused.
Context (x : Session) (now : Z).
(** Nothing in the store or the log uses what [x] needs, but for sessions that have expired. *)
Definition free (s : Store) : Prop :=
  sessions s !! ID x = None /\ userIndex s !! UserID x = None /\ tokens s !! TokenHash x = None.
Definition unrelated (y : Entry) : Prop :=
  match ESession y with
  | Some z => TokenHash z <> TokenHash x /\
              (OpType y = OpTypeCreate -> ID z = ID x \/ UserID z = UserID x -> ExpiresAt z < now)
  | None => True
  end.
Lemma update_free v z s : free s -> TokenHash z <> TokenHash x -> free (after (MemoryStore.Update z v) s).
Proof.
  intros (Hi & Hu & Ht) Hz; unfold after, MemoryStore.Update; destruct (Session.Validate z); [done|].
  unfold bind, get_st, upd_st, ret; destruct (sessions s !! ID z) eqn:E; [|done].
  assert (ID z <> ID x) by congruence; destruct (negb _); [done|].
  assert (forall toks : gmap string string, toks !! TokenHash x = None -> (if String.eqb (TokenHash s0) "" then toks else delete (TokenHash s0) toks) !! TokenHash x = None) as Hd.
  { intros toks Hn; case_match; [done|]; by apply lookup_delete_None; right. }
  repeat case_match; unfold free; cbn; rewrite ?lookup_insert_ne by done; split_ands; try done; by apply Hd.
Qed.
Lemma delete_free id s : free s -> free (after (MemoryStore.Delete id) s).
Proof.
  intros (Hi & Hu & Ht); unfold after, MemoryStore.Delete, bind, get_st, upd_st, ret; destruct (sessions s !! id) as [z|]; [|done].
  unfold free, drop_session; cbn; split_ands; [by apply lookup_delete_None; right| |case_match; [done|by apply lookup_delete_None; right]].
  unfold UserIndex.Remove; destruct (decide (UserID z = UserID x)) as [->|Hne]; [by rewrite Hu|].
  destruct (userIndex s !! UserID z); [|done]; case_decide; rewrite ?lookup_delete_ne, lookup_insert_ne by done; done.
Qed.
Lemma create_free z s : free s -> TokenHash z <> TokenHash x -> ID z <> ID x -> UserID z <> UserID x -> free (after (MemoryStore.Create z) s).
Proof.
  intros (Hi & Hu & Ht) Hz Hid Hus; unfold after, MemoryStore.Create; destruct (Session.Validate z); [done|].
  unfold bind, get_st, upd_st, ret; destruct (_ <=? _); [done|]; case_decide; [done|]; destruct (negb _ && _); [done|].
  unfold free, put_session, UserIndex.Add; cbn; rewrite !lookup_insert_ne by done; split_ands; try done.
  case_match; [done|by rewrite lookup_insert_ne].
Qed.
Lemma replay_free y s : free s -> entry_good y -> unrelated y -> free (replay_step now s y).
Proof.
  intros Hf Hg Hu; unfold replay_step; destruct (skipped_entry now y) eqn:Hsk; [done|].
  destruct y as [op ts sid ver [z|]]; unfold unrelated, entry_good in *; cbn [ESession OpType] in *; [destruct Hu as [Ht Hc], Hg as [->| ->]|subst op].
  - rewrite (step_create ts z s : step s (MkEntry OpTypeCreate ts sid ver (Some z)) = _).
    unfold skipped_entry in Hsk; cbn in Hsk; apply Z.ltb_ge in Hsk.
    apply create_free; [done|done| |]; intros He; assert (ExpiresAt z < now) by (apply Hc; [done|tauto]); lia.
  - rewrite (step_update ts z s : step s (MkEntry OpTypeUpdate ts sid ver (Some z)) = _); by apply update_free.
  - rewrite (step_delete ts sid s : step s (MkEntry OpTypeDelete ts sid ver None) = _); by apply delete_free.
Qed.
Lemma replay_frees l s : free s -> Forall entry_good l -> Forall unrelated l -> free (foldl (replay_step now) s l).
Proof.
  intros Hf Hg; revert s Hf; induction Hg as [|y l Hy Hg IH]; intros s Hf Hu; [done|]; apply Forall_cons in Hu as [Hu1 Hu].
  cbn [foldl]; apply IH; [by apply replay_free|done].
Qed.
End Refused.

Lemma write_wal_fails new en e err en' e' : write_wal new en e = (Some err, en', e') -> exists cause, err = WrapError "write wal" cause.
Proof.
  unfold write_wal, bind, ret; destruct (in_wal new en e) as [[x en1] e1]; destruct (in_wal (Append x) en1 e1) as [[[r|] en2] e2]; cbn;
    [intros [= <- <- <-]; by eexists|done].
Qed.
Lemma capacity_pos : 0 < capacity c.
Proof. unfold capacity, DefaultMaxSessionsPerUser; destruct (Z.ltb_spec 0 (MaxPerUser c)); lia. Qed.
Lemma quota_unchanged x s : fst (fst (store_op (CreateOp x) s no_env)) = Some ErrSessionQuotaExceeded -> effect s (CreateOp x) = s.
Proof.
  unfold effect, after, store_op, MemoryStore.Create; destruct (Session.Validate x); [done|].
  unfold bind, get_st, ret, upd_st; case_match; [done|]; case_decide; [done|]; case_match; [done|discriminate].
Qed.
(** Nothing changes how many sessions a user may have. *)
Lemma effect_keeps_max s o : maxSessionsPerUser (effect s o) = maxSessionsPerUser s.
Proof.
  unfold effect, after, store_op; destruct o; unfold MemoryStore.Create, MemoryStore.Update, MemoryStore.Delete, bind, get_st, ret, upd_st;
    repeat case_match; simplify_eq/=; done.
Qed.
Lemma step_keeps_max s y : entry_good y -> maxSessionsPerUser (step s y) = maxSessionsPerUser s.
Proof.
  destruct y as [op ts sid ver [z|]]; unfold entry_good; cbn [ESession OpType]; [intros [->| ->]|intros ->].
  - rewrite (step_create ts z s : step s (MkEntry OpTypeCreate ts sid ver (Some z)) = _); apply (effect_keeps_max s (CreateOp z)).
  - rewrite (step_update ts z s : step s (MkEntry OpTypeUpdate ts sid ver (Some z)) = _).
    rewrite <- (effect_keeps_max s (UpdateOp z)), <- (effect_step _ 0); cbn [entry_of]; by rewrite step_update.
  - rewrite (step_delete ts sid s : step s (MkEntry OpTypeDelete ts sid ver None) = _); apply (effect_keeps_max s (DeleteOp sid)).
Qed.
Lemma replay_keeps_max t l s : Forall entry_good l -> maxSessionsPerUser (foldl (replay_step t) s l) = maxSessionsPerUser s.
Proof.
  intros Hg; revert s; induction Hg as [|y l Hy _ IH]; intros s; [done|]; cbn [foldl]; rewrite IH; unfold replay_step; case_match; [done|by apply step_keeps_max].
Qed.
(** A creation is refused because its user has too many sessions, and changes nothing; but it is
    in the log.  If the server is restarted when those sessions have expired, and the new one
    would not have, the restart creates it. *)
Theorem refused_creation_returns (i : Z) (en : Engine) (log : list Entry) (x : Session) (e e2 : env) en1 e1
  (Ht : tracks cipher (capacity c) i 4 en log) (Hs : stopped en = false) (He : rnd_ok e)
  (Hok : eop_ok cipher e (CreateOp x)) (Hval : Session.Validate x = None)
  (Hrun : Engine.Create x en e = (Some ErrSessionQuotaExceeded, en1, e1))
  (Hold : Forall (unrelated x (unix_milli (clk e2 0%nat))) log) (Hx : unix_milli (clk e2 0%nat) <= ExpiresAt x) :
  store en1 = store en /\
  exists en2 en3, Close en1 e1 = (Some None, en2, e1) /\ start c (files (wal en2)) sd e2 = Some (en3, tick e2) /\
    sessions (store en3) !! ID x = Some (wire x).
Proof.
  unfold Engine.Create in Hrun; destruct (write_wal (NewCreateEntry x) en e) as [[err enA] eA] eqn:Ew; erewrite bind_run in Hrun by exact Ew.
  destruct err as [err|]; [apply write_wal_fails in Ew as [cause ->]; discriminate Hrun|].
  destruct (log_part_run cipher Hcipher (CreateOp x) i 3 en log e None enA eA) as (_ & _ & HstA & _ & HsA & new & Hl & now & ->); try done;
    [by eapply tracks_logs|].
  destruct (apply_part_run (CreateOp x) enA eA _ en1 e1 Hrun) as (-> & H2 & _ & Hs1 & H1 & Hr).
  rewrite (quota_unchanged x (store enA) (eq_sym Hr)) in H1.
  assert (logs cipher i 3 en1 (log ++ [entry_of (CreateOp x) now])%list) as Hl1 by (destruct Hl as (es & pend & Hl); exists es, pend; by rewrite H2).
  destruct (close_then_start i en1 _ eA e2 Hl1) as (en2 & en3 & Ec & E3 & Hst3); [congruence|].
  split; [congruence|]; exists en2, en3; split_ands; try done; rewrite Hst3, map_app, foldl_app; cbn [map foldl].
  set (t := unix_milli (clk e2 0%nat)) in *.
  assert (Forall entry_good (map wire_entry log)) as Hg.
  { destruct Ht as (_ & _ & _ & _ & _ & Hg & _); apply Forall_map; eapply Forall_impl; [exact Hg|]; intros y; by destruct y as [? ? ? ? [?|]]. }
  assert (free x (foldl (replay_step t) (MemoryStore.New (capacity c)) (map wire_entry log))) as (Hf1 & Hf2 & Hf3).
  { apply replay_frees; [unfold free, MemoryStore.New; cbn; by rewrite !lookup_empty|done|].
    apply Forall_map; eapply Forall_impl; [exact Hold|]; intros y; by destruct y as [? ? ? ? [?|]]. }
  unfold replay_step at 1; replace (skipped_entry t (wire_entry (entry_of (CreateOp x) now))) with false
    by (symmetry; unfold skipped_entry; cbn; apply Z.ltb_ge; done).
  change (wire_entry (entry_of (CreateOp x) now)) with (create_entry now (wire x)); rewrite step_create.
  clear Hst3; set (s := foldl _ _ (map wire_entry log)) in *; assert (maxSessionsPerUser s = capacity c) as Hmax.
  { unfold s; by rewrite replay_keeps_max. }
  unfold after, MemoryStore.Create; rewrite wire_Validate, Hval; unfold bind, get_st, ret, upd_st; rewrite Hmax.
  change (UserID (wire x)) with (UserID x); change (ID (wire x)) with (ID x); change (TokenHash (wire x)) with (TokenHash x).
  unfold UserIndex.Count; rewrite Hf2, Hf1, Hf3; rewrite (proj2 (Z.leb_gt _ _)) by apply capacity_pos.
  rewrite decide_False by (by intros [? ?]); rewrite bool_decide_false, andb_false_r by (by intros [? ?]); cbn [fst snd put_session sessions].
  change (ID (wire x)) with (ID x); by rewrite lookup_insert_eq, Session.Clone_id.
Qed.
End Restart.

(** ** Witnesses *)
Definition demo_race_env : env := demo_engine_env.
Definition demo_a : Session := demo_user_session "tmss-1" "h1" 2 20000.
Definition demo_b : Session := demo_user_session "tmss-1" "h1" 2 30000.
Definition demo_race (l : list part) := run_parts l demo_running demo_race_env.

(** A deletion that overtakes an update. *)
Definition demo_overtaken : list part :=
  [Logs (UpdateOp demo_a); Logs (DeleteOp "tmss-1"); Applies (DeleteOp "tmss-1"); Applies (UpdateOp demo_a)].
Lemma restart_follows_log_witness :
  let '(rs, en1, e1) := demo_race demo_overtaken in
  rs = [None; None; None; Some ErrSessionNotFound] /\
  store en1 = foldl effect (store demo_running) (applied demo_overtaken) /\ answers (store demo_running) demo_overtaken rs /\
  exists en2 en3, Close en1 e1 = (Some None, en2, e1) /\ start demo_engine_cfg (files (wal en2)) ∅ e1 = Some (en3, tick e1) /\
    store en3 = wire_store (foldl effect (store demo_running) (logged demo_overtaken rs)).
Proof.
  assert (Forall (fun p => match p with Logs o => eop_ok None demo_race_env o /\ op_outlives 9000 o | Applies _ => True end) demo_overtaken) as Hops.
  { unfold demo_overtaken; apply Forall_cons_2; [split; [demo_loggable|exact I]|]; apply Forall_cons_2; [split; [demo_loggable|exact I]|].
    apply Forall_cons_2; [exact I|]; apply Forall_cons_2; [exact I|]; apply Forall_nil_2. }
  destruct (demo_race demo_overtaken) as [[rs en1] e1] eqn:E.
  assert (rs = [None; None; None; Some ErrSessionNotFound]) as Hrs.
  { transitivity (fst (fst (demo_race demo_overtaken))); [rewrite E; reflexivity|vm_compute; reflexivity]. }
  split; [exact Hrs|].
  apply (restart_follows_log None I demo_engine_cfg ∅ demo_cfg_ok demo_no_snaps 1 9000 demo_running (map wire_entry demo_old)
    demo_overtaken demo_race_env rs en1 e1 (proj2 (demo_running_tracks 7 ltac:(lia))) (proj1 (demo_running_tracks 7 ltac:(lia)))
    demo_engine_rnd).
  - exact Hops.
  - repeat constructor; vm_compute; discriminate.
  - apply demo_clock.
  - exact E.
Defined.

Definition demo_updates : list part := [Logs (UpdateOp demo_a); Logs (UpdateOp demo_b); Applies (UpdateOp demo_b); Applies (UpdateOp demo_a)].
Lemma concurrent_update_lost_witness :
  let '(rs, en1, e1) := demo_race demo_updates in
  sessions (store en1) !! "tmss-1" = Some (IncrVersion demo_b) /\
  exists en2 en3, Close en1 e1 = (Some None, en2, e1) /\ start demo_engine_cfg (files (wal en2)) ∅ e1 = Some (en3, tick e1) /\
    sessions (store en3) !! "tmss-1" = Some (wire (IncrVersion demo_a)).
Proof.
  assert (eop_ok None demo_race_env (UpdateOp demo_a)) as Ha by demo_loggable.
  assert (eop_ok None demo_race_env (UpdateOp demo_b)) as Hb by demo_loggable.
  destruct (demo_race demo_updates) as [[rs en1] e1] eqn:E.
  assert (rs = [None; None; None; Some ErrSessionVersionConflict]) as ->.
  { transitivity (fst (fst (demo_race demo_updates))); [rewrite E; reflexivity|vm_compute; reflexivity]. }
  apply (concurrent_update_lost None I demo_engine_cfg ∅ demo_cfg_ok demo_no_snaps 1 9000 demo_running (map wire_entry demo_old)
    demo_first demo_a demo_b demo_race_env None (Some ErrSessionVersionConflict) en1 e1
    (proj2 (demo_running_tracks 7 ltac:(lia))) (proj1 (demo_running_tracks 7 ltac:(lia))) demo_engine_rnd).
  - exact Ha.
  - exact Hb.
  - repeat constructor; vm_compute; discriminate.
  - apply demo_clock.
  - vm_compute; reflexivity.
  - reflexivity.
  - vm_compute; reflexivity.
  - vm_compute; reflexivity.
  - vm_compute; reflexivity.
  - vm_compute; reflexivity.
  - reflexivity.
  - reflexivity.
  - exact E.
Defined.

(** One session per user, and a clock at ten seconds. *)
Definition demo_one_cfg : EngineConfig :=
  MkEngineConfig "data" (MkConfig "wal" 1 0 0 0 None) (MkSnapConfig "snap" 0 0 None "") 1 DefaultSnapshotInterval None "n1".
Definition demo_full : Engine := engine_or demo_engine (start demo_one_cfg demo_old_dir ∅ demo_engine_env).
Definition demo_extra : Session := demo_user_session "tmss-2" "h2" 1 20000.
Definition demo_refused := Engine.Create demo_extra demo_full demo_engine_env.
Definition demo_later_env : env := Env (fun _ => 10000000000) (fun _ _ => Err EOF) (fun _ => Err EOF).
Lemma demo_one_cfg_ok : config_ok None demo_one_cfg.
Proof. by vm_compute; split_ands. Qed.
Lemma demo_full_tracks :
  stopped demo_full = false /\ tracks None (capacity demo_one_cfg) 1 4 demo_full (map wire_entry demo_old).
Proof.
  destruct (demo_old_tracks demo_one_cfg 4 demo_one_cfg_ok ltac:(lia)) as (en & E & Hs & Ht).
  assert (demo_full = en) as ->; [unfold demo_full; rewrite E; reflexivity|exact (conj Hs Ht)].
Qed.
Lemma refused_creation_returns_witness :
  let '(r, en1, e1) := demo_refused in
  r = Some ErrSessionQuotaExceeded /\ store en1 = store demo_full /\
  exists en2 en3, Close en1 e1 = (Some None, en2, e1) /\ start demo_one_cfg (files (wal en2)) ∅ demo_later_env = Some (en3, tick demo_later_env) /\
    sessions (store en3) !! "tmss-2" = Some (wire demo_extra).
Proof.
  assert (eop_ok None demo_engine_env (CreateOp demo_extra)) as Hok by demo_loggable.
  destruct demo_refused as [[r en1] e1] eqn:E.
  assert (r = Some ErrSessionQuotaExceeded) as Hr.
  { transitivity (fst (fst (demo_refused))); [rewrite E; reflexivity|vm_compute; reflexivity]. }
  split; [exact Hr|]; rewrite Hr in E.
  apply (refused_creation_returns None I demo_one_cfg ∅ demo_one_cfg_ok demo_no_snaps 1 demo_full (map wire_entry demo_old)
    demo_extra demo_engine_env demo_later_env en1 e1 (proj2 demo_full_tracks) (proj1 demo_full_tracks) demo_engine_rnd).
  - exact Hok.
  - vm_compute; reflexivity.
  - exact E.
  - apply Forall_cons_2; [|apply Forall_nil_2]; split; [vm_compute; discriminate|intros _ _; vm_compute; reflexivity].
  - vm_compute; discriminate.
Defined.
