(* ===== verification/Float64.v ===== *)
(** IEEE 754 double precision, as Go's [float64]: the Standard Library's
    specification of binary floating point at 53 bits of precision, rounding to
    nearest even; no product is fused with a sum. *)

From Stdlib Require Import ZArith SpecFloat Lia.
From stdpp Require Import base.
From S2P Require Import Prelude.

Open Scope Z_scope.

Abbreviation float64 := spec_float.
Definition f64_prec : Z := 53.
Definition f64_emax : Z := 1024.
(** [float64(z)]. *)
Definition f64_of_Z (z : Z) : float64 := binary_normalize f64_prec f64_emax z 0 false.
Definition f64_add : float64 -> float64 -> float64 := SFadd f64_prec f64_emax.
Definition f64_sub : float64 -> float64 -> float64 := SFsub f64_prec f64_emax.
Definition f64_mul : float64 -> float64 -> float64 := SFmul f64_prec f64_emax.
Definition f64_div : float64 -> float64 -> float64 := SFdiv f64_prec f64_emax.
Definition f64_lt : float64 -> float64 -> bool := SFltb.
Definition f64_le : float64 -> float64 -> bool := SFleb.

(** [int64(x)] for a value within range: truncation toward zero.  Outside the
    result is unspecified by the language; here the minimum, as amd64 gives. *)
Definition f64_to_i64 (x : float64) : Z :=
  match x with
  | S754_zero _ => 0
  | S754_finite neg m e =>
      let n := Z.shiftl (Zpos m) e in
      let z := if neg then - n else n in
      if (- 2 ^ 63 <=? z) && (z <? 2 ^ 63) then z else - 2 ^ 63
  | _ => - 2 ^ 63
  end.

(** [time.Duration.Seconds]. *)
Definition Seconds (d : Z) : float64 :=
  f64_add (f64_of_Z (Z.quot d 1000000000)) (f64_div (f64_of_Z (Z.rem d 1000000000)) (f64_of_Z 1000000000)).
(** [time.Time.Sub]: the difference in nanoseconds, saturated. *)
Definition time_sub (t u : Z) : Z := Z.max (- 2 ^ 63) (Z.min (2 ^ 63 - 1) (t - u)).

Example seconds_trunc : f64_to_i64 (Seconds 1999999999) = 1 /\ f64_to_i64 (Seconds (-1500000000)) = -1.
Proof. vm_compute; auto. Qed.
(** Beyond 2^24 seconds the nanoseconds no longer fit: the sum rounds up. *)
Example seconds_round_up : f64_to_i64 (Seconds (20000000 * 1000000000 + 999999999)) = 20000001.
Proof. vm_compute; auto. Qed.
