(* ===== verification/GoTime.v ===== *)
(** Formatting of times: [time.UnixMilli(ms).Format(time.RFC3339)].

    The offset of the local time zone is the environment's: a function from
    Unix seconds to seconds east of UTC. *)

From Stdlib Require Import ZArith Ascii String.
From stdpp Require Import base strings.
From S2P Require Import Prelude Strconv.

Open Scope string_scope.
Open Scope Z_scope.

Class TimeZone := zone_offset : Z -> Z.

(** Year, month and day of a day counted from 1970-01-01: an era is 400
    years, a year starts in March. *)
Definition civil_of_days (days : Z) : Z * Z * Z :=
  let z := days + 719468 in
  let era := z / 146097 in
  let doe := z mod 146097 in
  let yoe := (doe - doe / 1460 + doe / 36524 - doe / 146096) / 365 in
  let doy := doe - (365 * yoe + yoe / 4 - yoe / 100) in
  let mp := (5 * doy + 2) / 153 in
  let d := doy - (153 * mp + 2) / 5 + 1 in
  let m := if mp <? 10 then mp + 3 else mp - 9 in
  ((yoe + era * 400) + (if m <=? 2 then 1 else 0), m, d).

Definition pad2 (n : Z) : string := if n <? 10 then "0" +:+ FormatUint n else FormatUint n.
Definition pad4 (n : Z) : string :=
  (if n <? 10 then "000" else if n <? 100 then "00" else if n <? 1000 then "0" else "") +:+ FormatUint n.
Definition year_text (y : Z) : string := if y <? 0 then "-" +:+ pad4 (- y) else pad4 y.
Definition zone_text (offset : Z) : string :=
  if offset =? 0 then "Z"
  else
    let minutes := Z.quot offset 60 in
    (if minutes <? 0 then "-" else "+") +:+ pad2 (Z.abs minutes / 60) +:+ ":" +:+ pad2 (Z.abs minutes mod 60).

(** The date and the time of day, a fraction after the seconds, and the zone. *)
Definition layout `{TimeZone} (fraction : string) (ms : Z) : string :=
  let sec := ms / 1000 in
  let local := sec + zone_offset sec in
  let '(y, m, d) := civil_of_days (local / 86400) in
  let s := local mod 86400 in
  year_text y +:+ "-" +:+ pad2 m +:+ "-" +:+ pad2 d +:+ "T" +:+
  pad2 (s / 3600) +:+ ":" +:+ pad2 (s / 60 mod 60) +:+ ":" +:+ pad2 (s mod 60) +:+ fraction +:+
  zone_text (zone_offset sec).
Definition RFC3339 `{TimeZone} (ms : Z) : string := layout "" ms.

(** A [time.Time] in JSON: the fraction without its trailing zeros; a year or a zone
    that the format has no room for is an error. *)
Definition fraction_text (ms : Z) : string :=
  let f := ms mod 1000 in
  if f =? 0 then ""
  else if f mod 100 =? 0 then "." +:+ FormatUint (f / 100)
  else if f mod 10 =? 0 then "." +:+ pad2 (f / 10)
  else "." +:+ (if f <? 100 then "0" else "") +:+ pad2 f.
Definition RFC3339Nano `{TimeZone} (ms : Z) : option string :=
  let sec := ms / 1000 in
  let '(y, _, _) := civil_of_days ((sec + zone_offset sec) / 86400) in
  if (0 <=? y) && (y <=? 9999) && (Z.abs (zone_offset sec) <? 86400) then Some (layout (fraction_text ms) ms) else None.

Example rfc3339_utc : @RFC3339 (fun _ => 0) 1767225599999 = "2025-12-31T23:59:59Z".
Proof. reflexivity. Qed.
Example rfc3339_zone : @RFC3339 (fun _ => -12600) 951782400000 = "2000-02-28T20:30:00-03:30".
Proof. reflexivity. Qed.
Example rfc3339_nano : @RFC3339Nano (fun _ => 3600) 1767225599120 = Some "2026-01-01T00:59:59.12+01:00".
Proof. reflexivity. Qed.
Example rfc3339_nano_year : @RFC3339Nano (fun _ => 0) 9223372036854775807 = None.
Proof. reflexivity. Qed.
