(* ===== verification/Glob.v ===== *)
(** The patterns of [SCAN]: [matchGlob] of [internal/server/redisserver/command.go],
    and the language of its patterns. *)

From Stdlib Require Import Ascii String.
From stdpp Require Import list strings.
From S2P Require Import Prelude GoStrings.

Open Scope string_scope.

(** The middle parts must appear in order; what is left after the last. *)
Fixpoint match_middle (parts : list string) (s : string) : option string :=
  match parts with
  | [] => Some s
  | part :: parts =>
      if String.eqb part "" then match_middle parts s
      else match Index s part with
           | None => None
           | Some idx => match_middle parts (from (idx + String.length part) s)
           end
  end.

Definition matchGlob (pattern s : string) : bool :=
  let n := String.length pattern in
  if String.eqb pattern "*" then true
  else if String.eqb pattern "" then String.eqb s ""
  else if negb (Contains pattern "*") then String.eqb pattern s
  else if HasSuffix pattern "*" && negb (Contains (upto (n - 1) pattern) "*")
  then HasPrefix s (upto (n - 1) pattern)
  else if HasPrefix pattern "*" && negb (Contains (from 1 pattern) "*")
  then HasSuffix s (from 1 pattern)
  else
    match Split pattern "*" with
    | [] => true
    | first :: rest =>
        if negb (String.eqb first "") && negb (HasPrefix s first) then false
        else
          match match_middle (removelast rest) (from (String.length first) s) with
          | None => false
          | Some s =>
              if (0 <? length rest)%nat && negb (String.eqb (List.last rest "") "")
              then HasSuffix s (List.last rest "") else true
          end
    end.

Example glob_prefix : matchGlob "tmss-*" "tmss-abc" = true. Proof. reflexivity. Qed.
Example glob_middle : matchGlob "tmss-*-device*" "tmss-a-device" = true. Proof. reflexivity. Qed.
Example glob_overlap : matchGlob "*ab*ba" "xaba" = false. Proof. reflexivity. Qed.

(** ** The language of a pattern: a star stands for any text, every other
    character for itself. *)
Inductive glob : string -> string -> Prop :=
| glob_end : glob "" ""
| glob_char a p s : a <> "*"%char -> glob p s -> glob (String a p) (String a s)
| glob_none p s : glob p s -> glob (String "*" p) s
| glob_more a p s : glob (String "*" p) s -> glob (String "*" p) (String a s).

(** ** Positions *)
Lemma from_from a b s : from (a + b) s = from b (from a s).
Proof. revert s; induction a as [|a IH]; intros [|c s]; cbn; auto. by destruct b. Qed.

Lemma Index_Some s p i : Index s p = Some i ->
  s = upto i s +:+ p +:+ from (i + String.length p) s /\
  forall w r, s = w +:+ p +:+ r -> (i <= String.length w)%nat.
Proof.
  revert i; induction s as [|a s IH]; intros i; cbn [Index].
  - destruct (HasPrefix "" p) eqn:E; [|discriminate]; intros [= <-].
    apply prefix_split in E as [t E]; destruct p; [|discriminate]; split; [done|intros; lia].
  - destruct (HasPrefix (String a s) p) eqn:E.
    + intros [= <-]; apply prefix_split in E as [t E]; split; [|intros; lia].
      change (String a s = p +:+ from (String.length p) (String a s)); rewrite E at 2; by rewrite from_app.
    + destruct (Index s p) as [j|]; [|discriminate]; intros [= <-]; destruct (IH j eq_refl) as [H1 H2]; split.
      * change (String a s = String a (upto j s +:+ p +:+ from (j + String.length p) s)); by rewrite <- H1.
      * intros [|b w] r Hs.
        -- assert (HasPrefix (String a s) p = true) as Ht by (apply prefix_split; by exists r); congruence.
        -- injection Hs as -> Hs; apply H2 in Hs; cbn; lia.
Qed.
Lemma Index_None s p : Index s p = None -> forall w r, s <> w +:+ p +:+ r.
Proof.
  induction s as [|a s IH]; cbn [Index]; destruct (HasPrefix _ p) eqn:E; try discriminate; intros Hi w r Hs;
    (assert (w <> "") by (intros ->; assert (HasPrefix (p +:+ r) p = true) as Ht by (apply prefix_split; by exists r);
      change ("" +:+ p +:+ r) with (p +:+ r) in Hs; congruence)); destruct w as [|b w]; try done.
  destruct (Index s p) eqn:Ei; [discriminate|]. injection Hs as -> Hs; by apply (IH eq_refl w r).
Qed.

Lemma HasSuffix_split s p : HasSuffix s p = true <-> exists w, s = w +:+ p.
Proof.
  unfold HasSuffix, slen; split.
  - intros [Hl H]%andb_true_iff; apply String.eqb_eq in H; exists (upto (String.length s - String.length p) s).
    rewrite <- H at 2; by rewrite upto_from.
  - intros [w ->]; rewrite length_app_str; replace (_ + _ - _)%nat with (String.length w) by lia.
    rewrite from_app, String.eqb_refl, andb_true_r; apply Z.leb_le; lia.
Qed.

(** ** The parts of a pattern *)
Fixpoint parts_match (ps : list string) (s : string) : Prop :=
  match ps with
  | [] => False
  | [p] => s = p
  | p :: ps => exists w r, s = p +:+ w +:+ r /\ parts_match ps r
  end.
Lemma parts_match_cons p ps s : ps <> [] ->
  parts_match (p :: ps) s <-> exists w r, s = p +:+ w +:+ r /\ parts_match ps r.
Proof. by destruct ps. Qed.
Lemma Split_nonempty p c : Split p c <> [].
Proof. destruct p as [|a p]; cbn; [done|]; destruct (Ascii.eqb a c); [done|]; by destruct (Split p c). Qed.

Lemma glob_star p s : glob (String "*" p) s <-> exists w r, s = w +:+ r /\ glob p r.
Proof.
  split.
  - remember (String "*" p) as q eqn:E; intros H; revert E; induction H; intros [=]; subst; try done.
    + by exists "", s.
    + destruct (IHglob eq_refl) as (w & r & -> & Hr); by exists (String a w), r.
  - intros (w & r & -> & H); induction w as [|a w IH]; [by apply glob_none|by apply glob_more].
Qed.
Lemma glob_letter a p s : a <> "*"%char -> glob (String a p) s <-> exists s', s = String a s' /\ glob p s'.
Proof.
  intros Ha; split; [|intros (s' & -> & H); by apply glob_char].
  intros H; inversion H; subst; try done; by eexists.
Qed.

Lemma glob_parts p s : glob p s <-> parts_match (Split p "*") s.
Proof.
  revert s; induction p as [|a p IH]; intros s; cbn [Split].
  - split; [by inversion 1|intros ->; constructor].
  - destruct (Ascii.eqb_spec a "*") as [->|Ha].
    + rewrite parts_match_cons, glob_star by apply Split_nonempty.
      split; intros (w & r & -> & H); exists w, r; (split; [done|by apply IH]).
    + rewrite glob_letter by done; setoid_rewrite IH.
      pose proof (Split_nonempty p "*"); destruct (Split p "*") as [|q qs]; [done|].
      destruct qs as [|q' qs]; [split; [by intros (s' & -> & ->)|intros ->; by eexists]|].
      split.
      * intros (s' & -> & H'); rewrite parts_match_cons in H' by done; destruct H' as (w & r & -> & H').
        rewrite parts_match_cons by done; by exists w, r.
      * intros H'; rewrite parts_match_cons in H' by done; destruct H' as (w & r & -> & H').
        exists (q +:+ w +:+ r); split; [done|]; rewrite parts_match_cons by done; by exists w, r.
Qed.

(** A match that may start anywhere. *)
Definition floats (ps : list string) (s : string) : Prop := exists w r, s = w +:+ r /\ parts_match ps r.

Lemma floats_last p s : floats [p] s <-> HasSuffix s p = true.
Proof. rewrite HasSuffix_split; split; [intros (w & r & -> & ->); by exists w|intros [w ->]; by exists w, p]. Qed.

(** The leftmost occurrence of a part is as good as any. *)
Lemma floats_cons p ps s : ps <> [] -> floats (p :: ps) s <->
  exists i, Index s p = Some i /\ floats ps (from (i + String.length p) s).
Proof.
  intros Hps; unfold floats; setoid_rewrite (parts_match_cons p ps _ Hps); split.
  - intros (w & r & Hs & w' & r' & -> & H).
    destruct (Index s p) as [i|] eqn:Ei; [|by apply (Index_None s p Ei w (w' +:+ r')) in Hs].
    destruct (Index_Some s p i Ei) as [_ Hmin]; specialize (Hmin w (w' +:+ r') Hs); exists i; split; [done|].
    set (t := from (i + String.length p) s); set (d := (String.length w - i)%nat).
    assert (from d t = w' +:+ r') as Ht.
    { unfold t; rewrite <- from_from; replace (i + String.length p + d)%nat with (String.length w + String.length p)%nat
        by (unfold d; lia). by rewrite Hs, from_from, !from_app. }
    exists (upto d t +:+ w'), r'; split; [|done]; by rewrite app_assoc_str, <- Ht, upto_from.
  - intros (i & Ei & w & r & Ht & H); destruct (Index_Some s p i Ei) as [Hs _].
    exists (upto i s), (p +:+ w +:+ r); split; [|by exists w, r]. rewrite <- Ht; exact Hs.
Qed.

Lemma Index_empty s : Index s "" = Some O.
Proof. by destruct s. Qed.

Lemma match_middle_floats mid l s :
  floats (mid ++ [l])%list s <-> exists s', match_middle mid s = Some s' /\ HasSuffix s' l = true.
Proof.
  revert s; induction mid as [|p mid IH]; intros s; cbn [app match_middle].
  - rewrite floats_last; split; [by exists s|by intros (s' & [= <-] & H)].
  - rewrite floats_cons by (by destruct mid); destruct (String.eqb_spec p "") as [->|Hp].
    + rewrite <- IH; setoid_rewrite Index_empty; split; [by intros (i & [= <-] & H)|by exists 0%nat].
    + destruct (Index s p) as [i|]; [|split; [by intros (? & ? & _)|by intros (? & ? & _)]].
      rewrite <- IH; split; [by intros (? & [= <-] & H)|intros H; by exists i].
Qed.

(** ** The shortcuts *)
Lemma Contains_star a p : Contains (String a p) "*" = Ascii.eqb a "*" || Contains p "*".
Proof.
  unfold Contains; cbn [Index]; unfold HasPrefix; cbn [String.prefix].
  destruct (ascii_dec "*" a) as [<-|Hn]; [by destruct p|].
  destruct (Ascii.eqb_spec a "*") as [->|_]; [done|]; by destruct (Index p "*").
Qed.
Lemma Split_prefix q p : Contains q "*" = false ->
  Split (q +:+ p) "*" = match Split p "*" with x :: xs => (q +:+ x) :: xs | [] => [] end.
Proof.
  induction q as [|a q IH]; [intros _; change ("" +:+ p) with p; by destruct (Split p "*")|].
  rewrite Contains_star; intros [Ha Hq]%orb_false_iff.
  change (String a q +:+ p) with (String a (q +:+ p)); cbn [Split]; rewrite Ha, IH by done.
  pose proof (Split_nonempty p "*"); by destruct (Split p "*").
Qed.
Lemma Split_plain q : Contains q "*" = false -> Split q "*" = [q].
Proof. intros H; rewrite <- (app_nil_str q) at 1; rewrite Split_prefix by done; cbn; by rewrite app_nil_str. Qed.

Lemma general_parts first rest s : rest <> [] ->
  (if negb (String.eqb first "") && negb (HasPrefix s first) then false
   else match match_middle (removelast rest) (from (String.length first) s) with
        | None => false
        | Some s => if (0 <? length rest)%nat && negb (String.eqb (List.last rest "") "")
                    then HasSuffix s (List.last rest "") else true
        end) = true <-> parts_match (first :: rest) s.
Proof.
  intros Hr; rewrite parts_match_cons by done.
  rewrite (proj2 (Nat.ltb_lt _ _)) by (destruct rest; cbn; [done|lia]); cbn [andb].
  assert (forall s', (if negb (String.eqb (List.last rest "") "") then HasSuffix s' (List.last rest "") else true) =
    HasSuffix s' (List.last rest "")) as Hlast.
  { intros s'; destruct (String.eqb_spec (List.last rest "") "") as [->|]; [|done]; symmetry; cbn [negb].
    apply HasSuffix_split; exists s'; by rewrite app_nil_str. }
  assert (negb (String.eqb first "") && negb (HasPrefix s first) = negb (HasPrefix s first)) as ->
    by (destruct (String.eqb_spec first "") as [->|]; [by destruct s|done]).
  pose proof (match_middle_floats (removelast rest) (List.last rest "") (from (String.length first) s)) as Hm.
  rewrite <- app_removelast_last in Hm by done.
  destruct (HasPrefix s first) eqn:Ep; cbn [negb].
  - apply prefix_split in Ep as [t ->]; rewrite from_app in *; transitivity (floats rest t).
    + rewrite Hm; destruct (match_middle _ t) as [s'|]; [rewrite Hlast; split; [by exists s'|by intros (? & [= <-] & H)]|].
      split; [done|by intros (? & ? & _)].
    + split; [intros (w & r & -> & H); by exists w, r|].
      intros (w & r & H1 & H2); exists w, r; split; [|done].
      by rewrite <- (from_app first t), H1, from_app.
  - split; [done|]. intros (w & r & -> & _).
    assert (HasPrefix (first +:+ w +:+ r) first = true) by (apply prefix_split; by eexists); congruence.
Qed.

(** C33: The matcher decides the language of the pattern: a star stands for any
    text, and no match is missed by taking the leftmost occurrences. *)
Theorem matchGlob_correct pattern s : matchGlob pattern s = true <-> glob pattern s.
Proof.
  rewrite glob_parts; unfold matchGlob.
  destruct (String.eqb_spec pattern "*") as [->|H1].
  { split; [intros _; by exists s, ""; rewrite app_nil_str|done]. }
  destruct (String.eqb_spec pattern "") as [->|H2]; [by rewrite String.eqb_eq|].
  destruct (Contains pattern "*") eqn:Hc; cbn [negb].
  2:{ rewrite (Split_plain _ Hc), String.eqb_eq; cbn; split; congruence. }
  destruct (HasSuffix pattern "*" && _) eqn:Et.
  { apply andb_true_iff in Et as [Et Hq]; apply HasSuffix_split in Et as [q ->]; apply negb_true_iff in Hq.
    replace (_ - 1)%nat with (String.length q) in * by (rewrite length_app_str; cbn; lia); rewrite upto_app in *.
    rewrite Split_prefix, prefix_split by done; cbn [Split Ascii.eqb Bool.eqb]; rewrite app_nil_str.
    split; [intros [t ->]; exists t, ""; by rewrite app_nil_str|intros (w & r & -> & ->); exists w; by rewrite app_nil_str]. }
  destruct (HasPrefix pattern "*" && _) eqn:El.
  { apply andb_true_iff in El as [El Hq]; apply prefix_split in El as [q ->]; apply negb_true_iff in Hq.
    change ("*" +:+ q) with (String "*" q) in *; cbn [from] in *; cbn [Split Ascii.eqb Bool.eqb].
    rewrite Split_plain by done; rewrite HasSuffix_split.
    split; [intros [w ->]; by exists w, q|intros (w & r & -> & ->); by exists w]. }
  assert (exists first rest, Split pattern "*" = first :: rest /\ rest <> []) as (first & rest & -> & Hr);
    [|by apply general_parts].
  clear -Hc; induction pattern as [|a p IH]; [discriminate|]; rewrite Contains_star in Hc; cbn [Split].
  destruct (Ascii.eqb a "*"); [pose proof (Split_nonempty p "*"); by eexists _, _|].
  destruct (IH Hc) as (first & rest & -> & Hr); by eexists _, _.
Qed.
