(* ===== verification/Resp.v ===== *)
(** The Redis wire protocol: [internal/server/redisserver/resp.go].

    A [bufio.Reader] is the bytes of the connection that have not been read yet;
    when they are used up, reading reports the end of the stream.  A
    [bufio.Writer] is the text written so far.  An argument is [None] for a null
    bulk string ([nil]). *)

From Stdlib Require Import Ascii String.
From stdpp Require Import list strings.
From S2P Require Import Prelude Errors GoStrings Strconv.

Open Scope string_scope.
Open Scope Z_scope.

Definition MaxArrayLen : Z := 1024.
Definition MaxBulkLen : Z := 512 * 1024.
Definition MaxInlineLen : Z := 4 * 1024.

Definition ErrProtocol := SimpleError "resp: protocol error".
Definition ErrLimitExceeded := SimpleError "resp: limit exceeded".

Definition LF : ascii := Ascii false true false true false false false false.
Definition CR : ascii := Ascii true false true true false false false false.
Definition CRLF : string := String CR (String LF "").

(** The size of the buffer of [bufio.NewReader]. *)
Definition bufSize : nat := Z.to_nat 4096.

(** [ReadSlice('\n')]: a line with its end, a full buffer without one, or the
    end of the stream, which discards what was there. *)
Inductive slice := Line (frag : string) | BufferFull (frag : string) | SliceEOF.
Definition ReadSlice : M string slice :=
  s <- get_st ;;
  let n := match Index s (String LF "") with Some i => i | None => String.length s end in
  if (n <? String.length s)%nat && (n <? bufSize)%nat then
    put_st (from (n + 1) s) ;;; ret (Line (upto (n + 1) s))
  else if (bufSize <=? String.length s)%nat then
    put_st (from bufSize s) ;;; ret (BufferFull (upto bufSize s))
  else put_st "" ;;; ret SliceEOF.

Definition exceeds (limit : Z) : error :=
  ErrorAfter ErrLimitExceeded ("line length exceeds limit " +:+ FormatInt limit).
Definition protocol_error {A} (what : string) : Res A := Err (ErrorAfter ErrProtocol what).

(** The loop of [readLine]: every full buffer takes [bufSize] bytes off the
    stream, so it goes round at most once per byte. *)
Fixpoint readLine_loop (fuel : nat) (buf : string) (maxLen : Z) : M string (Res string) :=
  match fuel with
  | O => ret (Err EOF)
  | S fuel' =>
      x <- ReadSlice ;;
      match x with
      | SliceEOF => ret (Err EOF)
      | BufferFull frag =>
          let buf := buf +:+ frag in
          if maxLen <? slen buf then ret (Err (exceeds maxLen)) else readLine_loop fuel' buf maxLen
      | Line frag =>
          let buf := buf +:+ frag in
          if maxLen <? slen buf then ret (Err (exceeds maxLen))
          else if (slen buf <? 2) || negb (HasSuffix buf CRLF) then ret (protocol_error "missing CRLF")
          else ret (Ok (upto (String.length buf - 2) buf))
      end
  end.
Definition readLine (maxLen : Z) : M string (Res string) :=
  if maxLen <=? 0 then ret (protocol_error "invalid maxLen")
  else s <- get_st ;; readLine_loop (S (String.length s)) "" maxLen.

(** [io.ReadFull] of [n] bytes. *)
Definition ReadFull (n : nat) : M string (Res string) :=
  s <- get_st ;;
  if (n <=? String.length s)%nat then put_st (from n s) ;;; ret (Ok (upto n s))
  else put_st "" ;;; ret (Err (if String.eqb s "" then EOF else ErrUnexpectedEOF)).

Definition limit_error {A} (what : string) : Res A := Err (ErrorAfter ErrLimitExceeded what).

Definition readBulkString : M string (Res (option string)) :=
  line <-? readLine 64 ;;
  match line with
  | String c (String _ _ as rest) =>
      if Ascii.eqb c "$" then
        match Atoi (TrimSpace rest) with
        | None => ret (protocol_error "invalid bulk length")
        | Some n =>
            if n =? -1 then ret (Ok None)
            else if n <? 0 then ret (protocol_error "invalid bulk length")
            else if MaxBulkLen <? n
            then ret (limit_error ("bulk length " +:+ FormatInt n +:+ " exceeds limit " +:+ FormatInt MaxBulkLen))
            else
              buf <-? ReadFull (Z.to_nat (n + 2)) ;;
              if negb (HasSuffix buf CRLF) then ret (protocol_error "invalid bulk terminator")
              else ret (Ok (Some (upto (String.length buf - 2) buf)))
        end
      else if Ascii.eqb c "+" then ret (Ok (Some rest))
      else ret (protocol_error "expected bulk string")
  | _ => ret (protocol_error "expected bulk string")
  end.

Fixpoint read_args (n : nat) : M string (Res (list (option string))) :=
  match n with
  | O => ret (Ok [])
  | S n' =>
      arg <-? readBulkString ;;
      rest <-? read_args n' ;;
      ret (Ok (arg :: rest))
  end.

Definition readArrayCommand : M string (Res (list (option string))) :=
  line <-? readLine 64 ;;
  match line with
  | String c (String _ _ as rest) =>
      if negb (Ascii.eqb c "*") then ret (protocol_error "expected array")
      else
        match Atoi (TrimSpace rest) with
        | None => ret (protocol_error "invalid array length")
        | Some n =>
            if n <=? 0 then ret (Ok [])
            else if MaxArrayLen <? n
            then ret (limit_error ("array length " +:+ FormatInt n +:+ " exceeds limit " +:+ FormatInt MaxArrayLen))
            else read_args (Z.to_nat n)
        end
  | _ => ret (protocol_error "expected array")
  end.

(** The arguments of the next command, none for an empty line or array. *)
Definition ReadCommand : M string (Res (list (option string))) :=
  s <- get_st ;;
  match s with
  | EmptyString => ret (Err EOF)
  | String c _ =>
      if Ascii.eqb c "*" then readArrayCommand
      else
        line <-? readLine MaxInlineLen ;;
        let line := TrimSpace line in
        if String.eqb line "" then ret (Ok []) else ret (Ok (map Some (Fields line)))
  end.

(** ** Replies *)
Definition WriteSimpleString (s : string) : M string unit := upd_st (fun w => w +:+ "+" +:+ s +:+ CRLF).
Definition WriteError (s : string) : M string unit := upd_st (fun w => w +:+ "-" +:+ s +:+ CRLF).
Definition WriteInteger (n : Z) : M string unit := upd_st (fun w => w +:+ ":" +:+ FormatInt n +:+ CRLF).
Definition WriteNullBulk : M string unit := upd_st (fun w => w +:+ "$-1" +:+ CRLF).
Definition WriteBulk (b : option string) : M string unit :=
  match b with
  | None => WriteNullBulk
  | Some b =>
      upd_st (fun w => w +:+ "$" +:+ FormatInt (slen b) +:+ CRLF) ;;;
      upd_st (fun w => w +:+ b) ;;;
      upd_st (fun w => w +:+ CRLF)
  end.
Definition WriteBulkString (s : string) : M string unit := WriteBulk (Some s).
Definition WriteArrayHeader (n : Z) : M string unit := upd_st (fun w => w +:+ "*" +:+ FormatInt n +:+ CRLF).

Definition has_lower (s : string) : bool :=
  negb (sforall (fun a => negb ((97 <=? ascii_Z a) && (ascii_Z a <=? 122))) s).
Definition normalizeCommandName (b : option string) : string :=
  match b with
  | None => ""
  | Some b => if has_lower b then ToUpper b else b
  end.

(** ** Examples *)
Definition line (s : string) : string := s +:+ CRLF.
Definition no_env : env := Env (fun _ => 0) (fun _ _ => Err EOF) (fun _ => Err EOF).
Example read_get : fst (ReadCommand (line "*2" +:+ line "$3" +:+ line "GET" +:+ line "$5" +:+ line "a b c" +:+ "*") no_env) =
  (Ok [Some "GET"; Some "a b c"], "*").
Proof. reflexivity. Qed.
Example read_inline : fst (ReadCommand (line "  PING   x " +:+ "rest") no_env) = (Ok [Some "PING"; Some "x"], "rest").
Proof. reflexivity. Qed.
Example read_too_long : fst (fst (ReadCommand (line "*2000") no_env)) =
  Err (ErrorAfter ErrLimitExceeded "array length 2000 exceeds limit 1024").
Proof. reflexivity. Qed.
