(* ===== verification/RespSpec.v ===== *)
(** What the Redis protocol reader promises: it reads back what a client
    encodes, pipelined commands included; on any bytes it stays within the limits and
    makes progress. *)

From Stdlib Require Import Ascii String.
From stdpp Require Import list strings.
From S2P Require Import Prelude Errors GoStrings Strconv Resp.

Open Scope string_scope.
Open Scope Z_scope.

(** ** Strings *)
Definition no_LF (a : ascii) : bool := negb (Ascii.eqb a LF).
Definition plain_ascii (a : ascii) : bool :=
  let c := ascii_Z a in (33 <=? c) && (c <? 128).

Lemma Index_LF s r : sforall no_LF s = true -> Index (s +:+ String LF r) (String LF "") = Some (String.length s).
Proof.
  induction s as [|a s IH]; cbn [sforall]; [intros _; cbn; by destruct r|].
  intros [Ha Hs]%andb_true_iff; change (String a s +:+ String LF r) with (String a (s +:+ String LF r)).
  cbn [Index]; unfold HasPrefix; cbn [String.prefix].
  destruct (ascii_dec LF a) as [<-|]; [discriminate|]; by rewrite (IH Hs).
Qed.

Lemma space_size_plain a s : plain_ascii a = true -> space_size (String a s) = 0%nat.
Proof.
  unfold plain_ascii; intros [H1 H2]%andb_true_iff; apply Z.leb_le in H1; apply Z.ltb_lt in H2.
  cbn [space_size]; rewrite (proj2 (Z.leb_gt _ 13)), (proj2 (Z.eqb_neq _ 32)), andb_false_r by lia; cbn [orb].
  destruct s as [|b s]; [done|]; rewrite (proj2 (Z.eqb_neq _ 194)) by lia; cbn [andb].
  destruct s as [|c s]; [done|].
  by rewrite (proj2 (Z.eqb_neq _ 225)), (proj2 (Z.eqb_neq _ 226)), (proj2 (Z.eqb_neq _ 227)) by lia.
Qed.

Lemma TrimSpace_plain s : sforall plain_ascii s = true -> TrimSpace s = s.
Proof.
  intros H; unfold TrimSpace.
  assert (trim_left_from s 0 = s) as ->.
  { destruct s as [|a s]; [done|]; cbn [sforall] in H; apply andb_true_iff in H as [Ha _].
    cbn [trim_left_from]; by rewrite space_size_plain. }
  induction s as [|a s IH]; [done|]; cbn [sforall] in H; apply andb_true_iff in H as [Ha Hs].
  cbn [trim_right_from]; rewrite space_size_plain, IH by done; by rewrite andb_false_r.
Qed.

Lemma print_digits_length fuel n acc : (String.length (print_digits fuel n acc) <= fuel + String.length acc)%nat.
Proof.
  revert n acc; induction fuel as [|fuel IH]; intros n acc; cbn [print_digits]; [lia|].
  destruct (n <? 10); [cbn; lia|]. specialize (IH (n / 10) (String (digit (n mod 10)) acc)); cbn [String.length] in IH; lia.
Qed.

(** A number is a short text without spaces or line feeds. *)
Definition number_char (a : ascii) : bool := is_digit a || Ascii.eqb a "-".
Lemma FormatInt_chars n : sforall number_char (FormatInt n) = true.
Proof.
  assert (forall m, sforall number_char (FormatUint m) = true) as H.
  { intros m; eapply sforall_weaken; [|apply FormatUint_digits]; unfold number_char; intros a ->; done. }
  unfold FormatInt; destruct (n <? 0); [|apply H]; cbn [sforall]; by rewrite H.
Qed.
Lemma FormatInt_length n : slen (FormatInt n) <= 21.
Proof.
  assert (forall m, slen (FormatUint m) <= 20) as H
    by (intros m; unfold slen, FormatUint; pose proof (print_digits_length 20 m ""); cbn in *; lia).
  unfold FormatInt; destruct (n <? 0); [|specialize (H n); lia].
  specialize (H (- n)); unfold slen in *; cbn [String.length]; lia.
Qed.
Lemma number_plain a : number_char a = true -> plain_ascii a = true /\ no_LF a = true.
Proof.
  intros H; apply andb_true_iff; revert H; apply implb_true_iff; revert a; apply forall_ascii; vm_compute; reflexivity.
Qed.

(** ** Lines *)
Lemma ReadSlice_line s r e : sforall no_LF s = true -> slen s < 4096 ->
  ReadSlice (s +:+ String LF r) e = (Line (s +:+ String LF ""), r, e).
Proof.
  intros Hs Hl; unfold ReadSlice, bind, get_st; rewrite Index_LF by done.
  assert (String.length (s +:+ String LF r) = (String.length s + S (String.length r))%nat) as -> by (by rewrite length_app_str).
  rewrite !(proj2 (Nat.ltb_lt _ _)) by (unfold bufSize, slen in *; lia); cbn [andb].
  assert (s +:+ String LF r = (s +:+ String LF "") +:+ r) as -> by (by rewrite app_assoc_str).
  replace (String.length s + 1)%nat with (String.length (s +:+ String LF "")) by (rewrite length_app_str; cbn; lia).
  unfold put_st, ret; by rewrite from_app, upto_app.
Qed.

Lemma readLine_ok s r e maxLen : sforall no_LF s = true -> slen s + 2 <= maxLen -> maxLen <= 4096 ->
  readLine maxLen (s +:+ CRLF +:+ r) e = (Ok s, r, e).
Proof.
  intros Hs Hl Hm; assert (0 <= slen s) by (unfold slen; lia).
  unfold readLine; rewrite (proj2 (Z.leb_gt _ _)) by lia; erewrite bind_run by reflexivity; cbn [readLine_loop].
  assert (s +:+ CRLF +:+ r = (s +:+ String CR "") +:+ String LF r) as -> by (by rewrite app_assoc_str).
  erewrite bind_run by (apply ReadSlice_line; [rewrite sforall_app, Hs; done|rewrite slen_app; unfold slen in *; cbn; lia]).
  cbn beta iota; assert ("" +:+ (s +:+ String CR "") +:+ String LF "" = s +:+ CRLF) as -> by (cbn; by rewrite app_assoc_str).
  assert (slen (s +:+ CRLF) = slen s + 2) as El by (rewrite slen_app; unfold slen; cbn; lia).
  rewrite El, (proj2 (Z.ltb_ge _ _)), (proj2 (Z.ltb_ge _ 2)) by lia; cbn [orb].
  assert (HasSuffix (s +:+ CRLF) CRLF = true) as ->.
  { unfold HasSuffix; rewrite El, length_app_str; change (slen CRLF) with 2; rewrite (proj2 (Z.leb_le _ _)) by lia.
    replace (String.length s + String.length CRLF - String.length CRLF)%nat with (String.length s) by lia.
    by rewrite from_app, String.eqb_refl. }
  cbn [negb]; replace (String.length (s +:+ CRLF) - 2)%nat with (String.length s) by (rewrite length_app_str; cbn; lia).
  unfold ret; by rewrite upto_app.
Qed.

(** A header line carrying a number. *)
Lemma readLine_number c n r e : no_LF c = true ->
  readLine 64 (String c (FormatInt n) +:+ CRLF +:+ r) e = (Ok (String c (FormatInt n)), r, e).
Proof.
  intros Hc; apply readLine_ok; [|pose proof (FormatInt_length n); unfold slen in *; cbn [String.length]; lia|lia].
  cbn [sforall]; rewrite Hc; eapply sforall_weaken; [|apply FormatInt_chars]; intros a Ha; by apply number_plain.
Qed.
Lemma FormatInt_head n : exists a s, FormatInt n = String a s.
Proof.
  unfold FormatInt; destruct (Z.ltb_spec n 0); [by eexists _, _|].
  destruct (print_digits_head 20 n) as (a & s & E & _); [lia|lia|]; by exists a, s.
Qed.
Lemma number_arg n : in_i64 n -> Atoi (TrimSpace (FormatInt n)) = Some n.
Proof.
  intros Hn; rewrite TrimSpace_plain; [by apply ParseInt_Format|].
  eapply sforall_weaken; [|apply FormatInt_chars]; intros a Ha; by apply number_plain.
Qed.

(** ** A command on the wire *)
Fixpoint write_args (args : list (option string)) : M string unit :=
  match args with
  | [] => ret tt
  | b :: args => WriteBulk b ;;; write_args args
  end.
(** A client writes a command as an array of bulk strings, with the writer's
    own operations. *)
Definition write_command (args : list (option string)) : M string unit :=
  WriteArrayHeader (Z.of_nat (length args)) ;;; write_args args.
Definition arg_ok (b : option string) : Prop := match b with None => True | Some s => slen s <= MaxBulkLen end.
Definition command_ok (args : list (option string)) : Prop :=
  (1 <= length args)%nat /\ Z.of_nat (length args) <= MaxArrayLen /\ Forall arg_ok args.

Definition bulk_text (b : option string) : string :=
  match b with None => "$-1" +:+ CRLF | Some s => "$" +:+ FormatInt (slen s) +:+ CRLF +:+ s +:+ CRLF end.
Fixpoint args_text (args : list (option string)) : string :=
  match args with [] => "" | b :: args => bulk_text b +:+ args_text args end.
Definition command_text (args : list (option string)) : string :=
  "*" +:+ FormatInt (Z.of_nat (length args)) +:+ CRLF +:+ args_text args.

Lemma WriteBulk_text b w e : WriteBulk b w e = (tt, w +:+ bulk_text b, e).
Proof.
  destruct b as [s|]; [|done]. unfold WriteBulk, upd_st, bind; cbn [bulk_text].
  by rewrite !app_assoc_str.
Qed.
Lemma write_args_text args w e : write_args args w e = (tt, w +:+ args_text args, e).
Proof.
  revert w; induction args as [|b args IH]; intros w; cbn [write_args args_text].
  - unfold ret; by rewrite app_nil_str.
  - erewrite bind_run by apply WriteBulk_text; by rewrite IH, app_assoc_str.
Qed.
Lemma write_command_text args w e : write_command args w e = (tt, w +:+ command_text args, e).
Proof.
  unfold write_command, WriteArrayHeader; erewrite bind_run by reflexivity.
  rewrite write_args_text; unfold command_text; by rewrite !app_assoc_str.
Qed.

Lemma ok_run {S A B} (m : M S (Res A)) (k : A -> M S (Res B)) s e x s' e' :
  m s e = (Ok x, s', e') -> (y <-? m ;; k y) s e = k x s' e'.
Proof. intros H; by erewrite bind_run by exact H. Qed.

Lemma ReadFull_app a b e : a <> "" -> ReadFull (String.length a) (a +:+ b) e = (Ok a, b, e).
Proof.
  intros Ha; unfold ReadFull, bind, get_st, put_st, ret; rewrite length_app_str.
  rewrite (proj2 (Nat.leb_le _ _)) by lia; by rewrite from_app, upto_app.
Qed.
Lemma suffix_own a b : HasSuffix (a +:+ b) b = true.
Proof.
  unfold HasSuffix; rewrite slen_app, length_app_str, (proj2 (Z.leb_le _ _)) by (unfold slen; lia).
  replace (String.length a + String.length b - String.length b)%nat with (String.length a) by lia.
  by rewrite from_app, String.eqb_refl.
Qed.

Lemma readBulkString_text b r e : arg_ok b -> readBulkString (bulk_text b +:+ r) e = (Ok b, r, e).
Proof.
  unfold readBulkString; destruct b as [s|]; cbn [arg_ok bulk_text]; intros Hs.
  - rewrite !app_assoc_str; assert (0 <= slen s) by (unfold slen; lia).
    erewrite ok_run by (by apply (readLine_number "$")).
    destruct (FormatInt_head (slen s)) as (a & t & E); rewrite E; cbn [Ascii.eqb Bool.eqb]; rewrite <- E.
    unfold MaxBulkLen in Hs; rewrite number_arg by (unfold in_i64; lia).
    rewrite (proj2 (Z.eqb_neq _ _)), (proj2 (Z.ltb_ge _ _)), (proj2 (Z.ltb_ge MaxBulkLen _)) by (unfold MaxBulkLen; lia).
    replace (Z.to_nat (slen s + 2)) with (String.length (s +:+ CRLF)) by (rewrite length_app_str; unfold slen; cbn; lia).
    erewrite ok_run by (rewrite <- app_assoc_str; apply ReadFull_app; by destruct s).
    rewrite suffix_own; cbn [negb]; replace (_ - 2)%nat with (String.length s) by (rewrite length_app_str; cbn; lia).
    unfold ret; by rewrite upto_app.
  - erewrite ok_run by (by apply (readLine_number "$" (-1))). reflexivity.
Qed.

Lemma read_args_text args r e : Forall arg_ok args -> read_args (length args) (args_text args +:+ r) e = (Ok args, r, e).
Proof.
  induction 1 as [|b args Hb _ IH]; [done|]; cbn [length read_args args_text]; rewrite app_assoc_str.
  erewrite ok_run by (by apply readBulkString_text). by erewrite ok_run by exact IH.
Qed.

Lemma ReadCommand_text args r e : command_ok args -> ReadCommand (command_text args +:+ r) e = (Ok args, r, e).
Proof.
  intros (H1 & H2 & Hargs); unfold ReadCommand, command_text; rewrite !app_assoc_str.
  erewrite bind_run by reflexivity.
  match goal with |- context [match ?s with _ => _ end] => change s with
    (String "*" (FormatInt (Z.of_nat (length args)) +:+ CRLF +:+ args_text args +:+ r)) end.
  cbn [Ascii.eqb Bool.eqb]; unfold readArrayCommand.
  erewrite ok_run by (by apply (readLine_number "*")).
  destruct (FormatInt_head (Z.of_nat (length args))) as (a & t & E); rewrite E; cbn [Ascii.eqb Bool.eqb negb]; rewrite <- E.
  unfold MaxArrayLen in H2; rewrite number_arg by (unfold in_i64; lia).
  rewrite (proj2 (Z.leb_gt _ _)), (proj2 (Z.ltb_ge MaxArrayLen _)) by (unfold MaxArrayLen; lia).
  rewrite Nat2Z.id; by apply read_args_text.
Qed.

Fixpoint read_commands (n : nat) : M string (list (Res (list (option string)))) :=
  match n with
  | O => ret []
  | S n' => c <- ReadCommand ;; rest <- read_commands n' ;; ret (c :: rest)
  end.

(** C32: What a client pipelines with the writer's operations - any number of
    commands of 1 to 1024 arguments, each null or at most 512 KiB of any bytes -
    is read back command by command, and what follows on the connection is left. *)
Theorem command_roundtrip cmds rest e : Forall command_ok cmds ->
  let '(_, wire, _) := for_range cmds write_command "" e in
  read_commands (length cmds) (wire +:+ rest) e = (map Ok cmds, rest, e).
Proof.
  intros Hc; enough (forall w, exists t, for_range cmds write_command w e = (tt, w +:+ t, e) /\
    read_commands (length cmds) (t +:+ rest) e = (map Ok cmds, rest, e)) as H.
  { destruct (H "") as (t & E & Hr); by rewrite E. }
  induction Hc as [|args cmds Hargs _ IH]; intros w; cbn [for_range].
  - exists ""; unfold ret; by rewrite app_nil_str.
  - destruct (IH (w +:+ command_text args)) as (t & Ew & Er); exists (command_text args +:+ t); split.
    + erewrite bind_run by apply write_command_text; by rewrite Ew, app_assoc_str.
    + cbn [length read_commands]; rewrite app_assoc_str.
      erewrite bind_run by (by apply ReadCommand_text); by erewrite bind_run by exact Er.
Qed.
Lemma command_roundtrip_witness :
  let cmds := [[Some "SET"; Some "a"; Some CRLF]; [Some "GET"; None]] in
  Forall command_ok cmds /\
  (let '(_, wire, _) := for_range cmds write_command "" no_env in
   read_commands (length cmds) (wire +:+ "tail") no_env = (map Ok cmds, "tail", no_env)).
Proof.
  intros cmds; assert (Forall command_ok cmds) as H
    by (repeat constructor; vm_compute; try done; lia).
  split; [exact H|exact (command_roundtrip cmds "tail" no_env H)].
Defined.

(** ** Any input *)

(** The bytes an argument needs on the wire, at least. *)
Definition arg_size (b : option string) : nat := S (String.length (default "" b)).
Definition args_size (args : list (option string)) : nat := foldr (fun b n => (arg_size b + n)%nat) 0%nat args.

Lemma trim_left_length s k : (String.length (trim_left_from s k) <= String.length s)%nat.
Proof.
  revert k; induction s as [|a s IH]; intros k; [done|]; cbn [trim_left_from String.length].
  destruct k as [|k]; [destruct (space_size _) as [|k]; [done|]|]; specialize (IH k); lia.
Qed.
Lemma trim_right_length s k : (String.length (trim_right_from s k) <= String.length s)%nat.
Proof.
  revert k; induction s as [|a s IH]; intros k; [done|]; cbn [trim_right_from String.length].
  destruct k as [|k]; [destruct (space_size _) as [|k]|]; (destruct (_ && _); cbn [String.length]; [lia|]);
    [specialize (IH 0%nat)|specialize (IH k)..]; lia.
Qed.
Lemma TrimSpace_length s : (String.length (TrimSpace s) <= String.length s)%nat.
Proof. unfold TrimSpace; etransitivity; [apply trim_right_length|apply trim_left_length]. Qed.

Lemma fields_size s k word :
  (args_size (map Some (fields_from s k word)) <= S (String.length word + String.length s))%nat.
Proof.
  revert k word; induction s as [|a s IH]; intros k word; cbn [fields_from].
  - destruct (String.eqb word ""); cbn; lia.
  - cbn [String.length]; destruct k as [|k].
    + destruct (space_size (String a s)) as [|k].
      * specialize (IH 0%nat (word +:+ String a "")); rewrite length_app_str in IH; cbn [String.length] in IH; lia.
      * specialize (IH k ""); cbn [String.length] in IH.
        destruct (String.eqb word ""); unfold args_size, arg_size in *; cbn [map foldr default from_option id]; cbn in *; lia.
    + specialize (IH k ""); cbn [String.length] in IH; lia.
Qed.

Lemma args_size_each args : Forall (fun b => (arg_size b <= args_size args)%nat) args.
Proof.
  induction args as [|b args IH]; constructor; unfold args_size in *; cbn [foldr]; [lia|].
  eapply Forall_impl; [exact IH|]; cbn; intros; lia.
Qed.
Lemma args_size_length args : (length args <= args_size args)%nat.
Proof. induction args as [|b args IH]; [done|]; unfold args_size, arg_size in *; cbn [length foldr]; lia. Qed.

(** An error leaves less than the [n] bytes there were, unless it is the end of
    the stream. *)
Definition failed (n : nat) (err : error) (s : string) : Prop :=
  (err = EOF /\ s = "") \/ (String.length s < n)%nat.
(** A result of [size] bytes has been paid for out of the [n] there were. *)
Definition pays {A} (n : nat) (size : A -> nat) (x : Res A) (s : string) : Prop :=
  match x with Ok a => (size a + String.length s <= n)%nat | Err err => failed n err s end.
Definition within (n : nat) (s : string) : Prop := (String.length s <= n)%nat.


Lemma ReadSlice_pays n : hoare (within n) ReadSlice (fun x s => match x with
  | Line f => (1 <= String.length f)%nat /\ (String.length f + String.length s <= n)%nat
  | BufferFull f => (1 <= String.length f)%nat /\ (String.length f + String.length s <= n)%nat
  | SliceEOF => s = ""
  end).
Proof.
  intros s e Hs; unfold within in Hs; unfold ReadSlice, bind, get_st; set (i := match Index _ _ with Some _ => _ | None => _ end).
  destruct ((i <? String.length s)%nat && (i <? bufSize)%nat) eqn:E.
  - apply andb_true_iff in E as [E _]; apply Nat.ltb_lt in E; cbn; rewrite length_from, length_upto by lia; lia.
  - destruct (Nat.leb_spec bufSize (String.length s)) as [H|H]; [|done].
    cbn; assert (1 <= bufSize)%nat by (unfold bufSize; lia); rewrite length_from, length_upto by done; lia.
Qed.

Definition line_post (n : nat) (maxLen : Z) (x : Res string) (s : string) : Prop :=
  pays n (fun l => String.length l + 2)%nat x s /\ match x with Ok l => slen l + 2 <= maxLen | Err _ => True end.

Lemma readLine_loop_pays fuel maxLen : forall buf n, 0 < maxLen ->
  hoare (fun s => String.length s < fuel /\ String.length buf + String.length s <= n)%nat
    (readLine_loop fuel buf maxLen) (line_post n maxLen).
Proof.
  induction fuel as [|fuel IH]; intros buf n Hm; [intros s e [? _]; lia|].
  intros s e [Hf Hn]; cbn [readLine_loop].
  pose proof (ReadSlice_pays (String.length s) s e (le_n _)) as Hr; destruct (ReadSlice s e) as [[x s1] e1] eqn:E.
  erewrite bind_run by exact E; clear E; destruct x as [f|f|]; [| |by subst s1; split; [left|]].
  - assert (failed n (exceeds maxLen) s1 /\ (forall w, failed n (ErrorAfter ErrProtocol w) s1)) as [H1 H2]
      by (split; [right|right]; lia).
    destruct (maxLen <? slen (buf +:+ f)) eqn:El; [by split|].
    destruct (_ || _) eqn:Eb; [by split; [apply H2|]|].
    apply Z.ltb_ge in El; apply orb_false_iff in Eb as [Eb _]; apply Z.ltb_ge in Eb.
    rewrite slen_app in *; unfold slen in *; split; cbn [pays]; unfold slen; rewrite length_upto; rewrite ?length_app_str; lia.
  - destruct (maxLen <? slen (buf +:+ f)); [split; [right; lia|done]|].
    apply IH; [done|]; rewrite length_app_str; lia.
Qed.
Lemma readLine_pays n maxLen : 0 < maxLen -> hoare (within n) (readLine maxLen) (line_post n maxLen).
Proof.
  intros Hm s e Hs; unfold readLine; rewrite (proj2 (Z.leb_gt _ _)) by done; erewrite bind_run by reflexivity.
  apply readLine_loop_pays; [done|]; unfold within in Hs; cbn; lia.
Qed.

(** After a result that has been paid for, the rest has what is left. *)
Lemma pays_bind {A B} n size (P : A -> Prop) (m : M string (Res A)) (k : A -> M string (Res B)) Q :
  hoare (within n) m (fun x s => pays n size x s /\ match x with Ok a => P a | Err _ => True end) ->
  (forall a, P a -> (size a <= n)%nat -> hoare (within (n - size a)) (k a) Q) ->
  (forall err s, failed n err s -> Q (Err err) s) ->
  hoare (within n) (a <-? m ;; k a) Q.
Proof.
  intros Hm Hk Hq s e Hs; specialize (Hm s e Hs); unfold bind; destruct (m s e) as [[[a|err] s1] e1]; [|apply Hq, Hm].
  destruct Hm as [Hp Ha]; cbn in Hp; apply (Hk a Ha); [|unfold within]; lia.
Qed.

Definition bulk_post (n : nat) (x : Res (option string)) (s : string) : Prop :=
  pays n arg_size x s /\ match x with Ok b => arg_ok b | Err _ => True end.

Lemma ReadFull_pays n k : (0 < k)%nat -> hoare (within n) (ReadFull k) (fun x s => match x with
  | Ok b => String.length b = k /\ (k + String.length s <= n)%nat
  | Err _ => s = ""
  end).
Proof.
  intros Hk s e Hs; unfold within in Hs; unfold ReadFull, bind, get_st.
  destruct (Nat.leb_spec k (String.length s)); [|done]. cbn; rewrite length_from, length_upto; lia.
Qed.

Lemma readBulkString_pays n : hoare (within n) readBulkString (bulk_post n).
Proof.
  unfold readBulkString; apply (pays_bind _ _ _ _ _ _ (readLine_pays n 64 ltac:(lia))); [|intros err s Hs; by split].
  intros l Hl Hn.
  assert (forall err s, within (n - (String.length l + 2)) s -> bulk_post n (Err err) s) as Herr
    by (intros err s Hs; split; [right; unfold within in Hs; lia|done]).
  destruct l as [|c [|d rest]]; try (apply hoare_ret; intros; by apply Herr).
  destruct (Ascii.eqb c "$").
  - destruct (Atoi _) as [k|]; [|apply hoare_ret; intros; by apply Herr].
    destruct (Z.eqb_spec k (-1)) as [->|_].
    { apply hoare_ret; intros s Hs; unfold within in Hs; split; [cbn; lia|done]. }
    destruct (Z.ltb_spec k 0); [apply hoare_ret; intros; by apply Herr|].
    destruct (Z.ltb_spec MaxBulkLen k); [apply hoare_ret; intros; by apply Herr|].
    eapply hoare_bind; [apply ReadFull_pays; lia|]. intros [b|err]; cbn beta iota.
    2:{ apply hoare_ret; intros s ->; split; [right; cbn in *; lia|done]. }
    destruct (negb _); apply hoare_ret; intros s [Hb Hs].
    + apply Herr; unfold within; lia.
    + split; cbn [pays arg_ok]; unfold arg_size, slen; cbn [default from_option id]; rewrite length_upto; lia.
  - destruct (Ascii.eqb c "+"); apply hoare_ret; intros s Hs; [|by apply Herr].
    unfold within, slen in *; cbn [String.length] in *; split; cbn [pays arg_ok]; unfold arg_size, slen, MaxBulkLen;
      cbn [default from_option id String.length]; lia.
Qed.

Definition args_post (n k : nat) (x : Res (list (option string))) (s : string) : Prop :=
  pays n args_size x s /\ match x with Ok args => length args = k /\ Forall arg_ok args | Err _ => True end.

Lemma read_args_pays k : forall n, hoare (within n) (read_args k) (args_post n k).
Proof.
  induction k as [|k IH]; intros n; cbn [read_args]; [apply hoare_ret; intros s Hs; split; [cbn; exact Hs|by split]|].
  apply (pays_bind _ _ _ _ _ _ (readBulkString_pays n)); [|intros err s Hs; by split]. intros b Hb Hn.
  apply (pays_bind _ _ _ _ _ _ (IH (n - arg_size b)%nat)).
  - intros args [Hk Hargs] Hn'; apply hoare_ret; intros s Hs; unfold within in Hs; split; cbn [pays length].
    + unfold args_size in *; cbn [foldr]; lia.
    + split; [lia|by constructor].
  - intros err s [?|?]; (split; [|done]); [by left|right; unfold arg_size in *; lia].
Qed.

Definition command_post (n : nat) (x : Res (list (option string))) (s : string) : Prop :=
  pays n (fun args => S (args_size args)) x s /\
  match x with Ok args => Z.of_nat (length args) <= MaxInlineLen /\ Forall arg_ok args | Err _ => True end.

Lemma readArrayCommand_pays n : hoare (within n) readArrayCommand (command_post n).
Proof.
  unfold readArrayCommand; apply (pays_bind _ _ _ _ _ _ (readLine_pays n 64 ltac:(lia))); [|intros err s Hs; by split].
  intros l Hl Hn.
  assert (forall err s, within (n - (String.length l + 2)) s -> command_post n (Err err) s) as Herr
    by (intros err s Hs; split; [right; unfold within in Hs; lia|done]).
  destruct l as [|c [|d rest]]; try (apply hoare_ret; intros; by apply Herr).
  destruct (negb _); [apply hoare_ret; intros; by apply Herr|].
  destruct (Atoi _) as [k|]; [|apply hoare_ret; intros; by apply Herr].
  destruct (Z.leb_spec k 0).
  { apply hoare_ret; intros s Hs; unfold within in Hs; split; [cbn; lia|by split]. }
  destruct (Z.ltb_spec MaxArrayLen k); [apply hoare_ret; intros; by apply Herr|].
  eapply hoare_conseq; [apply (read_args_pays (Z.to_nat k))|done|]. intros [args|err] s [Hp Ha]; cbn in Hp.
  - destruct Ha as [Hk Hargs]; split; [cbn; lia|split; [unfold MaxArrayLen, MaxInlineLen in *; lia|done]].
  - split; [|done]; destruct Hp as [?|?]; [by left|right; cbn in *; lia].
Qed.

Lemma inline_args l : slen l + 2 <= MaxInlineLen -> let args := map Some (Fields (TrimSpace l)) in
  (args_size args <= S (String.length l))%nat /\ Z.of_nat (length args) <= MaxInlineLen /\ Forall arg_ok args.
Proof.
  intros Hl args; pose proof (fields_size (TrimSpace l) 0 "") as Hs; fold args in Hs; cbn [String.length] in Hs.
  pose proof (TrimSpace_length l); pose proof (args_size_length args); unfold slen, MaxInlineLen in *.
  split_ands; [unfold args, Fields in *; lia|unfold args, Fields in *; lia|].
  eapply Forall_impl; [apply args_size_each|]; intros [b|] Hb; cbn in *; [|done].
  unfold args, Fields, arg_size in *; cbn in *; unfold slen, MaxBulkLen; lia.
Qed.

Lemma ReadCommand_pays n : hoare (within n) ReadCommand (command_post n).
Proof.
  intros s0 e0 Hs; unfold ReadCommand; erewrite bind_run by reflexivity.
  destruct s0 as [|c s0]; [split; [by left|done]|]; destruct (Ascii.eqb c "*"); [by apply readArrayCommand_pays|].
  revert Hs; apply (pays_bind _ _ _ _ _ _ (readLine_pays _ MaxInlineLen ltac:(unfold MaxInlineLen; lia))); [|intros err s1 Hs; by split].
  intros l Hl Hn; destruct (inline_args l Hl) as (H1 & H2 & H3).
  destruct (String.eqb (TrimSpace l) ""); apply hoare_ret; intros s1 Hs1; unfold within in Hs1;
    (split; [cbn [pays]|split; [unfold MaxInlineLen in *|done]]); cbn [args_size foldr] in *; try (cbn; lia).
Qed.
Lemma ReadCommand_progress s e : s <> "" -> let '(x, s', _) := ReadCommand s e in (String.length s' < String.length s)%nat.
Proof.
  intros Hne; pose proof (ReadCommand_pays (String.length s) s e (le_n _)) as H; destruct (ReadCommand s e) as [[[args|err] s'] e'].
  - destruct H as [H _]; cbn in H; lia.
  - destruct H as [[[_ ->]|H] _]; [destruct s; [done|cbn; lia]|done].
Qed.

(** C34: Reading a command from any bytes ends, leaves fewer bytes than there were
    unless they have run out, and gives at most 4096 arguments of at most 512 KiB
    each, all of them paid for with bytes received. *)
Theorem ReadCommand_bounded s e : let '(x, s', _) := ReadCommand s e in
  match x with
  | Ok args => (args_size args + String.length s' < String.length s)%nat /\
      Z.of_nat (length args) <= 4096 /\ Forall arg_ok args
  | Err err => (err = EOF /\ s' = "") \/ (String.length s' < String.length s)%nat
  end.
Proof.
  pose proof (ReadCommand_pays (String.length s) s e (le_n _)) as H; destruct (ReadCommand s e) as [[[args|err] s'] e'];
    destruct H as [Hp Ha]; [|exact Hp]. cbn in Hp; split; [lia|exact Ha].
Qed.
