(* ===== verification/Redis.v ===== *)
(** The Redis commands: [internal/server/redisserver/command.go] and the
    connection loop of [server.go].

    The handler is the state of the services it calls: the token service with
    the session repository it shares with the session service, the
    authentication service, and the rate limiter.  A connection is the bytes it
    has not read yet, the text written to it, its authentication state and its
    remote address. *)

From Stdlib Require Import Ascii String.
From stdpp Require Import list strings gmap fin_maps.
From S2P Require Import Prelude Errors GoStrings Strconv Float64 GoTime Json APIKey AuthService.
From S2P Require Import Session MemoryStore TokenService WalCodec SessionService Resp Glob.

Open Scope string_scope.
Open Scope Z_scope.

Definition formatRedisError (err : error) : string :=
  match errors_as_domain err with
  | Some (DomainError code message _ _) => "ERR " +:+ code +:+ " " +:+ message
  | _ => "ERR " +:+ Error err
  end.

(** ** The rate limiter *)
Record tokenBucket := MkBucket { b_tokens : float64; lastCheck : Z }.
Record rateLimiter := MkRateLimiter { buckets : gmap string tokenBucket; rate : float64 }.
Definition newRateLimiter (requestsPerSecond : Z) : rateLimiter :=
  MkRateLimiter ∅ (f64_of_Z requestsPerSecond).

(** A bucket at the time [now]: refilled, capped, and a token taken if there
    is one. *)
Definition spend (rate : float64) (now : Z) (b : tokenBucket) : bool * tokenBucket :=
  let elapsed := Seconds (time_sub now (lastCheck b)) in
  let tokens := f64_add (b_tokens b) (f64_mul elapsed rate) in
  let tokens := if f64_lt rate tokens then rate else tokens in
  if f64_lt tokens (f64_of_Z 1) then (false, MkBucket tokens now)
  else (true, MkBucket (f64_sub tokens (f64_of_Z 1)) now).

Definition allow (ip : string) : M rateLimiter bool :=
  rl <- get_st ;;
  if f64_le (rate rl) (f64_of_Z 0) then ret true
  else
    b <- match buckets rl !! ip with
         | Some b => ret b
         | None => t <- time_now ;; ret (MkBucket (rate rl) t)
         end ;;
    now <- time_now ;;
    let '(ok, b) := spend (rate rl) now b in
    put_st (MkRateLimiter (<[ip := b]> (buckets rl)) (rate rl)) ;;; ret ok.

(** ** Connections *)
Record ConnState := MkConnState { Authenticated : bool; cs_APIKey : option APIKeyInfo }.
Record Conn := MkConn { br : string; bw : string; state : ConnState; remoteAddr : string; closed : bool }.
Definition newConn (input addr : string) : Conn := MkConn input "" (MkConnState false None) addr false.
Definition set_br (s : string) (c : Conn) : Conn := MkConn s (bw c) (state c) (remoteAddr c) (closed c).
Definition set_bw (s : string) (c : Conn) : Conn := MkConn (br c) s (state c) (remoteAddr c) (closed c).
Definition SetState (st : ConnState) (c : Conn) : Conn := MkConn (br c) (bw c) st (remoteAddr c) (closed c).
Definition Close (c : Conn) : Conn := MkConn (br c) (bw c) (state c) (remoteAddr c) true.

(** The address without its port. *)
Definition client_ip (addr : string) : string :=
  match LastIndex addr ":" with Some i => upto i addr | None => addr end.

(** An argument as a Go string. *)
Definition str (b : option string) : string := default "" b.
Definition arg (args : list (option string)) (i : nat) : string := str (default None (args !! i)).

(** ** JSON of the commands *)
Record sessionSetRequest := MkSetRequest {
  set_UserID : string; set_Token : string; set_Device : string; set_Payload : option (gmap string string) }.
Definition assign_set (k : string) (v : json) (r : sessionSetRequest) : option sessionSetRequest :=
  user ← (if String.eqb k "user_id" then dec_string v (set_UserID r) else Some (set_UserID r));
  token ← (if String.eqb k "token" then dec_string v (set_Token r) else Some (set_Token r));
  device ← (if String.eqb k "device_id" then dec_string v (set_Device r) else Some (set_Device r));
  data ← (if String.eqb k "data" then dec_map v (set_Payload r) else Some (set_Payload r));
  Some (MkSetRequest user token device data).
Definition Unmarshal_set (s : string) : option sessionSetRequest :=
  v ← parse s;
  let zero := MkSetRequest "" "" "" None in
  match v with JNull => Some zero | JObj m => dec_members assign_set m zero | _ => None end.

(** A member left out when empty. *)
Definition omitempty (name value : string) : list (string * json) :=
  if String.eqb value "" then [] else [(name, JStr value)].
Definition sessionToRedisResponse `{TimeZone} (s : Session) : json :=
  JObj ([("id", JStr (ID s)); ("user_id", JStr (UserID s))] ++
    omitempty "device_id" (DeviceID s) ++ omitempty "ip_address" (IPAddress s) ++
    omitempty "user_agent" (UserAgent s) ++
    [("created_at", JStr (RFC3339 (CreatedAt s))); ("expires_at", JStr (RFC3339 (ExpiresAt s)));
      ("last_active", JStr (RFC3339 (LastActive s)))] ++
    omitempty "last_access_ip" (LastAccessIP s) ++
    match Data s with None => [] | Some m => if bool_decide (m = ∅) then [] else [("data", enc_map (Data s))] end)%list.
(** The members of a [map[string]any] are printed in key order. *)
Definition create_reply `{TimeZone} (r : CreateSessionResponse) : json :=
  JObj [("expires_at", JStr (RFC3339 (cr_ExpiresAt r))); ("session_id", JStr (cr_SessionID r));
        ("token", JStr (cr_Token r))].

(** ** Permissions *)
Definition checkPermission (st : ConnState) (cmdName : string) : bool :=
  match cs_APIKey st with
  | None => false
  | Some key =>
      let role := info_Role key in
      let named := String.eqb cmdName in
      if String.eqb role "admin" then true
      else if named "GET" || named "TTL" || named "EXISTS" || named "SCAN" || named "TM.VALIDATE" || named "TM.TOUCH"
      then String.eqb role "validator" || String.eqb role "issuer"
      else if named "SET" || named "DEL" || named "EXPIRE" || named "TM.CREATE" || named "TM.REVOKE_USER"
      then String.eqb role "issuer"
      else false
  end.

(** ** Option lists: an error reply or the values *)
Definition not_integer : string := "ERR value is not an integer or out of range".
Fixpoint set_options (opts : list (option string)) (ttl : Z) : string + Z :=
  match opts with
  | [] => inr ttl
  | [_] => inl "ERR syntax error"
  | opt :: v :: opts =>
      if String.eqb (ToUpper (str opt)) "EX" then
        match ParseInt (str v) with
        | None => inl not_integer
        | Some seconds => set_options opts (i64 (seconds * second))
        end
      else set_options opts ttl
  end.
Fixpoint scan_options (opts : list (option string)) (pattern : string) (count : Z) : string + (string * Z) :=
  match opts with
  | [] => inr (pattern, count)
  | [_] => inl "ERR syntax error"
  | opt :: v :: opts =>
      let opt := ToUpper (str opt) in
      if String.eqb opt "MATCH" then scan_options opts (str v) count
      else if String.eqb opt "COUNT" then
        match Atoi (str v) with
        | None => inl not_integer
        | Some c => scan_options opts pattern c
        end
      else scan_options opts pattern count
  end.

Definition wrong_number (cmd : string) : string := "ERR wrong number of arguments for '" +:+ cmd +:+ "' command".

Section Commands.
Context {R K : Type} `{SessionRepository R} `{TokenRepository R} `{APIKeyRepository K}.
Context `{Argon2Lib} `{RateLib} `{UlidLib} `{TimeZone}.

Record CommandHandler := MkHandler {
  h_tokens : TokenService R; h_auth : AuthService K; h_limiter : option rateLimiter }.
(** The handler and the connection it serves. *)
Record Serving := MkServing { handler : CommandHandler; conn : Conn }.

Definition NewCommandHandler (tokens : TokenService R) (auth : AuthService K) (rateLimit : Z) : CommandHandler :=
  MkHandler tokens auth (if 0 <? rateLimit then Some (newRateLimiter rateLimit) else None).

Definition set_handler (h : CommandHandler) (s : Serving) : Serving := MkServing h (conn s).
Definition set_conn (c : Conn) (s : Serving) : Serving := MkServing (handler s) c.
Definition set_tokens (t : TokenService R) (s : Serving) : Serving :=
  set_handler (MkHandler t (h_auth (handler s)) (h_limiter (handler s))) s.
Definition set_auth (a : AuthService K) (s : Serving) : Serving :=
  set_handler (MkHandler (h_tokens (handler s)) a (h_limiter (handler s))) s.
Definition set_limiter (l : option rateLimiter) (s : Serving) : Serving :=
  set_handler (MkHandler (h_tokens (handler s)) (h_auth (handler s)) l) s.

Definition in_tokens {A} (m : M (TokenService R) A) : M Serving A := zoom (fun s => h_tokens (handler s)) set_tokens m.
Definition in_sessions {A} (m : M R A) : M Serving A := in_tokens (zoom ts_repo set_ts_repo m).
Definition in_auth {A} (m : M (AuthService K) A) : M Serving A := zoom (fun s => h_auth (handler s)) set_auth m.
(** Writing to, and reading from, the connection. *)
Definition reply (m : M string unit) : M Serving unit :=
  zoom (fun s => bw (conn s)) (fun w s => set_conn (set_bw w (conn s)) s) m.
Definition receive {A} (m : M string A) : M Serving A :=
  zoom (fun s => br (conn s)) (fun r s => set_conn (set_br r (conn s)) s) m.
Definition fail (text : string) : M Serving unit := reply (WriteError text).

(** ** Connection commands *)
Definition handlePing (args : list (option string)) : M Serving unit :=
  match args with
  | _ :: a :: _ => reply (WriteBulk a)
  | _ => reply (WriteSimpleString "PONG")
  end.

Definition invalid_auth_format : string :=
  "ERR invalid AUTH format, expected 'key_id:key_secret' or 'key_id key_secret'".
(** The key id and secret of the command, or an error reply. *)
Definition auth_args (args : list (option string)) : string + (string * string) :=
  match args with
  | [_; a] =>
      match SplitN2 (str a) ":" with
      | [keyID; keySecret] => inr (keyID, keySecret)
      | _ => inl invalid_auth_format
      end
  | [_; a; b] => inr (str a, str b)
  | _ => inl (wrong_number "AUTH")
  end.
Definition handleAuth (args : list (option string)) : M Serving unit :=
  match auth_args args with
  | inl text => fail text
  | inr (keyID, keySecret) =>
      resp <- in_auth (ValidateAPIKey (MkValidateAPIKeyRequest keyID keySecret "")) ;;
      match resp with
      | Err _ => fail "ERR TM-AUTH-4010 invalid credentials"
      | Ok key =>
          enabled <- APIKey.IsActive key ;;
          upd_st (fun s => set_conn (SetState (MkConnState true
            (Some (MkAPIKeyInfo (KeyID key) (Name key) (Role key) "" enabled 0 0))) (conn s)) s) ;;;
          reply (WriteSimpleString "OK")
      end
  end.

Definition handleQuit (args : list (option string)) : M Serving unit :=
  reply (WriteSimpleString "OK") ;;;
  upd_st (fun s => set_conn (Close (conn s)) s).

(** ** Session commands *)
Definition get_session (sessionID : string) : M Serving (Res Session) := in_sessions (SessionService.Get sessionID).

Definition handleGet (args : list (option string)) : M Serving unit :=
  if negb (llen args =? 2) then fail (wrong_number "GET")
  else
    r <- get_session (arg args 1) ;;
    match r with
    | Err err =>
        if IsDomainError err "TM-SESS-4040" || IsDomainError err "TM-SESS-4041"
        then reply WriteNullBulk else fail (formatRedisError err)
    | Ok session => reply (WriteBulk (Some (print (sessionToRedisResponse session))))
    end.

(** [SET] on a session that is there. *)
Definition set_update (sessionID : string) (req : sessionSetRequest) (ttl : Z) : M Serving unit :=
  if negb (String.eqb (set_Token req) "")
  then fail "ERR TM-ARG-4003 token rotation via SET not supported, recreate session instead"
  else
    r <- in_sessions (SessionService.Update
           (MkUpdateRequest sessionID (set_UserID req) (set_Device req) (set_Payload req) (if 0 <? ttl then ttl else 0))) ;;
    match r with
    | Err err => fail (formatRedisError err)
    | Ok _ => reply (WriteSimpleString "OK")
    end.
(** [SET] on a session that is not. *)
Definition set_create (sessionID : string) (req : sessionSetRequest) (ttl : Z) : M Serving unit :=
  if String.eqb (set_Token req) ""
  then fail "ERR TM-ARG-4001 token is required when creating new session with SET"
  else
    let ttl := if ttl =? 0 then 24 * 3600 * second else ttl in
    r <- in_sessions (CreateWithToken
           (MkCreateWithToken sessionID (set_UserID req) (set_Token req) (set_Device req) (set_Payload req) ttl "" "")) ;;
    match r with
    | Err err => fail (formatRedisError err)
    | Ok _ => reply (WriteSimpleString "OK")
    end.
Definition handleSet (args : list (option string)) : M Serving unit :=
  if llen args <? 3 then fail (wrong_number "SET")
  else
    match set_options (drop 3 args) 0 with
    | inl text => fail text
    | inr ttl =>
        match Unmarshal_set (arg args 2) with
        | None => fail "ERR invalid JSON value"
        | Some req =>
            existing <- get_session (arg args 1) ;;
            match existing with
            | Ok _ => set_update (arg args 1) req ttl
            | Err err =>
                if IsDomainError err "TM-SESS-4040" then set_create (arg args 1) req ttl
                else fail (formatRedisError err)
            end
        end
    end.

(** How many of the keys the operation succeeds on. *)
Definition count_ok {A} (op : string -> M Serving (Res A)) (keys : list (option string)) : M Serving Z :=
  hits <- for_collect keys (fun key => r <- op (str key) ;; ret (match r with Ok _ => Some tt | Err _ => None end)) ;;
  ret (llen hits).
Definition handleDel (args : list (option string)) : M Serving unit :=
  if llen args <? 2 then fail (wrong_number "DEL")
  else if 1001 <? llen args then fail "ERR TM-ARG-4002 maximum 1000 keys per DEL command"
  else
    deleted <- count_ok (fun id => in_sessions (Revoke id)) (tail args) ;;
    reply (WriteInteger deleted).
Definition handleExists (args : list (option string)) : M Serving unit :=
  if llen args <? 2 then fail (wrong_number "EXISTS")
  else
    count <- count_ok get_session (tail args) ;;
    reply (WriteInteger count).

Definition handleExpire (args : list (option string)) : M Serving unit :=
  if negb (llen args =? 3) then fail (wrong_number "EXPIRE")
  else
    match ParseInt (arg args 2) with
    | None => fail not_integer
    | Some seconds =>
        r <- in_sessions (Renew (arg args 1) (i64 (seconds * second))) ;;
        match r with
        | Ok _ => reply (WriteInteger 1)
        | Err err =>
            if IsDomainError err "TM-SESS-4040" then reply (WriteInteger 0) else fail (formatRedisError err)
        end
    end.

Definition handleTTL (args : list (option string)) : M Serving unit :=
  if negb (llen args =? 2) then fail (wrong_number "TTL")
  else
    r <- get_session (arg args 1) ;;
    match r with
    | Err err =>
        if IsDomainError err "TM-SESS-4040" then reply (WriteInteger (-2)) else fail (formatRedisError err)
    | Ok session =>
        if ExpiresAt session =? 0 then reply (WriteInteger (-1))
        else
          now <- time_now ;;
          let remaining := time_sub (ExpiresAt session * 1000000) now in
          reply (WriteInteger (if remaining <? 0 then -2 else f64_to_i64 (Seconds remaining)))
    end.

(** [None] is a panic. *)
Definition handleScan (args : list (option string)) : M Serving (option unit) :=
  let done (m : M Serving unit) : M Serving (option unit) := m ;;; ret (Some tt) in
  if llen args <? 2 then done (fail (wrong_number "SCAN"))
  else
    match ParseInt (arg args 1) with
    | None => done (fail "ERR invalid cursor")
    | Some cursor =>
        match scan_options (drop 2 args) "" 10 with
        | inl text => done (fail text)
        | inr (pattern, count) =>
            r <- in_sessions (SessionService.List
                   (MkFilter "" "" "" "" "" None None None "" "" (i64 (cursor + 1)) count)) ;;
            match r with
            | None => ret None
            | Some (Err err) => done (fail (formatRedisError err))
            | Some (Ok resp) =>
                let found := if negb (String.eqb pattern "") && negb (String.eqb pattern "*")
                             then List.filter (fun item => matchGlob pattern (ID item)) (l_Items resp)
                             else l_Items resp in
                let nextCursor := if llen (l_Items resp) =? count then FormatInt (i64 (cursor + 1)) else "0" in
                done (reply (WriteArrayHeader 2 ;;; WriteBulkString nextCursor ;;; WriteArrayHeader (llen found) ;;;
                             for_range found (fun item => WriteBulkString (ID item))))
            end
        end
    end.

(** ** Extensions *)
Definition create_ttl (args : list (option string)) : option Z :=
  if (5 <=? llen args) && String.eqb (ToUpper (arg args 3)) "TTL" then
    match ParseInt (arg args 4) with None => None | Some seconds => Some (i64 (seconds * second)) end
  else Some (24 * 3600 * second).
Definition handleTMCreate (args : list (option string)) : M Serving unit :=
  if llen args <? 3 then fail (wrong_number "TM.CREATE")
  else
    match create_ttl args with
    | None => fail not_integer
    | Some ttl =>
        match Unmarshal_set (arg args 2) with
        | None => fail "ERR invalid JSON value"
        | Some req =>
            r <- in_sessions (CreateWithID
                   (MkCreateWithID (arg args 1) (set_UserID req) (set_Device req) (set_Payload req) ttl "" "")) ;;
            match r with
            | Err err => fail (formatRedisError err)
            | Ok resp => reply (WriteBulk (Some (print (create_reply resp))))
            end
        end
    end.

Definition handleTMValidate (args : list (option string)) : M Serving unit :=
  if (llen args <? 2) || (3 <? llen args) then fail (wrong_number "TM.VALIDATE")
  else
    let touch := llen args =? 3 in
    if touch && negb (String.eqb (ToUpper (arg args 2)) "TOUCH")
    then fail "ERR syntax error, expected 'TOUCH' option"
    else
      s <- get_st ;;
      r <- in_tokens (TokenService.Validate
             (MkValidateTokenRequest (arg args 1) touch (client_ip (remoteAddr (conn s))) "")) ;;
      match r with
      | (resp, None) =>
          if Valid resp then reply (WriteSimpleString "OK") else fail "ERR TM-TOKN-4010 Token invalid"
      | (_, Some _) => fail "ERR TM-TOKN-4010 Token invalid"
      end.

Definition handleTMTouch (args : list (option string)) : M Serving unit :=
  if negb (llen args =? 2) then fail (wrong_number "TM.TOUCH")
  else
    s <- get_st ;;
    r <- in_sessions (SessionService.Touch (arg args 1) (client_ip (remoteAddr (conn s)))) ;;
    match r with
    | Ok lastActive => reply (WriteInteger lastActive)
    | Err err =>
        if IsDomainError err "TM-SESS-4040" || IsDomainError err "TM-SESS-4041"
        then fail "ERR TM-SESS-4040 Session not found" else fail (formatRedisError err)
    end.

Definition handleTMRevokeUser (args : list (option string)) : M Serving unit :=
  if negb (llen args =? 2) then fail (wrong_number "TM.REVOKE_USER")
  else
    r <- in_sessions (RevokeByUser (arg args 1)) ;;
    match r with
    | Err err => fail (formatRedisError err)
    | Ok count => reply (WriteInteger count)
    end.

(** ** Dispatch *)
Definition rate_allows : M Serving bool :=
  s <- get_st ;;
  match h_limiter (handler s) with
  | None => ret true
  | Some rl =>
      r <- with_local rl (allow (client_ip (remoteAddr (conn s)))) ;;
      upd_st (set_limiter (Some (snd r))) ;;; ret (fst r)
  end.

Definition run_command (cmdName : string) (args : list (option string)) : M Serving (option unit) :=
  let done (m : M Serving unit) : M Serving (option unit) := m ;;; ret (Some tt) in
  let named := String.eqb cmdName in
  if named "GET" then done (handleGet args)
  else if named "SET" then done (handleSet args)
  else if named "DEL" then done (handleDel args)
  else if named "EXPIRE" then done (handleExpire args)
  else if named "TTL" then done (handleTTL args)
  else if named "EXISTS" then done (handleExists args)
  else if named "SCAN" then handleScan args
  else if named "TM.CREATE" then done (handleTMCreate args)
  else if named "TM.VALIDATE" then done (handleTMValidate args)
  else if named "TM.TOUCH" then done (handleTMTouch args)
  else if named "TM.REVOKE_USER" then done (handleTMRevokeUser args)
  else done (fail ("ERR unknown command '" +:+ cmdName +:+ "'")).

Definition Handle (args : list (option string)) : M Serving (option unit) :=
  let done (m : M Serving unit) : M Serving (option unit) := m ;;; ret (Some tt) in
  match args with
  | [] => done (fail "ERR no command")
  | name :: _ =>
      let cmdName := normalizeCommandName name in
      if String.eqb cmdName "PING" then done (handlePing args)
      else if String.eqb cmdName "AUTH" then done (handleAuth args)
      else if String.eqb cmdName "QUIT" then done (handleQuit args)
      else
        s <- get_st ;;
        if negb (Authenticated (state (conn s))) then done (fail "NOAUTH Authentication required")
        else
          allowed <- rate_allows ;;
          if negb allowed then done (fail "ERR TM-RATE-4290 rate limit exceeded")
          else if negb (checkPermission (state (conn s)) cmdName)
          then done (fail ("ERR TM-AUTH-4030 permission denied for command '" +:+ cmdName +:+ "'"))
          else run_command cmdName args
  end.

(** ** The connection loop: reading stops at the end of the stream, at an
    error, and when the connection has been closed.  The outer [None] is a
    loop that is still going when the fuel runs out, the inner one a panic. *)
Fixpoint serve_loop (fuel : nat) : M Serving (option (option unit)) :=
  match fuel with
  | O => ret None
  | S fuel' =>
      s <- get_st ;;
      if closed (conn s) then ret (Some (Some tt))
      else if String.eqb (br (conn s)) "" then ret (Some (Some tt))
      else
        r <- receive ReadCommand ;;
        match r with
        | Err err =>
            (if errors_is err EOF then ret tt
             else if errors_is err ErrLimitExceeded then fail "ERR protocol limit exceeded"
             else fail ("ERR protocol error: " +:+ Error err)) ;;;
            ret (Some (Some tt))
        | Ok [] => fail "ERR no command" ;;; serve_loop fuel'
        | Ok args =>
            done <- Handle args ;;
            match done with
            | None => ret (Some None)
            | Some _ => serve_loop fuel'
            end
        end
  end.
(** Every round reads at least a byte of the input. *)
Definition serveConn : M Serving (option (option unit)) :=
  s <- get_st ;;
  r <- serve_loop (S (String.length (br (conn s)))) ;;
  upd_st (fun s => set_conn (Close (conn s)) s) ;;; ret r.
End Commands.
