(* ===== verification/RedisSpec.v ===== *)
(** What the Redis server promises: no session command without an accepted key
    and the permission of its role, the end of every connection, and, over the
    in-memory store, what [SET], [TM.VALIDATE] and [SCAN] do for a client. *)

From Stdlib Require Import Ascii String.
From stdpp Require Import list strings gmap fin_maps.
From S2P Require Import Prelude Errors GoStrings Strconv Float64 GoTime Json APIKey AuthService.
From S2P Require Import Session MemoryStore TokenService WalCodec SessionService Resp RespSpec.
From S2P Require Import Glob Redis.

Open Scope string_scope.
Open Scope Z_scope.

Section Access.
Context {R K : Type} `{SessionRepository R} `{TokenRepository R} `{APIKeyRepository K}.
Context `{Argon2Lib} `{RateLib} `{UlidLib} `{TimeZone}.
#[local] Abbreviation Serving := (@Serving R K _).

(** ** What the parts of a command leave alone *)
Definition tokens_are (t : TokenService R) (s : Serving) : Prop := h_tokens (handler s) = t.

Lemma reply_tokens t m : preserves (tokens_are t) (reply (R := R) (K := K) m).
Proof. intros s e Hs; unfold reply, zoom; by destruct (m _ e) as [[? ?] ?]. Qed.
Lemma fail_tokens t text : preserves (tokens_are t) (fail (R := R) (K := K) text).
Proof. apply reply_tokens. Qed.
Lemma with_local_keeps {S T A} (I : S -> Prop) (t : T) (m : M T A) : preserves I (with_local t m).
Proof. intros s e Hs; unfold with_local; by destruct (m t e) as [[? ?] ?]. Qed.
#[local] Hint Resolve reply_tokens fail_tokens with_local_keeps : go.
Lemma rate_allows_tokens t : preserves (tokens_are t) (rate_allows (R := R) (K := K)).
Proof. unfold rate_allows; preserves_tac. Qed.
#[local] Hint Resolve rate_allows_tokens : go.

(** A property of the connection that writing to it does not disturb survives
    every session command. *)
Section Quiet.
Context (I : Conn -> Prop) (HI : forall w c, I c -> I (set_bw w c)).
Definition conn_in (s : Serving) : Prop := I (conn s).

Lemma reply_conn m : preserves conn_in (reply (R := R) (K := K) m).
Proof. intros s e Hs; unfold reply, zoom; destruct (m _ e) as [[? ?] ?]; by apply HI. Qed.
Lemma fail_conn text : preserves conn_in (fail (R := R) (K := K) text).
Proof. apply reply_conn. Qed.
Lemma in_tokens_conn {A} (m : M _ A) : preserves conn_in (in_tokens (K := K) m).
Proof. intros s e Hs; unfold in_tokens, zoom; by destruct (m _ e) as [[? ?] ?]. Qed.
Lemma in_sessions_conn {A} (m : M R A) : preserves conn_in (in_sessions (K := K) m).
Proof. apply in_tokens_conn. Qed.
Lemma in_auth_conn {A} (m : M _ A) : preserves conn_in (in_auth (R := R) m).
Proof. intros s e Hs; unfold in_auth, zoom; by destruct (m _ e) as [[? ?] ?]. Qed.
Lemma get_session_conn id : preserves conn_in (get_session (K := K) id).
Proof. apply in_tokens_conn. Qed.
#[local] Hint Resolve reply_conn fail_conn in_tokens_conn in_sessions_conn in_auth_conn get_session_conn : go.
Lemma count_ok_conn {A} (op : string -> M Serving (Res A)) keys :
  (forall id, preserves conn_in (op id)) -> preserves conn_in (count_ok op keys).
Proof. intros Hop; unfold count_ok; preserves_tac; apply Hop. Qed.
Lemma rate_allows_conn : preserves conn_in (rate_allows (R := R) (K := K)).
Proof. unfold rate_allows; preserves_tac. Qed.
#[local] Hint Resolve count_ok_conn rate_allows_conn : go.

Lemma run_command_conn name args : preserves conn_in (run_command (R := R) (K := K) name args).
Proof.
  unfold run_command, handleGet, handleSet, set_update, set_create, handleDel, handleExists, handleExpire, handleTTL,
    handleScan, handleTMCreate, handleTMValidate, handleTMTouch, handleTMRevokeUser; preserves_tac.
Qed.
Lemma handlePing_conn args : preserves conn_in (handlePing (R := R) (K := K) args).
Proof. unfold handlePing; preserves_tac. Qed.

(** And every command, if authentication and closing do not disturb it either. *)
Lemma Handle_conn args : (forall st c, I c -> I (SetState st c)) -> (forall c, I c -> I (Close c)) ->
  preserves conn_in (Handle (R := R) (K := K) args).
Proof.
  intros Hst Hcl; unfold Handle, handleAuth, handleQuit; destruct args as [|name args]; [preserves_tac|].
  assert (forall key : APIKey, preserves conn_in (APIKey.IsActive key)) by (intros; unfold APIKey.IsActive, APIKey.IsExpired; preserves_tac).
  pose proof (fun n a => run_command_conn n a) as Hrun; pose proof (fun a => handlePing_conn a) as Hping.
  preserves_tac; try (apply preserves_upd_st; intros ? ?); eauto; unfold conn_in in *; cbn; auto.
Qed.
End Quiet.

#[local] Hint Resolve reply_conn fail_conn in_tokens_conn in_sessions_conn in_auth_conn rate_allows_conn : go.

(** ** Access *)

(** The connection presented a key that the authentication service accepted. *)
Definition accepted (args : list (option string)) (s : Serving) (e : env) (st : ConnState) : Prop :=
  exists keyID secret key a' e' enabled,
    auth_args args = inr (keyID, secret) /\
    ValidateAPIKey (MkValidateAPIKeyRequest keyID secret "") (h_auth (handler s)) e = (Ok key, a', e') /\
    st = MkConnState true (Some (MkAPIKeyInfo (KeyID key) (Name key) (Role key) "" enabled 0 0)).

Lemma handleAuth_access args s e : let '(_, s', _) := handleAuth args s e in
  h_tokens (handler s') = h_tokens (handler s) /\
  (state (conn s') = state (conn s) \/ accepted args s e (state (conn s'))).
Proof.
  unfold handleAuth; destruct (auth_args args) as [text|[keyID secret]] eqn:Ea; [by split; [|left]|].
  unfold in_auth at 1, zoom, bind at 1.
  destruct (ValidateAPIKey _ (h_auth (handler s)) e) as [[[key|err] a'] e'] eqn:Ev; [|by split; [|left]].
  unfold bind; destruct (APIKey.IsActive key _ e') as [[enabled s1] e1] eqn:Ei.
  assert (s1 = set_auth a' s) as ->.
  { unfold APIKey.IsActive in Ei; revert Ei; unfold APIKey.IsExpired, bind, ret, now_milli, time_now; cbn; repeat case_match; intros; by simplify_eq. }
  cbn; split; [done|]; right; by exists keyID, secret, key, a', e', enabled.
Qed.

(** What a role may do. *)
Definition reading : list string := ["GET"; "TTL"; "EXISTS"; "SCAN"; "TM.VALIDATE"; "TM.TOUCH"].
Definition writing : list string := ["SET"; "DEL"; "EXPIRE"; "TM.CREATE"; "TM.REVOKE_USER"].
Definition may (st : ConnState) (cmd : string) : Prop :=
  Authenticated st = true /\ exists key, cs_APIKey st = Some key /\
  (info_Role key = "admin" \/ (info_Role key = "issuer" /\ cmd ∈ (reading ++ writing)%list) \/
   (info_Role key = "validator" /\ cmd ∈ reading)).
Lemma checkPermission_may st cmd : Authenticated st = true -> checkPermission st cmd = true -> may st cmd.
Proof.
  intros Ha; unfold checkPermission; destruct (cs_APIKey st) as [key|] eqn:Ek; [|done]; intros Hp; split; [done|].
  exists key; split; [done|]; destruct (String.eqb_spec (info_Role key) "admin") as [->|_]; [by left|right].
  destruct (_ || String.eqb cmd "TM.TOUCH") eqn:Er.
  - rewrite !orb_true_iff, !String.eqb_eq in Er.
    assert (cmd ∈ reading) by (unfold reading; destruct_or!; subst; set_solver).
    apply orb_true_iff in Hp as [Hp|Hp]; apply String.eqb_eq in Hp; [by right|left; set_solver].
  - destruct (_ || String.eqb cmd "TM.REVOKE_USER") eqn:Ew; [|done]; left; apply String.eqb_eq in Hp; split; [done|].
    rewrite !orb_true_iff, !String.eqb_eq in Ew; unfold reading, writing; destruct_or!; subst; set_solver.
Qed.

(** C31: Authentication and permissions: a command changes the state of the
    connection only as an AUTH whose key and secret the authentication service
    accepted, to the role of that key; and it reaches the sessions only on a
    connection that is authenticated: as an admin, as an issuer for the eleven session commands,
    as a validator for the six that read or touch. *)
Theorem Handle_guarded args (s : Serving) e : let '(_, s', _) := Handle args s e in
  (state (conn s') = state (conn s) \/ (normalizeCommandName (default None (head args)) = "AUTH" /\ accepted args s e (state (conn s')))) /\
  (h_tokens (handler s') = h_tokens (handler s) \/
    may (state (conn s)) (normalizeCommandName (default None (head args)))).
Proof.
  assert (forall m : M Serving (option unit), preserves (conn_in (fun c => state c = state (conn s))) m -> preserves (tokens_are (h_tokens (handler s))) m ->
    let '(_, s', _) := m s e in state (conn s') = state (conn s) /\ h_tokens (handler s') = h_tokens (handler s)) as Hquiet.
  { intros m H1' H2'; specialize (H1' s e eq_refl); specialize (H2' s e eq_refl); destruct (m s e) as [[? ?] ?]; by split. }
  unfold Handle; destruct args as [|name args]; [by split; left|]; cbn [head default from_option id].
  set (cmd := normalizeCommandName name).
  destruct (String.eqb cmd "PING").
  { specialize (Hquiet (handlePing (name :: args) ;;; ret (Some tt))); unfold handlePing in *.
    destruct (bind _ _ s e) as [[? s'] ?]; destruct Hquiet as [? ?]; [preserves_tac..|]; by split; left. }
  destruct (String.eqb_spec cmd "AUTH") as [Hcmd|_].
  { unfold bind; pose proof (handleAuth_access (name :: args) s e) as Ha; destruct (handleAuth _ s e) as [[? s'] ?].
    destruct Ha as [Ht [Hst|Hacc]]; (split; [|by left]); [by left|by right]. }
  destruct (String.eqb cmd "QUIT").
  { specialize (Hquiet (handleQuit (R := R) (K := K) (name :: args) ;;; ret (Some tt))); unfold handleQuit in *.
    destruct (bind _ _ s e) as [[? s'] ?]; destruct Hquiet as [? ?]; [preserves_tac..|]; by split; left. }
  erewrite bind_run by reflexivity; destruct (Authenticated (state (conn s))) eqn:Hauth; cbn [negb].
  2:{ specialize (Hquiet (fail "NOAUTH Authentication required" ;;; ret (Some tt))).
      destruct (bind _ _ s e) as [[? s'] ?]; destruct Hquiet as [? ?]; [preserves_tac..|]; by split; left. }
  destruct (checkPermission (state (conn s)) cmd) eqn:Hperm; cbn [negb].
  - match goal with |- context [bind ?m ?k s e] => assert (preserves (conn_in (fun c => state c = state (conn s))) (bind m k)) as Hst end.
    { preserves_tac; by apply run_command_conn. }
    specialize (Hst s e eq_refl); destruct (bind _ _ s e) as [[? s'] ?]; split; [by left|right; by apply checkPermission_may].
  - match goal with |- context [bind ?m ?k s e] => specialize (Hquiet (bind m k)) end.
    destruct (bind _ _ s e) as [[? s'] ?]; destruct Hquiet as [? ?]; [preserves_tac..|]; by split; left.
Qed.

(** ** Allowlists *)
Lemma no_ip_refused (l l' : list string) : l <> [] -> exists err, checkIPAllowlist l "" l' = Some err.
Proof. by destruct l; [|eexists]. Qed.

(** A configured global allowlist refuses whoever has no address. *)
Definition has_allowlist (a : AuthService K) : Prop := globalAllow a <> [].
Definition no_key {A} (key_of : A -> option APIKey) (r : A) (a : AuthService K) : Prop := has_allowlist a /\ key_of r = None.
Definition hit_key (r : option (Res APIKey)) : option APIKey := match r with Some (Ok key) => Some key | _ => None end.
Definition res_key (r : Res APIKey) : option APIKey := match r with Ok key => Some key | Err _ => None end.

Lemma cached_without_ip id secret :
  hoare has_allowlist (validate_cached (MkValidateAPIKeyRequest id secret "")) (no_key hit_key).
Proof.
  unfold validate_cached; eapply hoare_bind.
  { apply (preserves_zoom _ _ has_allowlist (fun _ => True)); [done..|]. by intros c e _; destruct (Cache.Get _ c e) as [[? ?] ?]. }
  intros [cached|]; [|by apply hoare_ret]. eapply hoare_bind; [apply preserves_IsInGracePeriod|intros grace].
  destruct (verifySecretHash _ _ _ _); [|by apply hoare_ret]. eapply hoare_bind; [apply preserves_IsActive|intros active].
  apply (hoare_bind _ _ _ (fun _ => has_allowlist)); [match goal with |- hoare ?P ?m _ => change (preserves P m) end; unfold APIKey.IsExpired; preserves_tac|].
  intros [err|]; [by apply hoare_ret|]; intros a e Ha; erewrite bind_run by reflexivity; cbn [vreq_ClientIP].
  by destruct (no_ip_refused (globalAllow a) (Allowlist cached) Ha) as [err ->].
Qed.
Lemma read_without_ip id secret :
  hoare has_allowlist (validate_read (MkValidateAPIKeyRequest id secret "")) (no_key res_key).
Proof.
  unfold validate_read; eapply hoare_bind.
  { apply (preserves_zoom _ _ has_allowlist (fun _ => True)); [done..|]. by intros c e _; destruct (AuthService.repo_Get _ c e) as [[? ?] ?]. }
  intros [key|err]; [|by apply hoare_ret]; destruct (negb _); [by apply hoare_ret|].
  apply (hoare_bind _ _ _ (fun _ => has_allowlist)); [match goal with |- hoare ?P ?m _ => change (preserves P m) end; unfold APIKey.IsExpired; preserves_tac|].
  intros [|]; [by apply hoare_ret|]; intros a e Ha; erewrite bind_run by reflexivity; cbn [vreq_ClientIP].
  by destruct (no_ip_refused (globalAllow a) (Allowlist key) Ha) as [err ->].
Qed.
Lemma validate_without_ip id secret :
  hoare has_allowlist (ValidateAPIKey (MkValidateAPIKeyRequest id secret "")) (no_key res_key).
Proof.
  unfold ValidateAPIKey; eapply hoare_bind; [apply cached_without_ip|]; intros [[key|err]|]; [by intros a e [_ ?]|by apply hoare_ret|].
  eapply (hoare_conseq has_allowlist); [|by intros a [? _]|done].
  eapply hoare_bind; [apply read_without_ip|]; intros [key|err]; [by intros a e [_ ?]|by apply hoare_ret].
Qed.

(** Once a global allowlist is configured nobody can authenticate over this
    protocol, whatever their address and key: AUTH passes no client address
    to the authentication service, which refuses an empty one. *)
Theorem allowlist_blocks_auth args (s : Serving) e : globalAllow (h_auth (handler s)) <> [] ->
  let '(_, s', _) := Handle (Some "AUTH" :: args) s e in
  state (conn s') = state (conn s) /\ exists text, bw (conn s') = bw (conn s) +:+ "-ERR " +:+ text +:+ CRLF.
Proof.
  intros Hg; unfold Handle; change (normalizeCommandName (Some "AUTH")) with "AUTH"; cbn [String.eqb Ascii.eqb Bool.eqb].
  unfold bind at 1, handleAuth; destruct (auth_args _) as [text|[id secret]] eqn:Ea.
  { split; [done|]; unfold auth_args in Ea; repeat case_match; simplify_eq; eexists; reflexivity. }
  pose proof (validate_without_ip id secret (h_auth (handler s)) e Hg) as Hv; unfold in_auth, zoom, bind.
  destruct (ValidateAPIKey _ _ e) as [[[key|err] a] e']; [by destruct Hv|].
  split; [done|]; by exists "TM-AUTH-4010 invalid credentials".
Qed.

(** ** The connection loop *)

(** Reading a command consumes input, unless there was none. *)
Lemma receive_consumes (s : Serving) e : br (conn s) <> "" -> let '(r, s', _) := receive (R := R) (K := K) ReadCommand s e in
  handler s' = handler s /\ (String.length (br (conn s')) < String.length (br (conn s)))%nat.
Proof.
  intros Hne; unfold receive, zoom; pose proof (ReadCommand_progress (br (conn s)) e Hne) as Hp.
  destruct (ReadCommand _ e) as [[r b] e']; by split.
Qed.

Definition input_is (b : string) (s : Serving) : Prop := br (conn s) = b.

Lemma serve_loop_ends fuel : forall (s : Serving) e, (String.length (br (conn s)) < fuel)%nat ->
  fst (fst (serve_loop fuel s e)) <> None.
Proof.
  induction fuel as [|fuel IH]; intros s e Hf; [lia|]; cbn [serve_loop]; erewrite bind_run by reflexivity.
  destruct (closed (conn s)); [done|]; destruct (String.eqb_spec (br (conn s)) "") as [_|Hne]; [done|].
  pose proof (receive_consumes s e Hne) as Hr; destruct (receive ReadCommand s e) as [[r s1] e1] eqn:Er.
  erewrite bind_run by exact Er; destruct Hr as [_ Hlt]; destruct r as [args|err].
  - destruct args as [|a args].
    + assert (preserves (input_is (br (conn s1))) (fail (R := R) (K := K) "ERR no command")) as Hp by (by apply (fail_conn (fun c => br c = br (conn s1)))).
      specialize (Hp s1 e1 eq_refl); unfold bind; destruct (fail _ s1 e1) as [[? s2] e2]; apply IH.
      unfold input_is in Hp; rewrite Hp; lia.
    + assert (preserves (input_is (br (conn s1))) (Handle (R := R) (K := K) (a :: args))) as Hp by (by apply (Handle_conn (fun c => br c = br (conn s1)))).
      specialize (Hp s1 e1 eq_refl); unfold bind; destruct (Handle _ s1 e1) as [[d s2] e2]; destruct d; [|done].
      apply IH; unfold input_is in Hp; rewrite Hp; lia.
  - unfold bind; match goal with |- context [(if ?b then ?x else ?y) s1 e1] => by destruct ((if b then x else y) s1 e1) as [[? ?] ?] end.
Qed.

(** C36: Every connection comes to an end, whatever bytes it sends, with the
    connection closed: the loop reads at least a byte per round. *)
Theorem serve_terminates (s : Serving) e : let '(r, s', _) := serveConn s e in r <> None /\ closed (conn s') = true.
Proof.
  unfold serveConn; erewrite bind_run by reflexivity.
  pose proof (serve_loop_ends (S (String.length (br (conn s)))) s e ltac:(lia)) as Hend.
  destruct (serve_loop _ s e) as [[r s1] e1] eqn:E; erewrite bind_run by exact E; by split.
Qed.
End Access.
