(* ===== verification/RedisClient.v ===== *)
(** What a client of the Redis server sees, over the in-memory store: the life
    of a session from [SET] through [TM.VALIDATE] to [DEL], and what [SCAN]
    returns page by page. *)

From Stdlib Require Import Ascii String Sorting.Sorted.
From stdpp Require Import list strings gmap fin_maps.
From S2P Require Import Prelude Errors GoStrings Strconv Float64 GoTime Json APIKey AuthService.
From S2P Require Import Token Session MemoryStore MemoryStoreFacts MemoryStoreSpec TokenService.
From S2P Require Import WalCodec.
From S2P Require Import SessionService SessionServiceSpec Resp RespSpec Glob Redis RedisSpec.

Open Scope string_scope.
Open Scope Z_scope.

(** Runs the first operation of a sequence, whatever it gives. *)
Ltac run_step :=
  match goal with
  | |- bind ?m _ ?s ?e = _ -> _ => let E := fresh "E" in destruct (m s e) as [[? ?] ?] eqn:E; rewrite (bind_run _ _ _ _ _ _ _ E)
  end.
Ltac run_case := match goal with |- (match ?x with _ => _ end) _ _ = _ -> _ => destruct x end.

Section Client.
Context {K : Type} `{APIKeyRepository K} `{Argon2Lib} `{RateLib} `{UlidLib} `{TimeZone}.
#[local] Abbreviation Serving := (@Serving Store K _).

Definition store_of (s : Serving) : Store := ts_repo (h_tokens (handler s)).
Definition with_store (r : Store) (s : Serving) : Serving := set_tokens (set_ts_repo r (h_tokens (handler s))) s.
Definition with_reply (text : string) (s : Serving) : Serving := set_conn (set_bw (bw (conn s) +:+ text) (conn s)) s.

(** ** Running the parts of a command *)
Lemma with_store_same s : with_store (store_of s) s = s.
Proof. by destruct s as [[[] ? ?] ?]. Qed.
Lemma store_of_with r s : store_of (with_store r s) = r.
Proof. done. Qed.
Lemma in_sessions_run {A} (m : M Store A) (s : Serving) e a r e' :
  m (store_of s) e = (a, r, e') -> in_sessions m s e = (a, with_store r s, e').
Proof. intros E; unfold in_sessions, in_tokens, zoom; fold (store_of s); by rewrite E. Qed.
Lemma reply_run m (s : Serving) e w : (forall w0 e, m w0 e = (tt, w0 +:+ w, e)) -> reply m s e = (tt, with_reply w s, e).
Proof. intros E; unfold reply, zoom; by rewrite E. Qed.
Lemma fail_run text (s : Serving) e : fail text s e = (tt, with_reply ("-" +:+ text +:+ CRLF) s, e).
Proof. by apply reply_run. Qed.
Lemma simple_run text (s : Serving) e :
  reply (WriteSimpleString text) s e = (tt, with_reply ("+" +:+ text +:+ CRLF) s, e).
Proof. by apply reply_run. Qed.

(** A key that may run the command, and no rate limit. *)
Definition ready (cmd : string) (s : Serving) : Prop :=
  h_limiter (handler s) = None /\ Authenticated (state (conn s)) = true /\ checkPermission (state (conn s)) cmd = true.
Lemma Handle_run cmd args (s : Serving) e : ready cmd s -> normalizeCommandName (Some cmd) = cmd ->
  cmd <> "PING" -> cmd <> "AUTH" -> cmd <> "QUIT" ->
  Handle (Some cmd :: args) s e = run_command cmd (Some cmd :: args) s e.
Proof.
  intros (Hl & Ha & Hp) Hn H1' H2' H3'; unfold Handle; rewrite Hn.
  rewrite !(proj2 (String.eqb_neq _ _)) by done; erewrite bind_run by reflexivity.
  unfold rate_allows; rewrite Ha, Hp; cbn [negb]; erewrite bind_run by (erewrite bind_run by reflexivity; by rewrite Hl).
  done.
Qed.
Lemma ready_store cmd r s : ready cmd (with_store r s) <-> ready cmd s.
Proof. done. Qed.
Lemma ready_reply cmd w s : ready cmd (with_reply w s) <-> ready cmd s.
Proof. done. Qed.

Lemma service_Get_run id (s : Store) e : exists x e', SessionService.Get id s e = (x, s, e').
Proof.
  unfold SessionService.Get; destruct (String.eqb id ""); [by eexists _, _|].
  destruct (Get_run id s e) as (e1 & E1); erewrite bind_run by (cbn; exact E1).
  destruct (sessions s !! id) as [x|]; [|by eexists _, _]; destruct (expired_at (unix_milli (clk e 0%nat)) x); [by eexists _, _|].
  destruct (IsExpired_run x s e1) as (e2 & E2); erewrite bind_run by exact E2.
  destruct (expired_at _ x); [by eexists _, _|]; destruct (IsDeleted x); by eexists _, _.
Qed.

Lemma CreateWithToken_response q (s : Store) e resp s' e' : CreateWithToken q s e = (Ok resp, s', e') ->
  cr_Token resp = ct_Token q /\ cr_SessionID resp = ct_SessionID q /\ ct_SessionID q <> "".
Proof.
  unfold CreateWithToken; destruct (String.eqb_spec (ct_SessionID q) ""); [done|]; repeat (destruct (String.eqb _ ""); [done|]); destruct (negb _); [done|]; destruct (negb _); [done|].
  run_step; run_case; [by intros [=]|]; run_step; unfold finish_create; run_step; run_case; [by intros [=]|].
  run_step; run_case; [by intros [=]|]; intros [= <- _ _]; split; [done|]; split; [cbn [cr_SessionID]|done].
  unfold SetExpiration, named_session, now_milli, bind, time_now, ret in *; by simplify_eq.
Qed.

Lemma app_inj_str a b c : a +:+ b = a +:+ c -> b = c.
Proof. intros E; by rewrite <- (from_app a b), E, from_app. Qed.

(** ** [SET] *)

Definition ok_reply : string := "+OK" +:+ CRLF.
(** When a value with a token is answered by OK, the session was created. *)
Lemma handleSet_creates args req (s s1 : Serving) e e1 :
  Inv (store_of s) -> Unmarshal_set (arg args 2) = Some req -> set_Token req <> "" ->
  handleSet args s e = (tt, s1, e1) -> bw (conn s1) = bw (conn s) +:+ ok_reply ->
  exists resp r1, s1 = with_reply ok_reply (with_store r1 s) /\ Inv r1 /\
    stored (store_of s) r1 (set_UserID req) (Ok resp) /\
    cr_Token resp = set_Token req /\ cr_SessionID resp = arg args 1 /\ arg args 1 <> "".
Proof.
  intros Hinv Hj Ht; unfold handleSet.
  assert (forall text r e0, fail text (with_store r s) e0 = (tt, s1, e1) -> bw (conn s1) <> bw (conn s) +:+ ok_reply) as Hfail.
  { intros text r e0; rewrite fail_run; intros [= <- _]; cbn; intros E%app_inj_str; discriminate. }
  pose proof (fun text => Hfail text (store_of s)) as Hfail0; rewrite with_store_same in Hfail0.
  destruct (llen args <? 3); [intros Ha Hb; by apply Hfail0 in Ha|].
  destruct (set_options _ _) as [text|ttl]; [intros Ha Hb; by apply Hfail0 in Ha|]; rewrite Hj.
  destruct (service_Get_run (arg args 1) (store_of s) e) as (x & e2 & E2).
  erewrite bind_run by (by apply in_sessions_run); rewrite with_store_same.
  destruct x as [x|err].
  { unfold set_update; rewrite (proj2 (String.eqb_neq _ _)) by done; cbn [negb]; intros Ha Hb; by apply Hfail0 in Ha. }
  destruct (IsDomainError err _); [|intros Ha Hb; by apply Hfail0 in Ha].
  unfold set_create; rewrite (proj2 (String.eqb_neq _ _)) by done.
  match goal with |- bind (in_sessions (CreateWithToken ?q)) _ _ _ = _ -> _ => set (req' := q) end.
  destruct (CreateWithToken req' (store_of s) e2) as [[res r1] e3] eqn:E3.
  erewrite bind_run by (by apply in_sessions_run); destruct res as [resp|err']; [|intros Ha Hb; by apply Hfail in Ha].
  rewrite simple_run; intros [= <- _] _; exists resp, r1; pose proof (CreateWithToken_response _ _ _ _ _ _ E3) as (? & ? & ?).
  apply CreateWithToken_stored in E3 as [? ?]; [|done]; by split_ands.
Qed.

(** ** [TM.VALIDATE] and [DEL] *)
Definition validate_args (token : string) : list (option string) := [Some "TM.VALIDATE"; Some token].
Definition del_args (id : string) : list (option string) := [Some "DEL"; Some id].
Definition invalid_reply : string := "-ERR TM-TOKN-4010 Token invalid" +:+ CRLF.

Lemma Validate_untouched token ip ua (t : TokenService Store) e :
  TokenService.Validate (MkValidateTokenRequest token false ip ua) t e = TokenService.Validate (token_request token) t e.
Proof. reflexivity. Qed.
Lemma in_tokens_run {A} (m : M (TokenService Store) A) (s : Serving) e a e' :
  m (h_tokens (handler s)) e = (a, h_tokens (handler s), e') -> in_tokens m s e = (a, s, e').
Proof. intros E; unfold in_tokens, zoom; rewrite E; by destruct s as [[] ?]. Qed.

Definition answer_token (r : ValidateTokenResponse * option error) : M Serving unit :=
  match r with
  | (resp, None) => if Valid resp then reply (WriteSimpleString "OK") else fail "ERR TM-TOKN-4010 Token invalid"
  | (_, Some _) => fail "ERR TM-TOKN-4010 Token invalid"
  end.
Lemma handleTMValidate_plain token (s : Serving) e : handleTMValidate (validate_args token) s e =
  (r <- in_tokens (TokenService.Validate (token_request token)) ;; answer_token r) s e.
Proof. reflexivity. Qed.

(** The answer to a token, from the store's point of view. *)
Lemma validate_reply token (s : Serving) e : Inv (store_of s) -> ready "TM.VALIDATE" s ->
  ValidateTokenFormat token = true ->
  (forall x, store_find (store_of s) (HashToken token) = Some x ->
    IsDeleted x = false /\ forall k, unix_milli (clk e k) <= ExpiresAt x) ->
  exists e', Handle (validate_args token) s e =
    (Some tt, with_reply (match store_find (store_of s) (HashToken token) with
                          | Some _ => ok_reply | None => invalid_reply end) s, e').
Proof.
  intros Hinv Hready Hf Hlive; unfold validate_args; rewrite Handle_run by done; fold (validate_args token).
  cbn [run_command String.eqb Ascii.eqb Bool.eqb].
  destruct (h_tokens (handler s)) as [r c w] eqn:Et; assert (store_of s = r) as Er by (unfold store_of; by rewrite Et).
  rewrite Er in *; destruct (validate_run r c w token e Hinv Hf) as (e1 & e2 & [n Hn] & Hrun).
  exists e2; apply (bind_run _ (fun _ => ret (Some tt)) s e tt); rewrite handleTMValidate_plain.
  erewrite bind_run by (apply in_tokens_run; rewrite Et; exact Hrun).
  destruct (store_find r (HashToken token)) as [x|]; [|apply fail_run]; destruct (Hlive x eq_refl) as [Hd Hexp].
  rewrite !not_expired, Hd by (rewrite ?Hn; apply Hexp); apply simple_run.
Qed.

Lemma del_reply id (s : Serving) e x : sessions (store_of s) !! id = Some x -> id <> "" -> ready "DEL" s ->
  Handle (del_args id) s e = (Some tt, with_reply (":1" +:+ CRLF) (with_store (drop_id id (store_of s)) s), e).
Proof.
  intros Hx Hid Hready; unfold del_args; rewrite Handle_run by done; cbn [run_command String.eqb Ascii.eqb Bool.eqb].
  apply (bind_run _ (fun _ => ret (Some tt)) s e tt); unfold handleDel, count_ok; cbn [tail for_collect].
  change (llen _ <? 2) with false; change (1001 <? llen _) with false; cbn beta iota.
  assert (Revoke id (store_of s) e = (Ok true, drop_id id (store_of s), e)) as Er.
  { unfold Revoke; rewrite (proj2 (String.eqb_neq _ _)) by done; cbn [repo_Delete Store_SessionRepository].
    by erewrite bind_run by (rewrite Delete_run, Hx; reflexivity). }
  apply (in_sessions_run _ s) in Er; change (str (Some id)) with id.
  unfold bind at 1 2 3 4; change (str (Some id)) with id; rewrite Er; apply reply_run; done.
Qed.

(** C20: The life of a session over the wire, for a key that may create, delete and
    validate: after a SET with a token was answered by OK, the token
    validates until the expiry of the session; from the moment a DEL of the
    session was answered, it does not, however early. *)
Theorem session_life id json opts req (s s1 : Serving) e e1 :
  Inv (store_of s) -> ready "SET" s -> ready "DEL" s -> ready "TM.VALIDATE" s ->
  Unmarshal_set json = Some req -> set_Token req <> "" ->
  Handle (Some "SET" :: Some id :: Some json :: opts) s e = (Some tt, s1, e1) ->
  bw (conn s1) = bw (conn s) +:+ ok_reply ->
  exists x, sessions (store_of s) !! id = None /\ sessions (store_of s1) = <[id := x]> (sessions (store_of s)) /\
    UserID x = set_UserID req /\
    (forall e2, (forall k, unix_milli (clk e2 k) <= ExpiresAt x) -> exists e3,
      Handle (validate_args (set_Token req)) s1 e2 = (Some tt, with_reply ok_reply s1, e3)) /\
    (forall e2, exists s2, Handle (del_args id) s1 e2 = (Some tt, s2, e2) /\
      bw (conn s2) = bw (conn s1) +:+ ":1" +:+ CRLF /\ sessions (store_of s2) = sessions (store_of s) /\
      forall e3, exists e4, Handle (validate_args (set_Token req)) s2 e3 = (Some tt, with_reply invalid_reply s2, e4)).
Proof.
  intros Hinv Hset Hdel Hval Hj Ht; rewrite Handle_run by done; cbn [run_command String.eqb Ascii.eqb Bool.eqb].
  destruct (handleSet (Some "SET" :: Some id :: Some json :: opts) s e) as [[[] s2] e2] eqn:Es.
  intros Hrun Hok; rewrite (bind_run _ _ _ _ _ _ _ Es) in Hrun; injection Hrun as <- <-.
  destruct (handleSet_creates (Some "SET" :: Some id :: Some json :: opts) req s s2 e e2 Hinv Hj Ht Es Hok) as (resp & r1 & -> & Hinv1 & Hst & Htok & Hid & Hne).
  change (arg _ 1) with id in Hid, Hne; destruct Hst as (Hnew & Hs1 & Hid' & Hexp & Hf & Hh & Hu & _ & Hd).
  set (x := cr_Session resp) in *; assert (ID x = id) as Hx by congruence; rewrite Hx, Htok in *.
  assert (sessions r1 !! id = Some x) as Hl by (cbn in Hs1; by rewrite Hs1, lookup_insert_eq).
  exists x; split; [done|]; split; [done|]; split; [done|]; split.
  - intros e3 Hclk; destruct (validate_reply (set_Token req) (with_reply ok_reply (with_store r1 s)) e3) as [e4 E4]; auto.
    + intros y; cbn; rewrite <- Hh, find_stored; try done; [by intros [= <-]|congruence|rewrite Hh; apply HashToken_nonempty].
    + exists e4; rewrite E4; cbn; rewrite <- Hh, find_stored; try done; [congruence|rewrite Hh; apply HashToken_nonempty].
  - intros e3; eexists; split; [eapply del_reply; [exact Hl|done..]|]; split; [done|].
    split; [change (sessions (drop_id id r1) = sr_sessions (store_of s)); rewrite sessions_drop_id|].
    { change (sessions r1) with (sr_sessions r1); rewrite Hs1, delete_insert_id; done. }
    intros e4; match goal with |- context [Handle _ ?s2 e4] => destruct (validate_reply (set_Token req) s2 e4) as [e5 E5]; auto end.
    + by apply Inv_drop_id.
    + cbn; rewrite find_revoked; try done; intros y Hy; congruence.
    + exists e5; rewrite E5; cbn; rewrite find_revoked; try done; intros y Hy; congruence.
Qed.

(** ** [SCAN] *)
Definition scan_filter (c n : Z) : SessionFilter := MkFilter "" "" "" "" "" None None None "" "" (i64 (c + 1)) n.
(** The sessions in the order a listing delivers them, whatever the time. *)
Definition listing (s : Store) : list Session := selected s (MkFilter "" "" "" "" "" None None None "created_at" "desc" 1 1) 0.
Definition scan_args (c : Z) (p : string) (n : Z) : list (option string) :=
  [Some "SCAN"; Some (FormatInt c); Some "MATCH"; Some p; Some "COUNT"; Some (FormatInt n)].
Definition scan_text (next : Z) (ids : list string) : string :=
  "*2" +:+ CRLF +:+ bulk_text (Some (FormatInt next)) +:+ "*" +:+ FormatInt (llen ids) +:+ CRLF +:+ args_text (map Some ids).

Lemma service_List_run (s : Store) c n e : Inv s -> 0 <= c -> 1 <= n <= 100 -> (c + 1) * n < 2 ^ 63 ->
  exists total e', SessionService.List (scan_filter c n) s e =
    (Some (Ok (MkListResponse (page_of (listing s) (c + 1) n) total (c + 1) n)), s, e').
Proof.
  intros Hs Hc Hn Hb; unfold SessionService.List, scan_filter, list_defaults; cbn [f_UserID f_DeviceID f_CreatedBy f_IPAddress
    f_Status f_CreatedAfter f_CreatedBefore f_ActiveAfter f_SortBy f_SortOrder f_Page f_PageSize String.eqb].
  rewrite (i64_id (c + 1)) by (unfold in_i64; nia).
  rewrite !(proj2 (Z.eqb_neq _ 0)), (proj2 (Z.ltb_ge 100 n)) by lia.
  match goal with |- context [repo_List ?f] => destruct (List_run f s e) as [e' Hrun]; set (f' := f) in * end.
  assert (selected s f' (unix_milli (clk e 0%nat)) = listing s) as Hall.
  { unfold selected, listing, f'; cbn. reflexivity. }
  pose proof (page_exact (listing s) (c + 1) n ltac:(lia) ltac:(lia) Hb) as Hp.
  exists (llen (listing s)), e'; rewrite Hall in Hrun; cbv zeta in Hrun.
  change (f_Page f') with (c + 1) in Hrun; change (f_PageSize f') with n in Hrun.
  unfold norm_page, norm_page_size in Hrun; rewrite (proj2 (Z.ltb_ge _ 1)), (proj2 (Z.leb_gt _ 0)), (proj2 (Z.ltb_ge 100 n)) in Hrun by lia.
  assert (MemoryStore.List f' s e = (Some (page_of (listing s) (c + 1) n, llen (listing s)), s, e')) as E.
  { rewrite Hrun; destruct (page_bounds _ _ _) as [[st en]|]; [by rewrite Hp|by injection Hp as <-]. }
  erewrite bind_run by (cbn [repo_List Store_SessionRepository]; erewrite bind_run by exact E; reflexivity).
  reflexivity.
Qed.

Lemma write_ids_run (l : list Session) w e :
  for_range l (fun item => WriteBulkString (ID item)) w e = (tt, w +:+ args_text (map Some (map ID l)), e).
Proof.
  revert w; induction l as [|x l IH]; intros w; cbn [for_range map args_text]; [unfold ret; by rewrite app_nil_str|].
  erewrite bind_run by apply WriteBulk_text; by rewrite IH, app_assoc_str.
Qed.

(** One call: the page at the cursor, filtered by the pattern, and the next cursor. *)
Lemma scan_reply c p n (s : Serving) e : Inv (store_of s) -> ready "SCAN" s -> p <> "" ->
  0 <= c -> 1 <= n <= 100 -> (c + 1) * n < 2 ^ 63 ->
  let page := page_of (listing (store_of s)) (c + 1) n in
  exists e', Handle (scan_args c p n) s e =
    (Some tt, with_reply (scan_text (if llen page =? n then c + 1 else 0)
       (map ID (List.filter (fun x => matchGlob p (ID x)) page))) s, e').
Proof.
  intros Hinv Hready Hp Hc Hn Hb page; unfold scan_args; rewrite Handle_run by done; fold (scan_args c p n).
  cbn [run_command String.eqb Ascii.eqb Bool.eqb]; unfold handleScan.
  change (llen _ <? 2) with false; change (arg _ 1) with (FormatInt c); cbn beta iota.
  assert (c < 2 ^ 63 - 1) by nia; rewrite ParseInt_Format by (unfold in_i64; lia).
  assert (scan_options (drop 2 (scan_args c p n)) "" 10 = inr (p, n)) as ->.
  { cbn; change (Atoi (str (Some (FormatInt n)))) with (ParseInt (FormatInt n)); by rewrite ParseInt_Format by (unfold in_i64; lia). }
  destruct (service_List_run (store_of s) c n e Hinv Hc Hn Hb) as (total & e' & Hrun); exists e'.
  erewrite bind_run by (by apply in_sessions_run); cbn [l_Items]; rewrite with_store_same; fold page.
  match goal with |- context [WriteArrayHeader (llen ?f)] => assert (f = List.filter (fun x => matchGlob p (ID x)) page) as -> end.
  { destruct (String.eqb_spec p "") as [|_]; [done|]; destruct (String.eqb_spec p "*") as [->|_]; [|done]; cbn [negb andb].
    clear; induction page as [|x l IH]; [done|]; cbn [List.filter]; by rewrite <- IH. }
  set (found := List.filter _ page); rewrite i64_id by (unfold in_i64; lia).
  apply (bind_run _ (fun _ => ret (Some tt)) s e' tt), reply_run; intros w e1; unfold scan_text.
  erewrite bind_run by reflexivity; erewrite bind_run by apply WriteBulk_text; erewrite bind_run by reflexivity.
  rewrite write_ids_run, !app_assoc_str; unfold llen; rewrite length_map.
  by destruct (Z.of_nat (length page) =? n).
Qed.

(** The pages of a list put together. *)
Lemma pages_concat {A} (l : list A) (n k : nat) : (length l < S k * n)%nat ->
  concat (map (fun c => firstn n (skipn (c * n) l)) (seq 0 (S k))) = l.
Proof.
  revert l; induction k as [|k IH]; intros l Hl.
  - cbn; change (skipn 0 l) with l; rewrite app_nil_r, firstn_all2 by lia; done.
  - assert (seq 0 (S (S k)) = 0%nat :: map S (seq 0 (S k))) as -> by (by rewrite seq_shift).
    cbn [map concat]; rewrite map_map, (map_ext _ (fun c => firstn n (skipn (c * n) (skipn n l)))).
    + rewrite (IH (skipn n l)) by (rewrite length_skipn; cbn [Nat.mul] in *; lia); apply firstn_skipn.
    + intros c; by rewrite skipn_skipn, Nat.add_comm.
Qed.

Lemma StronglySorted_strict {A} (R1 R2 : A -> A -> Prop) (l : list A) : StronglySorted R1 l -> NoDup l ->
  (forall x y, x ∈ l -> y ∈ l -> x <> y -> R1 x y -> R2 x y) -> StronglySorted R2 l.
Proof.
  induction 1 as [|x l Hs IH Hx]; intros Hd H12; constructor; apply NoDup_cons in Hd as [Hn Hd].
  - apply IH; [done|]; intros; apply H12; auto; by right.
  - rewrite List.Forall_forall in *; intros y Hy; apply H12; [by left|by right; apply list_elem_of_In| |by apply Hx].
    intros ->; by apply Hn, list_elem_of_In.
Qed.
Lemma length_listing (s : Store) : (length (listing s) <= size (sessions s))%nat.
Proof.
  unfold listing, selected; rewrite (Permutation_length (proj1 (sort_sessions_spec _ _ _))); cbn [String.eqb negb f_UserID].
  etransitivity; [apply List.filter_length_le|]; by rewrite length_map, length_map_to_list.
Qed.

Definition newest_first (x y : Session) : Prop := CreatedAt y < CreatedAt x.

(** C35: Walking the cursors of SCAN from 0 with a COUNT from 1 to 100 and a pattern
    that is not empty, while nothing is written: if no two sessions were created in the
    same millisecond, the pages are the sessions from the newest to the oldest, each
    filtered by the pattern; the cursor comes back to 0 with the last page, and together
    the pages hold every session exactly once.  (With any other COUNT the scan ends too
    early.) *)
Theorem scan_complete (s : Serving) (n : Z) (p : string) :
  Inv (store_of s) -> ready "SCAN" s -> 1 <= n <= 100 -> p <> "" -> Z.of_nat (size (sessions (store_of s))) < 2 ^ 62 ->
  (forall i j x y, sessions (store_of s) !! i = Some x -> sessions (store_of s) !! j = Some y ->
    CreatedAt x = CreatedAt y -> i = j) ->
  exists all, StronglySorted newest_first all /\ (forall x, x ∈ all <-> sessions (store_of s) !! ID x = Some x) /\
    let last := llen all / n in
    let page c := firstn (Z.to_nat n) (skipn (Z.to_nat (c * n)) all) in
    (forall c e, 0 <= c <= last -> exists e', Handle (scan_args c p n) s e =
       (Some tt, with_reply (scan_text (if c =? last then 0 else c + 1)
                   (map ID (List.filter (fun x => matchGlob p (ID x)) (page c)))) s, e')) /\
    concat (map (fun c => page (Z.of_nat c)) (seq 0 (Z.to_nat last + 1))) = all.
Proof.
  intros Hinv Hready Hn Hp Hsize Huniq; set (all := listing (store_of s)); exists all.
  assert (forall x, x ∈ all <-> sessions (store_of s) !! ID x = Some x) as Hin.
  { intros x; unfold all, listing; rewrite elem_of_selected by done; cbn; naive_solver. }
  assert (NoDup (map ID all)) as Hnd by (by apply NoDup_selected).
  pose proof (length_listing (store_of s)) as Hlen; fold all in Hlen.
  split; [|split; [done|]].
  - apply (StronglySorted_strict (in_order "created_at" "desc")); [apply sort_sessions_spec|by eapply (NoDup_fmap_1 ID)|].
    intros x y Hx Hy Hne Hle; apply Hin in Hx, Hy; unfold newest_first; change (CreatedAt y <= CreatedAt x) in Hle.
    destruct (Z.eq_dec (CreatedAt x) (CreatedAt y)) as [E|]; [|lia]. pose proof (Huniq _ _ _ _ Hx Hy E); congruence.
  - cbv zeta; set (last := llen all / n); assert (0 <= last /\ last * n <= llen all < (last + 1) * n) as Hl
      by (pose proof (Z.div_mod (llen all) n ltac:(lia)); pose proof (Z.mod_pos_bound (llen all) n ltac:(lia));
          pose proof (Z.div_pos (llen all) n ltac:(unfold llen; lia) ltac:(lia)); unfold last; nia).
    split.
    + intros c e Hc; destruct (scan_reply c p n s e Hinv Hready Hp ltac:(lia) Hn ltac:(unfold llen in *; nia)) as [e' E].
      exists e'; rewrite E; unfold page_of; fold all; replace (c + 1 - 1) with c by lia; do 4 f_equal.
      unfold llen at 1; rewrite length_firstn, length_skipn.
      destruct (Z.eqb_spec c last) as [->|Hne]; [rewrite (proj2 (Z.eqb_neq _ _))|rewrite (proj2 (Z.eqb_eq _ _))]; try done;
        unfold llen in Hl; nia.
    + etransitivity; [|apply (pages_concat all (Z.to_nat n) (Z.to_nat last)); unfold llen in Hl; nia].
      rewrite Nat.add_1_r; f_equal; apply map_ext; intros c; do 2 f_equal; nia.
Qed.
End Client.

(** ** Witnesses *)
#[local] Instance demo_wire_argon2 : Argon2Lib := fun _ _ _ _ _ _ => [].
#[local] Instance demo_wire_ulid : UlidLib := fun _ => true.
#[local] Instance demo_wire_zone : TimeZone := fun _ => 0.
#[local] Instance demo_wire_rate : RateLib :=
  { Limiter := unit; NewLimiter _ _ := tt; Allow _ l := (true, l); reserve_delay _ l := ("", l) }.
Definition demo_issuer : ConnState := MkConnState true (Some (MkAPIKeyInfo "tmak-1" "" "issuer" "" true 0 0)).
Definition demo_serving (r : Store) : Serving (R := Store) (K := APIKeyStore.t) :=
  MkServing (MkHandler (MkTokenService r (NewNonceCache 3 5) 0) (NewAuthService ∅ None) None)
    (MkConn "" "" demo_issuer "192.0.2.1:4000" false).
Definition demo_wire_env : env := Env (fun _ => 5000000000) (fun _ _ => Err EOF) (fun _ => Err EOF).
Definition demo_wire_id : string := "tmss-01arz3ndektsv4rrffq69g5fav".
Definition demo_value : string := print (JObj [("user_id", JStr "bob"); ("token", JStr demo_token)]).
Definition demo_set : list (option string) :=
  [Some "SET"; Some demo_wire_id; Some demo_value; Some "EX"; Some "60"].

Lemma session_life_witness : exists s1 e3,
  bw (conn s1) = ok_reply /\
  Handle (validate_args demo_token) s1 demo_wire_env = (Some tt, with_reply ok_reply s1, e3).
Proof.
  assert (forall cmd, checkPermission demo_issuer cmd = true -> ready cmd (demo_serving (New 50))) as Hready by (by intros).
  destruct (Handle demo_set (demo_serving (New 50)) demo_wire_env) as [[r s1] e1] eqn:E.
  assert (r = Some tt) as -> by (change r with (fst (fst (r, s1, e1))); rewrite <- E; vm_compute; reflexivity).
  assert (bw (conn s1) = ok_reply) as Hok
    by (change s1 with (snd (fst (Some tt, s1, e1))); rewrite <- E; vm_compute; reflexivity).
  assert (map ExpiresAt (All (store_of s1)) = [65000]) as Hexp
    by (change s1 with (snd (fst (Some tt, s1, e1))); rewrite <- E; vm_compute; reflexivity).
  destruct (session_life demo_wire_id demo_value [Some "EX"; Some "60"] (MkSetRequest "bob" demo_token "" None)
    (demo_serving (New 50)) s1 demo_wire_env e1 (Inv_New 50) (Hready "SET" eq_refl) (Hready "DEL" eq_refl)
    (Hready "TM.VALIDATE" eq_refl) ltac:(vm_compute; reflexivity) ltac:(discriminate) E Hok)
    as (x & _ & Hs & _ & Hval & _).
  destruct (Hval demo_wire_env) as [e3 H3]; [|by exists s1, e3].
  unfold All in Hexp; rewrite Hs in Hexp; change (sessions (store_of (demo_serving (New 50)))) with (∅ : gmap string Session) in Hexp.
  rewrite insert_empty, map_to_list_singleton in Hexp; cbn [map snd] in Hexp; rewrite Session.Clone_id in Hexp.
  injection Hexp as ->; intros k; vm_compute; discriminate.
Defined.

Definition demo_older : Session := MkSession "s1" "u" "h1" "" "" "" "" "" "" 1000 0 1000 None 1 0 0 false.
Definition demo_newer : Session := MkSession "s2" "u" "h2" "" "" "" "" "" "" 2000 0 2000 None 1 0 0 false.
Definition demo_scan_store : Store := put_session demo_newer (put_session demo_older (New 50)).
Lemma scan_complete_witness : exists all, StronglySorted newest_first all /\
  concat (map (fun c => firstn 1 (skipn (Z.to_nat (Z.of_nat c * 1)) all)) (seq 0 (Z.to_nat (llen all / 1) + 1))) = all /\
  exists e', Handle (scan_args 0 "s*" 1) (demo_serving demo_scan_store) demo_wire_env =
    (Some tt, with_reply (scan_text (if 0 =? llen all / 1 then 0 else 1)
       (map ID (List.filter (fun x => matchGlob "s*" (ID x)) (firstn 1 all)))) (demo_serving demo_scan_store), e').
Proof.
  destruct (scan_complete (demo_serving demo_scan_store) 1 "s*") as (all & Hsort & Hin & Hscan).
  - apply Inv_put_session; [apply Inv_put_session; [apply Inv_New| |]| |]; try reflexivity; right; reflexivity.
  - by split_ands.
  - lia.
  - discriminate.
  - vm_compute; reflexivity.
  - intros i j x y Hx Hy. change (sessions (store_of (demo_serving demo_scan_store)))
      with (<["s2" := demo_newer]> (<["s1" := demo_older]> (∅ : gmap string Session))) in Hx, Hy.
    rewrite !lookup_insert_Some, lookup_empty in Hx, Hy; naive_solver.
  - exists all; split; [exact Hsort|]; destruct Hscan as [Hpage Hall]; split; [exact Hall|].
    apply (Hpage 0 demo_wire_env); split; [lia|]; apply Z.div_pos; [unfold llen; lia|lia].
Defined.

Definition demo_guarded : Serving (R := Store) (K := APIKeyStore.t) :=
  MkServing (MkHandler (MkTokenService (New 50) (NewNonceCache 3 5) 0)
    (NewAuthService ∅ (Some (MkAuthServiceConfig 60 100 ["192.0.2.0/24"]))) None) (newConn "" "192.0.2.1:4000").
Lemma allowlist_blocks_auth_witness :
  let '(_, s', _) := Handle [Some "AUTH"; Some "tmak-1:tmas_x"] demo_guarded demo_wire_env in
  state (conn s') = MkConnState false None /\ exists text, bw (conn s') = "" +:+ "-ERR " +:+ text +:+ CRLF.
Proof. apply (allowlist_blocks_auth [Some "tmak-1:tmas_x"] demo_guarded demo_wire_env); discriminate. Defined.
