(* ===== verification/ShardMap.v ===== *)
(** The shard map and its consistent hash ring:
    [internal/server/clusterserver/shard.go].

    MurmurHash3 is third-party code, a parameter: its hasher over the bytes
    written to it.  Methods run under the lock of the map, so each is one
    function of its state. *)

From Stdlib Require Import Ascii String.
From stdpp Require Import list strings gmap fin_maps.
From S2P Require Import Prelude GoStrings Encoding.

Open Scope Z_scope.

Definition DefaultShardCount : Z := 256.
Definition DefaultVirtualNodeCount : nat := 256.

(** [murmur3.Sum32] and the [Sum64] of a [murmur3.New64] hasher. *)
Class Murmur3 := { murmur_Sum32 : bytes -> Z; murmur_Sum64 : bytes -> Z }.

Record ShardMap := MkShardMap {
  Shards : gmap Z string;
  Replicas : gmap Z (list string);
  Version : Z;
  VirtualNodes : gmap Z string;
  SortedHashes : list Z;
}.
Definition NewShardMap : ShardMap := MkShardMap ∅ ∅ 0 ∅ [].

Definition bump (m : ShardMap) : ShardMap :=
  MkShardMap (Shards m) (Replicas m) (u64 (Version m + 1)) (VirtualNodes m) (SortedHashes m).

Definition AssignShard (shardID : Z) (nodeID : string) (replicas : list string) (m : ShardMap) : ShardMap :=
  bump (MkShardMap (<[shardID := nodeID]> (Shards m))
          (if (0 <? llen replicas) then <[shardID := replicas]> (Replicas m) else Replicas m)
          (Version m) (VirtualNodes m) (SortedHashes m)).
Definition GetShard (shardID : Z) (m : ShardMap) : option string := Shards m !! shardID.

(** [sort.Search]: the loop halves the interval, so its length is fuel enough. *)
Fixpoint search_loop (fuel : nat) (f : nat -> bool) (i j : nat) : nat :=
  match fuel with
  | O => i
  | S fuel =>
      if (i <? j)%nat then
        let h := ((i + j) / 2)%nat in
        if f h then search_loop fuel f i h else search_loop fuel f (S h) j
      else i
  end.
Definition Search (n : nat) (f : nat -> bool) : nat := search_loop n f 0 n.

Definition GetNodeForHash (hash : Z) (m : ShardMap) : string * bool :=
  let n := length (SortedHashes m) in
  if (n =? 0)%nat then (""%string, false)
  else
    let idx := Search n (fun i => hash <=? default 0 (SortedHashes m !! i)) in
    let idx := if (idx =? n)%nat then O else idx in
    let virtualHash := default 0 (SortedHashes m !! idx) in
    (default ""%string (VirtualNodes m !! virtualHash), true).

Definition rebuildSortedHashes (m : ShardMap) : ShardMap :=
  MkShardMap (Shards m) (Replicas m) (Version m) (VirtualNodes m)
    (sort_slice Z.ltb (map fst (map_to_list (VirtualNodes m)))).

Section Ring.
Context `{Murmur3}.

Definition HashKey (key : string) : Z := murmur_Sum32 (to_bytes key) mod DefaultShardCount.
Definition GetShardForKey (key : string) (m : ShardMap) : Z * option string :=
  let shardID := HashKey key in (shardID, GetShard shardID m).

Definition hashVirtualNode (nodeID : string) (virtualIndex : Z) : Z :=
  murmur_Sum64 (to_bytes nodeID ++ be32 (u32 virtualIndex))%list.
(** The positions of a node on the ring. *)
Definition node_hashes (nodeID : string) : list Z :=
  map (fun i => hashVirtualNode nodeID (Z.of_nat i)) (seq 0 DefaultVirtualNodeCount).

Definition AddNode (nodeID : string) (m : ShardMap) : ShardMap :=
  let virtual := foldl (fun v h => <[h := nodeID]> v) (VirtualNodes m) (node_hashes nodeID) in
  bump (rebuildSortedHashes (MkShardMap (Shards m) (Replicas m) (Version m) virtual (SortedHashes m))).

Definition RemoveNode (nodeID : string) (m : ShardMap) : ShardMap :=
  let virtual := foldl (fun v h => delete h v) (VirtualNodes m) (node_hashes nodeID) in
  let shards := filter (fun kv => kv.2 <> nodeID) (Shards m) in
  bump (rebuildSortedHashes (MkShardMap shards (Replicas m) (Version m) virtual (SortedHashes m))).
End Ring.

(** A deep copy; values do not alias, so it is the identity of the model. *)
Definition Clone (m : ShardMap) : ShardMap :=
  MkShardMap (Shards m) (Replicas m) (Version m) (VirtualNodes m) (SortedHashes m).
Definition GetReplicas (shardID : Z) (m : ShardMap) : option (list string) := Replicas m !! shardID.
Definition GetReplicationFactor (shardID : Z) (m : ShardMap) : Z :=
  match Replicas m !! shardID with None => 0 | Some replicas => llen replicas + 1 end.

Definition node_set (m : ShardMap) : gset string := list_to_set (map snd (map_to_list (VirtualNodes m))).
Definition GetAllNodes (m : ShardMap) : list string := sort_slice String.ltb (elements (node_set m)).

Record ShardMapStats := MkShardMapStats {
  TotalShards : Z; AssignedShards : Z; TotalNodes : Z; VirtualNodeCount : Z; st_Version : Z }.
Definition GetStats (m : ShardMap) : ShardMapStats :=
  MkShardMapStats DefaultShardCount (Z.of_nat (size (Shards m))) (Z.of_nat (size (node_set m)))
    (Z.of_nat (size (VirtualNodes m))) (Version m).
