(* ===== verification/ShardMapSpec.v ===== *)
(** The hash ring: its invariant, which node a hash belongs to, and that nodes
    joining and leaving move no more than they have to. *)

From Stdlib Require Import Ascii String Sorting.Sorted.
From stdpp Require Import list sorting strings gmap fin_maps.
From S2P Require Import Prelude GoStrings Encoding ShardMap.

Open Scope Z_scope.

(** ** [sort.Search] *)

(** The least index of a property that stays true once it is. *)
Lemma search_loop_spec f n : (forall a b, (a <= b < n)%nat -> f a = true -> f b = true) ->
  forall fuel i j, (i <= j <= n)%nat -> (j <= i + fuel)%nat ->
  let r := search_loop fuel f i j in
  (i <= r <= j)%nat /\ (forall k, (i <= k < r)%nat -> f k = false) /\ (forall k, (r <= k < j)%nat -> f k = true).
Proof.
  intros Hmono; induction fuel as [|fuel IH]; intros i j Hij Hf; cbn [search_loop]; [split_ands; intros; lia|].
  destruct (Nat.ltb_spec i j) as [Hlt|]; [|split_ands; intros; lia].
  assert (i <= (i + j) / 2 < j)%nat as Hh by (split; [apply Nat.div_le_lower_bound; lia|apply Nat.Div0.div_lt_upper_bound; lia]).
  set (h := ((i + j) / 2)%nat) in *; destruct (f h) eqn:E.
  - destruct (IH i h ltac:(lia) ltac:(lia)) as (H1 & H2 & H3); split_ands; [lia..|exact H2|].
    intros k Hk; destruct (decide (k < h)%nat); [apply H3; lia|apply (Hmono h); [lia|done]].
  - destruct (IH (S h) j ltac:(lia) ltac:(lia)) as (H1 & H2 & H3); split_ands; [lia..| |exact H3].
    intros k Hk; destruct (decide (S h <= k)%nat); [apply H2; lia|].
    destruct (f k) eqn:Ek; [|done]. rewrite (Hmono k h) in E by (lia || done); done.
Qed.
Lemma Search_spec f n : (forall a b, (a <= b < n)%nat -> f a = true -> f b = true) ->
  (Search n f <= n)%nat /\ (forall k, (k < Search n f)%nat -> f k = false) /\
  (forall k, (Search n f <= k < n)%nat -> f k = true).
Proof.
  intros H; destruct (search_loop_spec f n H n 0 n ltac:(lia) ltac:(lia)) as (H1 & H2 & H3); unfold Search.
  split_ands; [lia| |done]; intros k Hk; apply H2; lia.
Qed.

(** ** The invariant *)
Record ring_ok (m : ShardMap) : Prop := {
  ring_sorted : StronglySorted Z.lt (SortedHashes m);
  ring_keys : forall h, h ∈ SortedHashes m <-> is_Some (VirtualNodes m !! h);
  ring_range : forall h, h ∈ SortedHashes m -> 0 <= h < two64;
}.

Lemma NewShardMap_ok : ring_ok NewShardMap.
Proof.
  constructor; cbn; [constructor| |]; intros h; [|by intros ?%not_elem_of_nil].
  rewrite lookup_empty; split; [by intros ?%not_elem_of_nil|by intros []].
Qed.
Lemma rebuilt_ok m : (forall h, is_Some (VirtualNodes m !! h) -> 0 <= h < two64) -> ring_ok (rebuildSortedHashes m).
Proof.
  intros Hr; set (keys := map fst (map_to_list (VirtualNodes m))).
  destruct (sort_slice_spec Z.ltb Z.le) with (l := keys) as [Hp Hs]; [lia..|].
  assert (forall h, h ∈ sort_slice Z.ltb keys <-> is_Some (VirtualNodes m !! h)) as Hk.
  { intros h; rewrite Hp; unfold keys; rewrite list_elem_of_fmap; split.
    - intros ([k v] & -> & Hin); apply elem_of_map_to_list in Hin; by exists v.
    - intros [v Hv]; exists (h, v); split; [done|by apply elem_of_map_to_list]. }
  assert (NoDup (sort_slice Z.ltb keys)) as Hd by (rewrite Hp; apply NoDup_fst_map_to_list).
  constructor; cbn; [|exact Hk|intros h Hh; by apply Hr, Hk].
  clear -Hs Hd; fold keys; induction Hs as [|x l Hs IH Hx]; constructor; apply NoDup_cons in Hd as [Hn Hd]; [by apply IH|].
  rewrite List.Forall_forall in *; intros y Hy; specialize (Hx y Hy).
  assert (x <> y) by (intros ->; by apply Hn, list_elem_of_In); lia.
Qed.

Lemma foldl_insert (n : string) l (v : gmap Z string) h :
  foldl (fun v h => <[h := n]> v) v l !! h = if decide (h ∈ l) then Some n else v !! h.
Proof.
  revert v; induction l as [|x l IH]; intros v; cbn [foldl]; [by rewrite decide_False by set_solver|].
  rewrite IH; destruct (decide (h ∈ l)) as [Hl|Hl]; [by rewrite decide_True by set_solver|].
  destruct (decide (h = x)) as [->|Hx]; [by rewrite decide_True, lookup_insert_eq by set_solver|].
  by rewrite decide_False, lookup_insert_ne by set_solver.
Qed.
Lemma foldl_delete l (v : gmap Z string) h :
  foldl (fun v h => delete h v) v l !! h = if decide (h ∈ l) then None else v !! h.
Proof.
  revert v; induction l as [|x l IH]; intros v; cbn [foldl]; [by rewrite decide_False by set_solver|].
  rewrite IH; destruct (decide (h ∈ l)) as [Hl|Hl]; [by rewrite decide_True by set_solver|].
  destruct (decide (h = x)) as [->|Hx]; [by rewrite decide_True, lookup_delete_eq by set_solver|].
  by rewrite decide_False, lookup_delete_ne by set_solver.
Qed.

(** ** The owner of a hash *)

(** How far a position is from a hash, going round the ring upwards. *)
Definition clockwise (h v : Z) : Z := (v - h) mod two64.
Definition closest (m : ShardMap) (h v : Z) : Prop :=
  is_Some (VirtualNodes m !! v) /\ forall v', is_Some (VirtualNodes m !! v') -> clockwise h v <= clockwise h v'.

Lemma clockwise_inj h v w : 0 <= v < two64 -> 0 <= w < two64 -> clockwise h v = clockwise h w -> v = w.
Proof.
  unfold clockwise; intros Hv Hw E.
  assert ((v - w) mod two64 = 0) as E0 by (replace (v - w) with ((v - h) - (w - h)) by lia;
    rewrite Zminus_mod, E, Z.sub_diag; done).
  apply Z.mod_divide in E0 as [q Hq]; [|done]; unfold two64 in *; nia.
Qed.
Lemma clockwise_above h v : 0 <= h < two64 -> h <= v < two64 -> clockwise h v = v - h.
Proof. intros; unfold clockwise; rewrite Z.mod_small; lia. Qed.
Lemma clockwise_below h v : 0 <= h < two64 -> 0 <= v < h -> clockwise h v = v - h + two64.
Proof. intros; unfold clockwise; symmetry; apply (Z.mod_unique _ _ (-1)); lia. Qed.

Lemma closest_unique m h v w : ring_ok m -> closest m h v -> closest m h w -> v = w.
Proof.
  intros Hm [Hv Hv'] [Hw Hw']; apply (clockwise_inj h); [by apply (ring_range m Hm), (ring_keys m Hm)..|].
  specialize (Hv' w Hw); specialize (Hw' v Hv); lia.
Qed.

Lemma sorted_lookup (l : list Z) i j x y : StronglySorted Z.lt l -> l !! i = Some x -> l !! j = Some y -> (i < j)%nat -> x < y.
Proof.
  intros Hs; revert i j; induction Hs as [|z l Hs IH Hz]; intros [|i] [|j] Hx Hy Hij; try done; try lia; cbn in *.
  - injection Hx as ->; rewrite List.Forall_forall in Hz; by apply Hz, list_elem_of_In, (list_elem_of_lookup_2 _ j).
  - apply (IH i j); [done|done|lia].
Qed.

(** The owner of a hash is the node at the position closest clockwise. *)
Lemma GetNodeForHash_closest m h : ring_ok m -> 0 <= h < two64 ->
  match GetNodeForHash h m with
  | (_, false) => VirtualNodes m = ∅
  | (n, true) => exists v, closest m h v /\ VirtualNodes m !! v = Some n
  end.
Proof.
  intros Hm Hh; unfold GetNodeForHash; destruct (Nat.eqb_spec (length (SortedHashes m)) 0) as [E|Hne].
  { apply map_empty; intros k; destruct (VirtualNodes m !! k) eqn:Ek; [|done].
    assert (k ∈ SortedHashes m) as Hk by (by apply (ring_keys m Hm)); apply length_zero_iff_nil in E; rewrite E in Hk; set_solver. }
  set (L := SortedHashes m) in *; set (f := fun i => h <=? default 0 (L !! i)); set (r := Search (length L) f).
  assert (forall a b, (a <= b < length L)%nat -> f a = true -> f b = true) as Hmono.
  { intros a b Hab; unfold f; destruct (lookup_lt_is_Some_2 L a ltac:(lia)) as [x Hx], (lookup_lt_is_Some_2 L b ltac:(lia)) as [y Hy].
    rewrite Hx, Hy; cbn; rewrite !Z.leb_le; intros; destruct (decide (a = b)) as [->|]; [by simplify_eq|].
    pose proof (sorted_lookup L a b x y (ring_sorted m Hm) Hx Hy ltac:(lia)); lia. }
  destruct (Search_spec f (length L) Hmono) as (Hr & Hlo & Hhi); fold r in Hr, Hlo, Hhi.
  set (idx := if (r =? length L)%nat then O else r).
  assert (idx < length L)%nat as Hidx by (unfold idx; destruct (Nat.eqb_spec r (length L)); lia).
  destruct (lookup_lt_is_Some_2 L idx Hidx) as [v Hv]; rewrite Hv; cbn [default from_option id].
  assert (v ∈ L) as Hin by (by eapply list_elem_of_lookup_2); pose proof (proj1 (ring_keys m Hm v) Hin) as [n Hn].
  exists v; rewrite Hn; split; [split; [by exists n|]|done].
  intros w Hw; assert (w ∈ L) as Hwin by (by apply (ring_keys m Hm)); apply list_elem_of_lookup_1 in Hwin as [j Hj].
  pose proof (ring_range m Hm v Hin) as Hvr; pose proof (ring_range m Hm w ltac:(by eapply list_elem_of_lookup_2)) as Hwr.
  assert (forall k x, L !! k = Some x -> (k < r)%nat -> x < h) as Hbelow.
  { intros k x Hk Hlt; specialize (Hlo k Hlt); unfold f in Hlo; rewrite Hk in Hlo; cbn in Hlo; lia. }
  assert (forall k x, L !! k = Some x -> (r <= k)%nat -> h <= x) as Habove.
  { intros k x Hk Hle; pose proof (lookup_lt_Some _ _ _ Hk); specialize (Hhi k ltac:(lia)); unfold f in Hhi; rewrite Hk in Hhi; cbn in Hhi; lia. }
  assert (forall a b x y, L !! a = Some x -> L !! b = Some y -> (a <= b)%nat -> x <= y) as Hle.
  { intros a b x y Ha Hb Hab; destruct (decide (a = b)) as [->|]; [by simplify_eq|].
    pose proof (sorted_lookup L a b x y (ring_sorted m Hm) Ha Hb ltac:(lia)); lia. }
  unfold idx in Hv; destruct (Nat.eqb_spec r (length L)) as [Er|Er].
  - pose proof (lookup_lt_Some _ _ _ Hj); pose proof (Hbelow 0%nat v Hv ltac:(lia)); pose proof (Hbelow j w Hj ltac:(lia)).
    rewrite !clockwise_below by lia; pose proof (Hle 0%nat j v w Hv Hj ltac:(lia)); lia.
  - pose proof (Habove r v Hv ltac:(lia)); rewrite (clockwise_above h v) by lia.
    destruct (decide (r <= j)%nat) as [Hrj|Hrj].
    + pose proof (Habove j w Hj Hrj); rewrite clockwise_above by lia; pose proof (Hle r j v w Hv Hj Hrj); lia.
    + pose proof (Hbelow j w Hj ltac:(lia)); rewrite clockwise_below by lia; lia.
Qed.
Lemma GetNodeForHash_owner m h v n : ring_ok m -> 0 <= h < two64 -> closest m h v -> VirtualNodes m !! v = Some n ->
  GetNodeForHash h m = (n, true).
Proof.
  intros Hm Hh Hc Hn; pose proof (GetNodeForHash_closest m h Hm Hh) as Ho.
  destruct (GetNodeForHash h m) as [n' []]; [|rewrite Ho in Hn; by rewrite lookup_empty in Hn].
  destruct Ho as (w & Hw & Hnw); rewrite <- (closest_unique m h v w Hm Hc Hw) in Hnw; congruence.
Qed.

(** ** Operations *)
Section Operations.
Context `{Murmur3} (murmur_range : forall b, 0 <= murmur_Sum64 b < two64).

Inductive ring_op :=
| Assign (shardID : Z) (nodeID : string) (replicas : list string)
| Add (nodeID : string)
| Remove (nodeID : string).
Definition run_op (m : ShardMap) (o : ring_op) : ShardMap :=
  match o with Assign s n r => AssignShard s n r m | Add n => AddNode n m | Remove n => RemoveNode n m end.

Lemma AddNode_lookup n m h :
  VirtualNodes (AddNode n m) !! h = if decide (h ∈ node_hashes n) then Some n else VirtualNodes m !! h.
Proof. apply foldl_insert. Qed.
Lemma RemoveNode_lookup n m h :
  VirtualNodes (RemoveNode n m) !! h = if decide (h ∈ node_hashes n) then None else VirtualNodes m !! h.
Proof. apply foldl_delete. Qed.
Lemma node_hashes_range n h : h ∈ node_hashes n -> 0 <= h < two64.
Proof. intros (i & -> & _)%list_elem_of_fmap; apply murmur_range. Qed.
Lemma ring_node_range m h : ring_ok m -> is_Some (VirtualNodes m !! h) -> 0 <= h < two64.
Proof. intros Hm Hh; by apply (ring_range m Hm), (ring_keys m Hm). Qed.

Lemma AddNode_ok n m : ring_ok m -> ring_ok (AddNode n m).
Proof.
  intros Hm; change (ring_ok (rebuildSortedHashes (AddNode n m))); apply rebuilt_ok; intros h; rewrite AddNode_lookup.
  destruct (decide _); [intros _; by eapply node_hashes_range|by apply ring_node_range].
Qed.
Lemma RemoveNode_ok n m : ring_ok m -> ring_ok (RemoveNode n m).
Proof.
  intros Hm; change (ring_ok (rebuildSortedHashes (RemoveNode n m))); apply rebuilt_ok; intros h; rewrite RemoveNode_lookup.
  destruct (decide _); [by intros []|by apply ring_node_range].
Qed.

(** Whatever shards are assigned and nodes come and go: the sorted hashes are the positions of
    the virtual nodes, each once, in order; the version counts the changes. *)
Theorem ring_invariant (ops : list ring_op) :
  ring_ok (foldl run_op NewShardMap ops) /\ Version (foldl run_op NewShardMap ops) = u64 (llen ops).
Proof.
  assert (forall m, ring_ok m -> ring_ok (foldl run_op m ops) /\ Version (foldl run_op m ops) = u64 (Version m + llen ops) \/ ops = []) as Hrun.
  { induction ops as [|o ops IH]; intros m Hm; [by right|left]; cbn [foldl].
    assert (ring_ok (run_op m o)) as Hm' by (destruct o; cbn; [by destruct Hm|by apply AddNode_ok|by apply RemoveNode_ok]).
    assert (Version (run_op m o) = u64 (Version m + 1)) as Hv by (by destruct o).
    destruct (IH (run_op m o) Hm') as [[H1 H2]| ->]; [|cbn; by rewrite Hv].
    split; [done|]; rewrite H2, Hv; unfold llen; cbn [length]; rewrite u64_add_l; f_equal; lia. }
  destruct (Hrun NewShardMap NewShardMap_ok) as [Hr| ->]; [exact Hr|split; [apply NewShardMap_ok|done]].
Qed.

(** No position of the node is one of another node. *)
Definition apart (n : string) (m : ShardMap) : Prop :=
  forall h n', h ∈ node_hashes n -> VirtualNodes m !! h = Some n' -> n' = n.

(** C19: Joining and leaving move no more than they have to: when a node joins, a
    hash goes to it or stays where it was; when a node leaves that shares no
    position with another, only the hashes it owned move. *)
Theorem ring_minimal (n : string) (m : ShardMap) (h : Z) (Hm : ring_ok m) (Hh : 0 <= h < two64) :
  (GetNodeForHash h (AddNode n m) = (n, true) \/ GetNodeForHash h (AddNode n m) = GetNodeForHash h m) /\
  (apart n m -> GetNodeForHash h m = (n, true) \/ GetNodeForHash h (RemoveNode n m) = GetNodeForHash h m).
Proof.
  split.
  - pose proof (GetNodeForHash_closest _ h (AddNode_ok n m Hm) Hh) as Ho.
    destruct (GetNodeForHash h (AddNode n m)) as [n' []].
    + destruct Ho as (v & [Hv Hmin] & Hn); rewrite AddNode_lookup in Hn; destruct (decide _); [left; congruence|right].
      symmetry; apply (GetNodeForHash_owner m h v); try done; split; [by exists n'|].
      intros w Hw; apply Hmin; rewrite AddNode_lookup; by destruct (decide _).
    + exfalso; pose proof (AddNode_lookup n m (hashVirtualNode n 0)) as Hl; rewrite Ho, lookup_empty, decide_True in Hl; [done|].
      apply list_elem_of_fmap; exists 0%nat; split; [done|]; apply elem_of_seq; unfold DefaultVirtualNodeCount; lia.
  - intros Hap; pose proof (GetNodeForHash_closest m h Hm Hh) as Ho; destruct (GetNodeForHash h m) as [n0 []] eqn:E.
    + destruct Ho as (v & [Hv Hmin] & Hn); destruct (decide (n0 = n)) as [->|Hne]; [by left|right].
      assert (VirtualNodes (RemoveNode n m) !! v = Some n0) as Hn'
        by (rewrite RemoveNode_lookup; destruct (decide _) as [Hin|]; [exfalso; by apply Hne, (Hap v)|done]).
      apply (GetNodeForHash_owner _ h v); [by apply RemoveNode_ok|done|split; [by exists n0|]|done].
      intros w Hw; apply Hmin; rewrite RemoveNode_lookup in Hw; destruct (decide _); [by destruct Hw|done].
    + right; unfold GetNodeForHash in E |- *; destruct (Nat.eqb_spec (length (SortedHashes m)) 0) as [_|]; [|done].
      injection E as <-; assert (VirtualNodes (RemoveNode n m) = ∅) as Hempty.
      { apply map_empty; intros k; rewrite RemoveNode_lookup, Ho, lookup_empty; by destruct (decide _). }
      cbn [SortedHashes RemoveNode bump rebuildSortedHashes VirtualNodes] in *; rewrite Hempty, map_to_list_empty; done.
Qed.

(** After it left, a node owns nothing, neither on the ring nor among the shards,
    provided its virtual nodes were at its own positions. *)
Lemma RemoveNode_gone n m h (Hm : ring_ok m) (Hh : 0 <= h < two64)
  (Hown : forall v, VirtualNodes m !! v = Some n -> v ∈ node_hashes n) :
  GetNodeForHash h (RemoveNode n m) <> (n, true) /\ forall s, GetShard s (RemoveNode n m) <> Some n.
Proof.
  split.
  - intros E; pose proof (GetNodeForHash_closest _ h (RemoveNode_ok n m Hm) Hh) as Ho; rewrite E in Ho.
    destruct Ho as (v & _ & Hn); rewrite RemoveNode_lookup in Hn; destruct (decide _) as [|Hnin]; [done|by apply Hnin, Hown].
  - intros s E; unfold GetShard, RemoveNode in E; cbn in E; by apply map_lookup_filter_Some in E as [_ E].
Qed.
End Operations.

(** ** Witnesses *)
#[local] Instance demo_murmur : Murmur3 := { murmur_Sum32 b := foldr (fun x n => x + n) 0 b; murmur_Sum64 b := foldr (fun x n => (x + 31 * n) mod two64) 7 b }.
Lemma demo_murmur_range b : 0 <= murmur_Sum64 b < two64.
Proof. destruct b; cbn; [unfold two64; lia|apply Z.mod_pos_bound; done]. Qed.
Lemma ring_invariant_witness :
  ring_ok (foldl run_op NewShardMap [Add "a"; Add "b"; Remove "a"]) /\
  Version (foldl run_op NewShardMap [Add "a"; Add "b"; Remove "a"]) = 3.
Proof. exact (ring_invariant demo_murmur_range [Add "a"; Add "b"; Remove "a"]). Defined.
Definition demo_ring : ShardMap := foldl run_op NewShardMap [Add "node-a"; Add "node-b"].
Lemma demo_ring_ok : ring_ok demo_ring.
Proof. unfold demo_ring; cbn [foldl run_op]; do 2 (apply AddNode_ok; [apply demo_murmur_range|]); apply NewShardMap_ok. Qed.
Lemma demo_apart : apart "node-a" demo_ring.
Proof.
  intros h n' Hh Hn; assert (forallb (fun h => match VirtualNodes demo_ring !! h with Some n => String.eqb n "node-a" | None => true end) (node_hashes "node-a") = true)
    as Hall by (vm_compute; reflexivity).
  rewrite forallb_forall in Hall; specialize (Hall h (proj1 (list_elem_of_In _ _) Hh)); rewrite Hn in Hall; by apply String.eqb_eq.
Qed.
(** One node joins the two; one of the two leaves, and a hash of the other stays. *)
Lemma ring_minimal_witness :
  (GetNodeForHash 42 (AddNode "node-c" demo_ring) = ("node-c", true) \/
   GetNodeForHash 42 (AddNode "node-c" demo_ring) = GetNodeForHash 42 demo_ring) /\
  GetNodeForHash 42 demo_ring = ("node-a", true) /\
  GetNodeForHash 5737400830560242 (RemoveNode "node-a" demo_ring) = ("node-b", true).
Proof.
  split; [|split; [vm_compute; reflexivity|]].
  - destruct (ring_minimal demo_murmur_range "node-c" demo_ring 42 demo_ring_ok) as [H1 _]; [unfold two64; lia|exact H1].
  - assert (GetNodeForHash 5737400830560242 demo_ring = ("node-b", true)) as Hb by (vm_compute; reflexivity).
    destruct (ring_minimal demo_murmur_range "node-a" demo_ring 5737400830560242 demo_ring_ok) as [_ H2];
      [vm_compute; split; [discriminate|reflexivity]|].
    destruct (H2 demo_apart) as [E|E]; [discriminate (eq_trans (eq_sym Hb) E)|exact (eq_trans E Hb)].
Defined.
