(* ===== verification/Fsm.v ===== *)
(** The replicated state machine: [internal/server/clusterserver/fsm.go], and the
    encoding of its log entries in [server.go].

    A log entry is JSON, decoded with its payload as a raw message; a panic of
    [Apply] is [None].  [compress/gzip] is outside the sources, a parameter: the
    stream its writer makes of what is written before [Close], and the bytes its
    reader delivers before the stream ends or fails. *)

From Stdlib Require Import Ascii String.
From stdpp Require Import list strings gmap fin_maps.
From S2P Require Import Prelude Errors GoStrings Strconv Encoding Json ShardMap.

Open Scope string_scope.
Open Scope Z_scope.

(** ** Maps and slices in JSON *)

(** A map whose keys are printed by [k2s], in the order of their text. *)
Definition enc_kvs {K V} `{Countable K} (k2s : K -> string) (v2j : V -> json) (m : gmap K V) : json :=
  JObj (map (fun kv => (k2s kv.1, v2j kv.2))
          (sort_slice (fun a b => String.ltb (k2s a.1) (k2s b.1)) (map_to_list m))).
Fixpoint dec_kventries {K V} `{Countable K} (s2k : string -> option K) (j2v : json -> option V)
    (l : list (string * json)) (acc : gmap K V) : option (gmap K V) :=
  match l with
  | [] => Some acc
  | (s, j) :: l' =>
      match s2k s, j2v j with
      | Some k, Some v => dec_kventries s2k j2v l' (<[k := v]> acc)
      | _, _ => None
      end
  end.
(** [None] is the nil map: [null] makes the map nil, an object is merged into it. *)
Definition dec_kvs {K V} `{Countable K} (s2k : string -> option K) (j2v : json -> option V) (j : json)
    (old : option (gmap K V)) : option (option (gmap K V)) :=
  match j with
  | JNull => Some None
  | JObj l => match dec_kventries s2k j2v l (default ∅ old) with Some m => Some (Some m) | None => None end
  | _ => None
  end.
(** Keys of type [uint32] and [uint64]. *)
Definition key32 (s : string) : option Z :=
  match ParseUint s with Some n => if n <? 2 ^ 32 then Some n else None | None => None end.
Definition key64 (s : string) : option Z := ParseUint s.

(** An array is decoded over the elements the slice had. *)
Fixpoint dec_elems {A} (dec : json -> A -> option A) (zero : A) (l : list json) (old : list A) : option (list A) :=
  match l with
  | [] => Some []
  | j :: l' =>
      match dec j (default zero (head old)), dec_elems dec zero l' (tail old) with
      | Some x, Some r => Some (x :: r)
      | _, _ => None
      end
  end.
Definition dec_slice {A} (dec : json -> A -> option A) (zero : A) (j : json) (old : list A) : option (list A) :=
  match j with JNull => Some [] | JArr l => dec_elems dec zero l old | _ => None end.

(** ** Log entries *)
Definition LogEntryShardMapUpdate : Z := 1.
Definition LogEntryMemberJoin : Z := 2.
Definition LogEntryMemberLeave : Z := 3.
Definition LogEntryConfigChange : Z := 4.

(** [Payload] is [None] when the entry has no such member. *)
Record LogEntry := MkLogEntry { le_Type : Z; le_Payload : option json }.
Definition assign_entry (k : string) (v : json) (e : LogEntry) : option LogEntry :=
  typ ← (if String.eqb k "type" then
           match dec_uint v (le_Type e) with
           | Some n => if n <? 256 then Some n else None
           | None => None
           end
         else Some (le_Type e));
  Some (MkLogEntry typ (if String.eqb k "payload" then Some v else le_Payload e)).
Record ShardMapUpdatePayload := MkUpdate { u_ShardID : Z; u_NodeID : string; u_Replicas : list string }.
Definition assign_update (k : string) (v : json) (p : ShardMapUpdatePayload) : option ShardMapUpdatePayload :=
  sid ← (if String.eqb k "shard_id" then dec_uint32 v (u_ShardID p) else Some (u_ShardID p));
  nid ← (if String.eqb k "node_id" then dec_string v (u_NodeID p) else Some (u_NodeID p));
  rs ← (if String.eqb k "replicas" then dec_slice dec_string "" v (u_Replicas p) else Some (u_Replicas p));
  Some (MkUpdate sid nid rs).
Definition update_json (p : ShardMapUpdatePayload) : json :=
  JObj ([("shard_id", JNum (FormatUint (u_ShardID p))); ("node_id", JStr (u_NodeID p))] ++
        (if llen (u_Replicas p) =? 0 then [] else [("replicas", JArr (map JStr (u_Replicas p)))]))%list.

Record MemberJoinPayload := MkJoin { j_NodeID : string; j_Addr : string }.
Definition assign_join (k : string) (v : json) (p : MemberJoinPayload) : option MemberJoinPayload :=
  nid ← (if String.eqb k "node_id" then dec_string v (j_NodeID p) else Some (j_NodeID p));
  addr ← (if String.eqb k "addr" then dec_string v (j_Addr p) else Some (j_Addr p));
  Some (MkJoin nid addr).
Definition join_json (p : MemberJoinPayload) : json :=
  JObj [("node_id", JStr (j_NodeID p)); ("addr", JStr (j_Addr p))].

Record MemberLeavePayload := MkLeave { l_NodeID : string }.
Definition assign_leave (k : string) (v : json) (p : MemberLeavePayload) : option MemberLeavePayload :=
  nid ← (if String.eqb k "node_id" then dec_string v (l_NodeID p) else Some (l_NodeID p)); Some (MkLeave nid).
Definition leave_json (p : MemberLeavePayload) : json := JObj [("node_id", JStr (l_NodeID p))].

(** Marshalling these values cannot fail; the raw payload is embedded as it is. *)
Definition encodeLogEntry (typ : Z) (payload : json) : bytes :=
  to_bytes (print (JObj [("type", JNum (FormatUint typ)); ("payload", payload)])).

(** ** The state *)
Record Member := MkMember { m_NodeID : string; m_Addr : string; m_IsLeader : bool; m_State : string }.
Record FSM := MkFSM { shardMap : ShardMap; members : gmap string Member }.
Definition NewFSM : FSM := MkFSM NewShardMap ∅.

Definition applyShardMapUpdate (payload : json) (f : FSM) : option FSM :=
  match unmarshal assign_update (MkUpdate 0 "" []) payload with
  | None => None
  | Some u => Some (MkFSM (AssignShard (u_ShardID u) (u_NodeID u) (u_Replicas u) (shardMap f)) (members f))
  end.
Definition applyMemberJoin (payload : json) (f : FSM) : option FSM :=
  match unmarshal assign_join (MkJoin "" "") payload with
  | None => None
  | Some j => Some (MkFSM (shardMap f)
                      (<[j_NodeID j := MkMember (j_NodeID j) (j_Addr j) false "alive"]> (members f)))
  end.
Definition applyMemberLeave (payload : json) (f : FSM) : option FSM :=
  match unmarshal assign_leave (MkLeave "") payload with
  | None => None
  | Some l => Some (MkFSM (shardMap f) (delete (l_NodeID l) (members f)))
  end.
Definition applyConfigChange (f : FSM) : FSM := f.

Definition Apply (data : bytes) (f : FSM) : option FSM :=
  match (v ← parse (of_bytes data); unmarshal assign_entry (MkLogEntry 0 None) v) with
  | None => None
  | Some entry =>
      (* Unmarshalling an absent payload is an error *)
      let with_payload (apply : json -> option FSM) :=
        match le_Payload entry with Some p => apply p | None => None end in
      if le_Type entry =? LogEntryShardMapUpdate then with_payload (fun p => applyShardMapUpdate p f)
      else if le_Type entry =? LogEntryMemberJoin then with_payload (fun p => applyMemberJoin p f)
      else if le_Type entry =? LogEntryMemberLeave then with_payload (fun p => applyMemberLeave p f)
      else if le_Type entry =? LogEntryConfigChange then Some (applyConfigChange f)
      else None
  end.

Definition GetShardMap (f : FSM) : ShardMap := Clone (shardMap f).
Definition copy_member (m : Member) : Member := MkMember (m_NodeID m) (m_Addr m) (m_IsLeader m) (m_State m).
Definition GetMembers (f : FSM) : gmap string Member := copy_member <$> members f.

(** ** Snapshots *)
Record fsmSnapshot := MkFsmSnapshot { snap_shardMap : ShardMap; snap_members : gmap string Member }.
Definition Snapshot (f : FSM) : fsmSnapshot := MkFsmSnapshot (Clone (shardMap f)) (copy_member <$> members f).

Definition strs_json (l : list string) : json := JArr (map JStr l).
Definition shardmap_json (m : ShardMap) : json :=
  JObj [("Shards", enc_kvs FormatUint JStr (Shards m));
        ("Replicas", enc_kvs FormatUint strs_json (Replicas m));
        ("Version", JNum (FormatUint (Version m)));
        ("VirtualNodes", enc_kvs FormatUint JStr (VirtualNodes m));
        ("SortedHashes", JArr (map (fun h => JNum (FormatUint h)) (SortedHashes m)))].
Definition member_json (m : Member) : json :=
  JObj [("NodeID", JStr (m_NodeID m)); ("Addr", JStr (m_Addr m)); ("IsLeader", JBool (m_IsLeader m));
        ("State", JStr (m_State m))].
Definition state_json (s : fsmSnapshot) : json :=
  JObj [("shard_map", shardmap_json (snap_shardMap s));
        ("members", enc_kvs (fun k => k) member_json (snap_members s))].

(** What is decoded: maps may be nil and pointers null. *)
Record rawMap := MkRaw {
  r_Shards : option (gmap Z string); r_Replicas : option (gmap Z (list string)); r_Version : Z;
  r_VirtualNodes : option (gmap Z string); r_SortedHashes : list Z }.
Definition zero_raw : rawMap := MkRaw None None 0 None [].
Definition assign_map (k : string) (v : json) (r : rawMap) : option rawMap :=
  sh ← (if String.eqb k "shards" then dec_kvs key32 (fun j => dec_string j "") v (r_Shards r) else Some (r_Shards r));
  re ← (if String.eqb k "replicas" then dec_kvs key32 (fun j => dec_slice dec_string "" j []) v (r_Replicas r)
        else Some (r_Replicas r));
  ve ← (if String.eqb k "version" then dec_uint v (r_Version r) else Some (r_Version r));
  vn ← (if String.eqb k "virtualnodes" then dec_kvs key64 (fun j => dec_string j "") v (r_VirtualNodes r)
        else Some (r_VirtualNodes r));
  so ← (if String.eqb k "sortedhashes" then dec_slice dec_uint 0 v (r_SortedHashes r) else Some (r_SortedHashes r));
  Some (MkRaw sh re ve vn so).
Definition assign_member (k : string) (v : json) (m : Member) : option Member :=
  nid ← (if String.eqb k "nodeid" then dec_string v (m_NodeID m) else Some (m_NodeID m));
  addr ← (if String.eqb k "addr" then dec_string v (m_Addr m) else Some (m_Addr m));
  lead ← (if String.eqb k "isleader" then dec_bool v (m_IsLeader m) else Some (m_IsLeader m));
  st ← (if String.eqb k "state" then dec_string v (m_State m) else Some (m_State m));
  Some (MkMember nid addr lead st).
(** A pointer to a struct: [null] makes it nil, an object is assigned to what it points to. *)
Definition dec_ptr {A} (assign : string -> json -> A -> option A) (zero : A) (v : json) (old : option A)
    : option (option A) :=
  match v with
  | JNull => Some None
  | JObj m => match dec_members assign m (default zero old) with Some a => Some (Some a) | None => None end
  | _ => None
  end.
Definition zero_member : Member := MkMember "" "" false "".

Record rawState := MkRawState { rs_map : option rawMap; rs_members : option (gmap string (option Member)) }.
Definition assign_state (k : string) (v : json) (s : rawState) : option rawState :=
  mp ← (if String.eqb k "shard_map" then dec_ptr assign_map zero_raw v (rs_map s) else Some (rs_map s));
  me ← (if String.eqb k "members" then
          dec_kvs Some (fun j => dec_ptr assign_member zero_member j None) v (rs_members s)
        else Some (rs_members s));
  Some (MkRawState mp me).

(** How a restore ends.  A snapshot that lacks one of the maps, or has a null
    member, leaves nil values in the state, which a later operation may
    dereference: [RestoredNil], not followed further. *)
#[warnings="-register-all"]
Inductive restored :=
| RestoreError (e : error)
| RestorePanic
| RestoredNil
| Restored (f : FSM).

Definition to_state (s : rawState) : restored :=
  match rs_map s with
  | None => RestorePanic (* the log message reads the shards of a nil map *)
  | Some r =>
      match r_Shards r, r_Replicas r, r_VirtualNodes r, rs_members s with
      | Some sh, Some re, Some vn, Some me =>
          if forallb (fun kv => bool_decide (is_Some kv.2)) (map_to_list me)
          then Restored (MkFSM (MkShardMap sh re (r_Version r) vn (r_SortedHashes r)) (omap id me))
          else RestoredNil
      | _, _, _, _ => RestoredNil
      end
  end.

Class Gzip := { gz_write : bytes -> bytes; gz_read : bytes -> option bytes }.

Section Snapshots.
Context `{Gzip}.

Definition Restore (r : bytes) : restored :=
  match gz_read r with
  | None => RestoreError (SimpleError "create gzip reader")
  | Some plain =>
      match (v ← decode_first plain; unmarshal assign_state (MkRawState None None) v) with
      | None => RestoreError (SimpleError "decode snapshot")
      | Some state => to_state state
      end
  end.

(** The sink of a snapshot, which raft provides: the errors its methods return. *)
Record Sink := MkSink { sink_data : bytes; sink_closed : bool; sink_cancelled : bool }.
Record SinkErrors := MkSinkErrors { encode_err : option error; flush_err : option error; close_err : option error }.

Definition Persist (s : fsmSnapshot) (errs : SinkErrors) (sink : Sink) : option error * Sink :=
  let cancel := MkSink (sink_data sink) (sink_closed sink) true in
  match encode_err errs with
  | Some e => (Some (WrapError "encode snapshot" e), cancel)
  | None =>
      match flush_err errs with
      | Some e => (Some (WrapError "close gzip writer" e), cancel)
      | None =>
          (close_err errs,
           MkSink (sink_data sink ++ gz_write (to_bytes (print (state_json s) +:+ chr 10))) true (sink_cancelled sink))
      end
  end.
End Snapshots.
