(* ===== verification/FsmSpec.v ===== *)
(** The replicated state machine: what the leader encodes is what every node
    applies, and a snapshot stands for the log it replaces. *)

From Stdlib Require Import Ascii String.
From stdpp Require Import list strings gmap fin_maps.
From S2P Require Import Prelude Errors GoStrings Strconv Encoding Json JsonFacts ShardMap Fsm.

Open Scope string_scope.
Open Scope Z_scope.

(** ** Maps and slices *)
Lemma dec_kventries_map {K V W} `{Countable K} (k2s : K -> string) (v2j : V -> json) s2k j2v (g : V -> W) l acc :
  Forall (fun kv => s2k (k2s kv.1) = Some kv.1 /\ j2v (v2j kv.2) = Some (g kv.2)) l ->
  dec_kventries s2k j2v (map (fun kv => (k2s kv.1, v2j kv.2)) l) acc =
  Some (foldl (fun m kv => <[kv.1 := kv.2]> m) acc (map (fun kv => (kv.1, g kv.2)) l)).
Proof.
  intros Hl; revert acc; induction Hl as [|[k v] l [Hk Hv] Hl IH]; intros acc; [done|].
  cbn [map dec_kventries fst snd foldl] in *; by rewrite Hk, Hv, IH.
Qed.

(** Decoding an encoded map into a nil or empty one gives the map back. *)
Lemma dec_enc_kvs {K V W} `{Countable K} (k2s : K -> string) (v2j : V -> json) s2k j2v (g : V -> W) (m : gmap K V) old :
  map_Forall (fun k v => s2k (k2s k) = Some k /\ j2v (v2j v) = Some (g v)) m -> old = None \/ old = Some ∅ ->
  dec_kvs s2k j2v (enc_kvs k2s v2j m) old = Some (Some (g <$> m)).
Proof.
  intros Hm Hold; unfold dec_kvs, enc_kvs; set (l := sort_slice _ _).
  assert (l ≡ₚ map_to_list m) as Hp by apply sort_slice_perm.
  rewrite (dec_kventries_map k2s v2j s2k j2v g); [|rewrite Hp; by apply map_Forall_to_list in Hm; eapply Forall_impl; [exact Hm|intros []]].
  rewrite <- (foldl_insert_entries (map (fun kv => (kv.1, g kv.2)) l) (g <$> m)).
  - by destruct Hold as [->| ->].
  - rewrite map_to_list_fmap, Hp; reflexivity.
Qed.
Lemma json_ok_kvs {K V} `{Countable K} (k2s : K -> string) (v2j : V -> json) (m : gmap K V) :
  map_Forall (fun k v => utf8_ok (k2s k) = true /\ json_ok (v2j v) = true) m -> json_ok (enc_kvs k2s v2j m) = true.
Proof.
  intros Hm; apply json_ok_obj, Forall_fmap; rewrite sort_slice_perm.
  apply map_Forall_to_list in Hm; eapply Forall_impl; [exact Hm|intros []; done].
Qed.

Lemma dec_elems_map {A B} (dec : json -> A -> option A) (zero : A) (f : B -> json) (g : B -> A) l old :
  Forall (fun x => forall o, dec (f x) o = Some (g x)) l -> dec_elems dec zero (map f l) old = Some (map g l).
Proof.
  intros Hl; revert old; induction Hl as [|x l Hx Hl IH]; intros old; [done|].
  cbn [map dec_elems]; by rewrite Hx, IH.
Qed.
Lemma dec_strs l old : dec_slice dec_string "" (strs_json l) old = Some l.
Proof.
  unfold strs_json, dec_slice; rewrite (dec_elems_map _ _ _ id); [by rewrite map_id|].
  by apply List.Forall_forall.
Qed.
Lemma dec_uints l old : Forall (fun h => 0 <= h < two64) l ->
  dec_slice dec_uint 0 (JArr (map (fun h => JNum (FormatUint h)) l)) old = Some l.
Proof.
  intros Hl; unfold dec_slice; rewrite (dec_elems_map _ _ _ id); [by rewrite map_id|].
  eapply Forall_impl; [exact Hl|]; intros h Hh o; unfold dec_uint; by rewrite ParseUint_Format.
Qed.
Lemma json_ok_arr l : Forall (fun v => json_ok v = true) l -> json_ok (JArr l) = true.
Proof. intros Hl; cbn [json_ok]; apply forallb_forall; rewrite List.Forall_forall in Hl; exact Hl. Qed.
Lemma json_ok_strs l : Forall (fun s => utf8_ok s = true) l -> json_ok (strs_json l) = true.
Proof. intros; by apply json_ok_arr, Forall_fmap. Qed.
Lemma key32_Format n : 0 <= n < 2 ^ 32 -> key32 (FormatUint n) = Some n.
Proof.
  intros; unfold key32; rewrite ParseUint_Format by (unfold two64; lia); by rewrite (proj2 (Z.ltb_lt _ _)) by lia.
Qed.
Lemma utf8_FormatUint n : utf8_ok (FormatUint n) = true.
Proof.
  apply ascii_utf8; unfold ascii_only; eapply sforall_weaken; [|apply FormatUint_digits]; intros a; unfold is_digit; intros Ha.
  destruct a as [[] [] [] [] [] [] [] []]; first [discriminate Ha | reflexivity].
Qed.

(** ** Log entries *)
Inductive command :=
| UpdateShard (u : ShardMapUpdatePayload)
| Join (j : MemberJoinPayload)
| Leave (l : MemberLeavePayload)
| ChangeConfig (payload : json).
(** What [ApplyShardUpdate], [ApplyMemberJoin] and [ApplyMemberLeave] hand to raft. *)
Definition encode (c : command) : bytes :=
  match c with
  | UpdateShard u => encodeLogEntry LogEntryShardMapUpdate (update_json u)
  | Join j => encodeLogEntry LogEntryMemberJoin (join_json j)
  | Leave l => encodeLogEntry LogEntryMemberLeave (leave_json l)
  | ChangeConfig p => encodeLogEntry LogEntryConfigChange p
  end.
Definition command_ok (c : command) : Prop :=
  match c with
  | UpdateShard u => 0 <= u_ShardID u < 2 ^ 32 /\ utf8_ok (u_NodeID u) = true /\
                     Forall (fun s => utf8_ok s = true) (u_Replicas u)
  | Join j => utf8_ok (j_NodeID j) = true /\ utf8_ok (j_Addr j) = true
  | Leave l => utf8_ok (l_NodeID l) = true
  | ChangeConfig p => json_ok p = true
  end.
(** What a command does to the state. *)
Definition effect (f : FSM) (c : command) : FSM :=
  match c with
  | UpdateShard u => MkFSM (AssignShard (u_ShardID u) (u_NodeID u) (u_Replicas u) (shardMap f)) (members f)
  | Join j => MkFSM (shardMap f) (<[j_NodeID j := MkMember (j_NodeID j) (j_Addr j) false "alive"]> (members f))
  | Leave l => MkFSM (shardMap f) (delete (l_NodeID l) (members f))
  | ChangeConfig _ => f
  end.

Ltac assign_as f tac :=
  erewrite dec_members_cons;
  [|norm_key; unfold f; cbn [String.eqb Ascii.eqb Bool.eqb dec_string dec_bool];
    rewrite ?ParseUint_Format by (unfold two64; lia); tac; cbn [mbind option_bind]; reflexivity].

Lemma unmarshal_update u : 0 <= u_ShardID u < 2 ^ 32 -> unmarshal assign_update (MkUpdate 0 "" []) (update_json u) = Some u.
Proof.
  intros Hu; unfold unmarshal, update_json; cbn [app].
  assert (forall old, dec_uint32 (JNum (FormatUint (u_ShardID u))) old = Some (u_ShardID u)) as E1.
  { intros old; unfold dec_uint32, dec_uint; rewrite ParseUint_Format by (unfold two64; lia).
    by rewrite (proj2 (Z.ltb_lt _ _)) by lia. }
  do 2 assign_as assign_update ltac:(rewrite ?E1); destruct u as [sid nid rs]; cbn [u_ShardID u_NodeID u_Replicas] in *.
  destruct rs as [|r rs]; [done|]; change (llen (r :: rs) =? 0) with false; cbv iota.
  change (JArr (map JStr ?l)) with (strs_json l); assign_as assign_update ltac:(rewrite dec_strs); done.
Qed.
Lemma unmarshal_join j : unmarshal assign_join (MkJoin "" "") (join_json j) = Some j.
Proof. unfold unmarshal, join_json; repeat assign_as assign_join idtac; by destruct j. Qed.
Lemma unmarshal_leave l : unmarshal assign_leave (MkLeave "") (leave_json l) = Some l.
Proof. unfold unmarshal, leave_json; repeat assign_as assign_leave idtac; by destruct l. Qed.

Lemma unmarshal_entry typ p : 0 <= typ < 256 -> json_ok p = true ->
  (v ← parse (of_bytes (encodeLogEntry typ p)); unmarshal assign_entry (MkLogEntry 0 None) v) =
  Some (MkLogEntry typ (Some p)).
Proof.
  intros Ht Hp; unfold encodeLogEntry; rewrite of_to_bytes, parse_print_value.
  2:{ apply json_ok_obj; repeat constructor; [apply valid_uint; unfold two64; lia|done]. }
  cbn [mbind option_bind unmarshal].
  assert (forall old, dec_uint (JNum (FormatUint typ)) old = Some typ) as E1
    by (intros; unfold dec_uint; by rewrite ParseUint_Format by (unfold two64; lia)).
  do 2 assign_as assign_entry ltac:(rewrite ?E1, ?(proj2 (Z.ltb_lt typ 256)) by lia); done.
Qed.
Lemma json_ok_member_pair (k : string) v : utf8_ok k = true -> json_ok v = true ->
  utf8_ok (fst (k, v)) = true /\ json_ok (snd (k, v)) = true.
Proof. done. Qed.
Lemma json_ok_update u : command_ok (UpdateShard u) -> json_ok (update_json u) = true.
Proof.
  intros (H1 & H2 & H3); apply json_ok_obj, Forall_app; split.
  - repeat (apply Forall_cons_2; [apply json_ok_member_pair; [done|]|]); [apply valid_uint; unfold two64; lia|done|constructor].
  - destruct (llen _ =? 0); repeat constructor; by apply json_ok_strs.
Qed.

(** A node that applies what the leader encoded makes exactly the change that was asked for. *)
Lemma Apply_encode c f : command_ok c -> Apply (encode c) f = Some (effect f c).
Proof.
  intros Hc; destruct c as [u|j|l|p]; unfold Apply; cbn [encode]; rewrite unmarshal_entry; try (by unfold LogEntryShardMapUpdate,
    LogEntryMemberJoin, LogEntryMemberLeave, LogEntryConfigChange; lia); cbn [le_Type le_Payload].
  - unfold applyShardMapUpdate; by rewrite unmarshal_update by apply Hc.
  - by apply json_ok_update.
  - change (LogEntryMemberJoin =? LogEntryShardMapUpdate) with false; cbv iota.
    unfold applyMemberJoin; by rewrite unmarshal_join.
  - destruct Hc; apply json_ok_obj; by repeat constructor.
  - unfold applyMemberLeave; by rewrite unmarshal_leave.
  - apply json_ok_obj; by repeat constructor.
  - done.
  - done.
Qed.

(** ** Snapshots *)
Record state_ok (f : FSM) : Prop := {
  ok_shards : map_Forall (fun k v => 0 <= k < 2 ^ 32 /\ utf8_ok v = true) (Shards (shardMap f));
  ok_replicas : map_Forall (fun k v => 0 <= k < 2 ^ 32 /\ Forall (fun s => utf8_ok s = true) v) (Replicas (shardMap f));
  ok_version : 0 <= Version (shardMap f) < two64;
  ok_virtual : map_Forall (fun k v => 0 <= k < two64 /\ utf8_ok v = true) (VirtualNodes (shardMap f));
  ok_hashes : Forall (fun h => 0 <= h < two64) (SortedHashes (shardMap f));
  ok_members : map_Forall (fun k m => utf8_ok k = true /\ utf8_ok (m_NodeID m) = true /\
                             utf8_ok (m_Addr m) = true /\ utf8_ok (m_State m) = true) (members f);
}.

Lemma NewFSM_ok : state_ok NewFSM.
Proof. constructor; cbn; try apply map_Forall_empty; [unfold two64; lia|constructor]. Qed.
Lemma effect_ok c f : command_ok c -> state_ok f -> state_ok (effect f c).
Proof.
  intros Hc Hf; destruct c as [u|j|l|p]; cbn [effect]; [| | |done]; destruct Hf; constructor; cbn; try done.
  - apply map_Forall_insert_2; [by split; apply Hc|done].
  - destruct (0 <? llen (u_Replicas u)); [apply map_Forall_insert_2; [by split; apply Hc|done]|done].
  - apply u64_range.
  - apply map_Forall_insert_2; [by destruct Hc|done].
  - by apply map_Forall_delete.
Qed.

Definition raw_of (m : ShardMap) : rawMap :=
  MkRaw (Some (Shards m)) (Some (Replicas m)) (Version m) (Some (VirtualNodes m)) (SortedHashes m).
Lemma dec_shardmap f : state_ok f ->
  dec_ptr assign_map zero_raw (shardmap_json (shardMap f)) None = Some (Some (raw_of (shardMap f))).
Proof.
  intros [Hsh Hre Hve Hvi Hha _]; unfold dec_ptr, shardmap_json, zero_raw; cbn [default].
  assert (dec_kvs key32 (fun j => dec_string j "") (enc_kvs FormatUint JStr (Shards (shardMap f))) None =
    Some (Some (Shards (shardMap f)))) as E1.
  { rewrite (dec_enc_kvs _ _ _ _ id), map_fmap_id; [done| |by left].
    eapply map_Forall_impl; [exact Hsh|]; intros k v [Hk _]; split; [by apply key32_Format|done]. }
  assert (dec_kvs key32 (fun j => dec_slice dec_string "" j []) (enc_kvs FormatUint strs_json (Replicas (shardMap f))) None =
    Some (Some (Replicas (shardMap f)))) as E2.
  { rewrite (dec_enc_kvs _ _ _ _ id), map_fmap_id; [done| |by left].
    eapply map_Forall_impl; [exact Hre|]; intros k v [Hk _]; split; [by apply key32_Format|apply dec_strs]. }
  assert (forall old, dec_uint (JNum (FormatUint (Version (shardMap f)))) old = Some (Version (shardMap f))) as E3
    by (intros; unfold dec_uint; by rewrite ParseUint_Format).
  assert (dec_kvs key64 (fun j => dec_string j "") (enc_kvs FormatUint JStr (VirtualNodes (shardMap f))) None =
    Some (Some (VirtualNodes (shardMap f)))) as E4.
  { rewrite (dec_enc_kvs _ _ _ _ id), map_fmap_id; [done| |by left].
    eapply map_Forall_impl; [exact Hvi|]; intros k v [Hk _]; split; [by apply ParseUint_Format|done]. }
  pose proof (dec_uints _ [] Hha) as E5.
  do 5 assign_as assign_map ltac:(cbn [r_Shards r_Replicas r_Version r_VirtualNodes r_SortedHashes];
    rewrite ?E1, ?E2, ?E3, ?E4, ?E5); done.
Qed.
Lemma dec_member m : dec_ptr assign_member zero_member (member_json m) None = Some (Some m).
Proof.
  unfold dec_ptr, member_json; cbn [default]; do 4 assign_as assign_member idtac; by destruct m.
Qed.
Lemma json_ok_state s f : state_ok f -> s = Snapshot f -> json_ok (state_json s) = true.
Proof.
  intros [Hsh Hre Hve Hvi Hha Hme] ->; apply json_ok_obj; repeat (apply Forall_cons_2; [apply json_ok_member_pair; [done|]|]);
    [|apply json_ok_kvs|constructor].
  - apply json_ok_obj; repeat (apply Forall_cons_2; [apply json_ok_member_pair; [done|]|]); [..|constructor].
    + apply json_ok_kvs; eapply map_Forall_impl; [exact Hsh|]; intros k v [_ Hv]; split; [apply utf8_FormatUint|exact Hv].
    + apply json_ok_kvs; eapply map_Forall_impl; [exact Hre|]; intros k v [_ Hv]; split; [apply utf8_FormatUint|by apply json_ok_strs].
    + by apply valid_uint.
    + apply json_ok_kvs; eapply map_Forall_impl; [exact Hvi|]; intros k v [_ Hv]; split; [apply utf8_FormatUint|exact Hv].
    + apply json_ok_arr, Forall_fmap; eapply Forall_impl; [exact Hha|]; intros; by apply valid_uint.
  - cbn [snap_members Snapshot]; apply map_Forall_fmap; eapply map_Forall_impl; [exact Hme|].
    intros k m (H1 & H2 & H3 & H4); split; [done|]; apply json_ok_obj; by repeat constructor.
Qed.

Lemma copy_members (ms : gmap string Member) : copy_member <$> ms = ms.
Proof. rewrite <- (map_fmap_id ms) at 2; apply map_fmap_ext; by intros k []. Qed.
Lemma to_state_ok f :
  to_state (MkRawState (Some (raw_of (shardMap f))) (Some (Some <$> members f))) = Restored f.
Proof.
  unfold to_state; cbn -[map_to_list forallb]; rewrite (proj2 (forallb_forall _ _)).
  - destruct f as [[] ms]; cbn; do 2 f_equal; apply map_eq; intros k; rewrite lookup_omap, lookup_fmap; by destruct (ms !! k).
  - intros [k m] Hin%list_elem_of_In%elem_of_map_to_list; rewrite lookup_fmap in Hin; apply bool_decide_eq_true_2.
    destruct (members f !! k); cbn in Hin; [injection Hin as <-; by eexists|done].
Qed.
Section Restoring.
Context `{Gzip} (gz_law : forall b, gz_read (gz_write b) = Some b).

Lemma Restore_Snapshot f : state_ok f ->
  Restore (gz_write (to_bytes (print (state_json (Snapshot f)) +:+ chr 10))) = Restored f.
Proof.
  intros Hf; unfold Restore; rewrite gz_law, decode_first_print by (done || by eapply json_ok_state).
  cbn [mbind option_bind]; unfold unmarshal, state_json.
  replace (snap_shardMap (Snapshot f)) with (shardMap f) by (by destruct f as [[]]).
  assert (dec_kvs Some (fun j => dec_ptr assign_member zero_member j None)
    (enc_kvs (fun k => k) member_json (snap_members (Snapshot f))) None = Some (Some (Some <$> members f))) as E.
  { rewrite (dec_enc_kvs _ _ _ _ Some); [|intros k m _; split; [done|apply dec_member]|by left].
    cbn [Snapshot snap_members]; by rewrite copy_members. }
  do 2 assign_as assign_state ltac:(cbn [rs_map rs_members]; try rewrite (dec_shardmap f Hf); try rewrite E).
  apply to_state_ok.
Qed.

(** Applying the committed entries of a log in their order; [None] is a panic. *)
Definition run_log (log : list bytes) (f : FSM) : option FSM := foldl (fun s data => f ← s; Apply data f) (Some f) log.

Lemma run_encoded cs f : Forall command_ok cs -> run_log (map encode cs) f = Some (foldl effect f cs).
Proof.
  intros Hcs; revert f; unfold run_log; induction Hcs as [|c cs Hc Hcs IH]; intros f; [done|].
  cbn [map foldl mbind option_bind]; by rewrite Apply_encode.
Qed.
Lemma run_ok cs f : Forall command_ok cs -> state_ok f -> state_ok (foldl effect f cs).
Proof. intros Hcs; revert f; induction Hcs; intros; cbn; [done|]; eauto using effect_ok. Qed.

(** C18: A snapshot stands for the log it replaces.  Whatever commands the leader has encoded: no node
    panics on them; a snapshot taken after any prefix of the log is persisted; and a node that
    restores it and applies the rest is in the state of a node that applied them all. *)
Theorem snapshot_replaces_log (cs1 cs2 : list command) (H1 : Forall command_ok cs1) (H2 : Forall command_ok cs2) :
  exists f1 f2 sink,
    run_log (map encode cs1) NewFSM = Some f1 /\
    Persist (Snapshot f1) (MkSinkErrors None None None) (MkSink [] false false) = (None, sink) /\
    sink_closed sink = true /\ sink_cancelled sink = false /\
    Restore (sink_data sink) = Restored f1 /\
    run_log (map encode cs2) f1 = Some f2 /\ run_log (map encode (cs1 ++ cs2)) NewFSM = Some f2.
Proof.
  set (f1 := foldl effect NewFSM cs1); exists f1, (foldl effect f1 cs2); eexists.
  pose proof (run_ok cs1 NewFSM H1 NewFSM_ok) as Hok.
  split_ands; try reflexivity; [by apply run_encoded|by apply Restore_Snapshot|by apply run_encoded|].
  rewrite run_encoded by (by apply Forall_app); by rewrite foldl_app.
Qed.
End Restoring.

(** ** Witness *)
Definition demo_commands : list command :=
  [Join (MkJoin "node-1" "10.0.0.1:5343"); Join (MkJoin "node-2" "10.0.0.2:5343");
   UpdateShard (MkUpdate 7 "node-1" ["node-2"]); Leave (MkLeave "node-2")].
Lemma demo_commands_ok : Forall command_ok demo_commands.
Proof. repeat constructor; cbn; lia. Qed.
Lemma snapshot_replaces_log_witness :
  exists f1 f2, run_log (map encode demo_commands) NewFSM = Some f1 /\
    Restore (H := {| gz_write b := b; gz_read b := Some b |}) (to_bytes (print (state_json (Snapshot f1)) +:+ chr 10)) = Restored f1 /\
    run_log (map encode (demo_commands ++ demo_commands)) NewFSM = Some f2.
Proof.
  destruct (snapshot_replaces_log (H := {| gz_write b := b; gz_read b := Some b |}) (fun b => eq_refl) demo_commands demo_commands
    demo_commands_ok demo_commands_ok) as (f1 & f2 & sink & E1 & Ep & _ & _ & Er & _ & E2).
  exists f1, f2; injection Ep as <-; split; [exact E1|split; [exact Er|exact E2]].
Defined.
