(* ===== verification/Cluster.v ===== *)
(** The cluster server: [internal/server/clusterserver/server.go], the membership
    handlers of [handler.go], the discovery callbacks ([discovery.go], [server.go]),
    the raft wrapper ([raft.go]) and the certificate check of [interceptor.go].

    [hashicorp/raft], [memberlist] and [crypto/x509] are outside the sources,
    parameters: what raft answers and does to its own state (the log, the voters
    and the state machine it drives), and whether a certificate chain verifies. *)

From Stdlib Require Import Ascii String.
From stdpp Require Import list strings gmap fin_maps.
From S2P Require Import Prelude Errors GoStrings Strconv Encoding Json ShardMap Fsm.

Open Scope string_scope.
Open Scope Z_scope.

Definition ErrNotLeader := SimpleError "clusterserver: not the leader".

(** ** Configuration *)
Record TimeoutConfig := MkTimeouts {
  RaftApply : Z; RaftMembership : Z; RaftTransport : Z; StreamingRPC : Z; WaitLeader : Z; Rebalance : Z }.
Record Config := MkConfig {
  cfg_NodeID : string;
  cfg_ClusterID : string;
  cfg_RaftBindAddr : string;
  cfg_GossipBindAddr : string;
  cfg_GossipBindPort : Z;
  cfg_Bootstrap : bool;
  cfg_SeedNodes : list string;
  cfg_RaftDataDir : string;
  cfg_ReplicationFactor : Z;
  cfg_HasStorage : bool;
  cfg_ConcurrentShards : Z;
  cfg_Timeouts : TimeoutConfig;
}.
Definition Second : Z := 1000000000.
Definition Minute : Z := 60 * Second.
Definition or_default (d v : Z) : Z := if v =? 0 then d else v.
Definition default_timeouts (t : TimeoutConfig) : TimeoutConfig :=
  MkTimeouts (or_default (5 * Second) (RaftApply t)) (or_default (10 * Second) (RaftMembership t))
    (or_default (10 * Second) (RaftTransport t)) (or_default (10 * Minute) (StreamingRPC t))
    (or_default (10 * Second) (WaitLeader t)) (or_default (30 * Minute) (Rebalance t)).
Definition with_factor (rf : Z) (t : TimeoutConfig) (c : Config) : Config :=
  MkConfig (cfg_NodeID c) (cfg_ClusterID c) (cfg_RaftBindAddr c) (cfg_GossipBindAddr c) (cfg_GossipBindPort c)
    (cfg_Bootstrap c) (cfg_SeedNodes c) (cfg_RaftDataDir c) rf (cfg_HasStorage c) (cfg_ConcurrentShards c) t.

(** The configuration with its defaults filled in; an error leaves it unused. *)
Definition validate (cfg : Config) : Res Config :=
  if String.eqb (cfg_NodeID cfg) "" then Err (SimpleError "node_id is required")
  else if String.eqb (cfg_RaftBindAddr cfg) "" then Err (SimpleError "raft_bind_addr is required")
  else if String.eqb (cfg_GossipBindAddr cfg) "" then Err (SimpleError "gossip_bind_addr is required")
  else if cfg_GossipBindPort cfg =? 0 then Err (SimpleError "gossip_bind_port is required")
  else if String.eqb (cfg_RaftDataDir cfg) "" then Err (SimpleError "raft_data_dir is required")
  else if cfg_Bootstrap cfg && (0 <? llen (cfg_SeedNodes cfg)) then
    Err (SimpleError "bootstrap mode should not specify seed_nodes (mutually exclusive)")
  else
    let rf := if cfg_ReplicationFactor cfg <? 1 then 1 else cfg_ReplicationFactor cfg in
    if 7 <? rf then
      Err (SimpleError ("replication_factor must be 1-7, got " +:+ FormatInt rf +:+
                        " (higher values may impact performance)"))
    else if (0 <? cfg_ConcurrentShards cfg) && negb (cfg_HasStorage cfg) then
      Err (SimpleError "storage is required when rebalance is enabled (rebalance.concurrent_shards > 0)")
    else Ok (with_factor rf (default_timeouts (cfg_Timeouts cfg)) cfg).

(** ** Raft *)
Class Raft (R : Type) := {
  raft_Apply : bytes -> R -> option error * R;
  raft_AddVoter : string -> string -> R -> option error * R;
  raft_RemoveServer : string -> R -> option error * R;
  raft_State_is_Leader : R -> bool;
  raft_LeaderWithID : R -> string * string;
  (* the state machine of this node, which raft drives *)
  raft_fsm : R -> FSM;
}.

(** [raft] holds the state of raft; the other fields are those of the Go struct. *)
Record Server (R : Type) := MkServer {
  config : Config; raft : R; isLeader : bool; leaderAddr : string; leaderID : string }.
Arguments MkServer {R} _ _ _ _ _.
Arguments config {R} _.
Arguments raft {R} _.
Arguments isLeader {R} _.
Arguments leaderAddr {R} _.
Arguments leaderID {R} _.

Section Servers.
Context {R : Type} `{Raft R}.
Implicit Types s : Server R.

Definition with_raft (r : R) s : Server R := MkServer (config s) r (isLeader s) (leaderAddr s) (leaderID s).
Definition wrap_err (msg : string) (o : option error) : option error := option_map (WrapError msg) o.

(** [RaftNode.Apply]: the state machine always answers nil. *)
Definition RaftNode_Apply (data : bytes) s : option error * Server R :=
  let '(err, r) := raft_Apply data (raft s) in (wrap_err "raft apply" err, with_raft r s).
Definition AddVoter (nodeID addr : string) s : option error * Server R :=
  let '(err, r) := raft_AddVoter nodeID addr (raft s) in (wrap_err "add voter" err, with_raft r s).
Definition RemoveServer (nodeID : string) s : option error * Server R :=
  let '(err, r) := raft_RemoveServer nodeID (raft s) in (wrap_err "remove server" err, with_raft r s).
Definition RaftNode_IsLeader s : bool := raft_State_is_Leader (raft s).
Definition RaftNode_Leader s : string := fst (raft_LeaderWithID (raft s)).
Definition RaftNode_LeaderID s : string := snd (raft_LeaderWithID (raft s)).
Definition fsm s : FSM := raft_fsm (raft s).

Definition IsLeader s : bool := isLeader s.
Definition Leader s : string * string := (leaderID s, leaderAddr s).
Definition GetMembers s : gmap string Member := Fsm.GetMembers (fsm s).
Definition GetShardMap s : ShardMap := Fsm.GetShardMap (fsm s).
Definition GetShardOwner (shardID : Z) s : option string := GetShard shardID (GetShardMap s).
Definition GetKeyOwner `{Murmur3} (key : string) s : Z * option string := GetShardForKey key (GetShardMap s).

(** The three commands differ in what they encode. *)
Definition propose (data : bytes) s : option error * Server R :=
  if negb (IsLeader s) then (Some ErrNotLeader, s)
  else let '(err, s) := RaftNode_Apply data s in (wrap_err "raft apply" err, s).
Definition ApplyShardUpdate (shardID : Z) (nodeID : string) (replicas : list string) s : option error * Server R :=
  propose (encodeLogEntry LogEntryShardMapUpdate (update_json (MkUpdate shardID nodeID replicas))) s.
Definition ApplyMemberJoin (nodeID addr : string) s : option error * Server R :=
  propose (encodeLogEntry LogEntryMemberJoin (join_json (MkJoin nodeID addr))) s.
Definition ApplyMemberLeave (nodeID : string) s : option error * Server R :=
  propose (encodeLogEntry LogEntryMemberLeave (leave_json (MkLeave nodeID))) s.

(** The rebalance it starts in the background is in Rebalance.v. *)
Definition handleLeaderChange (lead : bool) s : Server R :=
  MkServer (config s) (raft s) lead (RaftNode_Leader s) (RaftNode_LeaderID s).

(** ** Membership changes *)

(** The callbacks [OnJoin] and [OnLeave] that [setupDiscoveryCallbacks] registers. *)
Definition OnJoin (nodeID addr : string) s : Server R :=
  if negb (IsLeader s) then s
  else
    match AddVoter nodeID addr s with
    | (Some _, s) => s
    | (None, s) =>
        match ApplyMemberJoin nodeID addr s with
        | (Some _, s) => snd (RemoveServer nodeID s)
        | (None, s) => s
        end
    end.
Definition OnLeave (nodeID : string) s : Server R :=
  if negb (IsLeader s) then s
  else
    match RemoveServer nodeID s with
    | (Some _, s) => s
    | (None, s) => snd (ApplyMemberLeave nodeID s)
    end.

Record nodeMetadata := MkMetadata { RaftAddr : string; ClusterID : string }.
Definition assign_metadata (k : string) (v : json) (m : nodeMetadata) : option nodeMetadata :=
  addr ← (if String.eqb k "raft_addr" then dec_string v (RaftAddr m) else Some (RaftAddr m));
  cid ← (if String.eqb k "cluster_id" then dec_string v (ClusterID m) else Some (ClusterID m));
  Some (MkMetadata addr cid).
Definition metadata_json (m : nodeMetadata) : json :=
  JObj [("raft_addr", JStr (RaftAddr m)); ("cluster_id", JStr (ClusterID m))].
(** What a node tells the others about itself, cut to the limit of the gossip protocol. *)
Definition NodeMeta (m : nodeMetadata) (limit : Z) : bytes :=
  let data := to_bytes (print (metadata_json m)) in
  if limit <? llen data then take (Z.to_nat limit) data else data.

(** A node seen by gossip, with [JoinHostPort] of its gossip address already made.
    The result is the address the callback is called with. *)
Definition NotifyJoin (clusterID gossipAddr : string) (meta : bytes) : option string :=
  let parsed :=
    if 0 <? llen meta then v ← parse (of_bytes meta); unmarshal assign_metadata (MkMetadata "" "") v
    else Some (MkMetadata "" "") in
  match parsed with
  | None => None
  | Some metadata =>
      if negb (String.eqb clusterID "") && negb (String.eqb (ClusterID metadata) "") &&
         negb (String.eqb (ClusterID metadata) clusterID) then None
      else Some (if String.eqb (RaftAddr metadata) "" then gossipAddr else RaftAddr metadata)
  end.

(** ** Handlers *)
Record JoinResponse := MkJoinResponse {
  Accepted : bool; LeaderNodeId : string; LeaderAddr : string;
  resp_Members : gmap string Member; resp_ShardMap : option (gmap Z string * gmap Z (list string) * Z) }.
Definition pb_shard_map (m : ShardMap) : gmap Z string * gmap Z (list string) * Z :=
  (Shards m, Replicas m, Version m).

Definition Join (nodeID addr : string) s : Res JoinResponse * Server R :=
  if negb (IsLeader s) then
    let '(leaderID, leaderAddr) := Leader s in (Ok (MkJoinResponse false leaderID leaderAddr ∅ None), s)
  else
    match ApplyMemberJoin nodeID addr s with
    | (Some err, s) => (Err (WrapError "apply member join" err), s)
    | (None, s) =>
        match AddVoter nodeID addr s with
        | (Some err, s) => (Err (WrapError "add voter" err), s)
        | (None, s) =>
            let '(leaderID, leaderAddr) := Leader s in
            (Ok (MkJoinResponse true leaderID leaderAddr (GetMembers s) (Some (pb_shard_map (GetShardMap s)))), s)
        end
    end.
Definition handler_GetShardMap s : gmap Z string * gmap Z (list string) * Z := pb_shard_map (GetShardMap s).

(** The statistics of the raft library are left out. *)
Record Stats := MkStats {
  st_NodeID : string; st_IsLeader : bool; st_LeaderID : string; st_LeaderAddr : string; MemberCount : Z;
  st_ShardMapStats : ShardMapStats }.
Definition GetStats s : Stats :=
  MkStats (cfg_NodeID (config s)) (isLeader s) (leaderID s) (leaderAddr s) (Z.of_nat (size (GetMembers s)))
    (ShardMap.GetStats (GetShardMap s)).
Record PingResponse := MkPing { ping_NodeId : string; ping_Timestamp : Z; ping_IsLeader : bool }.
Definition Ping : M (Server R) PingResponse :=
  s <- get_st ;;
  let stats := GetStats s in
  now <- time_now ;;
  ret (MkPing (st_NodeID stats) (now / 1000000000) (st_IsLeader stats)).

(** ** Monitoring *)

(** The level of the message about the number of nodes: an even number is [DEGRADED]. *)
Definition checkClusterParity s : option bool :=
  let nodeCount := Z.of_nat (size (GetMembers s)) in
  if (nodeCount mod 2 =? 0) && (0 <? nodeCount) then Some false
  else if 0 <? nodeCount then Some true else None.

(** The shards without an owner and those with too few replicas, when the check runs. *)
Definition checkReplicationHealth s : option (list Z * list Z) :=
  if negb (RaftNode_IsLeader s) then None
  else if Z.of_nat (size (GetMembers s)) =? 0 then None
  else
    let m := GetShardMap s in
    let ids := map Z.of_nat (seq 0 (Z.to_nat DefaultShardCount)) in
    let unassigned := filter (fun id => GetShard id m = None) ids in
    let short := filter (fun id => is_Some (GetShard id m) /\
                           llen (default [] (GetReplicas id m)) < cfg_ReplicationFactor (config s)) ids in
    Some (unassigned, short).
End Servers.

(** ** Certificates *)
Record Certificate := MkCertificate { CommonName : string; NotBefore : Z; NotAfter : Z; IsCA : bool }.
(** [cert.Verify] against the pool of the cluster, at a time. *)
Class X509 := { Verify : Certificate -> Z -> option error }.
Record AuthInterceptor := MkAuthInterceptor {
  hasCAPool : bool; allowedNodes : option (gmap string bool); strictNodeIDCheck : bool }.
Definition UpdateAllowedNodes (nodes : option (gmap string bool)) (i : AuthInterceptor) : AuthInterceptor :=
  MkAuthInterceptor (hasCAPool i) nodes (strictNodeIDCheck i).

Section Certificates.
Context `{X509} {S : Type}.

Definition verifyCertificate (cert : Certificate) : M S (option error) :=
  now <- time_now ;;
  match Verify cert now with
  | Some err => ret (Some (WrapError "certificate chain verification failed" err))
  | None =>
      now <- time_now ;;
      if now <? NotBefore cert then ret (Some (SimpleError "certificate not yet valid"))
      else
        now <- time_now ;;
        if NotAfter cert <? now then ret (Some (SimpleError "certificate has expired"))
        else if IsCA cert then ret (Some (SimpleError "client certificate cannot be a CA certificate"))
        else ret None
  end.

(** [tls] is the TLS state found in the context: the certificates of the peer. *)
Definition authenticate (i : AuthInterceptor) (tls : option (list Certificate)) : M S (option error) :=
  if negb (hasCAPool i) then ret None
  else
    match tls with
    | None => ret (Some (WrapError "extract TLS info"
                (SimpleError "TLS connection state not available - ensure TLS middleware is configured")))
    | Some [] => ret (Some (SimpleError "no client certificate provided"))
    | Some (clientCert :: _) =>
        r <- verifyCertificate clientCert ;;
        match r with
        | Some err => ret (Some (WrapError "certificate verification failed" err))
        | None =>
            let nodeID := CommonName clientCert in
            if String.eqb nodeID "" then ret (Some (SimpleError "certificate CN (node ID) is empty"))
            (* the name is printed quoted, with escapes where it needs them *)
            else if strictNodeIDCheck i &&
                    match allowedNodes i with None => false | Some m => negb (default false (m !! nodeID)) end
            then ret (Some (SimpleError ("node ID " +:+ quote +:+ nodeID +:+ quote +:+ " not in allowed list")))
            else ret None
        end
    end.

(** [WrapUnary] and [WrapStreamingHandler]: [Some] is the error the call is refused with. *)
Definition guarded {A} (i : AuthInterceptor) (tls : option (list Certificate)) (next : M S (Res A)) : M S (Res A) :=
  r <- authenticate i tls ;;
  match r with Some err => ret (Err (WrapError "unauthenticated" err)) | None => next end.
End Certificates.
