(* ===== verification/ClusterSpec.v ===== *)
(** The cluster server: who may call it, what a configuration it accepts promises,
    how nodes introduce themselves, and what joining does to the state. *)

From Stdlib Require Import Ascii String.
From stdpp Require Import list strings gmap fin_maps.
From S2P Require Import Prelude Errors GoStrings Strconv Encoding Json JsonFacts ShardMap Fsm.
From S2P Require Import FsmSpec Cluster.

Open Scope string_scope.
Open Scope Z_scope.

(** ** Configuration *)

(** An accepted configuration has its bounds and its defaults, and is accepted again unchanged. *)
Theorem validate_normalises (cfg cfg' : Config) (E : validate cfg = Ok cfg') :
  1 <= cfg_ReplicationFactor cfg' <= 7 /\ cfg_NodeID cfg' <> "" /\
  (cfg_Bootstrap cfg' = true -> cfg_SeedNodes cfg' = []) /\
  (cfg_HasStorage cfg' = false -> cfg_ConcurrentShards cfg' <= 0) /\
  RaftApply (cfg_Timeouts cfg') <> 0 /\ StreamingRPC (cfg_Timeouts cfg') <> 0 /\
  validate cfg' = Ok cfg'.
Proof.
  unfold validate in E; destruct cfg as [nid cid ra ga gp bo seeds dir rf st cs [t1 t2 t3 t4 t5 t6]]; cbn in E.
  destruct (String.eqb_spec nid ""), (String.eqb_spec ra ""), (String.eqb_spec ga ""), (Z.eqb_spec gp 0),
    (String.eqb_spec dir ""); try discriminate.
  destruct (bo && _) eqn:E1; [discriminate|]; destruct (7 <? _) eqn:E2; [discriminate|].
  destruct ((0 <? cs) && negb st) eqn:E3; [discriminate|]; injection E as <-; cbn.
  apply Z.ltb_ge in E2; set (rf' := if rf <? 1 then 1 else rf) in *.
  assert (1 <= rf') as Hrf by (unfold rf'; destruct (Z.ltb_spec rf 1); lia).
  assert (forall d v, d <> 0 -> or_default d v <> 0) as Hd by (intros d v ?; unfold or_default; destruct (Z.eqb_spec v 0); lia).
  assert (forall d v, d <> 0 -> or_default d (or_default d v) = or_default d v) as Hi
    by (intros d v Hdv; specialize (Hd d v Hdv); unfold or_default at 1; by rewrite (proj2 (Z.eqb_neq _ _) Hd)).
  split_ands; try done; try (apply Hd; done).
  - intros ->; cbn in E1; unfold llen in E1; destruct seeds; [done|cbn in E1; discriminate].
  - intros ->; rewrite andb_true_r in E1, E3 || rewrite andb_true_r in E3; lia.
  - unfold validate; cbn; rewrite !(proj2 (String.eqb_neq _ _)), (proj2 (Z.eqb_neq _ _)), E1, E3 by done.
    rewrite (proj2 (Z.ltb_ge rf' 1)), (proj2 (Z.ltb_ge 7 rf')) by lia.
    unfold with_factor, default_timeouts; cbn; by rewrite !Hi by done.
Qed.

(** ** Gossip *)

(** What a node says of itself is understood by the others, as long as it fits: a node of
    another cluster is left out, and raft is given the raft address, or the gossip address for
    want of it. *)
Theorem gossip_roundtrip (m : nodeMetadata) (limit : Z) (clusterID gossipAddr : string)
  (Ha : utf8_ok (RaftAddr m) = true) (Hc : utf8_ok (ClusterID m) = true)
  (Hlim : llen (NodeMeta m (llen (to_bytes (print (metadata_json m))))) <= limit) :
  NotifyJoin clusterID gossipAddr (NodeMeta m limit) =
  if decide (clusterID <> "" /\ ClusterID m <> "" /\ ClusterID m <> clusterID) then None
  else Some (if decide (RaftAddr m = "") then gossipAddr else RaftAddr m).
Proof.
  assert (NodeMeta m limit = to_bytes (print (metadata_json m))) as E.
  { unfold NodeMeta in *; rewrite Z.ltb_irrefl in Hlim; by rewrite (proj2 (Z.ltb_ge _ _)). }
  assert (json_ok (metadata_json m) = true) as Hok by (apply json_ok_obj; by repeat constructor).
  unfold NotifyJoin; rewrite E, of_to_bytes, parse_print_value by done.
  replace (0 <? llen (to_bytes (print (metadata_json m)))) with true by done.
  cbn [mbind option_bind]; unfold unmarshal, metadata_json; do 2 assign_as assign_metadata idtac; cbn [dec_members].
  destruct m as [addr cid]; cbn [RaftAddr ClusterID] in *.
  destruct (String.eqb_spec clusterID ""), (String.eqb_spec cid ""), (String.eqb_spec cid clusterID), (String.eqb_spec addr "");
    cbn [negb andb]; repeat case_decide; naive_solver.
Qed.

(** ** Certificates *)
Section Certificates.
Context `{X509} {S A : Type}.

(** A certificate the interceptor accepts when the clock stands at [now]. *)
Definition trusted (i : AuthInterceptor) (now : Z) (c : Certificate) : Prop :=
  Verify c now = None /\ NotBefore c <= now <= NotAfter c /\ IsCA c = false /\ CommonName c <> "" /\
  (strictNodeIDCheck i = true -> forall m, allowedNodes i = Some m -> m !! CommonName c = Some true).

Ltac refused := do 2 eexists; split; [reflexivity|]; split; [discriminate|].
Lemma verifyCertificate_run c now (s : S) (e : env) : (forall n, clk e n = now) ->
  exists r e', verifyCertificate c s e = (r, s, e') /\
    (r = None <-> Verify c now = None /\ NotBefore c <= now <= NotAfter c /\ IsCA c = false).
Proof.
  intros Hclk; unfold verifyCertificate; erewrite bind_run by reflexivity; rewrite Hclk.
  destruct (Verify c now) as [err|]; [refused; by intros []|].
  erewrite bind_run by reflexivity; cbn [clk]; rewrite Hclk; destruct (Z.ltb_spec now (NotBefore c)); [refused; lia|].
  erewrite bind_run by reflexivity; cbn [clk]; rewrite Hclk; destruct (Z.ltb_spec (NotAfter c) now); [refused; lia|].
  destruct (IsCA c); [refused; naive_solver|]. do 2 eexists; split; [reflexivity|]; split; [intros _; split_ands; done || lia|done].
Qed.
Lemma authenticate_run (i : AuthInterceptor) c rest now (s : S) (e : env) : (forall n, clk e n = now) -> hasCAPool i = true ->
  exists r e', authenticate i (Some (c :: rest)) s e = (r, s, e') /\ (r = None <-> trusted i now c).
Proof.
  intros Hclk Hca; unfold authenticate; rewrite Hca; cbn [negb]; unfold trusted.
  destruct (verifyCertificate_run c now s e Hclk) as (r & e1 & E & Hr); erewrite bind_run by exact E.
  destruct r as [err|]; [refused; intros (H1 & H2 & H3 & _); discriminate (proj2 Hr (conj H1 (conj H2 H3)))|].
  destruct (proj1 Hr eq_refl) as (H1 & H2 & H3).
  destruct (String.eqb_spec (CommonName c) ""); [refused; naive_solver|].
  destruct (strictNodeIDCheck i); cbn [andb]; [|do 2 eexists; split; [reflexivity|]; naive_solver].
  destruct (allowedNodes i) as [m|]; [|do 2 eexists; split; [reflexivity|]; naive_solver].
  destruct (m !! CommonName c) as [[]|] eqn:El; cbn [negb default from_option id];
    [|refused; intros (_ & _ & _ & _ & H0); specialize (H0 eq_refl m eq_refl); congruence..].
  do 2 eexists; split; [reflexivity|]; naive_solver.
Qed.

(** Where a certificate authority is configured, a call from another node runs exactly when the
    first certificate of its connection is trusted; otherwise it is refused and changes
    nothing. *)
Theorem calls_need_trust (i : AuthInterceptor) (tls : option (list Certificate)) (next : M S (Res A)) (s : S) (e : env) (now : Z)
  (Hca : hasCAPool i = true) (Hclk : forall n, clk e n = now) :
  exists e', (exists c rest, tls = Some (c :: rest) /\ trusted i now c /\ guarded i tls next s e = next s e') \/
    ((forall c rest, tls = Some (c :: rest) -> ~ trusted i now c) /\
     exists err, guarded i tls next s e = (Err (WrapError "unauthenticated" err), s, e')).
Proof.
  destruct tls as [[|c rest]|].
  - exists e; right; split; [by intros|]; unfold guarded, authenticate; rewrite Hca; by eexists.
  - destruct (authenticate_run i c rest now s e Hclk Hca) as (r & e' & E & Hr); exists e'; unfold guarded.
    destruct r as [err|].
    + right; split; [intros c0 rest0 [= <- <-] Ht; by apply Hr in Ht|]; exists err; by erewrite bind_run by exact E.
    + left; exists c, rest; split_ands; [done|by apply Hr|]; by erewrite bind_run by exact E.
  - exists e; right; split; [by intros|]; unfold guarded, authenticate; rewrite Hca; by eexists.
Qed.
End Certificates.

(** ** Membership *)

(** What raft documents: a proposal that succeeded has been applied to the state machine; changes
    of the configuration do not touch it.  (The node is alone in proposing while a call
    runs.) *)
Class RaftLaws (R : Type) `{Raft R} := {
  voters : R -> gset string;
  raft_applied : forall data r r', raft_Apply data r = (None, r') ->
    Apply data (raft_fsm r) = Some (raft_fsm r') /\ voters r' = voters r;
  raft_voter_added : forall id addr r err r', raft_AddVoter id addr r = (err, r') ->
    raft_fsm r' = raft_fsm r /\ (err = None -> voters r' = {[id]} ∪ voters r);
  raft_server_removed : forall id r err r', raft_RemoveServer id r = (err, r') ->
    raft_fsm r' = raft_fsm r /\ (err = None -> voters r' = voters r ∖ {[id]});
}.

Section Membership.
Context {R : Type} `{RaftLaws R}.
Implicit Types s : Server R.

Definition joined (nodeID addr : string) s : Prop :=
  members (fsm s) !! nodeID = Some (MkMember nodeID addr false "alive").
Definition voter (nodeID : string) s : Prop := nodeID ∈ voters (raft s).

Lemma propose_run c s s' : command_ok c -> propose (encode c) s = (None, s') ->
  isLeader s = true /\ fsm s' = effect (fsm s) c /\ voters (raft s') = voters (raft s).
Proof.
  intros Hc; unfold propose, IsLeader, RaftNode_Apply; destruct (isLeader s); [|discriminate]; cbn [negb].
  destruct (raft_Apply (encode c) (raft s)) as [err r] eqn:E; destruct err as [err|]; intros [= <-]; [].
  destruct (raft_applied _ _ _ E) as [Ha Hv]; rewrite Apply_encode in Ha by done; by injection Ha.
Qed.
Lemma AddVoter_run nodeID addr s err s' : AddVoter nodeID addr s = (err, s') ->
  fsm s' = fsm s /\ isLeader s' = isLeader s /\ (err = None -> voter nodeID s').
Proof.
  unfold AddVoter; destruct (raft_AddVoter nodeID addr (raft s)) as [er r] eqn:E; intros [= <- <-].
  destruct (raft_voter_added _ _ _ _ _ E) as [Hf Hv]; split_ands; [done|done|].
  destruct er; [done|]; intros _; unfold voter; cbn; rewrite Hv by done; set_solver.
Qed.
Lemma RemoveServer_run nodeID s err s' : RemoveServer nodeID s = (err, s') ->
  fsm s' = fsm s /\ isLeader s' = isLeader s /\ (err = None -> ~ voter nodeID s').
Proof.
  unfold RemoveServer; destruct (raft_RemoveServer nodeID (raft s)) as [er r] eqn:E; intros [= <- <-].
  destruct (raft_server_removed _ _ _ _ E) as [Hf Hv]; split_ands; [done|done|].
  destruct er; [done|]; intros _; unfold voter; cbn; rewrite Hv by done; set_solver.
Qed.

(** A node that is not the leader changes nothing: the handler answers with the leader it knows, the
    gossip callbacks do nothing, and a command is refused. *)
Theorem only_leader_changes (nodeID addr : string) (id : Z) (replicas : list string) s (Hs : isLeader s = false) :
  (exists resp, Join nodeID addr s = (Ok resp, s) /\ Accepted resp = false /\ LeaderNodeId resp = leaderID s) /\
  OnJoin nodeID addr s = s /\ OnLeave nodeID s = s /\
  ApplyShardUpdate id nodeID replicas s = (Some ErrNotLeader, s) /\
  ApplyMemberJoin nodeID addr s = (Some ErrNotLeader, s) /\ ApplyMemberLeave nodeID s = (Some ErrNotLeader, s).
Proof.
  unfold Join, OnJoin, OnLeave, ApplyShardUpdate, ApplyMemberJoin, ApplyMemberLeave, propose, IsLeader; rewrite Hs.
  split_ands; try done; by eexists.
Qed.

(** Joining through the leader.  Accepted by the handler, the node is a member and a voter and the
    answer shows the members; but when raft refuses the voter the handler reports the error and the
    state machine keeps the member.  Seen by gossip, the voter comes first: if raft refuses it the
    state machine is as it was. *)
Theorem join_paths (nodeID addr : string) s (Hs : isLeader s = true)
  (Hn : utf8_ok nodeID = true) (Ha : utf8_ok addr = true) :
  match Join nodeID addr s with
  | (Ok resp, s') => Accepted resp = true /\ joined nodeID addr s' /\ voter nodeID s' /\ resp_Members resp = members (fsm s')
  | (Err (WrapError msg _), s') => msg = "apply member join" \/ (msg = "add voter" /\ joined nodeID addr s')
  | (Err _, _) => False
  end /\
  match AddVoter nodeID addr s with
  | (Some _, _) => fsm (OnJoin nodeID addr s) = fsm s
  | (None, s1) =>
      match ApplyMemberJoin nodeID addr s1 with
      | (Some _, s2) => OnJoin nodeID addr s = snd (RemoveServer nodeID s2)
      | (None, s2) => OnJoin nodeID addr s = s2 /\ joined nodeID addr s2 /\ voter nodeID s2
      end
  end.
Proof.
  assert (command_ok (FsmSpec.Join (MkJoin nodeID addr))) as Hok by done.
  assert (forall s1 s2, ApplyMemberJoin nodeID addr s1 = (None, s2) ->
    joined nodeID addr s2 /\ voters (raft s2) = voters (raft s1)) as Hjoin.
  { intros s1 s2 E; destruct (propose_run _ _ _ Hok E) as (_ & Hf & Hv); split; [|done].
    unfold joined; rewrite Hf; cbn; apply lookup_insert_eq. }
  split.
  - unfold Join, IsLeader; rewrite Hs; cbn [negb]; destruct (ApplyMemberJoin nodeID addr s) as [[err|] s1] eqn:E1; [by left|].
    destruct (Hjoin _ _ E1) as [Hj _]; destruct (AddVoter nodeID addr s1) as [[err|] s2] eqn:E2;
      destruct (AddVoter_run _ _ _ _ _ E2) as (Hf & _ & Hv); unfold joined in *; rewrite <- Hf in Hj; [by right|].
    cbn; split_ands; [done|done|by apply Hv|]; unfold GetMembers, Fsm.GetMembers; apply copy_members.
  - destruct (AddVoter nodeID addr s) as [[err|] s1] eqn:E1; destruct (AddVoter_run _ _ _ _ _ E1) as (Hf & Hl & Hv);
      unfold OnJoin, IsLeader; rewrite Hs, E1; cbn [negb]; [done|].
    destruct (ApplyMemberJoin nodeID addr s1) as [[err|] s2] eqn:E2; [done|]; destruct (Hjoin _ _ E2) as [Hj Hv2].
    split_ands; [done|done|]; unfold voter; rewrite Hv2; by apply Hv.
Qed.
End Membership.

(** ** Witnesses *)
#[local] Instance demo_raft : Raft (FSM * gset string) := {
  raft_Apply data r := match Apply data (fst r) with Some f => (None, (f, snd r)) | None => (Some (SimpleError "panic"), r) end;
  raft_AddVoter id _ r := if String.eqb id "refused" then (Some (SimpleError "refused"), r) else (None, (fst r, {[id]} ∪ snd r));
  raft_RemoveServer id r := (None, (fst r, snd r ∖ {[id]}));
  raft_State_is_Leader _ := true;
  raft_LeaderWithID _ := ("10.0.0.1:5343", "node-1");
  raft_fsm := fst }.
#[local] Instance demo_raft_laws : RaftLaws (FSM * gset string).
Proof.
  refine {| voters := snd |}.
  - intros data [f v] [f' v']; cbn; destruct (Apply data f); [|discriminate]; by intros [= <- <-].
  - intros id addr [f v] err [f' v']; cbn; destruct (String.eqb id "refused"); by intros [= <- <- <-].
  - intros id [f v] err [f' v']; cbn; by intros [= <- <- <-].
Defined.
Definition demo_config : Config :=
  MkConfig "node-1" "" "127.0.0.1:5343" "127.0.0.1" 5344 true [] "/data" 0 false 0 (MkTimeouts 0 0 0 0 0 0).
Definition demo_server (lead : bool) : Server (FSM * gset string) := MkServer demo_config (NewFSM, ∅) lead "" "".

Lemma validate_normalises_witness : exists cfg', validate demo_config = Ok cfg' /\ 1 <= cfg_ReplicationFactor cfg' <= 7.
Proof. eexists; split; [reflexivity|]; by apply (validate_normalises demo_config). Defined.
Lemma gossip_roundtrip_witness :
  NotifyJoin "prod" "10.0.0.2:5344" (NodeMeta (MkMetadata "10.0.0.2:5343" "prod") 512) = Some "10.0.0.2:5343".
Proof. apply (gossip_roundtrip (MkMetadata "10.0.0.2:5343" "prod") 512 "prod" "10.0.0.2:5344"); [done|done|vm_compute; discriminate]. Defined.
#[local] Instance demo_x509 : X509 := { Verify c _ := if String.eqb (CommonName c) "stranger" then Some (SimpleError "unknown authority") else None }.
Lemma calls_need_trust_witness :
  exists e', fst (fst (guarded (S := unit) (MkAuthInterceptor true None true) (Some [MkCertificate "stranger" 0 10 false])
    (ret (Ok 1)) tt (Env (fun _ => 5) (fun _ _ => Err EOF) (fun _ => Err EOF)))) = Err (WrapError "unauthenticated" e').
Proof.
  destruct (calls_need_trust (MkAuthInterceptor true None true) (Some [MkCertificate "stranger" 0 10 false]) (ret (Ok 1)) tt
    (Env (fun _ => 5) (fun _ _ => Err EOF) (fun _ => Err EOF)) 5 eq_refl (fun n => eq_refl)) as (e' & [(c & rest & E & Ht & _)|(_ & err & E)]).
  - injection E as <- <-; destruct Ht as [Ht _]; discriminate Ht.
  - exists err; by rewrite E.
Defined.
Lemma only_leader_changes_witness : OnJoin "node-2" "10.0.0.2:5343" (demo_server false) = demo_server false.
Proof. apply (only_leader_changes "node-2" "10.0.0.2:5343" 0 [] (demo_server false) eq_refl). Defined.
Lemma join_paths_witness : joined "refused" "10.0.0.2:5343" (snd (Join "refused" "10.0.0.2:5343" (demo_server true))).
Proof.
  destruct (join_paths "refused" "10.0.0.2:5343" (demo_server true) eq_refl eq_refl eq_refl) as [Hj _].
  revert Hj; vm_compute (Join _ _ _); by intros [|[_ Hj]].
Defined.
