(* ===== verification/Rebalance.v ===== *)
(** Moving shards between nodes: [internal/server/clusterserver/rebalance.go], and the
    receiving handler [TransferShard] of [handler.go].

    The RPC client, its stream and the rate limiter are outside the sources,
    parameters: what they answer and what they do to their own state [T].  The
    lock a scan of the sessions holds matters here: [Scan] runs its callback under the read lock of
    a shard of the map, and the [Pop] of a deletion takes the write lock of the
    same shard, so a callback that deletes what it is shown never returns.  An
    operation that never returns is [None]. *)

From Stdlib Require Import Ascii String.
From stdpp Require Import list strings gmap fin_maps.
From S2P Require Import Prelude Errors GoStrings Encoding Json Session MemoryStore WalCodec.
From S2P Require Import SessionService Engine ShardMap.

Open Scope string_scope.
Open Scope Z_scope.

Record RebalanceConfig := MkRebalanceConfig {
  MaxRateBytesPerSec : Z; MinTTL : Z; ConcurrentShards : Z; StreamingTimeout : Z }.
Definition DefaultRebalanceConfig : RebalanceConfig :=
  MkRebalanceConfig (20 * 1024 * 1024) (60 * 1000000000) 3 (600 * 1000000000).

(** ** Tasks *)
Definition TaskStatusPending : string := "pending".
Definition TaskStatusRunning : string := "running".
Definition TaskStatusCompleted : string := "completed".
Definition TaskStatusFailed : string := "failed".
Record TaskProgress := MkProgress {
  TotalItems : Z; TransferredItems : Z; BytesTransferred : Z; SkippedExpired : Z; LastError : string }.
(** The times of a task, only shown in messages, are left out. *)
Record TransferTask := MkTask {
  t_ShardID : Z; TargetNode : string; TargetAddr : string; Status : string; Progress : TaskProgress }.
Definition set_status (st : string) (p : TaskProgress) (t : TransferTask) : TransferTask :=
  MkTask (t_ShardID t) (TargetNode t) (TargetAddr t) st p.

Record MigrationTarget := MkTarget { mt_NodeID : string; mt_Addr : string }.
Definition computeMigrations (oldMap newMap : ShardMap) : gmap Z MigrationTarget :=
  foldl (fun migrations shardID =>
    match GetShard shardID newMap with
    | None => migrations
    | Some newOwner =>
        if match GetShard shardID oldMap with None => true | Some o => negb (String.eqb o newOwner) end
        then <[shardID := MkTarget newOwner ""]> migrations else migrations
    end) ∅ (map Z.of_nat (seq 0 (Z.to_nat ShardMap.DefaultShardCount))).

(** ** The stream *)
Record TransferShardRequest := MkTransferRequest { ts_ShardId : Z; ts_SessionId : string; ts_SessionData : bytes }.
(** [newClient] stands for the client factory and the opening of the stream, [waitN] for the rate
    limiter, whose wait ends with the stream's deadline; [closeAndReceive] for the answer. *)
Class Streams (T : Type) := {
  newClient : string -> T -> option error * T;
  waitN : Z -> T -> option error * T;
  send : TransferShardRequest -> T -> option error * T;
  closeAndReceive : T -> Res bool * T;
}.

Record RebalanceManager (T : Type) := MkRM {
  rm_cfg : RebalanceConfig; storage : Engine; streams : T; tasks : gmap Z TransferTask; running : bool }.
Arguments MkRM {T} _ _ _ _ _.
Arguments rm_cfg {T} _.
Arguments storage {T} _.
Arguments streams {T} _.
Arguments tasks {T} _.
Arguments running {T} _.

(** [Store.Scan]: a callback on copies of the sessions, until it returns [false]. *)
Fixpoint scan {S} (l : list Session) (fn : Session -> M S bool) : M S unit :=
  match l with
  | [] => ret tt
  | sess :: l' => go <- fn sess ;; if go then scan l' fn else ret tt
  end.

Section Manager.
Context {T : Type} `{Streams T}.
Implicit Types rm : RebalanceManager T.

Definition set_engine (en : Engine) rm := MkRM (rm_cfg rm) en (streams rm) (tasks rm) (running rm).
Definition set_streams (t : T) rm := MkRM (rm_cfg rm) (storage rm) t (tasks rm) (running rm).
Definition set_tasks (ts : gmap Z TransferTask) rm := MkRM (rm_cfg rm) (storage rm) (streams rm) ts (running rm).
Definition set_running (b : bool) rm := MkRM (rm_cfg rm) (storage rm) (streams rm) (tasks rm) b.
Definition on_task (shardID : Z) (f : TransferTask -> TransferTask) : M (RebalanceManager T) unit :=
  upd_st (fun rm => set_tasks (alter f shardID (tasks rm)) rm).
Definition call {A} (f : T -> A * T) : M (RebalanceManager T) A :=
  rm <- get_st ;; let '(a, t) := f (streams rm) in upd_st (set_streams t) ;;; ret a.

Definition updateTaskError (shardID : Z) (errMsg : string) : M (RebalanceManager T) unit :=
  on_task shardID (fun t =>
    let p := Progress t in
    set_status TaskStatusFailed
      (MkProgress (TotalItems p) (TransferredItems p) (BytesTransferred p) (SkippedExpired p) errMsg) t).
Definition GetTaskStatus (shardID : Z) rm : option TransferTask := tasks rm !! shardID.
Definition GetAllTasks rm : list TransferTask := map snd (map_to_list (tasks rm)).
Definition IsRunning rm : bool := running rm.

(** What a migration has counted: sessions sent, sessions skipped, bytes. *)
Record Counts := MkCounts { transferred : Z; skipped : Z; totalBytes : Z }.

(** The callback of the migration's scan. *)
Definition migrate_one (shardID nowMillis minTTLMillis : Z) (sess : Session)
    : M (Counts * T) bool :=
  if negb (ShardID sess =? shardID) then ret true
  else
    let skip := upd_st (fun '(c, t) => (MkCounts (transferred c) (u64 (skipped c + 1)) (totalBytes c), t)) ;;; ret true in
    expired <- IsExpired sess ;;
    if (expired : bool) then skip
    else if i64 (ExpiresAt sess - nowMillis) <? minTTLMillis then skip
    else
      let sessionData := Marshal (session_json sess) in
      st <- get_st ;;
      let '(c, t) := st in
      let '(err, t) := waitN (llen sessionData) t in
      match err with
      | Some _ => put_st (c, t) ;;; ret false
      | None =>
          let '(err, t) := send (MkTransferRequest shardID (ID sess) sessionData) t in
          match err with
          | Some _ => put_st (c, t) ;;; ret false
          | None =>
              put_st (MkCounts (u64 (transferred c + 1)) (skipped c) (i64 (totalBytes c + llen sessionData)), t) ;;;
              ret true
          end
      end.

(** [cleanupShardData] over the sessions in the order of the scan.  The log entry of a deletion is
    written before the store is locked; when that fails the session stays and the
    scan goes on, otherwise the deletion waits for the lock the scan holds. *)
Fixpoint cleanup_scan (shardID : Z) (l : list Session) (lastErr : option error)
    : M Engine (option (option error)) :=
  match l with
  | [] => ret (Some lastErr)
  | sess :: l' =>
      if negb (ShardID sess =? shardID) then cleanup_scan shardID l' lastErr
      else
        err <- write_wal (NewDeleteEntry (ID sess)) ;;
        match err with
        | Some err => cleanup_scan shardID l' (Some err)
        | None => ret None
        end
  end.
Definition cleanupShardData (shardID : Z) : M Engine (option (option error)) :=
  en <- get_st ;; cleanup_scan shardID (All (store en)) None.

Definition migrateShardData (shardID : Z) : M (RebalanceManager T) (option (option error)) :=
  rm <- get_st ;;
  match tasks rm !! shardID with
  | None => ret (Some (Some (SimpleError ("task not found for shard " +:+ Strconv.FormatUint shardID))))
  | Some task =>
      on_task shardID (fun t => set_status TaskStatusRunning (Progress t) t) ;;;
      err <- call (newClient (TargetAddr task)) ;;
      match err with
      | Some err =>
          updateTaskError shardID ("create client: " +:+ Error err) ;;;
          ret (Some (Some (WrapError "create client" err)))
      | None =>
          nowMillis <- now_milli ;;
          let minTTLMillis := Z.quot (MinTTL (rm_cfg rm)) 1000000 in
          rm <- get_st ;;
          scanned <- with_local (MkCounts 0 0 0, streams rm)
             (scan (All (store (storage rm))) (migrate_one shardID nowMillis minTTLMillis)) ;;
          let '(_, (counts, t)) := scanned in
          upd_st (set_streams t) ;;;
          resp <- call closeAndReceive ;;
          match resp with
          | Err err =>
              updateTaskError shardID ("stream close: " +:+ Error err) ;;;
              ret (Some (Some (WrapError "stream close" err)))
          | Ok false =>
              updateTaskError shardID "server reported failure" ;;;
              ret (Some (Some (SimpleError "server reported migration failure")))
          | Ok true =>
              on_task shardID (set_status TaskStatusCompleted
                (MkProgress (u64 (transferred counts + skipped counts)) (transferred counts) (totalBytes counts)
                   (skipped counts) "")) ;;;
              r <- zoom storage set_engine (cleanupShardData shardID) ;;
              (* an error of the cleanup is only reported *)
              ret (match r with None => None | Some _ => Some None end)
          end
      end
  end.

(** The migrations run in goroutines, at most [ConcurrentShards] at a time; the model runs them
    one after the other in the given order.  With a limit of zero none ever starts and the
    call waits for them for ever; a negative one panics; both are [None], as is a migration that
    never returns. *)
Fixpoint run_migrations (ids : list Z) : M (RebalanceManager T) (option unit) :=
  match ids with
  | [] => ret (Some tt)
  | id :: ids' =>
      r <- migrateShardData id ;;
      match r with None => ret None | Some _ => run_migrations ids' end
  end.
Definition TriggerRebalance (oldMap newMap : ShardMap) (order : list Z -> list Z)
    : M (RebalanceManager T) (option (option error)) :=
  rm <- get_st ;;
  if running rm then ret (Some (Some (SimpleError "rebalance already in progress")))
  else
    upd_st (set_running true) ;;;
    let migrations := computeMigrations oldMap newMap in
    if (size migrations =? 0)%nat then upd_st (set_running false) ;;; ret (Some None)
    else
      upd_st (fun rm => set_tasks
        (map_imap (fun shardID target => Some (MkTask shardID (mt_NodeID target) (mt_Addr target) TaskStatusPending
                                                 (MkProgress 0 0 0 0 ""))) migrations ∪ tasks rm) rm) ;;;
      if ConcurrentShards (rm_cfg rm) <? 0 then upd_st (set_running false) ;;; ret None
      else if ConcurrentShards (rm_cfg rm) =? 0 then ret None
      else
        r <- run_migrations (order (map fst (map_to_list migrations))) ;;
        match r with None => ret None | Some _ => upd_st (set_running false) ;;; ret (Some None) end.
End Manager.

(** ** The receiver *)
Section Receiver.
Context {R : Type} `{SessionRepository R}.

(** What the handler answers: a number of items, or an error. *)
Fixpoint receive_loop (msgs : list TransferShardRequest) (receivedCount : Z) : M R (Res Z) :=
  match msgs with
  | [] => ret (Ok receivedCount)
  | msg :: msgs' =>
      match Unmarshal_session (ts_SessionData msg) with
      | None => receive_loop msgs' (u64 (receivedCount + 1))
      | Some session =>
          err <- repo_Create session ;;
          match err with
          | Some err =>
              ret (Err (WrapError "internal" (WrapError ("storage failed for session " +:+ ID session) err)))
          | None => receive_loop msgs' (u64 (receivedCount + 1))
          end
      end
  end.
(** [stream_err] is how the stream ended; the end of the input is no error.  The storage is
    the repository, [has_storage] whether one is configured. *)
Definition TransferShard (has_storage : bool) (msgs : list TransferShardRequest) (stream_err : option error)
    : M R (Res Z) :=
  if negb has_storage then
    ret (Err (WrapError "failed_precondition"
                (SimpleError "storage engine not available - cannot accept shard migration")))
  else
    n <-? receive_loop msgs 0 ;;
    ret (match stream_err with
         | Some err =>
             if match err with SimpleError m => String.eqb m "EOF" | _ => false end then Ok n else Err (WrapError "internal" (WrapError "stream error" err))
         | None => Ok n
         end).
End Receiver.
