(* ===== verification/RebalanceSpec.v ===== *)
(** Moving shards: which shards move, what a migration leaves on each side when it
    fails and when it ends, and what reaches the target. *)

From Stdlib Require Import Ascii String.
From stdpp Require Import list strings gmap fin_maps.
From S2P Require Import Prelude Errors GoStrings Encoding Session MemoryStore MemoryStoreFacts.
From S2P Require Import WalCodec WalCodecSpec SessionService SessionServiceSpec Engine EngineRepo.
From S2P Require Import ShardMap Rebalance.

Open Scope string_scope.
Open Scope Z_scope.

(** ** Which shards move *)
Lemma computeMigrations_spec oldMap newMap id :
  computeMigrations oldMap newMap !! id =
  if decide (0 <= id < ShardMap.DefaultShardCount) then
    match GetShard id newMap with
    | Some n => if decide (GetShard id oldMap = Some n) then None else Some (MkTarget n "")
    | None => None
    end
  else None.
Proof.
  unfold computeMigrations; set (step := fun _ _ => _).
  assert (forall l (m : gmap Z MigrationTarget) id, (forall k, k ∈ l -> m !! k = None) -> NoDup l ->
    foldl step m l !! id = if decide (id ∈ l) then
      match GetShard id newMap with
      | Some n => if decide (GetShard id oldMap = Some n) then None else Some (MkTarget n "")
      | None => None
      end else m !! id) as Hfold.
  { clear id; induction l as [|k l IH]; intros m id Hm Hd; cbn [foldl]; [by rewrite decide_False by set_solver|].
    apply NoDup_cons in Hd as [Hk Hd].
    assert (forall j, j <> k -> step m k !! j = m !! j) as Hother.
    { intros j Hj; unfold step; repeat case_match; try done; by rewrite lookup_insert_ne. }
    rewrite IH; [|intros j Hj; rewrite Hother by set_solver; apply Hm; set_solver|done].
    destruct (decide (id ∈ l)) as [Hl|Hl]; [by rewrite decide_True by set_solver|].
    destruct (decide (id = k)) as [->|Hne]; [|by rewrite Hother, decide_False by set_solver].
    rewrite decide_True by set_solver; unfold step; destruct (GetShard k newMap) as [n|]; [|apply Hm; set_solver].
    destruct (GetShard k oldMap) as [o|]; [|by rewrite decide_False, lookup_insert_eq by done].
    destruct (String.eqb_spec o n) as [->|Hne]; cbn [negb].
    - rewrite decide_True by done; apply Hm; set_solver.
    - by rewrite decide_False, lookup_insert_eq by congruence. }
  rewrite Hfold; [|intros; apply lookup_empty|].
  - rewrite lookup_empty; destruct (decide (id ∈ _)) as [Hin|Hin], (decide (0 <= id < _)) as [Hr|Hr]; try done; exfalso.
    + apply list_elem_of_fmap in Hin as (n & -> & Hn%elem_of_seq); unfold ShardMap.DefaultShardCount in *; lia.
    + apply Hin, list_elem_of_fmap; exists (Z.to_nat id); rewrite elem_of_seq; unfold ShardMap.DefaultShardCount in *; lia.
  - apply NoDup_fmap_2; [intros ? ? ?; lia|apply NoDup_seq].
Qed.

Lemma computeMigrations_same m : computeMigrations m m = ∅.
Proof.
  apply map_empty; intros id; rewrite computeMigrations_spec; destruct (decide _); [|done].
  destruct (GetShard id m); [by rewrite decide_True|done].
Qed.

(** ** The cleanup *)

(** Whatever it returns, the cleanup removes nothing; it returns only if no session of the
    shard is there, or the log refused every deletion. *)
Lemma cleanup_scan_run shardID l : forall lastErr en e r en' e', cleanup_scan shardID l lastErr en e = (r, en', e') ->
  store en' = store en /\
  match r with
  | None => Exists (fun s => ShardID s = shardID) l
  | Some o => (lastErr <> None \/ Exists (fun s => ShardID s = shardID) l) -> o <> None
  end /\
  ((forall id e, fst (fst (write_wal (NewDeleteEntry id) en e)) = None) -> Exists (fun s => ShardID s = shardID) l -> r = None).
Proof.
  induction l as [|s l IH]; intros lastErr en e r en' e' E; cbn [cleanup_scan] in E.
  { injection E as <- <- <-; split_ands; [done| |by intros _ ?%Exists_nil]; intros [H|H]; [done|by apply Exists_nil in H]. }
  destruct (Z.eqb_spec (ShardID s) shardID) as [Hs|Hs]; cbn [negb] in E.
  - destruct (write_wal (NewDeleteEntry (ID s)) en e) as [[w en1] e1] eqn:Ew; pose proof (write_wal_store _ _ _ _ _ _ Ew) as Hst.
    rewrite (bind_run _ _ _ _ _ _ _ Ew) in E; destruct w as [err|].
    + destruct (IH _ _ _ _ _ _ E) as (H1 & H2 & _); split_ands; [congruence| |].
      * destruct r; [intros _; apply H2; by left|by constructor 2].
      * intros Ha; specialize (Ha (ID s) e); rewrite Ew in Ha; discriminate.
    + injection E as <- <- <-; split_ands; [done|by constructor|done].
  - destruct (IH _ _ _ _ _ _ E) as (H1 & H2 & H3); split_ands; [done| |].
    + destruct r; [|by constructor 2]; intros [H|H]; apply H2; [by left|right]; by apply Exists_cons in H as [|].
    + intros Ha [H|H]%Exists_cons; [done|by apply H3].
Qed.

(** ** Migrations *)

(** One step of a run: the first call of a sequence is named. *)
Ltac next_call E a st X :=
  match type of E with
  | bind ?m ?k ?s ?e = _ =>
      destruct (m s e) as [[a st] ?] eqn:X; rewrite (bind_run _ _ _ _ _ _ _ X) in E; cbv beta iota in E
  end.

Section Migration.
Context {T : Type} `{Streams T}.
Implicit Types rm : RebalanceManager T.

Definition holds_shard (shardID : Z) (en : Engine) : Prop := Exists (fun s => ShardID s = shardID) (All (store en)).
(** The log takes every deletion. *)
Definition log_accepts (en : Engine) : Prop := forall id e, fst (fst (write_wal (NewDeleteEntry id) en e)) = None.
Definition task_is (shardID : Z) (P : TransferTask -> Prop) rm : Prop :=
  match tasks rm !! shardID with Some t => P t | None => False end.

Lemma on_task_run shardID f rm e : on_task shardID f rm e = (tt, set_tasks (alter f shardID (tasks rm)) rm, e).
Proof. done. Qed.
Lemma call_run {A} (f : T -> A * T) rm e a rm' e' : call f rm e = (a, rm', e') ->
  storage rm' = storage rm /\ tasks rm' = tasks rm /\ rm_cfg rm' = rm_cfg rm /\ e' = e.
Proof.
  unfold call; erewrite bind_run by reflexivity; destruct (f (streams rm)) as [x t]; unfold bind, upd_st, ret; by intros [= <- <- <-].
Qed.
Lemma failed_task shardID msg rm e rm' e' (t : TransferTask) : tasks rm !! shardID = Some t -> msg <> "" ->
  updateTaskError shardID msg rm e = (tt, rm', e') ->
  storage rm' = storage rm /\ task_is shardID (fun t => Status t = TaskStatusFailed /\ LastError (Progress t) <> "") rm'.
Proof.
  intros Ht Hm; unfold updateTaskError; rewrite on_task_run; intros [= <- <-]; split; [done|].
  unfold task_is; cbn; by rewrite lookup_alter_eq, Ht.
Qed.

(** How a migration ends: with an error, the task is marked failed with a reason, and the node's
    engine (its log and its sessions) is as it was; otherwise the task is marked completed and the
    sessions are all still there. *)
Definition ended (shardID : Z) rm (r : option (option error)) rm' : Prop :=
  match r with
  | Some (Some _) =>
      storage rm' = storage rm /\
      task_is shardID (fun t => Status t = TaskStatusFailed /\ LastError (Progress t) <> "") rm'
  | Some None =>
      store (storage rm') = store (storage rm) /\ task_is shardID (fun t => Status t = TaskStatusCompleted) rm' /\
      (log_accepts (storage rm) -> ~ holds_shard shardID (storage rm))
  | None =>
      store (storage rm') = store (storage rm) /\ task_is shardID (fun t => Status t = TaskStatusCompleted) rm' /\
      holds_shard shardID (storage rm)
  end.
Lemma migration_result (shardID : Z) rm (e : env) r rm' e' (task : TransferTask) :
  tasks rm !! shardID = Some task -> migrateShardData shardID rm e = (r, rm', e') -> ended shardID rm r rm'.
Proof.
  intros Htask E; unfold migrateShardData in E; erewrite bind_run in E by reflexivity; rewrite Htask in E; cbv beta iota in E.
  rewrite (bind_run _ _ _ _ _ _ _ (on_task_run _ _ _ _)) in E; set (rm1 := set_tasks _ rm) in E.
  assert (tasks rm1 !! shardID = Some (set_status TaskStatusRunning (Progress task) task)) as H1
    by (cbn; by rewrite lookup_alter_eq, Htask).
  next_call E err rm2 X1; apply call_run in X1 as (S2 & T2 & C2 & ->); rewrite <- T2 in H1; destruct err as [err|].
  { next_call E u rm3 X2; destruct u; injection E as <- <- <-; apply (failed_task _ _ _ _ _ _ _ H1) in X2 as [S3 Hf]; [|done].
    split; [by rewrite S3, S2|exact Hf]. }
  next_call E now rm3 X2; unfold now_milli, bind, time_now, ret in X2; injection X2 as <- <- <-.
  erewrite bind_run in E by reflexivity; next_call E scanned rm4 X3.
  unfold with_local in X3; destruct (scan _ _ _ _) as [[u ct] e1]; injection X3 as <- <- <-; destruct ct as [counts t]; cbv beta iota in E.
  erewrite bind_run in E by reflexivity; next_call E resp rm5 X4; apply call_run in X4 as (S4 & T4 & C4 & ->); cbn in S4, T4.
  rewrite <- T4 in H1; destruct resp as [[]|err].
  - rewrite (bind_run _ _ _ _ _ _ _ (on_task_run _ _ _ _)) in E; next_call E o rm6 X5; injection E as <- <- <-.
    unfold zoom in X5; destruct (cleanupShardData _ _ _) as [[o' en] e2] eqn:Ec; injection X5 as <- <- <-.
    unfold cleanupShardData in Ec; erewrite bind_run in Ec by reflexivity; apply cleanup_scan_run in Ec as (Hs & Hc & Hl).
    cbn [storage set_tasks] in Hs, Hc, Hl; rewrite S4, S2 in Hs, Hc, Hl.
    assert (task_is shardID (fun t => Status t = TaskStatusCompleted)
      (set_engine en (set_tasks (alter (set_status TaskStatusCompleted (MkProgress (u64 (transferred counts + skipped counts))
        (transferred counts) (totalBytes counts) (skipped counts) "")) shardID (tasks rm5)) rm5))) as Ht
      by (unfold task_is; cbn; by rewrite lookup_alter_eq, H1).
    destruct o' as [o'|]; (split; [exact Hs|]); (split; [exact Ht|]); [intros Ha Hh; by specialize (Hl Ha Hh)|exact Hc].
  - next_call E u2 rm6 X5; destruct u2; injection E as <- <- <-; apply (failed_task _ _ _ _ _ _ _ H1) in X5 as [S5 Hf]; [|done].
    split; [by rewrite S5, S4, S2|exact Hf].
  - next_call E u2 rm6 X5; destruct u2; injection E as <- <- <-; apply (failed_task _ _ _ _ _ _ _ H1) in X5 as [S5 Hf]; [|done].
    split; [by rewrite S5, S4, S2|exact Hf].
Qed.

(** A migration that fails costs nothing; one that the target confirms frees nothing, and with
    a session of the shard on the node and a working log it never returns: the
    deletion of that session waits for the lock of the scan that shows it. *)
Theorem migration_outcome (shardID : Z) rm (e : env) r rm' e' (task : TransferTask)
  (Htask : tasks rm !! shardID = Some task) (E : migrateShardData shardID rm e = (r, rm', e')) :
  ended shardID rm r rm' /\ store (storage rm') = store (storage rm) /\
  (log_accepts (storage rm) -> holds_shard shardID (storage rm) -> r <> Some None).
Proof.
  pose proof (migration_result _ _ _ _ _ _ _ Htask E) as Hend; split; [done|].
  destruct r as [[err|]|]; destruct Hend as (Hs & Ht & Hh) || destruct Hend as [Hs Ht]; split; try done; [by rewrite Hs|].
  intros Ha Hsh _; by apply Hh.
Qed.
End Migration.

(** ** The receiver *)
Definition request (shardID : Z) (s : Session) : TransferShardRequest :=
  MkTransferRequest shardID (ID s) (Marshal (session_json s)).
(** The sessions a receiver has after storing some of those sent. *)
Definition received (ss : list Session) (m : gmap string Session) : gmap string Session :=
  foldl (fun m s => <[ID s := wire s]> m) m ss.

Lemma lookup_received ss m id : (forall s, s ∈ ss -> ID s <> id) -> received ss m !! id = m !! id.
Proof.
  unfold received; revert m; induction ss as [|s ss IH]; intros m Hn; [done|]; cbn [foldl].
  rewrite IH by (intros; apply Hn; set_solver); rewrite lookup_insert_ne; [done|apply Hn; set_solver].
Qed.
Lemma received_lookup ss m s : NoDup (map ID ss) -> s ∈ ss -> received ss m !! ID s = Some (wire s).
Proof.
  unfold received; revert m; induction ss as [|x ss IH]; intros m Hd Hin; [set_solver|]; cbn [foldl].
  apply NoDup_cons in Hd as [Hx Hd]; apply elem_of_cons in Hin as [->|Hin]; [|by apply IH].
  fold (received ss (<[ID x := wire x]> m)); rewrite lookup_received, lookup_insert_eq; [done|].
  intros y Hy E; apply Hx; rewrite <- E; by apply list_elem_of_fmap_2.
Qed.

Section Receiving.
Context {R : Type} `{SessionRepositoryLaws R}.

Lemma receive_loop_run shardID ss : Forall wire_ok ss -> forall n (r : R) e res r' e', sr_ok r ->
  receive_loop (map (request shardID) ss) n r e = (res, r', e') ->
  sr_ok r' /\ exists l1 l2, ss = (l1 ++ l2)%list /\ sr_sessions r' = received l1 (sr_sessions r) /\ NoDup (map ID l1) /\
    (forall s, s ∈ l1 -> sr_sessions r !! ID s = None) /\
    match res with Ok k => l2 = [] /\ k = fold_left (fun k _ => u64 (k + 1)) ss n | Err _ => l2 <> [] end.
Proof.
  induction 1 as [|s ss Hs Hss IH]; intros n r e res r' e' Hr E; cbn [map receive_loop request ts_SessionData] in E.
  { injection E as <- <- <-; split; [done|]; exists [], []; split_ands; try done; [constructor|set_solver]. }
  rewrite Unmarshal_session_Marshal in E by done; next_call E err r1 X; apply create_law in X as [Hr1 X]; [|done].
  destruct err as [err|].
  { injection E as <- <- <-; split; [done|]; exists [], (s :: ss); split_ands; try done; [constructor|set_solver]. }
  destruct X as [Hf Hi]; destruct (IH _ _ _ _ _ _ Hr1 E) as (Hr' & l1 & l2 & -> & Hm & Hd & Hn & Hres).
  split; [done|]; exists (s :: l1), l2; split_ands; try done.
  - rewrite Hm, Hi; done.
  - cbn [map]; apply NoDup_cons; split; [|done]; intros (y & Ey & Hy)%list_elem_of_fmap; specialize (Hn y Hy).
    rewrite Hi, <- Ey, lookup_insert_eq in Hn; done.
  - intros y [->|Hy]%elem_of_cons; [done|]; specialize (Hn y Hy); rewrite Hi, lookup_insert_None in Hn; apply Hn.
Qed.

(** What an answer says of the sessions a node has afterwards. *)
Definition transferred_to (shardID : Z) (ss : list Session) (r : R) (res : Res Z) (r' : R) : Prop :=
  sr_ok r' /\
  match res with
  | Ok _ => (forall s, s ∈ ss -> sr_sessions r !! ID s = None /\ sr_sessions r' !! ID s = Some (wire s)) /\
      (forall id, (forall s, s ∈ ss -> ID s <> id) -> sr_sessions r' !! id = sr_sessions r !! id)
  | Err _ => exists l1 l2, ss = (l1 ++ l2)%list /\ l2 <> [] /\ sr_sessions r' = received l1 (sr_sessions r) /\
      (l1 <> [] -> forall e2, exists err r2 e3, sr_sessions r2 = sr_sessions r' /\
         TransferShard true (map (request shardID) ss) None r' e2 = (Err err, r2, e3))
  end.
Lemma transfer_run (shardID : Z) (ss : list Session) (r : R) (e : env) res (r' : R) e' :
  Forall wire_ok ss -> sr_ok r -> TransferShard true (map (request shardID) ss) None r e = (res, r', e') ->
  transferred_to shardID ss r res r'.
Proof.
  intros Hss Hr E; unfold TransferShard in E; cbn [negb] in E; cbv iota in E; next_call E n r1 X.
  destruct (receive_loop_run _ _ Hss _ _ _ _ _ _ Hr X) as (Hr1 & l1 & l2 & Hsplit & Hm & Hd & Hn & Hres).
  destruct n as [n|err]; injection E as <- <- <-; (split; [done|]).
  - destruct Hres as [-> _]; rewrite app_nil_r in Hsplit; subst l1; rewrite Hm; split.
    + intros s Hs; split; [by apply Hn|by apply received_lookup].
    + intros id Hid; by apply lookup_received.
  - exists l1, l2; split_ands; try done; intros Hne e2; destruct l1 as [|s l1]; [done|].
    unfold TransferShard; cbn [negb]; cbv iota; subst ss; cbn [app map receive_loop request ts_SessionData].
    apply Forall_cons in Hss as [Hs _]; rewrite Unmarshal_session_Marshal by done.
    destruct (repo_Create (wire s) r1 e2) as [[err2 r2] e3] eqn:X2; pose proof (create_law _ _ _ _ _ _ Hr1 X2) as [_ X3].
    destruct err2 as [err2|].
    + do 3 eexists; split; [exact X3|]; erewrite bind_run; [|erewrite bind_run by exact X2; reflexivity]; reflexivity.
    + exfalso; destruct X3 as [X3 _]; change (ID (wire s)) with (ID s) in X3.
      rewrite Hm, received_lookup in X3; [done|done|set_solver].
Qed.

(** What a node stores of a transfer, whatever keeps its sessions: an answer that it is complete means
    that every session sent is stored, as the JSON carries it (without its shard);
    an error means the sessions before the first one that was refused are
    stored and stay, so that sending the same sessions again is refused from the start. *)
Theorem transfer_stores (shardID : Z) (ss : list Session) (r : R) (e : env) res (r' : R) e'
  (Hss : Forall wire_ok ss) (Hr : sr_ok r)
  (E : TransferShard true (map (request shardID) ss) None r e = (res, r', e')) :
  transferred_to shardID ss r res r'.
Proof. by apply (transfer_run shardID ss r e res r' e'). Qed.
End Receiving.

(** ** From one node to the other *)
Section Delivery.
Context {R : Type} `{SessionRepositoryLaws R}.

(** A link that loses nothing, to a node that keeps what it receives in [target]. *)
Record Link := MkLink { sent : list TransferShardRequest; target : R; target_env : env }.
Definition finish (l : Link) : Res bool * Link :=
  let '(res, r, e) := TransferShard true (sent l) None (target l) (target_env l) in
  (match res with Ok _ => Ok true | Err err => Err err end, MkLink (sent l) r e).
#[local] Instance Link_Streams : Streams Link := {
  newClient _ l := (None, l);
  waitN _ l := (None, l);
  send m l := (None, MkLink (sent l ++ [m])%list (target l) (target_env l));
  closeAndReceive := finish }.

(** The sessions a migration sends: of the shard, alive, and with enough time left. *)
Definition moves (shardID now minTTL : Z) (s : Session) : bool :=
  (ShardID s =? shardID) && negb (expired_at now s) && negb (i64 (ExpiresAt s - now) <? minTTL).

Lemma scan_sends shardID t minTTL l : forall c (k : Link) e, still t e ->
  exists c' e', still t e' /\
    scan l (migrate_one shardID (unix_milli t) minTTL) (c, k) e =
    (tt, (c', MkLink (sent k ++ map (request shardID) (List.filter (moves shardID (unix_milli t) minTTL) l))%list
                (target k) (target_env k)), e').
Proof.
  induction l as [|s l IH]; intros c k e He; cbn [scan List.filter map].
  { exists c, e; split; [done|]; rewrite app_nil_r; by destruct k. }
  unfold moves at 1; destruct (ShardID s =? shardID) eqn:Es; cbn [andb].
  2:{ destruct (IH c k e He) as (c' & e' & He' & E); exists c', e'; split; [done|].
      unfold migrate_one at 1; rewrite Es; cbn [negb]; erewrite bind_run by reflexivity; exact E. }
  destruct (IsExpired_still t s (c, k) e He) as (e1 & X & He1).
  unfold migrate_one at 1; rewrite Es; cbn [negb]; destruct (expired_at (unix_milli t) s) eqn:Ex; cbn [negb andb] in X |- *.
  { edestruct IH as (c' & e' & He' & E); [exact He1|]; exists c', e'; split; [done|].
    erewrite bind_run; [|erewrite bind_run by exact X; cbv iota; erewrite bind_run by reflexivity; reflexivity]; exact E. }
  destruct (i64 (ExpiresAt s - unix_milli t) <? minTTL) eqn:Em; cbn [negb].
  { edestruct IH as (c' & e' & He' & E); [exact He1|]; exists c', e'; split; [done|].
    erewrite bind_run; [|erewrite bind_run by exact X; cbv iota; erewrite bind_run by reflexivity; reflexivity]; exact E. }
  edestruct (IH (MkCounts (u64 (transferred c + 1)) (skipped c) (i64 (totalBytes c + llen (Marshal (session_json s)))))
    (MkLink (sent k ++ [request shardID s])%list (target k) (target_env k))) as (c' & e' & He' & E); [exact He1|].
  exists c', e'; split; [done|]; cbn [sent target target_env] in E; rewrite <- app_assoc in E.
  erewrite bind_run; [|erewrite bind_run by exact X; cbv iota; erewrite bind_run by reflexivity; cbn [waitN send Link_Streams];
    erewrite bind_run by reflexivity; reflexivity]; exact E.
Qed.

Implicit Types rm : RebalanceManager Link.

(** C40: A migration over a link that loses nothing that reports no error: every session of the
    shard that has an expiry, has not expired and has at least [MinTTL] left (60 seconds by
    default) is stored on the target, as the wire carries it (without [ShardID], [TTL] and
    [IsDeleted]), and the source still has it.  (A session that never expires is skipped.) *)
Theorem migration_delivers (shardID t : Z) rm (e : env) r rm' e' (task : TransferTask)
  (Ht : still t e) (Htask : tasks rm !! shardID = Some task) (Hsent : sent (streams rm) = [])
  (Hwire : forall s, s ∈ All (store (storage rm)) -> wire_ok s) (Htarget : sr_ok (target (streams rm)))
  (E : migrateShardData shardID rm e = (r, rm', e')) (Hr : match r with Some (Some _) => False | _ => True end) :
  forall s, s ∈ All (store (storage rm)) -> moves shardID (unix_milli t) (Z.quot (MinTTL (rm_cfg rm)) 1000000) s = true ->
    sr_sessions (target (streams rm')) !! ID s = Some (wire s) /\ s ∈ All (store (storage rm')).
Proof.
  intros s Hin Hmv; pose proof (migration_result shardID rm e r rm' e' task Htask E) as Hout.
  assert (store (storage rm') = store (storage rm)) as Hst by (destruct r as [[]|]; [done|apply Hout..]).
  split; [|by rewrite Hst].
  unfold migrateShardData in E; erewrite bind_run in E by reflexivity; rewrite Htask in E; cbv beta iota in E.
  rewrite (bind_run _ _ _ _ _ _ _ (on_task_run _ _ _ _)) in E; set (rm1 := set_tasks _ rm) in E.
  next_call E err rm2 X1; unfold call in X1; erewrite bind_run in X1 by reflexivity; cbn [newClient Link_Streams] in X1.
  injection X1 as <- <- <-; next_call E now rm3 X2; unfold now_milli, bind, time_now, ret in X2; injection X2 as <- <- <-.
  rewrite Ht in E; erewrite bind_run in E by reflexivity; next_call E scanned rm4 X3; unfold with_local in X3.
  cbn [storage set_streams rm1 set_tasks streams rm_cfg] in X3.
  edestruct (scan_sends shardID t (Z.quot (MinTTL (rm_cfg rm)) 1000000) (All (store (storage rm)))) as (c' & e2 & He2 & Es).
  2:{ rewrite Es in X3; injection X3 as <- <- <-; cbv beta iota in E; rewrite Hsent in E; cbn [app] in E.
      set (ss := List.filter _ _) in E; erewrite bind_run in E by reflexivity; next_call E resp rm5 X4.
      unfold call in X4; erewrite bind_run in X4 by reflexivity; cbn [closeAndReceive Link_Streams streams set_streams] in X4.
      unfold finish in X4; cbn [sent target target_env] in X4.
      destruct (TransferShard _ _ _ _ _) as [[res r1] e3] eqn:Etr; apply transfer_run in Etr; [|apply List.Forall_forall; intros x Hx|done].
      2:{ apply filter_In in Hx as [Hx _]; by apply Hwire, list_elem_of_In. }
      assert (s ∈ ss) as Hs by (apply list_elem_of_In, filter_In; split; [by apply list_elem_of_In|exact Hmv]).
      destruct Etr as [_ Etr], res as [n|er].
      - injection X4 as <- <- <-; rewrite (bind_run _ _ _ _ _ _ _ (on_task_run _ _ _ _)) in E; next_call E o rm6 X5.
        injection E as <- <- <-; unfold zoom in X5; destruct (cleanupShardData _ _ _) as [[o' en] e4]; injection X5 as <- <- <-.
        cbn; by apply Etr.
      - injection X4 as <- <- <-; next_call E u rm6 X5; injection E as <- <- <-; done. }
  intros n; exact (Ht (n + 1)%nat).
Qed.
End Delivery.

(** A node that becomes leader compares its shard map with itself ([onBecomeLeader] in server.go):
    whatever the map, no migration is started and nothing changes. *)
Theorem leader_rebalance_idle {T} `{Streams T} (m : ShardMap) (order : list Z -> list Z) (rm : RebalanceManager T) (e : env)
  (Hrun : running rm = false) :
  TriggerRebalance m m order rm e = (Some None, rm, e).
Proof.
  unfold TriggerRebalance; erewrite bind_run by reflexivity; rewrite Hrun, computeMigrations_same; cbv iota.
  erewrite bind_run by reflexivity; rewrite map_size_empty; cbn [Nat.eqb]; unfold bind, upd_st, ret, set_running; cbn.
  by destruct rm; cbn in Hrun; subst.
Qed.

(** ** Witnesses *)
Definition demo_alive : Session :=
  MkSession "tmss-1" "u" "h1" "" "" "" "" "" "" 0 999000 0 None 1 0 0 false.
Definition demo_source : Engine :=
  MkEngine (DefaultConfig "data") (put_session demo_alive (MemoryStore.New 50))
    (WalLog.MkWriter ∅ (WAL (DefaultConfig "data")) 0 None 0 0 [] [] 0 true)
    (Snapshot.MkManager ∅ (SnapshotCfg (DefaultConfig "data"))) 0 false.
Definition demo_move_env : env := Env (fun _ => 5000000000) (fun _ _ => Err EOF) (fun _ => Err EOF).
Definition demo_rm : RebalanceManager (Link (R := Store)) :=
  MkRM DefaultRebalanceConfig demo_source (MkLink [] (MemoryStore.New 50) demo_move_env)
    {[ 0 := MkTask 0 "node-2" "" TaskStatusPending (MkProgress 0 0 0 0 "") ]} false.
Lemma demo_alive_wire : wire_ok demo_alive.
Proof. unfold wire_ok; split_ands; vm_compute; done. Qed.

Lemma migration_outcome_witness : exists r rm' e',
  migrateShardData (H := Link_Streams) 0 demo_rm demo_move_env = (r, rm', e') /\
  store (storage rm') = store (storage demo_rm).
Proof.
  destruct (migrateShardData (H := Link_Streams) 0 demo_rm demo_move_env) as [[r rm'] e'] eqn:E; exists r, rm', e'; split; [exact eq_refl|].
  destruct (migration_outcome 0 demo_rm demo_move_env r rm' e' _ eq_refl E) as (_ & Hs & _); exact Hs.
Defined.
Lemma transfer_stores_witness : exists res s' e',
  TransferShard true (map (request 0) [demo_alive; demo_alive]) None (MemoryStore.New 50) demo_move_env = (res, s', e') /\
  transferred_to 0 [demo_alive; demo_alive] (MemoryStore.New 50) res s'.
Proof.
  destruct (TransferShard true (map (request 0) [demo_alive; demo_alive]) None (MemoryStore.New 50) demo_move_env) as [[res s'] e'] eqn:E.
  exists res, s', e'; split; [exact eq_refl|]; apply (transfer_stores 0 [demo_alive; demo_alive] (MemoryStore.New 50) demo_move_env res s' e');
    [repeat constructor; apply demo_alive_wire|apply Inv_New|exact E].
Defined.
Lemma migration_delivers_witness : exists r rm' e',
  migrateShardData (H := Link_Streams) 0 demo_rm demo_move_env = (r, rm', e') /\
  sessions (target (streams rm')) !! "tmss-1" = Some (wire demo_alive).
Proof.
  destruct (migrateShardData (H := Link_Streams) 0 demo_rm demo_move_env) as [[r rm'] e'] eqn:E; exists r, rm', e'; split; [exact eq_refl|].
  assert (All (store (storage demo_rm)) = [demo_alive]) as Hall by (vm_compute; reflexivity).
  assert (r = Some None) as Hr by (replace r with (fst (fst (migrateShardData (H := Link_Streams) 0 demo_rm demo_move_env)))
    by (by rewrite E); vm_compute; reflexivity).
  assert (demo_alive ∈ All (store (storage demo_rm))) as Hin by (rewrite Hall; constructor).
  refine (proj1 (migration_delivers 0 5000000000 demo_rm demo_move_env r rm' e' _ (fun n => eq_refl) eq_refl eq_refl _ _ _ _ demo_alive _ _));
    [intros s Hs; rewrite Hall in Hs; apply list_elem_of_singleton in Hs as ->; apply demo_alive_wire|apply Inv_New|exact E
    |by rewrite Hr|exact Hin|vm_compute; reflexivity].
Defined.
Lemma leader_rebalance_idle_witness :
  TriggerRebalance (H := Link_Streams) NewShardMap NewShardMap (fun l => l) demo_rm demo_move_env = (Some None, demo_rm, demo_move_env).
Proof. by apply (leader_rebalance_idle (H := Link_Streams)). Defined.
