(* ===== verification/HttpNet.v ===== *)
(** What the HTTP server uses of Go's [net/http], [net/url], [net] and [fmt].

    A request is what [net/http] hands to a handler: the path as it was sent
    (escaped), the headers under their canonical names, the address of the peer, and
    the values put into its context on the way.  A response is written into a
    [ResponseWriter]: headers set after the status line has gone are lost, and so is
    a second status. *)

From Stdlib Require Import Ascii String.
From stdpp Require Import list strings gmap.
From S2P Require Import Prelude GoStrings Strconv Encoding Json.

Open Scope string_scope.
Open Scope Z_scope.

(** ** Escapes in URLs *)
Fixpoint unescape (plus : bool) (s : string) : option string :=
  match s with
  | EmptyString => Some ""
  | String a s' =>
      if Ascii.eqb a "%" then
        match s' with
        | String h (String l s'') =>
            match hex_val h, hex_val l, unescape plus s'' with
            | Some x, Some y, Some r => Some (String (Z_ascii (x * 16 + y)) r)
            | _, _, _ => None
            end
        | _ => None
        end
      else
        match unescape plus s' with
        | Some r => Some (String (if plus && Ascii.eqb a "+" then " "%char else a) r)
        | None => None
        end
  end.
Definition QueryUnescape : string -> option string := unescape true.
Definition PathUnescape : string -> option string := unescape false.
(** A path that is not a valid escape is left as it is. *)
Definition pathUnescape (s : string) : string := default s (PathUnescape s).

(** [url.ParseQuery]: pieces that do not parse are left out. *)
Definition parse_pair (piece : string) : option (string * string) :=
  if Contains piece ";" then None
  else if String.eqb piece "" then None
  else
    let '(key, value) := match SplitN2 piece "=" with [k; v] => (k, v) | _ => (piece, "") end in
    match QueryUnescape key, QueryUnescape value with
    | Some k, Some v => Some (k, v)
    | _, _ => None
    end.
Definition ParseQuery (raw : string) : list (string * string) := omap parse_pair (Split raw "&").
Fixpoint assoc (k : string) (l : list (string * string)) : option string :=
  match l with [] => None | (k', v) :: l' => if String.eqb k' k then Some v else assoc k l' end.

(** ** Requests *)
Record Request (Key : Type) := MkRequest {
  Method : string;
  EscapedPath : string;
  RawQuery : string;
  Header : list (string * string);
  RemoteAddr : string;
  Body : list Z;
  (* values of the context, and the wildcards of the matched pattern *)
  ctx_RequestID : option string;
  ctx_APIKey : option Key;
  pathValues : list (string * string);
}.
Arguments MkRequest {Key} _ _ _ _ _ _ _ _ _.
Arguments Method {Key} _.
Arguments EscapedPath {Key} _.
Arguments RawQuery {Key} _.
Arguments Header {Key} _.
Arguments RemoteAddr {Key} _.
Arguments Body {Key} _.
Arguments ctx_RequestID {Key} _.
Arguments ctx_APIKey {Key} _.
Arguments pathValues {Key} _.

Section Requests.
Context {Key : Type}.
Implicit Types r : Request Key.
Definition header r (name : string) : string := default "" (assoc name (Header r)).
Definition URL_Path r : string := pathUnescape (EscapedPath r).
Definition query r (name : string) : string := default "" (assoc name (ParseQuery (RawQuery r))).
Definition PathValue r (name : string) : string := default "" (assoc name (pathValues r)).
Definition with_RequestID (id : string) r : Request Key :=
  MkRequest (Method r) (EscapedPath r) (RawQuery r) (Header r) (RemoteAddr r) (Body r) (Some id) (ctx_APIKey r) (pathValues r).
Definition with_APIKey (k : Key) r : Request Key :=
  MkRequest (Method r) (EscapedPath r) (RawQuery r) (Header r) (RemoteAddr r) (Body r) (ctx_RequestID r) (Some k) (pathValues r).
Definition with_pathValues (l : list (string * string)) r : Request Key :=
  MkRequest (Method r) (EscapedPath r) (RawQuery r) (Header r) (RemoteAddr r) (Body r) (ctx_RequestID r) (ctx_APIKey r) l.
End Requests.

(** [net.SplitHostPort]: the host, if there is no error. *)
Definition SplitHostPort (hostport : string) : option string :=
  let has (s : string) (c : string) := Contains s c in
  match LastIndex hostport ":" with
  | None => None
  | Some i =>
      if HasPrefix hostport "[" then
        match Index hostport "]" with
        | None => None
        | Some end_ =>
            if negb (end_ + 1 =? i)%nat then None
            else
              let host := from 1 (upto end_ hostport) in
              if has (from 1 hostport) "[" || has (from (end_ + 1) hostport) "]" then None else Some host
        end
      else
        let host := upto i hostport in
        if has host ":" || has hostport "[" || has hostport "]" then None else Some host
  end.

(** [fmt.Sscanf(s, "%d", &n)] for an [int]: blanks, a sign and digits; what
    follows is not read. *)
Fixpoint take_digits (s : string) : string :=
  match s with String a s' => if is_digit a then String a (take_digits s') else "" | EmptyString => "" end.
Fixpoint skip_blanks (s : string) : string :=
  match s with
  | String a s' =>
      if (ascii_Z a =? 32) || (ascii_Z a =? 9) || (ascii_Z a =? 11) || (ascii_Z a =? 12) || (ascii_Z a =? 13)
      then skip_blanks s' else s
  | EmptyString => ""
  end.
Definition Sscanf_d (s : string) : option Z :=
  let s := skip_blanks s in
  let '(sign, s) :=
    match s with
    | String "-" s' => ("-", s') | String "+" s' => ("+", s') | _ => ("", s)
    end in
  let ds := take_digits s in
  if String.eqb ds "" then None else ParseInt (sign +:+ ds).

(** ** Responses *)
Record ResponseWriter := MkWriter {
  w_header : list (string * string);
  sent : option (Z * list (string * string));
  w_body : string;
}.
Definition new_writer : ResponseWriter := MkWriter [] None "".
Definition Set_ (name value : string) (w : ResponseWriter) : ResponseWriter :=
  MkWriter ((name, value) :: List.filter (fun kv => negb (String.eqb kv.1 name)) (w_header w)) (sent w) (w_body w).
Definition WriteHeader (code : Z) (w : ResponseWriter) : ResponseWriter :=
  match sent w with
  | Some _ => w
  | None => MkWriter (w_header w) (Some (code, w_header w)) (w_body w)
  end.
Definition Write (text : string) (w : ResponseWriter) : ResponseWriter :=
  let w := WriteHeader 200 w in MkWriter (w_header w) (sent w) (w_body w +:+ text).
(** [json.NewEncoder(w).Encode]; a value that has no JSON is an error and nothing is written. *)
Definition Encode (v : option json) (w : ResponseWriter) : ResponseWriter :=
  match v with Some v => Write (print v +:+ chr 10) w | None => w end.
(** When a handler has returned, a status that was not set is 200. *)
Definition response (w : ResponseWriter) : Z * list (string * string) * string :=
  let w := WriteHeader 200 w in
  match sent w with Some (code, hs) => (code, hs, w_body w) | None => (200, [], w_body w) end.

(** ** Routing *)

(** [path.Clean] of a rooted path, from its elements. *)
Fixpoint clean_elements (l acc : list string) : list string :=
  match l with
  | [] => rev acc
  | x :: l' =>
      if String.eqb x "" || String.eqb x "." then clean_elements l' acc
      else if String.eqb x ".." then clean_elements l' (tail acc)
      else clean_elements l' (x :: acc)
  end.
(** [cleanPath] of [net/http]: rooted, cleaned, with the slash at the end kept. *)
Definition cleanPath (p : string) : string :=
  if String.eqb p "" then "/"
  else
    let p := if HasPrefix p "/" then p else "/" +:+ p in
    let np := "/" +:+ Join (clean_elements (Split p "/") []) "/" in
    if HasSuffix p "/" && negb (String.eqb np "/") then np +:+ "/" else np.

Inductive segment := Lit (text : string) | Wild (name : string).
Record pattern (A : Type) := MkPattern { p_method : string; p_segments : list segment; p_handler : A }.
Arguments MkPattern {A} _ _ _.
Arguments p_method {A} _.
Arguments p_segments {A} _.
Arguments p_handler {A} _.

(** A pattern as it is written in the sources. *)
Definition parse_segment (s : string) : segment :=
  if HasPrefix s "{" && HasSuffix s "}" then Wild (from 1 (upto (String.length s - 1) s)) else Lit s.
Definition route {A} (text : string) (h : A) : pattern A :=
  match SplitN2 text " " with
  | [m; p] => MkPattern m (map parse_segment (tail (Split p "/"))) h
  | _ => MkPattern "" (map parse_segment (tail (Split text "/"))) h
  end.

(** The wildcards of a match; a wildcard stands for one element that is not empty. *)
Fixpoint match_segments (ps : list segment) (l : list string) : option (list (string * string)) :=
  match ps, l with
  | [], [] => Some []
  | Lit t :: ps, x :: l => if String.eqb t x then match_segments ps l else None
  | Wild n :: ps, x :: l =>
      if String.eqb x "" then None
      else match match_segments ps l with Some vs => Some ((n, x) :: vs) | None => None end
  | _, _ => None
  end.
Definition path_elements (path : string) : list string := map pathUnescape (tail (Split path "/")).
(** The method of a pattern serves that method, [GET] also [HEAD], none all. *)
Definition serves (p_method method : string) : bool :=
  String.eqb p_method "" || String.eqb p_method method || (String.eqb p_method "GET" && String.eqb method "HEAD").

Inductive routed (A : Type) :=
| Found (h : A) (values : list (string * string))
| MovedTo (path : string)
| MethodNotAllowed
| NotFound.
Arguments Found {A} _ _.
Arguments MovedTo {A} _.
Arguments MethodNotAllowed {A}.
Arguments NotFound {A}.

(** No two patterns of the sources match the same request, so the first match is the
    most specific one. *)
Definition find_route {A} (routes : list (pattern A)) (method path : string) : option (A * list (string * string)) :=
  head (omap (fun p => if serves (p_method p) method
                       then option_map (pair (p_handler p)) (match_segments (p_segments p) (path_elements path))
                       else None) routes).
Definition dispatch {A} (routes : list (pattern A)) (method escapedPath : string) : routed A :=
  let path := if String.eqb method "CONNECT" then escapedPath else cleanPath escapedPath in
  if negb (String.eqb path escapedPath) then MovedTo path
  else
    match find_route routes method path with
    | Some (h, values) => Found h values
    | None =>
        if existsb (fun p => match match_segments (p_segments p) (path_elements path) with Some _ => true | None => false end) routes
        then MethodNotAllowed else NotFound
    end.

(** The target of a redirect: the path escaped again, and the query. *)
Definition path_char (a : ascii) : bool :=
  let z := ascii_Z a in
  is_digit a || ((65 <=? z) && (z <=? 90)) || ((97 <=? z) && (z <=? 122)) ||
  GoStrings.Contains "-_.~$&+,/:;=@" (String a "").
Fixpoint escape_path (s : string) : string :=
  match s with
  | EmptyString => ""
  | String a s' =>
      (if path_char a then String a ""
       else "%" +:+ ToUpper (hex_encode [ascii_Z a])) +:+ escape_path s'
  end.
Definition location (path rawQuery : string) : string :=
  escape_path path +:+ (if String.eqb rawQuery "" then "" else "?" +:+ rawQuery).

Example route_user : dispatch [route "POST /users/{user_id}/sessions/revoke" tt] "POST" "/users/a%2Fb/sessions/revoke" =
  Found tt [("user_id", "a/b")].
Proof. reflexivity. Qed.
Example route_moved : dispatch [route "GET /sessions" tt] "GET" "//sessions/." = MovedTo "/sessions".
Proof. vm_compute. reflexivity. Qed.
Example route_options : dispatch [route "GET /sessions" tt] "OPTIONS" "/sessions" = MethodNotAllowed.
Proof. reflexivity. Qed.
