(* ===== verification/HttpHandler.v ===== *)
(** The HTTP API: [internal/server/httpserver/handler].

    The application is the token service, with the session repository it shares
    with the session service, and the authentication service.  A handler takes a
    request and works on the application and the response; [None] is a panic. *)

From Stdlib Require Import Ascii String.
From stdpp Require Import list strings gmap fin_maps.
From S2P Require Import Prelude Errors GoStrings Strconv GoTime Json APIKey AuthService.
From S2P Require Import Session MemoryStore TokenService SessionService HttpNet.
From S2P Require Redis.

Open Scope string_scope.
Open Scope Z_scope.

Abbreviation tokenBucket := Redis.tokenBucket.

Definition StatusOK : Z := 200.
Definition StatusCreated : Z := 201.
Definition StatusBadRequest : Z := 400.
Definition StatusUnauthorized : Z := 401.
Definition StatusForbidden : Z := 403.
Definition StatusNotFound : Z := 404.
Definition StatusConflict : Z := 409.
Definition StatusTooManyRequests : Z := 429.
Definition StatusInternalServerError : Z := 500.

Definition errorCodeToHTTPStatus (code : string) : Z :=
  let suffix := HasSuffix code in
  if suffix "-4040" || suffix "-4041" then StatusNotFound
  else if suffix "-4090" || suffix "-4091" then StatusConflict
  else if suffix "-4290" then StatusTooManyRequests
  else if suffix "-4001" || suffix "-4002" then StatusBadRequest
  else if suffix "-4010" || suffix "-4011" || suffix "-4012" then StatusUnauthorized
  else if suffix "-4030" || suffix "-4031" then StatusForbidden
  else if HasPrefix code "TM-ARG-" then StatusBadRequest
  else if HasPrefix code "TM-SYS-5" then StatusInternalServerError
  else StatusInternalServerError.

(** The address a client is known by: it names it itself, if it wants to. *)
Definition forwarded_ip (r : Request APIKey) : option string :=
  if negb (String.eqb (header r "X-Forwarded-For") "")
  then Some (TrimSpace (default "" (head (Split (header r "X-Forwarded-For") ","))))
  else if negb (String.eqb (header r "X-Real-Ip") "") then Some (header r "X-Real-Ip")
  else None.
Definition getClientIP (r : Request APIKey) : string :=
  match forwarded_ip r with
  | Some ip => ip
  | None => match LastIndex (RemoteAddr r) ":" with Some i => upto i (RemoteAddr r) | None => RemoteAddr r end
  end.
Definition getRequestID (r : Request APIKey) : string := header r "X-Request-Id".
Definition UserAgent_ (r : Request APIKey) : string := header r "User-Agent".

(** ** Bodies *)
Record CreateSessionBody := MkCreateBody {
  cb_UserID : string; cb_DeviceID : string; cb_Data : option (gmap string string); cb_TTLSeconds : Z }.
Definition assign_create (k : string) (v : json) (b : CreateSessionBody) : option CreateSessionBody :=
  user ← (if String.eqb k "user_id" then dec_string v (cb_UserID b) else Some (cb_UserID b));
  device ← (if String.eqb k "device_id" then dec_string v (cb_DeviceID b) else Some (cb_DeviceID b));
  data ← (if String.eqb k "data" then dec_map v (cb_Data b) else Some (cb_Data b));
  ttl ← (if String.eqb k "ttl_seconds" then dec_int v (cb_TTLSeconds b) else Some (cb_TTLSeconds b));
  Some (MkCreateBody user device data ttl).
Definition assign_renew (k : string) (v : json) (ttl : Z) : option Z :=
  if String.eqb k "ttl_seconds" then dec_int v ttl else Some ttl.
Definition assign_validate (k : string) (v : json) (b : string * bool) : option (string * bool) :=
  token ← (if String.eqb k "token" then dec_string v (fst b) else Some (fst b));
  touch ← (if String.eqb k "touch" then dec_bool v (snd b) else Some (snd b));
  Some (token, touch).
Record CreateKeyBody := MkKeyBody { kb_Name : string; kb_Role : string; kb_Description : string }.
Definition assign_key (k : string) (v : json) (b : CreateKeyBody) : option CreateKeyBody :=
  name ← (if String.eqb k "name" then dec_string v (kb_Name b) else Some (kb_Name b));
  role ← (if String.eqb k "role" then dec_string v (kb_Role b) else Some (kb_Role b));
  descr ← (if String.eqb k "description" then dec_string v (kb_Description b) else Some (kb_Description b));
  Some (MkKeyBody name role descr).
Definition assign_status (k : string) (v : json) (enabled : bool) : option bool :=
  if String.eqb k "enabled" then dec_bool v enabled else Some enabled.
(** [json.NewDecoder(r.Body).Decode]. *)
Definition decode_body {A} (assign : string -> json -> A -> option A) (zero : A) (r : Request APIKey) : option A :=
  v ← decode_first (Body r); unmarshal assign zero v.

(** Members in the order of the struct; a time that has no JSON makes the whole value an error. *)
Definition time_member `{TimeZone} (name : string) (ms : Z) : option (list (string * json)) :=
  match RFC3339Nano ms with Some t => Some [(name, JStr t)] | None => None end.
Definition optional (name value : string) : option (list (string * json)) :=
  Some (if String.eqb value "" then [] else [(name, JStr value)]).
Definition members (l : list (option (list (string * json)))) : option json := l ← mapM id l; Some (JObj (concat l)).
Definition str_member (name value : string) : option (list (string * json)) := Some [(name, JStr value)].
Definition zero_time : string := "0001-01-01T00:00:00Z".

Definition sessionToResponse `{TimeZone} (s : Session) : option json :=
  members [str_member "id" (ID s); str_member "user_id" (UserID s); optional "ip_address" (IPAddress s);
    optional "user_agent" (UserAgent s); optional "device_id" (DeviceID s);
    time_member "created_at" (CreatedAt s); time_member "expires_at" (ExpiresAt s);
    time_member "last_active" (LastActive s); optional "last_access_ip" (LastAccessIP s);
    Some (match Data s with None => [] | Some m => if bool_decide (m = ∅) then [] else [("data", enc_map (Data s))] end)].
Definition list_json `{TimeZone} (resp : ListSessionsResponse) : option json :=
  items ← mapM sessionToResponse (l_Items resp);
  Some (JObj [("items", JArr items); ("total", JNum (FormatInt (l_Total resp)));
              ("page", JNum (FormatInt (l_Page resp))); ("page_size", JNum (FormatInt (l_PageSize resp)))]).
Definition key_json `{TimeZone} (k : APIKeyInfo) : option json :=
  members [str_member "key_id" (info_KeyID k); str_member "name" (info_Name k); str_member "role" (info_Role k);
    optional "description" (info_Description k); Some [("enabled", JBool (info_Enabled k))];
    time_member "created_at" (info_CreatedAt k);
    if info_LastUsedAt k =? 0 then str_member "last_used_at" zero_time else time_member "last_used_at" (info_LastUsedAt k)].

(** The envelope of every answer; the time is an [int64]. *)
Definition envelope (code message requestID : string) (timestamp : Z) (data : list (string * json)) : json :=
  JObj ([("code", JStr code); ("message", JStr message); ("request_id", JStr requestID);
         ("timestamp", JNum (FormatInt (i64 timestamp)))] ++ data).

Section Handlers.
Context {R K : Type} `{SessionRepository R} `{TokenRepository R} `{APIKeyRepository K}.
Context `{Argon2Lib} `{RateLib} `{UlidLib} `{TimeZone}.

(** What outlives a request: the services, and the buckets of the middleware that
    limits the rate, which no handler touches.  An exchange adds the response. *)
Record Services := MkServices { tokenSvc : TokenService R; authSvc : AuthService K; Buckets : gmap string tokenBucket }.
Record Exchange := MkExchange { services : Services; writer : ResponseWriter }.

Definition set_writer (w : ResponseWriter) (x : Exchange) : Exchange := MkExchange (services x) w.
Definition set_token (t : TokenService R) (x : Exchange) : Exchange :=
  MkExchange (MkServices t (authSvc (services x)) (Buckets (services x))) (writer x).
Definition set_auth (a : AuthService K) (x : Exchange) : Exchange :=
  MkExchange (MkServices (tokenSvc (services x)) a (Buckets (services x))) (writer x).
Definition in_tokens {A} (m : M (TokenService R) A) : M Exchange A := zoom (fun x => tokenSvc (services x)) set_token m.
Definition in_sessions {A} (m : M R A) : M Exchange A := in_tokens (zoom ts_repo set_ts_repo m).
Definition in_auth {A} (m : M (AuthService K) A) : M Exchange A := zoom (fun x => authSvc (services x)) set_auth m.
Definition set_buckets (b : gmap string tokenBucket) (x : Exchange) : Exchange :=
  MkExchange (MkServices (tokenSvc (services x)) (authSvc (services x)) b) (writer x).
Definition respond (f : ResponseWriter -> ResponseWriter) : M Exchange unit :=
  upd_st (fun x => set_writer (f (writer x)) x).

(** [None] is a panic. *)
Definition Handler : Type := Request APIKey -> M Exchange (option unit).
Definition done (m : M Exchange unit) : M Exchange (option unit) := m ;;; ret (Some tt).

(** ** Answers *)
Definition NewResponse (requestID : string) (data : option json) : M Exchange (option json) :=
  t <- now_milli ;;
  ret (match data with Some d => Some (envelope "OK" "Success" requestID t [("data", d)]) | None => None end).
Definition NewErrorResponse (requestID code message : string) : M Exchange json :=
  t <- now_milli ;; ret (envelope code message requestID t []).

Definition writeJSON (r : Request APIKey) (status : Z) (data : option json) : M Exchange unit :=
  response <- NewResponse (getRequestID r) data ;;
  respond (fun w => Encode response (WriteHeader status
    (Set_ "X-Request-Id" (getRequestID r) (Set_ "Content-Type" "application/json" w)))).
Definition writeError (r : Request APIKey) (status : Z) (code message : string) : M Exchange unit :=
  response <- NewErrorResponse (getRequestID r) code message ;;
  respond (fun w => Encode (Some response) (WriteHeader status
    (Set_ "X-Request-Id" (getRequestID r) (Set_ "X-Error-Code" code (Set_ "Content-Type" "application/json" w))))).
Definition handleServiceError (r : Request APIKey) (err : error) : M Exchange unit :=
  if IsDomainError err "" then
    let code := GetErrorCode err in writeError r (errorCodeToHTTPStatus code) code (Error err)
  else writeError r StatusInternalServerError "TM-SYS-5000" "internal server error".

(** The two ways the calls of the services end. *)
Definition answer {A} (r : Request APIKey) (status : Z) (body : A -> option json) (res : Res A) : M Exchange unit :=
  match res with Err err => handleServiceError r err | Ok a => writeJSON r status (body a) end.
Definition bad_body (r : Request APIKey) : M Exchange unit :=
  writeError r StatusBadRequest "TM-SYS-4000" "invalid request body".
Definition required (r : Request APIKey) (what : string) : M Exchange unit :=
  writeError r StatusBadRequest "TM-ARG-1002" (what +:+ " is required").
Definition success : option json := Some (JObj [("success", JBool true)]).

(** ** Sessions *)
Definition Duration_of (seconds default_ : Z) : Z := if 0 <? seconds then i64 (seconds * second) else default_.
Definition created_json (resp : CreateSessionResponse) : option json :=
  members [str_member "session_id" (cr_SessionID resp); str_member "token" (cr_Token resp);
    time_member "expires_at" (cr_ExpiresAt resp)].
Definition handleCreateSession : Handler := fun r => done
  match decode_body assign_create (MkCreateBody "" "" None 0) r with
  | None => bad_body r
  | Some req =>
      resp <- in_sessions (SessionService.Create (MkCreateRequest (cb_UserID req) (cb_DeviceID req) (cb_Data req)
                (Duration_of (cb_TTLSeconds req) 0) "" "" (getClientIP r) (UserAgent_ r))) ;;
      answer r StatusCreated created_json resp
  end.

Definition handleGetSession : Handler := fun r => done
  (let sessionID := PathValue r "id" in
   if String.eqb sessionID "" then required r "session_id"
   else session <- in_sessions (SessionService.Get sessionID) ;; answer r StatusOK sessionToResponse session).

Definition handleRenewSession : Handler := fun r => done
  (let sessionID := PathValue r "id" in
   if String.eqb sessionID "" then required r "session_id"
   else
     match decode_body assign_renew 0 r with
     | None => bad_body r
     | Some ttlSeconds =>
         resp <- in_sessions (Renew sessionID (Duration_of ttlSeconds (24 * 3600 * second))) ;;
         answer r StatusOK (fun t => members [time_member "new_expires_at" t]) resp
     end).

Definition handleTouchSession : Handler := fun r => done
  (let sessionID := PathValue r "id" in
   if String.eqb sessionID "" then required r "session_id"
   else
     resp <- in_sessions (SessionService.Touch sessionID (getClientIP r)) ;;
     answer r StatusOK (fun t => members [time_member "last_active" t]) resp).

Definition handleRevokeSession : Handler := fun r => done
  (let sessionID := PathValue r "id" in
   if String.eqb sessionID "" then required r "session_id"
   else
     resp <- in_sessions (Revoke sessionID) ;;
     answer r StatusOK (fun _ => success) resp).

(** A page or a page size of the query; what does not read as a positive number is 0. *)
Definition page_arg (text : string) : Z :=
  match Sscanf_d text with Some p => if 0 <? p then p else 0 | None => 0 end.
Definition list_filter (r : Request APIKey) : SessionFilter :=
  MkFilter (query r "user_id") (query r "device_id") "" "" (query r "status") None None None "" ""
    (page_arg (query r "page")) (page_arg (query r "page_size")).
Definition handleListSessions : Handler := fun r =>
  resp <- in_sessions (SessionService.List (list_filter r)) ;;
  match resp with
  | None => ret None
  | Some resp => done (answer r StatusOK list_json resp)
  end.

Definition handleRevokeUserSessions : Handler := fun r => done
  (let userID := PathValue r "user_id" in
   if String.eqb userID "" then required r "user_id"
   else
     resp <- in_sessions (RevokeByUser userID) ;;
     answer r StatusOK (fun n => Some (JObj [("revoked_count", JNum (FormatInt n))])) resp).

(** ** Tokens: a validation that fails is an answer like any other. *)
Definition invalid_json (message : string) : json :=
  JObj ([("valid", JBool false); ("expires_at", JStr zero_time)] ++
        (if String.eqb message "" then [] else [("message", JStr message)]))%list.
Definition valid_json (valid : bool) (s : Session) : option json :=
  members [Some [("valid", JBool valid)]; optional "session_id" (ID s); optional "user_id" (UserID s);
    time_member "expires_at" (ExpiresAt s)].
Definition handleValidateToken : Handler := fun r =>
  match decode_body assign_validate ("", false) r with
  | None => done (bad_body r)
  | Some (token, touch) =>
      if String.eqb token "" then done (required r "token")
      else
        resp <- in_tokens (TokenService.Validate (MkValidateTokenRequest token touch (getClientIP r) (UserAgent_ r))) ;;
        match resp with
        | (_, Some err) => done (writeJSON r StatusOK (Some (invalid_json (Error err))))
        | (resp, None) =>
            match resp_Session resp with
            | Some s => done (writeJSON r StatusOK (valid_json (Valid resp) s))
            | None => ret None
            end
        end
  end.

(** ** Administration *)
Definition now_text : M Exchange string := t <- now_milli ;; ret (@RFC3339 (fun _ => 0) t).
Definition handleAdminStatus : Handler := fun r => done
  (t <- now_text ;;
   writeJSON r StatusOK (Some (JObj [("status", JStr "running"); ("time", JStr t); ("version", JStr "dev")]))).
Definition handleGCTrigger : Handler := fun r => done
  (res <- in_sessions GC ;;
   match res with
   | Err err => handleServiceError r err
   | Ok count =>
       t <- now_text ;;
       writeJSON r StatusOK (Some (JObj [("cleaned_count", JNum (FormatInt count)); ("success", JBool true);
         ("triggered_at", JStr t)]))
   end).

Definition validRoles : list string := ["metrics"; "validator"; "issuer"; "admin"].
Definition new_key_json (resp : CreateAPIKeyResponse) : option json :=
  members [str_member "key_id" (cresp_KeyID resp); str_member "secret" (cresp_Secret resp);
    str_member "name" (cresp_Name resp); str_member "role" (cresp_Role resp);
    time_member "created_at" (cresp_CreatedAt resp)].
Definition handleCreateAPIKey : Handler := fun r => done
  match decode_body assign_key (MkKeyBody "" "" "") r with
  | None => bad_body r
  | Some req =>
      if String.eqb (kb_Name req) "" then required r "name"
      else if String.eqb (kb_Role req) "" then required r "role"
      else if negb (bool_decide (kb_Role req ∈ validRoles)) then
        writeError r StatusBadRequest "TM-ARG-4001" "invalid role, must be one of: metrics, validator, issuer, admin"
      else
        resp <- in_auth (CreateAPIKey (kb_Name req) (kb_Role req) (kb_Description req)) ;;
        answer r StatusCreated new_key_json resp
  end.

Definition handleListAPIKeys : Handler := fun r => done
  (resp <- in_auth (ListAPIKeys (query r "role")) ;;
   answer r StatusOK (fun keys => items ← mapM key_json keys; Some (JObj [("keys", JArr items)])) resp).

Definition handleUpdateAPIKeyStatus : Handler := fun r => done
  (let keyID := PathValue r "key_id" in
   if String.eqb keyID "" then required r "key_id"
   else
     match decode_body assign_status false r with
     | None => bad_body r
     | Some enabled =>
         resp <- in_auth (UpdateAPIKeyStatus keyID enabled) ;;
         answer r StatusOK (fun _ => success) resp
     end).

Definition handleRotateAPIKey : Handler := fun r => done
  (let keyID := PathValue r "key_id" in
   if String.eqb keyID "" then required r "key_id"
   else
     resp <- in_auth (RotateAPIKey keyID) ;;
     answer r StatusOK (fun p => members [str_member "key_id" (fst p); str_member "new_secret" (snd p)]) resp).

(** ** Health *)
Definition status_answer (status : string) : Handler := fun r => done
  (t <- now_text ;; writeJSON r StatusOK (Some (JObj [("status", JStr status); ("time", JStr t)]))).
Definition handleHealth : Handler := status_answer "healthy".
Definition handleReady : Handler := status_answer "ready".

(** ** Routes *)
Definition registerRoutes : list (pattern Handler) := [
  route "GET /health" handleHealth;
  route "GET /ready" handleReady;
  route "GET /sessions" handleListSessions;
  route "POST /sessions" handleCreateSession;
  route "GET /sessions/{id}" handleGetSession;
  route "POST /sessions/{id}/touch" handleTouchSession;
  route "POST /sessions/{id}/renew" handleRenewSession;
  route "POST /sessions/{id}/revoke" handleRevokeSession;
  route "POST /users/{user_id}/sessions/revoke" handleRevokeUserSessions;
  route "POST /tokens/validate" handleValidateToken;
  route "GET /admin/v1/status/summary" handleAdminStatus;
  route "POST /admin/v1/gc/trigger" handleGCTrigger;
  route "POST /admin/v1/keys" handleCreateAPIKey;
  route "GET /admin/v1/keys" handleListAPIKeys;
  route "POST /admin/v1/keys/{key_id}/status" handleUpdateAPIKeyStatus;
  route "POST /admin/v1/keys/{key_id}/rotate" handleRotateAPIKey].

(** A [ServeMux]: the handler of the pattern, with the wildcards in the request, or
    one of the answers of [net/http], of which the text is left out. *)
Definition mux (routes : list (pattern Handler)) : Handler := fun r =>
  match dispatch routes (Method r) (EscapedPath r) with
  | Found h values => h (with_pathValues values r)
  | MovedTo path => done (respond (fun w => WriteHeader 301 (Set_ "Location" (location path (RawQuery r)) w)))
  | MethodNotAllowed => done (respond (WriteHeader 405))
  | NotFound => done (respond (WriteHeader 404))
  end.
Definition ServeHTTP : Handler := mux registerRoutes.

(** What the server does with a request: a new response, the handler, and the answer
    on the wire; after a panic the connection is closed without one. *)
Definition serve (h : Handler) (r : Request APIKey) : M Services (option (Z * list (string * string) * string)) :=
  s <- get_st ;;
  p <- with_local (MkExchange s new_writer) (h r) ;;
  upd_st (fun _ => services (snd p)) ;;;
  ret (match fst p with Some _ => Some (response (writer (snd p))) | None => None end).
End Handlers.
