(* ===== verification/HttpServer.v ===== *)
(** The HTTP server: [internal/server/httpserver/middleware.go] and [router.go],
    and the services [cmd/tokmesh-server/main.go] starts it with.

    A middleware is a function from handlers to handlers.  What the code only logs is
    left out, with the readings of the clock it makes for it kept. *)

From Stdlib Require Import Ascii String.
From stdpp Require Import list strings gmap fin_maps.
From S2P Require Import Prelude Errors GoStrings Float64 GoTime Json Token APIKey NetIP.
From S2P Require Import AuthService.
From S2P Require Import Session MemoryStore TokenService SessionService HttpNet HttpHandler.
From S2P Require Redis.

Open Scope string_scope.
Open Scope Z_scope.

(** The client's address: the peer's, without the port, when the client names none. *)
Definition getClientIP (r : Request APIKey) : string :=
  match forwarded_ip r with
  | Some ip => ip
  | None => match SplitHostPort (RemoteAddr r) with Some host => host | None => RemoteAddr r end
  end.

Definition GetAPIKeyFromContext (r : Request APIKey) : option APIKey := ctx_APIKey r.
Definition GetRequestIDFromContext (r : Request APIKey) : string := default "" (ctx_RequestID r).

(** ** Credentials *)
Definition bearer (r : Request APIKey) : option (string * string) :=
  let authHeader := header r "Authorization" in
  if HasPrefix authHeader "Bearer " then
    match SplitN2 (from 7 authHeader) ":" with [id; secret] => Some (id, secret) | _ => None end
  else None.
(** Those of [Auth]: the two headers first. *)
Definition auth_credentials (r : Request APIKey) : string * string :=
  let keyID := header r "X-Api-Key-Id" in
  let keySecret := header r "X-Api-Key" in
  if String.eqb keyID "" && String.eqb keySecret "" then default (keyID, keySecret) (bearer r)
  else (keyID, keySecret).
Definition extractAPIKeyCredentials (r : Request APIKey) : string * string :=
  match bearer r with
  | Some c => c
  | None =>
      let apiKey := header r "X-Api-Key" in
      match (if String.eqb apiKey "" then [] else SplitN2 apiKey ":") with
      | [id; secret] => (id, secret)
      | _ => (header r "X-Api-Key-Id", apiKey)
      end
  end.

(** ** The allowlist of [NetworkACL]: entries that do not parse are left out. *)
Definition acl_networks (allow : list string) : list IPNet :=
  omap (fun entry => if GoStrings.Contains entry "/" then ParseCIDR entry else None) allow.
Definition acl_singleIPs (allow : list string) : list (list Z) :=
  omap (fun entry => if GoStrings.Contains entry "/" then None else ParseIP entry) allow.

Section Server.
Context {R K : Type} `{SessionRepository R} `{TokenRepository R} `{APIKeyRepository K}.
Context `{Argon2Lib} `{RateLib} `{UlidLib} `{TimeZone}.

Abbreviation Exchange := (Exchange (R := R) (K := K)).
Abbreviation Handler := (Handler (R := R) (K := K)).
Definition Middleware : Type := Handler -> Handler.
Definition Chain (h : Handler) (middlewares : list Middleware) : Handler := fold_right (fun m h => m h) h middlewares.

Definition error_body (code message : string) : json := JObj [("code", JStr code); ("message", JStr message)].
Definition auth_status (code : string) : Z :=
  if GoStrings.Contains code "-403" then StatusForbidden
  else if HasSuffix code "-4290" then StatusTooManyRequests
  else StatusUnauthorized.
Definition writeAuthError (code message : string) : M Exchange unit :=
  respond (fun w => Encode (Some (error_body code message)) (WriteHeader (auth_status code)
    (Set_ "X-Error-Code" code (Set_ "Content-Type" "application/json" w)))).
Definition deny (code message : string) : M Exchange (option unit) := done (writeAuthError code message).

Definition RequestID : Middleware := fun next r =>
  requestID <- (if String.eqb (header r "X-Request-Id") "" then
                  id <- GenerateWithLength 16 ;;
                  ret (match id with Ok id => "req-" +:+ id | Err _ => "req-unknown" end)
                else ret (header r "X-Request-Id")) ;;
  respond (Set_ "X-Request-Id" requestID) ;;;
  _ <- time_now ;;
  next (with_RequestID requestID r).

(** A key that is valid and has not used up its rate; [check] is what [AdminAuth]
    asks of it before. *)
Definition authenticate (check : APIKey -> bool) (creds : string * string) (r : Request APIKey)
    (next : Handler) : M Exchange (option unit) :=
  let '(keyID, keySecret) := creds in
  resp <- in_auth (ValidateAPIKey (MkValidateAPIKeyRequest keyID keySecret (getClientIP r))) ;;
  match resp with
  | Err err => deny (GetErrorCode err) (Error err)
  | Ok key =>
      if negb (check key) then deny "TM-ADMIN-4030" "admin role required"
      else
        limited <- in_auth (CheckRateLimit keyID (RateLimit key)) ;;
        match limited with
        | Some _ => respond (Set_ "Retry-After" "60") ;;; deny "TM-AUTH-4290" "rate limit exceeded"
        | None => next (with_APIKey key r)
        end
  end.
Definition no_credentials (creds : string * string) : bool := String.eqb (fst creds) "" || String.eqb (snd creds) "".

Definition Auth (SkipAuthPaths : list string) : Middleware := fun next r =>
  if existsb (HasPrefix (URL_Path r)) SkipAuthPaths then next r
  else if no_credentials (auth_credentials r) then deny "TM-AUTH-4010" "authentication required"
  else authenticate (fun _ => true) (auth_credentials r) r next.

Definition AdminAuth : Middleware := fun next r =>
  if no_credentials (extractAPIKeyCredentials r) then deny "TM-AUTH-4010" "API Key not provided"
  else authenticate (fun key => String.eqb (Role key) RoleAdmin) (extractAPIKeyCredentials r) r next.

Definition RequirePermission (perm : string) : Middleware := fun next r =>
  match GetAPIKeyFromContext r with
  | None => deny "TM-AUTH-4010" "authentication required"
  | Some apiKey =>
      match CheckPermission apiKey perm with
      | Some _ => deny "TM-AUTH-4030" ("permission denied: " +:+ perm)
      | None => next r
      end
  end.

Definition MetricsAuth (authRequired : bool) : Middleware := fun next r =>
  if negb authRequired then next r
  else
    let '(keyID, keySecret) := extractAPIKeyCredentials r in
    if no_credentials (keyID, keySecret) then done (respond (WriteHeader StatusUnauthorized))
    else
      resp <- in_auth (ValidateAPIKey (MkValidateAPIKeyRequest keyID keySecret (getClientIP r))) ;;
      match resp with
      | Err _ => done (respond (WriteHeader StatusUnauthorized))
      | Ok key =>
          if negb (String.eqb (Role key) RoleMetrics) && negb (String.eqb (Role key) RoleAdmin)
          then done (respond (WriteHeader StatusForbidden))
          else next r
      end.

(** The bucket of the address, made full when there is none. *)
Definition take_token (rate : float64) (ip : string) : M Exchange bool :=
  x <- get_st ;;
  b <- match Buckets (services x) !! ip with
       | Some b => ret b
       | None => t <- time_now ;; ret (Redis.MkBucket rate t)
       end ;;
  now <- time_now ;;
  let '(ok, b) := Redis.spend rate now b in
  upd_st (set_buckets (<[ip := b]> (Buckets (services x)))) ;;; ret ok.
Definition RateLimit (requestsPerSecond : Z) : Middleware := fun next r =>
  allowed <- take_token (f64_of_Z requestsPerSecond) (getClientIP r) ;;
  if negb allowed then respond (Set_ "Retry-After" "1") ;;; deny "TM-SYS-4290" "too many requests"
  else next r.

(** What it logs is left out: it reads the clock when the handler has returned. *)
Definition Audit : Middleware := fun next r =>
  res <- next r ;;
  match res with None => ret None | Some _ => _ <- time_now ;; ret (Some tt) end.

Definition Recover : Middleware := fun next r =>
  res <- next r ;;
  match res with
  | Some _ => ret (Some tt)
  | None => done (respond (fun w => Encode (Some (error_body "TM-SYS-5000" "internal server error"))
      (WriteHeader StatusInternalServerError
        (Set_ "X-Error-Code" "TM-SYS-5000" (Set_ "Content-Type" "application/json" w)))))
  end.

Definition NetworkACL (AllowList : list string) : Middleware :=
  let networks := acl_networks AllowList in
  let singleIPs := acl_singleIPs AllowList in
  fun next r =>
  if (llen networks =? 0) && (llen singleIPs =? 0) then next r
  else
    match ParseIP (getClientIP r) with
    | None => deny "TM-ADMIN-4031" "invalid client IP"
    | Some ip =>
        if existsb (fun allowedIP => IP_Equal allowedIP ip) singleIPs then next r
        else if existsb (fun network => Contains_ network ip) networks then next r
        else deny "TM-ADMIN-4031" "IP not in allowlist"
    end.

Definition cors_headers (origin : string) (w : ResponseWriter) : ResponseWriter :=
  Set_ "Access-Control-Max-Age" "86400"
    (Set_ "Access-Control-Allow-Headers" "Content-Type, X-API-Key-ID, X-API-Key, X-Request-ID, Authorization"
      (Set_ "Access-Control-Allow-Methods" "GET, POST, OPTIONS"
        (Set_ "Access-Control-Allow-Origin" origin w))).
Definition CORS (allowedOrigins : list string) : Middleware := fun next r =>
  let origin := header r "Origin" in
  let allowed := (llen allowedOrigins =? 0) ||
                 existsb (fun o => String.eqb o "*" || String.eqb o origin) allowedOrigins in
  (if allowed && negb (String.eqb origin "") then respond (cors_headers origin) else ret tt) ;;;
  if String.eqb (Method r) "OPTIONS" then done (respond (WriteHeader 204)) else next r.

(** ** The router *)
Record RouterConfig := MkRouterConfig {
  SkipAuthPaths : list string;
  AdminAllowList : list string;
  MetricsAuthRequired : bool;
  CORSAllowedOrigins : list string;
  GlobalRateLimit : Z;
  EnableAudit : bool;
}.
Definition DefaultRouterConfig : RouterConfig := MkRouterConfig ["/health"; "/ready"] [] true [] 1000 true.

Definition h : Handler := ServeHTTP.
Definition health_handler : Handler := Chain h [RequestID; Recover].
Definition metricsHandler (cfg : RouterConfig) : Handler :=
  Chain h [RequestID; Recover; MetricsAuth (MetricsAuthRequired cfg)].
Definition businessHandler (cfg : RouterConfig) : Handler :=
  let handler := Chain h [RequestID; Recover; CORS (CORSAllowedOrigins cfg); Auth (SkipAuthPaths cfg)] in
  let handler := if EnableAudit cfg then Audit handler else handler in
  if 0 <? GlobalRateLimit cfg then RateLimit (GlobalRateLimit cfg) handler else handler.
Definition adminHandler (cfg : RouterConfig) : Handler :=
  Chain h ([RequestID; Recover; AdminAuth] ++
           (if 0 <? llen (AdminAllowList cfg) then [NetworkACL (AdminAllowList cfg)] else []) ++
           (if EnableAudit cfg then [Audit] else []))%list.

(** Which of the four handlers a pattern has. *)
Inductive area := Health | Metrics | Business | Admin.
Definition patterns : list (pattern area) := [
  route "GET /health" Health;
  route "GET /ready" Health;
  route "GET /metrics" Metrics;
  route "GET /sessions" Business;
  route "POST /sessions" Business;
  route "GET /sessions/{id}" Business;
  route "POST /sessions/{id}/touch" Business;
  route "POST /sessions/{id}/renew" Business;
  route "POST /sessions/{id}/revoke" Business;
  route "POST /users/{user_id}/sessions/revoke" Business;
  route "POST /tokens/validate" Business;
  route "GET /admin/v1/status/summary" Admin;
  route "POST /admin/v1/gc/trigger" Admin;
  route "POST /admin/v1/keys" Admin;
  route "GET /admin/v1/keys" Admin;
  route "POST /admin/v1/keys/{key_id}/status" Admin;
  route "POST /admin/v1/keys/{key_id}/rotate" Admin;
  route "POST /admin/v1/backups/snapshots" Admin;
  route "GET /admin/v1/backups/snapshots" Admin;
  route "GET /admin/v1/backups/snapshots/{snapshot_id}/file" Admin;
  route "POST /admin/v1/backups/restores" Admin;
  route "GET /admin/v1/backups/restores/{job_id}" Admin;
  route "GET /admin/v1/audit/logs" Admin;
  route "GET /admin/v1/cluster/nodes" Admin;
  route "POST /admin/v1/cluster/nodes/{node_id}/remove" Admin;
  route "POST /admin/v1/cluster/reset" Admin;
  route "GET /admin/v1/config" Admin;
  route "POST /admin/v1/config/apply" Admin;
  route "POST /admin/v1/config/validate" Admin;
  route "POST /admin/v1/config/reload" Admin;
  route "GET /admin/v1/wal/status" Admin;
  route "GET /admin/v1/wal/logs" Admin].
Definition area_handler (cfg : RouterConfig) (a : area) : Handler :=
  match a with
  | Health => health_handler
  | Metrics => metricsHandler cfg
  | Business => businessHandler cfg
  | Admin => adminHandler cfg
  end.
Definition NewRouter (cfg : RouterConfig) : Handler :=
  mux (map (fun p => MkPattern (p_method p) (p_segments p) (area_handler cfg (p_handler p))) patterns).
End Server.

(** ** The program: [main] serves the handler itself, not the router, and starts with
    no API key at all. *)
Definition initServices {R K : Type} `{TokenRepository R} `{APIKeyRepository K} `{RateLib}
    (storageEngine : R) (apiKeyStore : K) : Services :=
  MkServices (NewTokenService storageEngine None) (NewAuthService apiKeyStore None) ∅.
Definition httpHandler {R K : Type} `{SessionRepository R} `{TokenRepository R} `{APIKeyRepository K}
    `{Argon2Lib} `{RateLib} `{UlidLib} `{TimeZone} : Handler (R := R) (K := K) := ServeHTTP.
