(* ===== verification/HttpSpec.v ===== *)
(** What the HTTP server promises: who gets past the router, that every request gets an
    answer, and where the two routing tables agree. *)

From Stdlib Require Import Ascii String Btauto.
From stdpp Require Import list strings gmap fin_maps.
From S2P Require Import Prelude Errors GoStrings Encoding Float64 GoTime Json Token APIKey NetIP.
From S2P Require Import AuthService AuthServiceSpec.
From S2P Require Import Session MemoryStore MemoryStoreSpec TokenService SessionService.
From S2P Require Import SessionServiceSpec.
From S2P Require Import HttpNet HttpHandler HttpServer.

Open Scope string_scope.
Open Scope Z_scope.

(** ** Routing *)

(** The first pattern that serves a method and matches the elements of a path, by the
    pattern's method and segments alone. *)
Definition matches (method : string) (els : list string) (sig : string * list segment) : option (list (string * string)) :=
  if serves (fst sig) method then match_segments (snd sig) els else None.
Definition signature {A} (p : pattern A) : string * list segment := (p_method p, p_segments p).

Lemma find_route_matches {A} (routes : list (pattern A)) m path :
  find_route routes m path =
  head (omap (fun p => option_map (pair (p_handler p)) (matches m (path_elements path) (signature p))) routes).
Proof.
  unfold find_route; f_equal; apply list_omap_ext, Forall2_same_length_lookup_2; [done|].
  intros i x y Hx Hy; simplify_eq; unfold matches; simpl; by destruct (serves _ _).
Qed.
Lemma find_route_map {A B} (f : A -> B) (routes : list (pattern A)) m path :
  find_route (map (fun p => MkPattern (p_method p) (p_segments p) (f (p_handler p))) routes) m path =
  option_map (fun p => (f (fst p), snd p)) (find_route routes m path).
Proof.
  unfold find_route; induction routes as [|p routes IH]; [done|]; simpl.
  destruct (serves _ _); [|done]; by destruct (match_segments _ _).
Qed.

(** Two lists of segments that no path matches both of. *)
Fixpoint apart (p q : list segment) : bool :=
  match p, q with
  | [], [] => false
  | Lit a :: p, Lit b :: q => negb (String.eqb a b) || apart p q
  | Lit a :: p, Wild _ :: q => String.eqb a "" || apart p q
  | Wild _ :: p, Lit b :: q => String.eqb b "" || apart p q
  | Wild _ :: p, Wild _ :: q => apart p q
  | _, _ => true
  end.
Lemma apart_spec p q els vp vq : apart p q = true ->
  match_segments p els = Some vp -> match_segments q els = Some vq -> False.
Proof.
  revert q els vp vq; induction p as [|[a|a] p IH]; intros [|[b|b] q] [|x els] vp vq; simpl; try done.
  - destruct (String.eqb_spec a x) as [->|], (String.eqb_spec b x) as [->|]; try done; rewrite String.eqb_refl; apply IH.
  - destruct (String.eqb_spec a x) as [->|]; [|done]; destruct (String.eqb_spec x ""); [done|].
    intros ? ?; destruct (match_segments q els) eqn:E; [|done]; intros _; eauto.
  - destruct (String.eqb_spec b x) as [->|]; [|by destruct (String.eqb x ""), (match_segments p els)].
    destruct (String.eqb_spec x ""); [done|]; destruct (match_segments p els) eqn:E; [|done]; eauto.
  - destruct (String.eqb x ""); [done|].
    destruct (match_segments p els) eqn:E, (match_segments q els) eqn:E'; try done; eauto.
Qed.
Definition clash (p q : string * list segment) : bool := String.eqb (fst p) (fst q) && negb (apart (snd p) (snd q)).
Fixpoint no_clash (l : list (string * list segment)) : bool :=
  match l with [] => true | p :: l => forallb (fun q => negb (clash p q)) l && no_clash l end.
Lemma no_clash_lookup l i j p q : no_clash l = true -> (i < j)%nat -> l !! i = Some p -> l !! j = Some q -> clash p q = false.
Proof.
  revert i j; induction l as [|x l IH]; intros [|i] [|j] Hc Hij Hp Hq; simpl in *; try lia; try done;
    apply andb_true_iff in Hc as [Hx Hl]; [|eapply (IH i j); eauto; lia].
  injection Hp as ->; rewrite forallb_forall in Hx; apply negb_true_iff, Hx.
  by apply list_elem_of_In, list_elem_of_lookup_2 with j.
Qed.

Definition table_methods (l : list (string * list segment)) : bool :=
  forallb (fun s => String.eqb (fst s) "GET" || String.eqb (fst s) "POST") l.
Lemma serves_POST m : serves "POST" m = true -> m = "POST".
Proof. unfold serves; rewrite andb_false_l, orb_false_r, orb_false_l; by intros ->%String.eqb_eq. Qed.
Lemma serves_one a b m : (a = "GET" \/ a = "POST") -> (b = "GET" \/ b = "POST") ->
  serves a m = true -> serves b m = true -> a = b.
Proof.
  intros [-> | ->] [-> | ->] Sa Sb; try done; [apply serves_POST in Sb as ->|apply serves_POST in Sa as ->];
    discriminate.
Qed.

(** In a table without clashes a request matches one pattern at most. *)
Lemma unique_match l m els i j p q vp vq : table_methods l = true -> no_clash l = true ->
  l !! i = Some p -> l !! j = Some q -> matches m els p = Some vp -> matches m els q = Some vq -> i = j.
Proof.
  intros Hm Hc; assert (forall i j p q vp vq, (i < j)%nat -> l !! i = Some p -> l !! j = Some q ->
    matches m els p = Some vp -> matches m els q = Some vq -> False) as Hlt.
  { intros i' j' [pm ps] [qm qs] ? ? Hij Hp Hq; unfold matches; simpl.
    destruct (serves pm m) eqn:Sp, (serves qm m) eqn:Sq; try done; intros Ep Eq.
    pose proof (no_clash_lookup _ _ _ _ _ Hc Hij Hp Hq) as Hcl; unfold table_methods in Hm; rewrite forallb_forall in Hm.
    assert (forall k a s, l !! k = Some (a, s) -> a = "GET" \/ a = "POST") as Hms.
    { intros k a s Hk; specialize (Hm (a, s) ltac:(by apply list_elem_of_In, list_elem_of_lookup_2 with k)).
      apply orb_true_iff in Hm as [Hm|Hm]; apply String.eqb_eq in Hm; auto. }
    rewrite (serves_one pm qm m) in Hcl by eauto.
    unfold clash in Hcl; simpl in Hcl; rewrite String.eqb_refl in Hcl; apply negb_false_iff in Hcl; eauto using apart_spec. }
  intros Hp Hq Ep Eq; destruct (Nat.lt_trichotomy i j) as [Hlt'|[?|Hlt']]; [exfalso; eauto|done|exfalso; eauto].
Qed.

Section Router.
Context {R K : Type} `{SessionRepository R} `{TokenRepository R} `{APIKeyRepository K}.
Context `{Argon2Lib} `{RateLib} `{UlidLib} `{TimeZone}.
#[local] Abbreviation Exchange := (HttpHandler.Exchange (R := R) (K := K)).
#[local] Abbreviation Handler := (HttpHandler.Handler (R := R) (K := K)).
#[local] Abbreviation inner := (registerRoutes (R := R) (K := K)).

Lemma tables_unique : (table_methods (map signature patterns) && no_clash (map signature patterns)) = true /\
  (table_methods (map signature inner) && no_clash (map signature inner)) = true.
Proof. by vm_compute. Qed.

(** The first match of a list of patterns written out. *)
Definition sig_of (text : string) : string * list segment := signature (route text tt).
Lemma find_route_cons {A} text (x : A) routes m path : find_route (route text x :: routes) m path =
  match matches m (path_elements path) (sig_of text) with
  | Some vs => Some (x, vs)
  | None => find_route routes m path
  end.
Proof.
  rewrite !find_route_matches; unfold sig_of, signature, route.
  assert (forall A B C (f : A -> option B) (x : A) l (k : B -> C), head (omap (fun a => option_map k (f a)) (x :: l)) =
    match f x with Some b => Some (k b) | None => head (omap (fun a => option_map k (f a)) l) end) as E
    by (intros; simpl; by destruct (f x0)).
  destruct (SplitN2 text " ") as [|a [|b [|c l]]]; simpl; by destruct (matches _ _ _).
Qed.

(** Where the request goes once a pattern of the router has matched. *)
Lemma inner_dispatch m path a vs : find_route patterns m path = Some (a, vs) ->
  match a with
  | Business => exists h, find_route inner m path = Some (h, vs)
  | Health => exists h, find_route inner m path = Some (h, vs) /\ (h = handleHealth \/ h = handleReady)
  | Metrics => True
  | Admin => True
  end.
Proof.
  unfold patterns, registerRoutes; rewrite !find_route_cons; generalize (matches m (path_elements path)) as F; intros F.
  repeat match goal with |- context [F (sig_of ?t)] => destruct (F (sig_of t)); [intros [= <- <-]; eauto|] end; done.
Qed.
Lemma only_metrics m path vs : find_route patterns m path = Some (Metrics, vs) -> find_route inner m path = None.
Proof.
  intros Hf; assert (matches m (path_elements path) (sig_of "GET /metrics") = Some vs) as Hm.
  { revert Hf; unfold patterns; rewrite !find_route_cons; generalize (matches m (path_elements path)) as F; intros F.
    repeat match goal with |- context [F (sig_of ?t)] => destruct (F (sig_of t)) eqn:?; [intros [= ?]; by subst|] end; done. }
  assert (forall t vt, (table_methods [sig_of "GET /metrics"; sig_of t] && no_clash [sig_of "GET /metrics"; sig_of t]) = true ->
    matches m (path_elements path) (sig_of t) = Some vt -> False) as Hno.
  { intros t vt [Ht Hc]%andb_true_iff Ev.
    by pose proof (unique_match _ _ _ 0 1 _ _ _ _ Ht Hc eq_refl eq_refl Hm Ev). }
  unfold registerRoutes; rewrite !find_route_cons.
  repeat match goal with |- context [matches m _ (sig_of ?t)] =>
    destruct (matches m (path_elements path) (sig_of t)) eqn:E;
      [exfalso; refine (Hno t _ _ E); vm_compute; exact eq_refl|clear E] end; done.
Qed.

(** ** Who gets past the router *)

(** What the middlewares do to the authentication service on the way. *)
Inductive bookkeeping : AuthService K -> AuthService K -> Prop :=
| bk_refl a : bookkeeping a a
| bk_validate req a e res a' e' a'' :
    ValidateAPIKey req a e = (res, a', e') -> bookkeeping a' a'' -> bookkeeping a a''
| bk_limit id rate a e res a' e' a'' :
    CheckRateLimit id rate a e = (res, a', e') -> bookkeeping a' a'' -> bookkeeping a a''.

(** The sessions are as they were, and of the keys only their use has been noted. *)
Definition blocked (x x' : Exchange) : Prop :=
  tokenSvc (services x') = tokenSvc (services x) /\ bookkeeping (authSvc (services x)) (authSvc (services x')).
Definition guarded (ok : AuthService K -> env -> Prop) (m : M Exchange (option unit)) : Prop :=
  forall x e, let '(_, x', _) := m x e in blocked x x' \/ ok (authSvc (services x)) e.
(** A step that touches neither service. *)
Definition quiet {A} (m : M Exchange A) : Prop :=
  forall x e, let '(_, x', e') := m x e in
  tokenSvc (services x') = tokenSvc (services x) /\ authSvc (services x') = authSvc (services x) /\ later e e'.

Lemma blocked_refl x : blocked x x.
Proof. split; [done|constructor]. Qed.
#[local] Hint Resolve blocked_refl later_refl : go.
Lemma quiet_ret {A} (a : A) : quiet (ret a).
Proof. intros x e; simpl; auto with go. Qed.
Lemma quiet_bind {A B} (m : M Exchange A) (k : A -> M Exchange B) : quiet m -> (forall a, quiet (k a)) -> quiet (bind m k).
Proof.
  intros Hm Hk x e; unfold bind; specialize (Hm x e); destruct (m x e) as [[a x1] e1]; destruct Hm as (T1 & A1 & L1).
  specialize (Hk a x1 e1); destruct (k a x1 e1) as [[b x2] e2]; destruct Hk as (-> & -> & L2); eauto using later_trans.
Qed.
Lemma quiet_respond f : quiet (respond f).
Proof. intros x e; simpl; auto with go. Qed.
Lemma quiet_time : quiet time_now.
Proof. intros x e; pose proof (advances_time_now x e); simpl in *; auto. Qed.
Lemma quiet_rand n : quiet (rand_read n).
Proof. intros x e; pose proof (advances_rand_read n x e); simpl in *; auto. Qed.
Lemma quiet_get : quiet get_st.
Proof. intros x e; simpl; auto with go. Qed.
Lemma quiet_buckets b : quiet (upd_st (set_buckets b)).
Proof. intros x e; simpl; auto with go. Qed.
#[local] Hint Resolve quiet_ret quiet_respond quiet_time quiet_rand quiet_get quiet_buckets : go.
Ltac quiet_tac := repeat first [progress intros | apply quiet_bind | solve [eauto with go] | case_goal].

Lemma quiet_guarded ok (m : M Exchange (option unit)) : quiet m -> guarded ok m.
Proof.
  intros Hm x e; specialize (Hm x e); destruct (m x e) as [[a x1] e1]; destruct Hm as (T1 & A1 & _).
  left; split; [done|rewrite A1; constructor].
Qed.
Definition later_closed (ok : AuthService K -> env -> Prop) : Prop := forall a e e', later e e' -> ok a e' -> ok a e.
(** Something quiet before, or after. *)
Lemma guarded_before {A} ok (m : M Exchange A) k : later_closed ok -> quiet m -> (forall a, guarded ok (k a)) -> guarded ok (bind m k).
Proof.
  intros Hok Hm Hk x e; unfold bind; specialize (Hm x e); destruct (m x e) as [[a x1] e1]; destruct Hm as (T1 & A1 & L1).
  specialize (Hk a x1 e1); destruct (k a x1 e1) as [[b x2] e2]; unfold blocked in *; rewrite T1, A1 in Hk.
  destruct Hk as [Hk|Hk]; eauto.
Qed.
Lemma guarded_after ok (m : M Exchange (option unit)) k : guarded ok m -> (forall a, quiet (k a)) -> guarded ok (bind m k).
Proof.
  intros Hm Hk x e; unfold bind; specialize (Hm x e); destruct (m x e) as [[a x1] e1].
  specialize (Hk a x1 e1); destruct (k a x1 e1) as [[b x2] e2]; destruct Hk as (T2 & A2 & _); unfold blocked; by rewrite T2, A2.
Qed.

(** The credentials of the request are those of a key the authentication service
    accepts, and that passes the check. *)
Definition presented (check : APIKey -> bool) (creds : string * string) (ip : string) (a : AuthService K) (e : env) : Prop :=
  exists e1 key a' e2, later e e1 /\ no_credentials creds = false /\
    ValidateAPIKey (MkValidateAPIKeyRequest (fst creds) (snd creds) ip) a e1 = (Ok key, a', e2) /\ check key = true.
Lemma presented_later check creds ip : later_closed (presented check creds ip).
Proof.
  intros a e e' L (e1 & key & a' & e2 & L1 & ?); exists e1, key, a', e2; eauto using later_trans.
Qed.

Lemma authenticate_guarded check creds r next : no_credentials creds = false ->
  guarded (presented check creds (getClientIP r)) (authenticate check creds r next).
Proof.
  intros Hc x e; unfold authenticate; destruct creds as [keyID keySecret]; unfold in_auth at 1, zoom, bind at 1.
  destruct (ValidateAPIKey _ (authSvc (services x)) e) as [[res a'] e1] eqn:Ev.
  assert (blocked x (set_auth a' x)) as Hb by (split; [done|]; eapply bk_validate; [exact Ev|constructor]).
  destruct res as [key|err].
  - destruct (check key) eqn:Ek; [|by left]; simpl negb; cbn iota.
    match goal with |- match ?m with _ => _ end => destruct m as [[? ?] ?] end.
    right; exists e, key, a', e1; auto using later_refl.
  - by left.
Qed.

Lemma Auth_guarded skip r next ok : later_closed ok ->
  (existsb (HasPrefix (URL_Path r)) skip = true -> guarded ok (next r)) ->
  (forall a e, presented (fun _ => true) (auth_credentials r) (getClientIP r) a e -> ok a e) ->
  guarded ok (HttpServer.Auth skip next r).
Proof.
  intros Hl Hs Hp; unfold HttpServer.Auth; destruct (existsb _ skip); [by apply Hs|].
  destruct (no_credentials (auth_credentials r)) eqn:Hn; [apply quiet_guarded; unfold deny, done, writeAuthError; quiet_tac|].
  intros x e; pose proof (authenticate_guarded (fun _ => true) _ r next Hn x e) as Hg.
  destruct (authenticate _ _ r next x e) as [[? ?] ?]; destruct Hg; auto.
Qed.

(** The ways through the router: a business path that is not skipped with a key of
    any role, an admin path with the key of an administrator. *)
Definition let_in (cfg : RouterConfig) (r : Request APIKey) (a : AuthService K) (e : env) : Prop :=
  exists ar vs, find_route patterns (Method r) (EscapedPath r) = Some (ar, vs) /\
  match ar with
  | Business => existsb (HasPrefix (URL_Path r)) (SkipAuthPaths cfg) = true \/
                presented (fun _ => true) (auth_credentials r) (getClientIP r) a e
  | Admin => presented (fun key => String.eqb (Role key) RoleAdmin) (extractAPIKeyCredentials r) (getClientIP r) a e
  | _ => False
  end.
Lemma let_in_later cfg r : later_closed (let_in cfg r).
Proof.
  intros a e e' L (ar & vs & Hf & Hp); exists ar, vs; split; [done|]; destruct ar; try done.
  - destruct Hp as [Hp|Hp]; [by left|right; by eapply presented_later].
  - by eapply presented_later.
Qed.

Section Middlewares.
Context (ok : AuthService K -> env -> Prop) (Hl : later_closed ok).
Implicit Types (next : Handler) (r : Request APIKey).

Lemma RequestID_guarded next r : (forall id, guarded ok (next (with_RequestID id r))) -> guarded ok (RequestID next r).
Proof.
  intros Hn; unfold RequestID; apply guarded_before; [done|unfold GenerateWithLength; quiet_tac|]; intros id.
  apply guarded_before; [done|auto with go|]; intros _; apply guarded_before; auto with go.
Qed.
Lemma Recover_guarded next r : guarded ok (next r) -> guarded ok (Recover next r).
Proof. intros Hn; apply guarded_after; [done|]; intros [u|]; unfold done; quiet_tac. Qed.
Lemma Audit_guarded next r : guarded ok (next r) -> guarded ok (Audit next r).
Proof. intros Hn; apply guarded_after; [done|]; intros [u|]; quiet_tac. Qed.
Lemma CORS_guarded origins next r : guarded ok (next r) -> guarded ok (CORS origins next r).
Proof.
  intros Hn; unfold CORS; apply guarded_before; [done|quiet_tac|]; intros _.
  destruct (String.eqb _ _); [apply quiet_guarded; unfold done; quiet_tac|done].
Qed.
Lemma RateLimit_guarded n next r : guarded ok (next r) -> guarded ok (HttpServer.RateLimit n next r).
Proof.
  intros Hn; unfold HttpServer.RateLimit; apply guarded_before; [done|unfold take_token; quiet_tac|]; intros b.
  destruct b; [done|]; apply quiet_guarded; unfold deny, done, writeAuthError; quiet_tac.
Qed.
Lemma AdminAuth_guarded next r :
  (forall a e, presented (fun key => String.eqb (Role key) RoleAdmin) (extractAPIKeyCredentials r) (getClientIP r) a e -> ok a e) ->
  guarded ok (AdminAuth next r).
Proof.
  intros Hp; unfold AdminAuth; destruct (no_credentials _) eqn:Hn.
  - apply quiet_guarded; unfold deny, done, writeAuthError; quiet_tac.
  - intros x e; pose proof (authenticate_guarded (fun key => String.eqb (Role key) RoleAdmin) _ r next Hn x e) as Hg.
    destruct (authenticate _ _ r next x e) as [[? ?] ?]; destruct Hg; auto.
Qed.
Lemma MetricsAuth_guarded required next r : quiet (next r) -> guarded ok (MetricsAuth required next r).
Proof.
  intros Hn; unfold MetricsAuth; destruct required; cbn [negb]; [|by apply quiet_guarded].
  destruct (extractAPIKeyCredentials r) as [keyID keySecret].
  destruct (no_credentials _); [apply quiet_guarded; unfold done; quiet_tac|].
  intros x e; unfold in_auth, zoom, bind at 1.
  destruct (ValidateAPIKey _ (authSvc (services x)) e) as [[res a'] e1] eqn:Ev.
  assert (blocked x (set_auth a' x)) as Hb by (split; [done|]; eapply bk_validate; [exact Ev|constructor]).
  destruct res as [key|err]; [|by left]; destruct (_ && _); [by left|].
  specialize (Hn (set_auth a' x) e1); destruct (next r _ e1) as [[? x2] e2]; destruct Hn as (T2 & A2 & _).
  left; unfold blocked in *; by rewrite T2, A2.
Qed.
End Middlewares.

(** A request one table knows is in the form both tables look up. *)
Lemma dispatch_found {A} (routes : list (pattern A)) m path h vs : dispatch routes m path = Found h vs ->
  find_route routes m path = Some (h, vs) /\
  forall B (routes' : list (pattern B)) h' vs', find_route routes' m path = Some (h', vs') -> dispatch routes' m path = Found h' vs'.
Proof.
  unfold dispatch; set (p := if String.eqb m "CONNECT" then path else cleanPath path).
  destruct (String.eqb_spec p path) as [->|]; cbn [negb]; [|done].
  destruct (find_route routes m path) as [[h0 vs0]|]; [|by case_match].
  intros [= <- <-]; split; [done|]; by intros B routes' h' vs' ->.
Qed.
Lemma mux_guarded ok (routes : list (pattern Handler)) r :
  (forall h vs, dispatch routes (Method r) (EscapedPath r) = Found h vs -> guarded ok (h (with_pathValues vs r))) ->
  guarded ok (mux routes r).
Proof.
  intros Hh; unfold mux; destruct (dispatch _ _ _) as [h vs| | |]; [by apply Hh|apply quiet_guarded; unfold done; quiet_tac..].
Qed.
Lemma mux_quiet (routes : list (pattern Handler)) r :
  (forall h vs, find_route routes (Method r) (EscapedPath r) = Some (h, vs) -> quiet (h (with_pathValues vs r))) ->
  quiet (mux routes r).
Proof.
  intros Hh; unfold mux; destruct (dispatch _ _ _) as [h vs| | |] eqn:Ed; [|unfold done; quiet_tac..].
  apply dispatch_found in Ed as [Ed _]; by apply Hh.
Qed.
Lemma status_answer_quiet status r : quiet (status_answer status r).
Proof. unfold status_answer, done, now_text, writeJSON, NewResponse, now_milli; quiet_tac. Qed.

Lemma router_guarded cfg r : guarded (let_in cfg r) (NewRouter cfg r).
Proof.
  unfold NewRouter; apply mux_guarded; intros h vs Hd; apply dispatch_found in Hd as [Hd _].
  rewrite find_route_map in Hd; destruct (find_route patterns _ _) as [[ar vs']|] eqn:Ef; [|done]; simpl in Hd; simplify_eq.
  assert (forall a e, match ar with Business => existsb (HasPrefix (URL_Path r)) (SkipAuthPaths cfg) = true \/
      presented (fun _ => true) (auth_credentials r) (getClientIP r) a e
    | Admin => presented (fun key => String.eqb (Role key) RoleAdmin) (extractAPIKeyCredentials r) (getClientIP r) a e
    | _ => False end -> let_in cfg r a e) as Hin by (intros a e Hp; exists ar, vs; auto).
  pose proof (let_in_later cfg r) as Hl; destruct ar; cbn [area_handler]; cbn iota in Hin.
  - apply RequestID_guarded; [done|]; intros id; apply Recover_guarded, quiet_guarded, mux_quiet; cbn.
    intros h vs' Hf; apply inner_dispatch in Ef as (h' & Ef & Hh); rewrite Ef in Hf; injection Hf as <- <-.
    destruct Hh as [-> | ->]; apply status_answer_quiet.
  - apply RequestID_guarded; [done|]; intros id; apply Recover_guarded, MetricsAuth_guarded, mux_quiet; cbn.
    intros h vs' Hf; by rewrite (only_metrics _ _ _ Ef) in Hf.
  - assert (guarded (let_in cfg r) (Chain HttpServer.h [RequestID; Recover; CORS (CORSAllowedOrigins cfg); HttpServer.Auth (SkipAuthPaths cfg)] (with_pathValues vs r))) as Hc.
    { apply RequestID_guarded; [done|]; intros id; apply Recover_guarded, CORS_guarded; [done|]; apply Auth_guarded; [done| |].
      - intros Hs x e; destruct (HttpServer.h _ x e) as [[? ?] ?]; right; apply Hin; by left.
      - intros a e Hp; apply Hin; by right. }
    unfold businessHandler; destruct (EnableAudit cfg), (0 <? GlobalRateLimit cfg);
      repeat first [apply RateLimit_guarded; [done|] | apply Audit_guarded | exact Hc].
  - apply RequestID_guarded; [done|]; intros id; apply Recover_guarded, AdminAuth_guarded; auto.
Qed.

(** ** Every request gets an answer *)
Definition answers (m : M Exchange (option unit)) : Prop := forall x e, fst (fst (m x e)) = Some tt.
Lemma answers_bind {A} (m : M Exchange A) k : (forall a, answers (k a)) -> answers (bind m k).
Proof. intros Hk x e; unfold bind; destruct (m x e) as [[a x1] e1]; apply Hk. Qed.
Lemma answers_done (m : M Exchange unit) : answers (done m).
Proof. by apply answers_bind. Qed.
Lemma Recover_answers next r : answers (Recover next r).
Proof. apply answers_bind; intros [u|]; [done|apply answers_done]. Qed.
Lemma RequestID_answers next r : (forall id, answers (next (with_RequestID id r))) -> answers (RequestID next r).
Proof. intros Hn; repeat (apply answers_bind; intros ?); apply Hn. Qed.
Lemma Audit_answers next r : answers (next r) -> answers (Audit next r).
Proof.
  intros Hn x e; unfold Audit, bind at 1; specialize (Hn x e); destruct (next r x e) as [[a x1] e1]; simpl in Hn; by subst.
Qed.
Lemma RateLimit_answers n next r : answers (next r) -> answers (HttpServer.RateLimit n next r).
Proof.
  intros Hn; apply answers_bind; intros [|]; [done|]; apply answers_bind; intros _; apply answers_done.
Qed.

Lemma area_handler_answers cfg ar r : answers (area_handler cfg ar r).
Proof.
  assert (forall next, answers (RequestID (Recover next) r)) as Hc
    by (intros; apply RequestID_answers; intros; apply Recover_answers).
  destruct ar; cbn [area_handler]; try apply Hc.
  unfold businessHandler; destruct (EnableAudit cfg), (0 <? GlobalRateLimit cfg);
    repeat first [apply RateLimit_answers | apply Audit_answers | apply Hc].
Qed.
(** C24: Every request gets an answer: whatever panics in a handler of the API, the router
    responds to the client; only a server without [Recover] closes the connection. *)
Theorem router_answers cfg r (s : Services) e : fst (fst (serve (NewRouter cfg) r s e)) <> None.
Proof.
  assert (answers (NewRouter cfg r)) as Ha.
  { unfold NewRouter, mux; destruct (dispatch _ _ _) as [h vs| | |] eqn:Ed; [|apply answers_done..].
    apply dispatch_found in Ed as [Ed _]; rewrite find_route_map in Ed.
    destruct (find_route patterns _ _) as [[ar vs']|]; [|done]; simpl in Ed; simplify_eq; apply area_handler_answers. }
  unfold serve, bind at 1, get_st; unfold bind, with_local, upd_st.
  specialize (Ha (MkExchange s new_writer) e); destruct (NewRouter cfg r _ e) as [[a x1] e1]; simpl in *; by subst.
Qed.

(** ** The two tables *)
(** The two tables of routes agree: no request matches two patterns of the router, so the
    order of registration does not matter; what the router takes for a business or a health
    path the handler knows too, under the same names of the wildcards; and what it takes for
    the metrics the handler does not know, so that path answers not found once let in. *)
Theorem routing_tables_agree m path a vs (Hd : dispatch patterns m path = Found a vs) :
  (forall i j p q vp vq, patterns !! i = Some p -> patterns !! j = Some q ->
     matches m (path_elements path) (signature p) = Some vp ->
     matches m (path_elements path) (signature q) = Some vq -> i = j) /\
  match a with
  | Business => exists h, dispatch inner m path = Found h vs
  | Health => exists h, dispatch inner m path = Found h vs /\ (h = handleHealth \/ h = handleReady)
  | Metrics => forall h vs', dispatch inner m path <> Found h vs'
  | Admin => True
  end.
Proof.
  destruct (dispatch_found _ _ _ _ _ Hd) as [Hf Hs]; split.
  - intros i j p q vp vq Hp Hq; destruct tables_unique as [[Ht Hc]%andb_true_iff _].
    apply (unique_match _ _ _ i j _ _ _ _ Ht Hc); by rewrite list_lookup_fmap, ?Hp, ?Hq.
  - destruct a; [| |pose proof (inner_dispatch _ _ _ _ Hf) as (h & Hi); eauto|done].
    + destruct (inner_dispatch _ _ _ _ Hf) as (h & Hi & Hh); eauto.
    + intros h vs' (Hi & _)%dispatch_found; by rewrite (only_metrics _ _ _ Hf) in Hi.
Qed.
End Router.

(** ** What that means for the keys *)
Section Keys.
Context {R K : Type} `{SessionRepository R} `{TokenRepository R} `{APIKeyRepositoryLaws K}.
Context `{!Argon2Lib} `{!RateLib} `{!UlidLib} `{!TimeZone}.
#[local] Abbreviation Exchange := (HttpHandler.Exchange (R := R) (K := K)).

Lemma bookkeeping_same (a a' : AuthService K) : bookkeeping a a' -> keys_same a a'.
Proof.
  induction 1 as [a|req a e res a' e' a'' Hv _ IH|id rate a e res a' e' a'' Hl _ IH]; [apply keys_same_refl| |].
  - intros Hs; destruct (ValidateAPIKey_spec a req e Hs) as (res' & s1 & e1 & E & Hsame & _).
    rewrite Hv in E; simplify_eq; by apply (keys_same_trans a s1 a'').
  - pose proof (CheckRateLimit_same id rate a e) as Hsame; rewrite Hl in Hsame; by eapply keys_same_trans.
Qed.

(** Someone who has the secret of a key of the service, at an address it allows. *)
Definition holder (a : AuthService K) (creds : string * string) (ip : string) (k : APIKey) : Prop :=
  known a (fst creds) k /\ accepts a (MkValidateAPIKeyRequest (fst creds) (snd creds) ip) k.

(** C21: Authorisation: a request changes no session and no key, but for the times of last use,
    unless it is for a business path and shows the secret of a known key that is not
    disabled, from an address the key allows, or the path is configured to be skipped; or it
    is for an admin path and the key has the role of an administrator. *)
Theorem unauthorised_no_effect cfg r (x : Exchange) e (Hs : auth_ok (authSvc (services x))) :
  let '(_, x', _) := NewRouter cfg r x e in
  (tokenSvc (services x') = tokenSvc (services x) /\ keys_same (authSvc (services x)) (authSvc (services x'))) \/
  exists ar vs, find_route patterns (Method r) (EscapedPath r) = Some (ar, vs) /\
    match ar with
    | Business => existsb (HasPrefix (URL_Path r)) (SkipAuthPaths cfg) = true \/
        exists k, holder (authSvc (services x)) (auth_credentials r) (getClientIP r) k
    | Admin => exists k, holder (authSvc (services x)) (extractAPIKeyCredentials r) (getClientIP r) k /\ Role k = RoleAdmin
    | _ => False
    end.
Proof.
  pose proof (router_guarded cfg r x e) as Hg; destruct (NewRouter cfg r x e) as [[res x'] e'].
  destruct Hg as [[Ht Hb]|(ar & vs & Hf & Hp)]; [left; split; [done|by apply bookkeeping_same]|right].
  exists ar, vs; split; [done|]; destruct ar; try done.
  - destruct Hp as [Hp|(e1 & key & a' & e2 & _ & _ & Hv & _)]; [by left|right].
    destruct (accepted_spec _ _ _ _ _ _ Hs Hv) as (k & Hk & Ha & _); by exists k.
  - destruct Hp as (e1 & key & a' & e2 & _ & _ & Hv & Hr); apply String.eqb_eq in Hr.
    destruct (accepted_spec _ _ _ _ _ _ Hs Hv) as (k & Hk & Ha & Hrole & _); exists k; split; [done|congruence].
Qed.
End Keys.

(** ** Witnesses *)
#[local] Instance demo_ulid : UlidLib := fun _ => true.
#[local] Instance demo_zone : TimeZone := fun _ => 0.
#[local] Instance demo_argon2 : Argon2Lib := fun p s _ _ _ n => firstn (Z.to_nat n) (sha256 (p ++ s)).
#[local] Instance demo_rate : RateLib := {
  Limiter := unit; NewLimiter _ _ := tt; Allow _ l := (true, l); reserve_delay _ l := ("0s", l) }.
Definition demo_env : env :=
  Env (fun _ => 5000000000) (fun _ n => Ok (repeat 7 n)) (fun _ => Ok "01ARZ3NDEKTSV4RRFFQ69G5FAV").
Definition demo_services : Services (R := Store) (K := APIKeyStore.t) := initServices (New 50) APIKeyStore.NewAPIKeyStore.
Definition demo_request (method path : string) : Request APIKey := MkRequest method path "" [] "192.0.2.1:4711" [] None None [].

Lemma routing_tables_agree_witness : dispatch patterns "GET" "/sessions/tmss-1" = Found Business [("id", "tmss-1")] /\
  exists h, dispatch (registerRoutes (R := Store) (K := APIKeyStore.t)) "GET" "/sessions/tmss-1" = Found h [("id", "tmss-1")].
Proof.
  split; [exact eq_refl|].
  exact (proj2 (routing_tables_agree (R := Store) (K := APIKeyStore.t) "GET" "/sessions/tmss-1" Business _ eq_refl)).
Defined.

Lemma unauthorised_no_effect_witness : let r := demo_request "POST" "/users/alice/sessions/revoke" in
  let x := MkExchange demo_services new_writer in
  find_route patterns (Method r) (EscapedPath r) = Some (Business, [("user_id", "alice")]) /\
  let '(_, x', _) := NewRouter DefaultRouterConfig r x demo_env in
  (tokenSvc (services x') = tokenSvc (services x) /\ keys_same (authSvc (services x)) (authSvc (services x'))) \/
  exists ar vs, find_route patterns (Method r) (EscapedPath r) = Some (ar, vs) /\
    match ar with
    | Business => existsb (HasPrefix (URL_Path r)) (SkipAuthPaths DefaultRouterConfig) = true \/
        exists k, holder (authSvc (services x)) (auth_credentials r) (getClientIP r) k
    | Admin => exists k, holder (authSvc (services x)) (extractAPIKeyCredentials r) (getClientIP r) k /\ Role k = RoleAdmin
    | _ => False
    end.
Proof.
  intros r x; split; [exact eq_refl|].
  apply (unauthorised_no_effect DefaultRouterConfig r x demo_env); intros id k Hk; done.
Defined.

(** * Addresses

    Where the client is: the peer's address, the headers that override it, and the
    allowlist of the admin API compared with the one of the authentication service. *)

(** ** Strings around a byte *)
Lemma LastIndex_none c s : without c s = true -> LastIndex s c = None.
Proof.
  unfold without; induction s as [|a s IH]; simpl; [done|]; intros [Ha Hs]%andb_true_iff.
  rewrite IH by done; by apply negb_true_iff in Ha as ->.
Qed.
Lemma LastIndex_app a c b : without c b = true -> LastIndex (a +:+ String c b) c = Some (String.length a).
Proof.
  intros Hb; induction a as [|x a IH]; simpl; [by rewrite LastIndex_none, Ascii.eqb_refl|by rewrite IH].
Qed.
Lemma Contains_byte c s : GoStrings.Contains s (String c "") = negb (without c s).
Proof.
  unfold GoStrings.Contains; destruct (without c s) eqn:E; [by rewrite Index_byte_none|].
  assert (exists a b, s = a +:+ String c b /\ without c a = true) as (a & b & -> & Ha); [|by rewrite Index_byte_app].
  revert E; induction s as [|x s IH]; [done|]; unfold without; simpl; destruct (Ascii.eqb_spec x c) as [->|Hne]; simpl.
  - intros _; by exists "", s.
  - intros E; destruct (IH E) as (a & b & -> & Ha); exists (String x a), b; split; [done|].
    unfold without; simpl; by rewrite (proj2 (Ascii.eqb_neq x c) Hne).
Qed.

(** ** The peer *)

(** A host or a port: none of the three bytes that delimit them. *)
Definition plain (s : string) : Prop := without ":" s = true /\ without "[" s = true /\ without "]" s = true.

Lemma SplitHostPort_plain host port : plain host -> plain port -> SplitHostPort (host +:+ ":" +:+ port) = Some host.
Proof.
  intros (H1 & H2 & H3) (P1 & P2 & P3); unfold SplitHostPort; cbv zeta.
  change (":" +:+ port) with (String ":" port); rewrite (LastIndex_app host ":" port P1).
  destruct (HasPrefix _ "[") eqn:Ep.
  - exfalso; destruct host as [|a host]; [by vm_compute in Ep|].
    change (String a host +:+ String ":" port) with (String a (host +:+ String ":" port)) in Ep; rewrite HasPrefix_byte in Ep; unfold without in H2; cbn [sforall] in H2; by rewrite Ep in H2.
  - rewrite (upto_app host), !Contains_byte, H1, !without_app, H2, H3.
    change (without ?c (String ":" port)) with (negb (Ascii.eqb ":" c) && without c port); by rewrite P2, P3.
Qed.

(** An IPv6 host in its brackets. *)
Lemma SplitHostPort_bracketed host port : without "[" host = true -> without "]" host = true -> plain port ->
  SplitHostPort ("[" +:+ host +:+ "]:" +:+ port) = Some host.
Proof.
  intros H2 H3 (P1 & P2 & P3); set (full := "[" +:+ host +:+ "]:" +:+ port).
  assert (LastIndex full ":" = Some (String.length (("[" +:+ host) +:+ "]"))) as HL.
  { replace full with ((("[" +:+ host) +:+ "]") +:+ String ":" port) by (unfold full; by rewrite !app_assoc_str).
    by apply LastIndex_app. }
  assert (full = ("[" +:+ host) +:+ String "]" (String ":" port)) as Ef by (unfold full; by rewrite !app_assoc_str).
  assert (Index full "]" = Some (String.length ("[" +:+ host))) as HI.
  { rewrite Ef; apply Index_byte_app; unfold without in *; rewrite sforall_app; simpl; exact H3. }
  assert (String.length (("[" +:+ host) +:+ "]") = (String.length ("[" +:+ host) + 1)%nat) as HN by (by rewrite length_app_str).
  unfold SplitHostPort; cbv zeta; rewrite HL, HI, HN, Nat.eqb_refl; cbn [negb].
  change (HasPrefix full "[") with (HasPrefix (String "[" (host +:+ "]:" +:+ port)) "["); rewrite HasPrefix_byte, Ascii.eqb_refl.
  assert (upto (String.length ("[" +:+ host)) full = "[" +:+ host) as -> by (rewrite Ef; apply upto_app).
  change (from 1 full) with (host +:+ String "]" (String ":" port)); change (from 1 ("[" +:+ host)) with host.
  assert (from (String.length ("[" +:+ host) + 1) full = String ":" port) as ->.
  { replace full with ((("[" +:+ host) +:+ "]") +:+ String ":" port) by (unfold full; by rewrite !app_assoc_str).
    rewrite <- HN; apply from_app. }
  rewrite !Contains_byte, without_app, H2; unfold without in *; cbn [sforall]; by rewrite P2, P3.
Qed.

(** The two [getClientIP]s on the address of the peer: the same for IPv4, with the
    brackets left on for IPv6 in the handler's. *)
Theorem peer_address r host port (Hf : forwarded_ip r = None) (Hp : plain port) :
  (plain host -> RemoteAddr r = host +:+ ":" +:+ port ->
     HttpServer.getClientIP r = host /\ HttpHandler.getClientIP r = host) /\
  (without "[" host = true -> without "]" host = true -> RemoteAddr r = "[" +:+ host +:+ "]:" +:+ port ->
     HttpServer.getClientIP r = host /\ HttpHandler.getClientIP r = "[" +:+ host +:+ "]").
Proof.
  unfold HttpServer.getClientIP, HttpHandler.getClientIP; rewrite Hf; split.
  - intros Hh ->; rewrite SplitHostPort_plain by done; split; [done|]; destruct Hp as (P1 & _).
    change (":" +:+ port) with (String ":" port); by rewrite (LastIndex_app _ _ _ P1), upto_app.
  - intros H2 H3 ->; rewrite SplitHostPort_bracketed by done; split; [done|]; destruct Hp as (P1 & _).
    replace ("[" +:+ host +:+ "]:" +:+ port) with (("[" +:+ host +:+ "]") +:+ String ":" port) by (by rewrite !app_assoc_str).
    by rewrite (LastIndex_app _ _ _ P1), upto_app.
Qed.

(** ** The allowlist of the admin API *)
Definition parses (entry : string) : bool :=
  if GoStrings.Contains entry "/" then match ParseCIDR entry with Some _ => true | None => false end
  else match ParseIP entry with Some _ => true | None => false end.

Lemma acl_matches allow ip :
  existsb (fun a => IP_Equal a ip) (acl_singleIPs allow) || existsb (fun n => Contains_ n ip) (acl_networks allow) =
  existsb (entry_matches ip) allow.
Proof.
  unfold acl_singleIPs, acl_networks; induction allow as [|entry allow IH]; [done|]; csimpl; rewrite <- IH; unfold entry_matches.
  destruct (GoStrings.Contains entry "/").
  - destruct (ParseCIDR entry); [|done]; csimpl; btauto.
  - destruct (ParseIP entry); [|done]; csimpl; btauto.
Qed.
Lemma acl_empty allow : (llen (acl_networks allow) =? 0) && (llen (acl_singleIPs allow) =? 0) = negb (existsb parses allow).
Proof.
  unfold acl_singleIPs, acl_networks; induction allow as [|entry allow IH]; [done|]; csimpl; unfold parses.
  destruct (GoStrings.Contains entry "/"); [destruct (ParseCIDR entry)|destruct (ParseIP entry)]; try exact IH; simpl;
    unfold llen; simpl; by rewrite ?andb_false_r.
Qed.

Section ACL.
Context {R K : Type} `{SessionRepository R} `{TokenRepository R} `{APIKeyRepository K}.
Context `{Argon2Lib} `{RateLib} `{UlidLib} `{TimeZone}.

(** The middleware lets a client in exactly when the allowlist check of the
    authentication service does, but for a list of which no entry parses: the check
    refuses everyone then, the middleware nobody. *)
Theorem network_acl (allow : list string) (next : Handler (R := R) (K := K)) (r : Request APIKey) x e :
  (existsb parses allow = false -> NetworkACL allow next r x e = next r x e) /\
  (existsb parses allow = true ->
     (checkIPAllowlist [] (HttpServer.getClientIP r) allow = None -> NetworkACL allow next r x e = next r x e) /\
     (forall err, checkIPAllowlist [] (HttpServer.getClientIP r) allow = Some err ->
        exists message, NetworkACL allow next r x e = deny "TM-ADMIN-4031" message x e)).
Proof.
  unfold NetworkACL; rewrite acl_empty; split; [by intros ->|intros Hp; rewrite Hp; cbn [negb]].
  assert ((llen allow =? 0) = false) as Hl by (destruct allow; [done|unfold llen; apply Z.eqb_neq; simpl; lia]).
  unfold checkIPAllowlist; cbn [app]; rewrite Hl; destruct (ParseIP (HttpServer.getClientIP r)) as [ip|]; [|split; eauto; done].
  rewrite <- (acl_matches allow ip); destruct (existsb (fun a => IP_Equal a ip) _); simpl; [by split|].
  destruct (existsb _ (acl_networks allow)); split; eauto; done.
Qed.
End ACL.

(** ** Witnesses *)
Section Demo.
#[local] Instance addr_ulid : UlidLib := fun _ => true.
#[local] Instance addr_zone : TimeZone := fun _ => 0.
#[local] Instance addr_argon2 : Argon2Lib := fun _ _ _ _ _ n => repeat 3 (Z.to_nat n).
#[local] Instance addr_rate : RateLib := {
  Limiter := unit; NewLimiter _ _ := tt; Allow _ l := (true, l); reserve_delay _ l := ("0s", l) }.
Definition demo_peer : Request APIKey := MkRequest "GET" "/admin/v1/keys" "" [] "[2001:db8::1]:4711" [] None None [].

Lemma peer_address_witness :
  HttpServer.getClientIP demo_peer = "2001:db8::1" /\ HttpHandler.getClientIP demo_peer = "[2001:db8::1]".
Proof.
  apply (proj2 (peer_address demo_peer "2001:db8::1" "4711" eq_refl (conj eq_refl (conj eq_refl eq_refl))));
    vm_compute; exact eq_refl.
Defined.

Lemma network_acl_witness (demo := MkExchange (R := Store) (K := APIKeyStore.t)
    (initServices (New 50) APIKeyStore.NewAPIKeyStore) new_writer) (e := Env (fun _ => 0) (fun _ n => Ok []) (fun _ => Ok "")) :
  (exists message, NetworkACL ["10.0.0.0/8"] ServeHTTP demo_peer demo e = deny "TM-ADMIN-4031" message demo e) /\
  NetworkACL ["10.0.0.0/33"] ServeHTTP demo_peer demo e = ServeHTTP demo_peer demo e.
Proof.
  split.
  - apply (proj2 (network_acl ["10.0.0.0/8"] ServeHTTP demo_peer demo e) eq_refl) with
      (err := WithDetails ErrIPNotAllowed "client IP not in allowlist"); vm_compute; exact eq_refl.
  - apply (proj1 (network_acl ["10.0.0.0/33"] ServeHTTP demo_peer demo e)); vm_compute; exact eq_refl.
Defined.
End Demo.
