(* ===== verification/HttpApiSpec.v ===== *)
(** The HTTP API from a client's side: what an answer says, what a created session's
    token is good for, and whom the program lets administer its keys. *)

From Stdlib Require Import Ascii String.
From stdpp Require Import list strings gmap fin_maps.
From S2P Require Import Prelude Errors GoStrings Strconv Encoding Float64 GoTime Json Token.
From S2P Require Import APIKey NetIP.
From S2P Require Import AuthService AuthServiceSpec.
From S2P Require Import Session MemoryStore MemoryStoreFacts MemoryStoreSpec Lru TokenService.
From S2P Require Import SessionService SessionServiceSpec.
From S2P Require Import HttpNet HttpHandler HttpServer.

Open Scope string_scope.
Open Scope Z_scope.

(** ** Headers *)
Lemma assoc_Set name value k w : assoc k (w_header (Set_ name value w)) =
  if String.eqb name k then Some value else assoc k (w_header w).
Proof.
  unfold Set_; simpl; destruct (String.eqb_spec name k) as [->|Hne]; [done|].
  induction (w_header w) as [|[k' v] l IH]; [done|]; simpl.
  destruct (String.eqb_spec k' name) as [->|]; simpl; [rewrite IH|by rewrite IH].
  by rewrite (proj2 (String.eqb_neq name k)).
Qed.

(** ** Answers *)
Section Answers.
Context {R K : Type} `{SessionRepository R} `{TokenRepository R} `{APIKeyRepository K}.
Context `{Argon2Lib} `{RateLib} `{UlidLib} `{TimeZone}.
#[local] Abbreviation Exchange := (HttpHandler.Exchange (R := R) (K := K)).
#[local] Abbreviation Handler := (HttpHandler.Handler (R := R) (K := K)).
#[local] Abbreviation inner := (registerRoutes (R := R) (K := K)).

(** One status with the two headers, and one document, or none when it has no JSON. *)
Definition answered (r : Request APIKey) (w : ResponseWriter) : Prop :=
  exists code hs doc, sent w = Some (code, hs) /\
    assoc "Content-Type" hs = Some "application/json" /\ assoc "X-Request-Id" hs = Some (header r "X-Request-Id") /\
    w_body w = match doc with Some v => print v +:+ chr 10 | None => "" end /\
    (assoc "X-Error-Code" hs = None <-> code = StatusOK \/ code = StatusCreated).
Definition fresh (w : ResponseWriter) : Prop := sent w = None /\ w_body w = "" /\ assoc "X-Error-Code" (w_header w) = None.
Definition unsent (w : ResponseWriter) : Prop := sent w = None /\ w_body w = "".
(** [m] gives the one answer of a response that has none. *)
Definition sends (r : Request APIKey) (m : M Exchange unit) : Prop :=
  hoare (fun x => fresh (writer x)) m (fun _ x => answered r (writer x)).

Lemma sends_bind {A} r (m : M Exchange A) k : preserves (fun x => fresh (writer x)) m -> (forall a, sends r (k a)) -> sends r (bind m k).
Proof. intros Hm Hk; eapply hoare_bind; [exact Hm|exact Hk]. Qed.
(** Sending a status and a document with the headers set so far. *)
Lemma send_answered r status v w : unsent w ->
  assoc "Content-Type" (w_header w) = Some "application/json" ->
  assoc "X-Request-Id" (w_header w) = Some (header r "X-Request-Id") ->
  (assoc "X-Error-Code" (w_header w) = None <-> status = StatusOK \/ status = StatusCreated) ->
  answered r (Encode v (WriteHeader status w)).
Proof.
  intros [Hs Hb] Hct Hid He; exists status, (w_header w), v; destruct w as [hs st body]; simpl in *; subst st body.
  destruct v; split_ands; simpl; first [exact He | done].
Qed.
Lemma writeJSON_sends r status data : status = StatusOK \/ status = StatusCreated -> sends r (writeJSON r status data).
Proof.
  intros Hst x e (Hs & Hb & He); unfold writeJSON, NewResponse, bind, now_milli, time_now, ret, respond, upd_st; cbn [writer set_writer].
  apply send_answered; rewrite ?assoc_Set; cbn; auto; by split.
Qed.
Lemma writeError_sends r status code message : status <> StatusOK -> status <> StatusCreated ->
  sends r (writeError r status code message).
Proof.
  intros Hok Hcr x e (Hs & Hb & He); unfold writeError, NewErrorResponse, bind, now_milli, time_now, ret, respond, upd_st; cbn [writer set_writer].
  apply send_answered; rewrite ?assoc_Set; cbn; auto; [by split|by split; [|intros [?|?]]].
Qed.
Lemma error_status code : errorCodeToHTTPStatus code <> StatusOK /\ errorCodeToHTTPStatus code <> StatusCreated.
Proof. unfold errorCodeToHTTPStatus; repeat case_match; done. Qed.
Lemma handleServiceError_sends r err : sends r (handleServiceError r err).
Proof.
  unfold handleServiceError; destruct (error_status (GetErrorCode err)); case_match; by apply writeError_sends.
Qed.
Lemma answer_sends {A} r status (body : A -> option json) res : status = StatusOK \/ status = StatusCreated ->
  sends r (answer r status body res).
Proof. intros Hst; destruct res; [by apply writeJSON_sends|apply handleServiceError_sends]. Qed.
Lemma bad_body_sends r : sends r (bad_body r).
Proof. by apply writeError_sends. Qed.
Lemma required_sends r what : sends r (required r what).
Proof. by apply writeError_sends. Qed.
Lemma sessions_fresh {A} (m : M R A) : preserves (fun x : Exchange => fresh (writer x)) (in_sessions m).
Proof. intros x e Hx; unfold in_sessions, in_tokens, zoom; by destruct (m _ e) as [[? ?] ?]. Qed.
Lemma auth_fresh {A} (m : M (AuthService K) A) : preserves (fun x : Exchange => fresh (writer x)) (in_auth m).
Proof. intros x e Hx; unfold in_auth, zoom; by destruct (m _ e) as [[? ?] ?]. Qed.
Lemma tokens_fresh {A} (m : M (TokenService R) A) : preserves (fun x : Exchange => fresh (writer x)) (in_tokens m).
Proof. intros x e Hx; unfold in_tokens, zoom; by destruct (m _ e) as [[? ?] ?]. Qed.
Lemma now_text_fresh : preserves (fun x : Exchange => fresh (writer x)) now_text.
Proof. unfold now_text; preserves_tac. Qed.
#[local] Hint Resolve sessions_fresh auth_fresh tokens_fresh now_text_fresh bad_body_sends required_sends handleServiceError_sends : go.

(** [done] of such a sending. *)
Definition panics_or_sends (r : Request APIKey) (m : M Exchange (option unit)) : Prop :=
  hoare (fun x => fresh (writer x)) m (fun res x => res = None \/ answered r (writer x)).
Lemma done_sends r m : sends r m -> panics_or_sends r (done m).
Proof.
  intros Hm x e Hx; unfold done, bind; specialize (Hm x e Hx); destruct (m x e) as [[u x1] e1]; by right.
Qed.
Lemma panics_bind {A} r (m : M Exchange A) k : preserves (fun x => fresh (writer x)) m ->
  (forall a, panics_or_sends r (k a)) -> panics_or_sends r (bind m k).
Proof. intros Hm Hk; eapply hoare_bind; [exact Hm|exact Hk]. Qed.

Ltac sends_step :=
  match goal with
  | |- forall _, _ => intros ?
  | |- sends _ (answer _ _ _ _) => apply answer_sends; unfold StatusOK, StatusCreated; lia
  | |- sends _ (writeJSON _ _ _) => apply writeJSON_sends; unfold StatusOK, StatusCreated; lia
  | |- sends _ (writeError _ _ _ _) => apply writeError_sends; discriminate
  | |- sends _ (bind _ _) => apply sends_bind; [solve [auto with go]|]
  | |- sends _ _ => solve [auto with go]
  | |- panics_or_sends _ (done _) => apply done_sends
  | |- panics_or_sends _ (bind _ _) => apply panics_bind; [solve [auto with go]|]
  | |- panics_or_sends _ (ret None) => intros ? ? _; by left
  | _ => case_goal
  end.

(** C25: One answer: every handler of the API that does not panic sends exactly one response:
    one status, the content type of JSON, at most one document, an error code unless the
    status is 200 or 201, and as request id the one the client sent, empty if it sent none,
    even when the router has generated one. *)
Theorem one_answer p r (Hp : p ∈ inner) : panics_or_sends r (p_handler p r).
Proof.
  unfold registerRoutes in Hp; repeat (apply elem_of_cons in Hp as [->|Hp]; [unfold route; simpl|]); [..|by inv Hp].
  all: unfold handleHealth, handleReady, status_answer, handleListSessions, handleCreateSession, handleGetSession,
    handleTouchSession, handleRenewSession, handleRevokeSession, handleRevokeUserSessions, handleValidateToken,
    handleAdminStatus, handleGCTrigger, handleCreateAPIKey, handleListAPIKeys, handleUpdateAPIKeyStatus, handleRotateAPIKey.
  all: repeat sends_step.
Qed.
End Answers.

(** ** Requests to the handler the program serves *)
Section Serving.
Context {R K : Type} `{SessionRepository R} `{TokenRepository R} `{APIKeyRepository K}.
Context `{Argon2Lib} `{RateLib} `{UlidLib} `{TimeZone}.
#[local] Abbreviation Services := (HttpHandler.Services (R := R) (K := K)).

Definition tick (e : env) : env := Env (fun k => clk e (k + 1)%nat) (rnd e) (ulids e).
(** The text of an answer with data, sent at a time. *)
Definition body_text (r : Request APIKey) (t : Z) (data : option json) : string :=
  match data with
  | Some d => print (envelope "OK" "Success" (header r "X-Request-Id") (unix_milli t) [("data", d)]) +:+ chr 10
  | None => ""
  end.

Lemma writeJSON_run r status data (s : Services) e : exists hs, writeJSON r status data (MkExchange s new_writer) e =
  (tt, MkExchange s (MkWriter hs (Some (status, hs)) (body_text r (clk e 0%nat) data)), tick e).
Proof.
  unfold writeJSON, NewResponse, bind, now_milli, time_now, ret, respond, upd_st; cbn [writer set_writer services].
  eexists; unfold body_text; destruct data; reflexivity.
Qed.
Lemma writeError_run r status code message (s : Services) e : exists hs body,
  writeError r status code message (MkExchange s new_writer) e = (tt, MkExchange s (MkWriter hs (Some (status, hs)) body), tick e).
Proof.
  unfold writeError, NewErrorResponse, bind, now_milli, time_now, ret, respond, upd_st; cbn [writer set_writer services].
  by do 2 eexists.
Qed.
Lemma error_status_range code : 400 <= errorCodeToHTTPStatus code <= 500.
Proof. unfold errorCodeToHTTPStatus; repeat case_match; by vm_compute. Qed.
Lemma handleServiceError_run r err (s : Services) e : exists status hs body, 400 <= status <= 500 /\
  handleServiceError r err (MkExchange s new_writer) e = (tt, MkExchange s (MkWriter hs (Some (status, hs)) body), tick e).
Proof.
  unfold handleServiceError; destruct (IsDomainError err "").
  - destruct (writeError_run r (errorCodeToHTTPStatus (GetErrorCode err)) (GetErrorCode err) (Error err) s e) as (hs & body & Hw).
    exists (errorCodeToHTTPStatus (GetErrorCode err)), hs, body; split; [apply error_status_range|exact Hw].
  - destruct (writeError_run r StatusInternalServerError "TM-SYS-5000" "internal server error" s e) as (hs & body & Hw).
    exists StatusInternalServerError, hs, body; by split.
Qed.
(** How a call of a service is answered. *)
Lemma answer_run {A} r code (body : A -> option json) (res : Res A) (s : Services) e : exists status hs text,
  answer r code body res (MkExchange s new_writer) e = (tt, MkExchange s (MkWriter hs (Some (status, hs)) text), tick e) /\
  match res with
  | Ok a => status = code /\ text = body_text r (clk e 0%nat) (body a)
  | Err _ => 400 <= status <= 500
  end.
Proof.
  destruct res as [a|err]; cbn [answer].
  - destruct (writeJSON_run r code (body a) s e) as (hs & Hw); by exists code, hs, (body_text r (clk e 0%nat) (body a)).
  - destruct (handleServiceError_run r err s e) as (status & hs & text & Hr & Hw); by exists status, hs, text.
Qed.

(** What the server sends of a handler that ends in one answer. *)
Lemma serve_answer (h : Handler (R := R) (K := K)) r (s s' : Services) e e' status hs body :
  h r (MkExchange s new_writer) e = (Some tt, MkExchange s' (MkWriter hs (Some (status, hs)) body), e') ->
  serve h r s e = (Some (status, hs, body), s', e').
Proof. intros Hh; unfold serve, bind at 1, get_st; unfold bind, with_local, upd_st, ret; by rewrite Hh. Qed.
Lemma run_in_sessions {A} (m : M R A) (s : Services) w e a r' e' : m (ts_repo (tokenSvc s)) e = (a, r', e') ->
  in_sessions m (MkExchange s w) e = (a, MkExchange (MkServices (set_ts_repo r' (tokenSvc s)) (authSvc s) (Buckets s)) w, e').
Proof. intros Hm; unfold in_sessions, in_tokens, zoom; cbn; by rewrite Hm. Qed.

(** A request for a route of the table. *)
Definition sent_to (method path : string) (r : Request APIKey) : Prop := Method r = method /\ EscapedPath r = path.
Lemma httpHandler_route (h : Handler (R := R) (K := K)) vs m path r : sent_to m path r ->
  dispatch registerRoutes m path = Found h vs -> httpHandler r = h (with_pathValues vs r).
Proof. intros [<- <-] Hd; unfold httpHandler, ServeHTTP, mux; by rewrite Hd. Qed.

(** C23: The API the program serves asks for no credentials: any request at all to create a key,
    of any role, makes one, and the secret in the answer then authenticates in that role. *)
Theorem open_admin_api `{!APIKeyRepositoryLaws K} `{!Argon2Ok} (r : Request APIKey) (s : Services) (e : env)
    (name role descr : string) (resp : CreateAPIKeyResponse) (a' : AuthService K) (e1 : env) (ip : string)
    (Hr : sent_to "POST" "/admin/v1/keys" r)
    (Hbody : decode_body assign_key (MkKeyBody "" "" "") r = Some (MkKeyBody name role descr))
    (Hname : name <> "") (Hrole : role ∈ validRoles)
    (Hs : auth_ok (authSvc s)) (Hrnd : rnd_ok e) (Hgl : globalAllow (authSvc s) = [])
    (Hcreate : CreateAPIKey name role descr (authSvc s) e = (Ok resp, a', e1))
    (Hcache : items (cache (authSvc s)) !! cresp_KeyID resp = None) :
  exists hs, serve httpHandler r s e =
    (Some (StatusCreated, hs, body_text r (clk e1 0%nat) (new_key_json resp)), MkServices (tokenSvc s) a' (Buckets s), tick e1) /\
  exists key, fst (fst (ValidateAPIKey (MkValidateAPIKeyRequest (cresp_KeyID resp) (cresp_Secret resp) ip) a' e1)) = Ok key /\
    Role key = role.
Proof.
  destruct (fresh_key_authenticates (authSvc s) a' e e1 name role descr resp ip Hs Hrnd Hgl Hcreate Hcache)
    as (_ & _ & _ & _ & _ & _ & Hkey & _).
  edestruct (writeJSON_run (with_pathValues [] r) StatusCreated (new_key_json resp)
    (MkServices (tokenSvc s) a' (Buckets s)) e1) as (hs & Hw).
  exists hs; split; [|exact Hkey]; apply serve_answer.
  rewrite (httpHandler_route handleCreateAPIKey [] _ _ _ Hr) by reflexivity.
  unfold handleCreateAPIKey; change (decode_body assign_key _ (with_pathValues [] r)) with (decode_body assign_key (MkKeyBody "" "" "") r).
  rewrite Hbody; cbn [kb_Name kb_Role kb_Description].
  rewrite (proj2 (String.eqb_neq _ _) Hname), (bool_decide_eq_true_2 _ Hrole); cbn [negb].
  assert (String.eqb role "" = false) as -> by (apply String.eqb_neq; intros ->; by apply (bool_decide_eq_true_2 _) in Hrole).
  unfold done; erewrite bind_run; [reflexivity|].
  erewrite bind_run; [|unfold in_auth, zoom; cbn; rewrite Hcreate; reflexivity].
  exact Hw.
Qed.
End Serving.

(** ** A session's life over HTTP, on the in-memory store *)
Section Login.
Context {K : Type} `{APIKeyRepository K}.
Context `{Argon2Lib} `{RateLib} `{UlidLib} `{TimeZone}.
#[local] Abbreviation Services := (HttpHandler.Services (R := Store) (K := K)).

(** What a client that was answered 201 has made. *)
Lemma created_session (r : Request APIKey) (s s' : Services) e e' hs body
    (Hr : sent_to "POST" "/sessions" r)
    (H201 : serve httpHandler r s e = (Some (StatusCreated, hs, body), s', e')) :
  exists req resp st t e1,
    decode_body assign_create (MkCreateBody "" "" None 0) r = Some req /\
    SessionService.Create (MkCreateRequest (cb_UserID req) (cb_DeviceID req) (cb_Data req)
      (Duration_of (cb_TTLSeconds req) 0) "" "" (HttpHandler.getClientIP r) (UserAgent_ r)) (ts_repo (tokenSvc s)) e = (Ok resp, st, e1) /\
    s' = MkServices (set_ts_repo st (tokenSvc s)) (authSvc s) (Buckets s) /\
    body = body_text r t (created_json resp).
Proof.
  revert H201; unfold serve, bind at 1, get_st; unfold bind, with_local, upd_st.
  rewrite (httpHandler_route handleCreateSession [] _ _ _ Hr) by reflexivity.
  unfold handleCreateSession; change (decode_body assign_create ?z (with_pathValues [] r)) with (decode_body assign_create z r).
  unfold done; destruct (decode_body assign_create _ r) as [req|] eqn:Eb.
  - unfold bind at 1; unfold bind at 1.
    set (q := MkCreateRequest _ _ _ _ _ _ _ _).
    destruct (SessionService.Create q (ts_repo (tokenSvc s)) e) as [[res st] e1] eqn:Ec.
    erewrite run_in_sessions by exact Ec; destruct res as [resp|err].
    + destruct (writeJSON_run (with_pathValues [] r) StatusCreated (created_json resp)
        (MkServices (set_ts_repo st (tokenSvc s)) (authSvc s) (Buckets s)) e1) as (hs' & Hw).
      cbn [answer]; rewrite Hw; intros [= <- <- <- <-]; by eexists req, resp, st, _, e1.
    + destruct (handleServiceError_run (with_pathValues [] r) err
        (MkServices (set_ts_repo st (tokenSvc s)) (authSvc s) (Buckets s)) e1) as (status & hs' & body' & Hrange & Hw).
      cbn [answer]; rewrite Hw; intros [= -> ? ? ? ?]; unfold StatusCreated in Hrange; lia.
  - unfold bind at 1; destruct (writeError_run (with_pathValues [] r) StatusBadRequest "TM-SYS-4000" "invalid request body" s e) as (hs' & body' & Hw).
    unfold bad_body; rewrite Hw; intros [=].
Qed.

(** C22: A login over HTTP: of a request that was answered 201, the token in the answer is
    reported valid, for the session and the user it was created for, by any later request
    to validate it while the clock has not passed the expiry. *)
Theorem token_over_http (r1 r2 : Request APIKey) (s s' : Services) (e e' e2 : env) hs body
    (Hr1 : sent_to "POST" "/sessions" r1) (Hs : Inv (ts_repo (tokenSvc s))) (Hrnd : rnd_ok e)
    (H201 : serve httpHandler r1 s e = (Some (StatusCreated, hs, body), s', e')) :
  exists req resp t, decode_body assign_create (MkCreateBody "" "" None 0) r1 = Some req /\
    body = body_text r1 t (created_json resp) /\ UserID (cr_Session resp) = cb_UserID req /\
    (sent_to "POST" "/tokens/validate" r2 ->
     decode_body assign_validate ("", false) r2 = Some (cr_Token resp, false) ->
     (forall k, unix_milli (clk e2 k) <= cr_ExpiresAt resp) ->
     exists hs2 t2 e3, serve httpHandler r2 s' e2 =
       (Some (StatusOK, hs2, body_text r2 t2 (valid_json true (cr_Session resp))), s', e3)).
Proof.
  destruct (created_session _ _ _ _ _ _ _ Hr1 H201) as (req & resp & st & t & e1 & Hb & Hc & -> & ->).
  exists req, resp, t; split; [done|]; split; [done|].
  pose proof (fun q => Create_stored (R := Store) q (ts_repo (tokenSvc s)) e (Ok resp) st e1) as Hst0.
  destruct (Hst0 _ Hs Hrnd Hc) as [Hst (_ & Hput & Hid & Hexp & Hf & Ht & Hu & _ & Hd)].
  split; [exact Hu|]; intros Hr2 Hb2 Hclock.
  destruct (stored_token_validates st (cr_Session resp) (cr_Token resp) (nonceCache (tokenSvc s)) (timestampWindow (tokenSvc s)) e2)
    as (e3 & Hv); auto; [cbn in Hput; by rewrite Hput, lookup_insert_eq|by rewrite Hexp|].
  set (s1 := MkServices _ _ _).
  edestruct (writeJSON_run (with_pathValues [] r2) StatusOK (valid_json true (cr_Session resp)) s1 e3) as (hs2 & Hw).
  exists hs2, (clk e3 0%nat), (tick e3); apply serve_answer.
  rewrite (httpHandler_route handleValidateToken [] _ _ _ Hr2) by reflexivity.
  unfold handleValidateToken; change (decode_body assign_validate ?z (with_pathValues [] r2)) with (decode_body assign_validate z r2).
  rewrite Hb2; cbn [fst snd].
  assert (cr_Token resp <> "") as Hne by (intros E; by rewrite E in Hf).
  rewrite (proj2 (String.eqb_neq _ _) Hne).
  erewrite bind_run; [|unfold in_tokens, zoom; cbn [services tokenSvc s1];
    change (TokenService.Validate ?q) with (TokenService.Validate (token_request (cr_Token resp))); unfold set_ts_repo; rewrite Hv; reflexivity].
  cbn [resp_Session]; unfold done; erewrite bind_run; [reflexivity|exact Hw].
Qed.
End Login.

(** ** Witnesses *)
Section Demo.
#[local] Instance demo_ulid : UlidLib := fun _ => true.
#[local] Instance demo_zone : TimeZone := fun _ => 0.
#[local] Instance demo_argon2 : Argon2Lib := fun p _ _ _ _ n => repeat (Z.of_nat (length p) mod 256) (Z.to_nat n).
#[local] Instance demo_argon2_ok : Argon2Ok.
Proof.
  intros p s t m th n Hn; unfold argon2_IDKey, demo_argon2, llen; rewrite repeat_length; split; [lia|].
  apply Forall_forall; intros x Hx%list_elem_of_In%repeat_spec; subst; unfold is_byte; apply Z.mod_pos_bound; lia.
Qed.
#[local] Instance demo_rate : RateLib := {
  Limiter := unit; NewLimiter _ _ := tt; Allow _ l := (true, l); reserve_delay _ l := ("0s", l) }.
Definition demo_env : env :=
  Env (fun _ => 5000000000) (fun _ n => Ok (repeat 7 n)) (fun _ => Ok "01ARZ3NDEKTSV4RRFFQ69G5FAV").
Lemma demo_rnd_ok : rnd_ok demo_env.
Proof.
  intros k n b [= <-]; split; [apply repeat_length|].
  apply Forall_forall; intros x Hx%list_elem_of_In%repeat_spec; subst; unfold is_byte; lia.
Qed.
Definition demo_services : Services (R := Store) (K := APIKeyStore.t) := initServices (New 50) APIKeyStore.NewAPIKeyStore.
Definition demo_post (path : string) (body : list (string * string)) : Request APIKey :=
  MkRequest "POST" path "" [] "192.0.2.1:4711"
    (to_bytes (print (JObj (map (fun kv => (fst kv, JStr (snd kv))) body)))) None None [].

Lemma one_answer_witness :
  panics_or_sends (demo_post "/sessions" []) (handleCreateSession (R := Store) (K := APIKeyStore.t) (demo_post "/sessions" [])).
Proof.
  apply (one_answer (R := Store) (K := APIKeyStore.t) (route "POST /sessions" handleCreateSession) (demo_post "/sessions" [])).
  apply (list_elem_of_lookup_2 _ 3); exact eq_refl.
Defined.

Definition demo_new_key : Request APIKey := demo_post "/admin/v1/keys" [("name", "ops"); ("role", "admin")].
Lemma open_admin_api_witness :
  match CreateAPIKey "ops" RoleAdmin "" (authSvc demo_services) demo_env with
  | (Ok resp, a', e1) => exists hs, serve httpHandler demo_new_key demo_services demo_env =
      (Some (StatusCreated, hs, body_text demo_new_key (clk e1 0%nat) (new_key_json resp)),
       MkServices (tokenSvc demo_services) a' (Buckets demo_services), tick e1) /\
      exists key, fst (fst (ValidateAPIKey (MkValidateAPIKeyRequest (cresp_KeyID resp) (cresp_Secret resp) "10.9.8.7") a' e1)) = Ok key /\
        Role key = RoleAdmin
  | _ => False
  end.
Proof.
  assert (is_ok (fst (fst (CreateAPIKey "ops" RoleAdmin "" (authSvc demo_services) demo_env))) = true) as Hok
    by (vm_compute; exact eq_refl).
  assert (decode_body assign_key (MkKeyBody "" "" "") demo_new_key = Some (MkKeyBody "ops" RoleAdmin "")) as Hb
    by (vm_compute; exact eq_refl).
  destruct (CreateAPIKey "ops" RoleAdmin "" (authSvc demo_services) demo_env) as [[[resp|err] a'] e1] eqn:E; [|discriminate Hok].
  apply (open_admin_api demo_new_key demo_services demo_env "ops" RoleAdmin "" resp a' e1 "10.9.8.7" (conj eq_refl eq_refl) Hb).
  - discriminate.
  - by apply (bool_decide_eq_true_1 (RoleAdmin ∈ validRoles)).
  - intros id k Hk; discriminate Hk.
  - exact demo_rnd_ok.
  - exact eq_refl.
  - exact E.
  - exact (lookup_empty _).
Defined.

Definition demo_create : Request APIKey := demo_post "/sessions" [("user_id", "alice")].
Definition demo_token : string := "tmtk_" +:+ b64url_encode (repeat 7 32).
Definition demo_check : Request APIKey := demo_post "/tokens/validate" [("token", demo_token)].
Lemma token_over_http_witness :
  match serve httpHandler demo_create demo_services demo_env with
  | (Some (201, hs, body), s', e') => exists req resp t,
      decode_body assign_create (MkCreateBody "" "" None 0) demo_create = Some req /\
      body = body_text demo_create t (created_json resp) /\ UserID (cr_Session resp) = cb_UserID req /\
      (sent_to "POST" "/tokens/validate" demo_check ->
       decode_body assign_validate ("", false) demo_check = Some (cr_Token resp, false) ->
       (forall k, unix_milli (clk demo_env k) <= cr_ExpiresAt resp) ->
       exists hs2 t2 e3, serve httpHandler demo_check s' demo_env =
         (Some (StatusOK, hs2, body_text demo_check t2 (valid_json true (cr_Session resp))), s', e3))
  | _ => False
  end.
Proof.
  assert (match fst (fst (serve httpHandler demo_create demo_services demo_env)) with
          | Some (status, _, _) => status = 201 | None => False end) as H201 by (vm_compute; exact eq_refl).
  destruct (serve httpHandler demo_create demo_services demo_env) as [[[[[status hs] body]|] s'] e'] eqn:E; cbn in H201; [|done].
  subst status; apply (token_over_http demo_create demo_check demo_services s' demo_env e' demo_env hs body);
    [by split|apply Inv_New|exact demo_rnd_ok|exact E].
Defined.
End Demo.
