(* ===== verification/Logger.v ===== *)
(** The logger, [internal/telemetry/logger]: levels, the redaction of attributes, and the
    identifiers a context carries into the records.

    An attribute is a key and a value; a value is a string, a group of attributes, or
    anything else, which is passed on as it is.  The formats and the output are
    [log/slog]'s, which hands every attribute, the message too, to [redactSensitive]. *)

From Stdlib Require Import Ascii String.
From stdpp Require Import list strings.
From S2P Require Import Prelude GoStrings.

Open Scope string_scope.
Open Scope Z_scope.

Definition sensitiveValuePrefixes : list string := ["tmtk_"; "tmas_"].
Definition sensitiveKeyPatterns : list string := ["password"; "secret"; "token"; "key"; "credential"; "auth"; "bearer"].
Definition redactedValue : string := "***REDACTED***".

(** The prefix, and three bytes from either end of a longer body. *)
Definition maskValue (value prefix : string) : string :=
  if slen value <=? slen prefix + 6 then prefix +:+ "***"
  else
    let body := from (String.length prefix) value in
    if 6 <? slen body then prefix +:+ upto 3 body +:+ "..." +:+ from (String.length body - 3) body
    else prefix +:+ "***".

Fixpoint first_prefix (prefixes : list string) (s : string) : option string :=
  match prefixes with
  | [] => None
  | p :: prefixes => if HasPrefix s p then Some p else first_prefix prefixes s
  end.
Definition IsSensitiveKey (key : string) : bool := existsb (Contains (ToLower key)) sensitiveKeyPatterns.
Definition IsSensitiveValue (value : string) : bool := existsb (HasPrefix value) sensitiveValuePrefixes.

#[warnings="-register-all"]
Inductive value := VString (s : string) | VGroup (attrs : list (string * value)) | VOther (text : string).
Definition attr : Type := string * value.

Definition redact_string (key s : string) : string :=
  match first_prefix sensitiveValuePrefixes s with
  | Some prefix => maskValue s prefix
  | None => if IsSensitiveKey key && negb (String.eqb s "") then redactedValue else s
  end.
Fixpoint redact_value (key : string) (v : value) : value :=
  match v with
  | VString s => VString (redact_string key s)
  | VGroup attrs => VGroup (map (fun a => (fst a, redact_value (fst a) (snd a))) attrs)
  | VOther text => VOther text
  end.
Definition redactSensitive (a : attr) : attr := (fst a, redact_value (fst a) (snd a)).

Definition redactAttr (a : attr) : attr :=
  match snd a with
  | VString s => if String.eqb s "" then a else (fst a, VString redactedValue)
  | _ => a
  end.

Definition RedactString (s : string) : string :=
  match first_prefix sensitiveValuePrefixes s with
  | Some prefix => maskValue s prefix
  | None =>
      if HasPrefix s "tm" && Contains s "_" then
        match Index s "_" with
        | Some idx => if (0 <? Z.of_nat idx) && (Z.of_nat idx <? 10) then maskValue s (upto (idx + 1) s) else s
        | None => s
        end
      else s
  end.

(** ** Levels, as [log/slog] numbers them *)
Definition LevelDebug : Z := -4.
Definition LevelInfo : Z := 0.
Definition LevelWarn : Z := 4.
Definition LevelError : Z := 8.
Definition parseLevel (level : string) : Z :=
  let l := ToLower level in
  if String.eqb l "debug" then LevelDebug
  else if String.eqb l "info" then LevelInfo
  else if String.eqb l "warn" || String.eqb l "warning" then LevelWarn
  else if String.eqb l "error" then LevelError
  else LevelInfo.

(** The state is the level all loggers share. *)
Definition SetLevel {T} (level : string) : M (Z * T) unit := upd_st (fun s => (parseLevel level, snd s)).
Definition GetLevel {T} : M (Z * T) string :=
  s <- get_st ;;
  ret (if fst s =? LevelDebug then "debug" else if fst s =? LevelInfo then "info"
       else if fst s =? LevelWarn then "warn" else if fst s =? LevelError then "error" else "info").

(** A logger is the attributes it adds to every record; the second part of the state is
    what has been written. *)
Definition record : Type := Z * list attr.
Definition logger : Type := list attr.
Definition With (attrs : list attr) (l : logger) : logger := (l ++ attrs)%list.
Definition log (level : Z) (msg : string) (attrs : list attr) (l : logger) : M (Z * list record) unit :=
  upd_st (fun s => if fst s <=? level
                   then (fst s, (snd s ++ [(level, map redactSensitive (("msg", VString msg) :: l ++ attrs))])%list)
                   else s).
Definition Debug := log LevelDebug.
Definition Info := log LevelInfo.
Definition Warn := log LevelWarn.
Definition Error := log LevelError.

(** ** Contexts *)
Record Context := MkContext { ctx_logger : option logger; ctx_request_id : option string; ctx_trace_id : option string }.
Definition WithLogger (l : logger) (c : Context) : Context := MkContext (Some l) (ctx_request_id c) (ctx_trace_id c).
Definition WithRequestID (id : string) (c : Context) : Context := MkContext (ctx_logger c) (Some id) (ctx_trace_id c).
Definition WithTraceID (id : string) (c : Context) : Context := MkContext (ctx_logger c) (ctx_request_id c) (Some id).
Definition FromContext (default_ : logger) (c : Context) : logger := default default_ (ctx_logger c).
Definition RequestIDFromContext (c : Context) : string := default "" (ctx_request_id c).
Definition TraceIDFromContext (c : Context) : string := default "" (ctx_trace_id c).
Definition L (default_ : logger) (c : Context) : logger :=
  let l := FromContext default_ c in
  let l := if String.eqb (RequestIDFromContext c) "" then l else With [("request_id", VString (RequestIDFromContext c))] l in
  if String.eqb (TraceIDFromContext c) "" then l else With [("trace_id", VString (TraceIDFromContext c))] l.

(** ** What a record gives away *)

(** Two strings under a key that redaction makes equal: the same; tokens of the same
    kind with the same three bytes at either end, or both too short to show any; or, when
    the key is a sensitive one, any two that are not empty and no tokens. *)
Definition alike (key s t : string) : Prop :=
  s = t \/
  (exists p a b m n, p ∈ sensitiveValuePrefixes /\ String.length a = 3%nat /\ String.length b = 3%nat /\
     m <> "" /\ n <> "" /\ s = p +:+ a +:+ m +:+ b /\ t = p +:+ a +:+ n +:+ b) \/
  (exists p m n, p ∈ sensitiveValuePrefixes /\ slen m <= 6 /\ slen n <= 6 /\ s = p +:+ m /\ t = p +:+ n) \/
  (IsSensitiveKey key = true /\ s <> "" /\ t <> "" /\ IsSensitiveValue s = false /\ IsSensitiveValue t = false).
#[warnings="-register-all"]
Inductive value_alike : string -> value -> value -> Prop :=
| alike_string key s t : alike key s t -> value_alike key (VString s) (VString t)
| alike_other key text : value_alike key (VOther text) (VOther text)
| alike_group key l l' : Forall2 (fun a b => fst a = fst b /\ value_alike (fst a) (snd a) (snd b)) l l' ->
    value_alike key (VGroup l) (VGroup l').

Lemma first_prefix_own p s : p ∈ sensitiveValuePrefixes -> first_prefix sensitiveValuePrefixes (p +:+ s) = Some p.
Proof.
  unfold sensitiveValuePrefixes; rewrite !elem_of_cons; intros [->|[->|Hp]]; [by destruct s..|by inv Hp].
Qed.
Lemma first_prefix_none s : IsSensitiveValue s = false -> first_prefix sensitiveValuePrefixes s = None.
Proof.
  unfold IsSensitiveValue; induction sensitiveValuePrefixes as [|p l IH]; [done|]; simpl.
  by destruct (HasPrefix s p).
Qed.
Lemma maskValue_short p m : slen m <= 6 -> maskValue (p +:+ m) p = p +:+ "***".
Proof. intros Hm; unfold maskValue; rewrite slen_app; by rewrite (proj2 (Z.leb_le _ _)) by lia. Qed.
Lemma maskValue_long p a m b : String.length a = 3%nat -> String.length b = 3%nat -> m <> "" ->
  maskValue (p +:+ a +:+ m +:+ b) p = p +:+ a +:+ "..." +:+ b.
Proof.
  intros Ha Hb Hm; assert (0 < String.length m)%nat as Hl by (destruct m; [done|simpl; lia]).
  unfold maskValue; rewrite !slen_app; unfold slen; rewrite Ha, Hb, (proj2 (Z.leb_gt _ _)) by lia.
  rewrite from_app, !length_app_str, Ha, Hb, (proj2 (Z.ltb_lt _ _)) by lia.
  replace (upto 3 (a +:+ m +:+ b)) with a by (rewrite <- Ha; by rewrite upto_app).
  replace (3 + (String.length m + 3) - 3)%nat with (String.length (a +:+ m)) by (rewrite length_app_str; lia).
  by rewrite <- (app_assoc_str a m b), from_app.
Qed.
Lemma redact_alike key s t : alike key s t -> redact_string key s = redact_string key t.
Proof.
  intros [->|[(p & a & b & m & n & Hp & Ha & Hb & Hm & Hn & -> & ->)|[(p & m & n & Hp & Hm & Hn & -> & ->)|
    (Hk & Hs & Ht & Vs & Vt)]]]; [done|..]; unfold redact_string.
  - by rewrite !first_prefix_own, !maskValue_long.
  - by rewrite !first_prefix_own, !maskValue_short.
  - rewrite !first_prefix_none, Hk by done; by rewrite (proj2 (String.eqb_neq s _) Hs), (proj2 (String.eqb_neq t _) Ht).
Qed.

Lemma redactSensitive_alike : forall key v w, value_alike key v w -> redactSensitive (key, v) = redactSensitive (key, w).
Proof.
  unfold redactSensitive; simpl; intros key v w Hv; f_equal; revert key v w Hv.
  fix IH 4; intros key v w Hv; destruct Hv as [key s t Hst|key text|key l l' Hl]; simpl; [f_equal; by apply redact_alike|done|].
  f_equal; induction Hl as [|a b l l' [Hf Ha] Hl IHl]; simpl; [done|]; rewrite IHl, <- Hf; f_equal; f_equal; by apply IH.
Qed.

(** ** The other way round: nothing else is made equal *)
Lemma app_inj_length a b c d : String.length a = String.length c -> a +:+ b = c +:+ d -> a = c /\ b = d.
Proof.
  intros Hl He; split; [rewrite <- (upto_app a b), <- (upto_app c d)|rewrite <- (from_app a b), <- (from_app c d)]; by rewrite Hl, He.
Qed.
Lemma prefix_length p : p ∈ sensitiveValuePrefixes -> String.length p = 5%nat.
Proof. unfold sensitiveValuePrefixes; rewrite !elem_of_cons; intros [->|[->|Hp]]; [done..|by inv Hp]. Qed.
Lemma token_sensitive p m : p ∈ sensitiveValuePrefixes -> IsSensitiveValue (p +:+ m) = true.
Proof. intros Hp; apply existsb_exists; exists p; split; [by apply list_elem_of_In|apply prefix_split; by exists m]. Qed.
Lemma IsSensitiveValue_token s : IsSensitiveValue s = true -> exists p m, p ∈ sensitiveValuePrefixes /\ s = p +:+ m.
Proof. intros (p & Hp & [m ->]%prefix_split)%existsb_exists; exists p, m; split; [by apply list_elem_of_In|done]. Qed.
Lemma long_body b : 6 < slen b ->
  exists a m c, String.length a = 3%nat /\ String.length c = 3%nat /\ m <> "" /\ b = a +:+ m +:+ c.
Proof.
  unfold slen; intros Hb; set (r := from 3 b); assert (String.length r = String.length b - 3)%nat as Hr by apply length_from.
  exists (upto 3 b), (upto (String.length r - 3) r), (from (String.length r - 3) r); split_ands.
  - apply length_upto; lia.
  - rewrite length_from; lia.
  - intros E; pose proof (length_upto (String.length r - 3) r ltac:(lia)) as Hu; rewrite E in Hu; simpl in Hu; lia.
  - by rewrite upto_from; subst r; rewrite upto_from.
Qed.

(** What is left of a string. *)
Lemma redact_cases key s :
  (exists p m, p ∈ sensitiveValuePrefixes /\ slen m <= 6 /\ s = p +:+ m /\ redact_string key s = p +:+ "***") \/
  (exists p a m b, p ∈ sensitiveValuePrefixes /\ String.length a = 3%nat /\ String.length b = 3%nat /\ m <> "" /\
     s = p +:+ a +:+ m +:+ b /\ redact_string key s = p +:+ a +:+ "..." +:+ b) \/
  (IsSensitiveValue s = false /\ IsSensitiveKey key = true /\ s <> "" /\ redact_string key s = redactedValue) \/
  (IsSensitiveValue s = false /\ (IsSensitiveKey key = true -> s = "") /\ redact_string key s = s).
Proof.
  unfold redact_string; destruct (IsSensitiveValue s) eqn:Hs.
  - destruct (IsSensitiveValue_token s Hs) as (p & m & Hp & ->); rewrite first_prefix_own by done.
    destruct (Z.le_gt_cases (slen m) 6) as [Hm|Hm].
    + left; exists p, m; split_ands; try done; by apply maskValue_short.
    + right; left; destruct (long_body m) as (a & c & b & Ha & Hb & Hc & ->); [lia|].
      exists p, a, c, b; split_ands; try done; by apply maskValue_long.
  - right; right; rewrite first_prefix_none by done; destruct (IsSensitiveKey key); [|by right].
    destruct (String.eqb_spec s ""); [right|left]; done.
Qed.
Lemma redact_alike_inv key s t : redact_string key s = redact_string key t -> alike key s t.
Proof.
  intros He.
  destruct (redact_cases key s) as [(p & m & Hp & Hm & -> & E)|[(p & a & m & b & Hp & Ha & Hb & Hm & -> & E)|[(Hs & Hk & Hn & E)|(Hs & Hk & E)]]];
  destruct (redact_cases key t) as [(q & n & Hq & Hn' & -> & F)|[(q & c & n & d & Hq & Hc & Hd & Hn' & -> & F)|[(Ht & Hk' & Hn' & F)|(Ht & Hk' & F)]]];
    rewrite E, F in He; clear E F.
  all: try (exfalso; subst s; by rewrite token_sensitive in Hs).
  all: try (exfalso; subst t; by rewrite token_sensitive in Ht).
  all: try (exfalso; assert (IsSensitiveValue redactedValue = false) as Hr by done; first [rewrite <- He in Hr|rewrite He in Hr]; by rewrite token_sensitive in Hr).
  all: try (apply app_inj_length in He as [<- He]; [|by rewrite !prefix_length]).
  - right; right; left; by exists p, m, n.
  - exfalso; apply (f_equal String.length) in He; rewrite !length_app_str, Hc, Hd in He; simpl in He; lia.
  - exfalso; apply (f_equal String.length) in He; rewrite !length_app_str, Ha, Hb in He; simpl in He; lia.
  - right; left; apply app_inj_length in He as [<- He]; [|by rewrite Ha, Hc]; apply app_inj_length in He as [_ <-]; [|done].
    by exists p, a, b, m, n.
  - right; right; right; by split_ands.
  - exfalso; rewrite <- He in Hk'; by specialize (Hk' Hk).
  - exfalso; rewrite He in Hk; by specialize (Hk Hk').
  - by left.
Qed.
Definition attrs_alike : list attr -> list attr -> Prop :=
  Forall2 (fun a b => fst a = fst b /\ value_alike (fst a) (snd a) (snd b)).
Lemma redact_value_inv : forall key v w, redact_value key v = redact_value key w -> value_alike key v w.
Proof.
  fix IH 2; intros key v w; destruct v as [s|l|x], w as [t|l'|y]; simpl; try discriminate.
  - intros [= He]; apply alike_string; by apply redact_alike_inv.
  - intros [= He]; apply alike_group; revert l' He; induction l as [|[k v] l IHl]; intros [|[k' w] l']; simpl; try discriminate; [constructor|].
    intros [= <- Hv Hl]; constructor; [split; [done|]; by apply IH|by apply IHl].
  - intros [= ->]; apply alike_other.
Qed.
Lemma redact_attrs l l' : map redactSensitive l = map redactSensitive l' <-> attrs_alike l l'.
Proof.
  split.
  - revert l'; induction l as [|[k v] l IH]; intros [|[k' w] l']; simpl; try discriminate; [constructor|].
    intros [= <- Hv Hl]; constructor; [split; [done|]; by apply redact_value_inv|by apply IH].
  - induction 1 as [|[k v] [k' w] l l' [Hk Hv] Hl IH]; [done|]; cbn [map]; cbn in Hk, Hv; subst k'.
    by rewrite IH, (redactSensitive_alike k v w).
Qed.

(** C30: Exactly what a call of the logger gives away: two calls leave the same records if
    nothing is written at their level, or else just when their messages and attributes agree, at
    every depth, but for this.  Of a string that starts with [tmtk_] or [tmas_] the kind and three
    bytes from either end are shown, and of one of at most six bytes only the kind; a string under
    a sensitive key shows only whether it is empty.  Everything else is shown in full: tokens
    further inside a string, hashes of tokens ([tmth_]), values that are not strings. *)
Theorem redaction_hides (level : Z) (m n : string) (l : logger) (attrs attrs' : list attr) (s : Z * list record) (e : env) :
  log level m attrs l s e = log level n attrs' l s e <-> level < fst s \/ (alike "msg" m n /\ attrs_alike attrs attrs').
Proof.
  unfold log, upd_st, record in *; destruct (Z.leb_spec (fst s) level) as [Hl|Hl]; [|split; [by left|done]].
  rewrite <- redact_attrs; cbn [map]; rewrite !map_app; split.
  - intros [= He]; right; apply app_inv_head in He; injection He as Hm Ha; apply app_inv_head in Ha; split; [by apply redact_alike_inv|done].
  - intros [|[Hm ->]]; [lia|]; by rewrite (redactSensitive_alike _ _ _ (alike_string _ _ _ Hm)).
Qed.
(** Shown: bytes of the token itself, a token inside a message, the hash of a token. *)
Example redaction_shows :
  map (fun '(k, s) => redact_string k s)
    [("id", "tmtk_AbCdEfGhIjK"); ("id", "tmtk_AbCdEf"); ("msg", "bad token tmtk_AbCdEfGhIjK"); ("hash", "tmth_00ff"); ("api_key", "tmth_00ff")] =
    ["tmtk_AbC...IjK"; "tmtk_***"; "bad token tmtk_AbCdEfGhIjK"; "tmth_00ff"; "***REDACTED***"].
Proof. reflexivity. Qed.
Lemma redaction_hides_witness :
  let attrs t := [("user", VString "alice"); ("headers", VGroup [("Authorization", VString ("Bearer " +:+ t)); ("id", VString ("tmtk_" +:+ t))])] in
  log LevelInfo "login" (attrs "AbCdEfGhIjK") [] (LevelInfo, []) (Env (fun _ => 0) (fun _ _ => Ok []) (fun _ => Ok "")) =
  log LevelInfo "login" (attrs "AbCxxxxIjK") [] (LevelInfo, []) (Env (fun _ => 0) (fun _ _ => Ok []) (fun _ => Ok "")).
Proof.
  intros attrs; apply (redaction_hides LevelInfo "login" "login" [] (attrs "AbCdEfGhIjK") (attrs "AbCxxxxIjK")); right; split; [by left|].
  constructor; [split; [done|]; apply alike_string; by left|constructor; [split; [done|]|constructor]].
  apply alike_group; constructor; [split; [done|]; apply alike_string|constructor; [split; [done|]; apply alike_string|constructor]].
  - right; right; right; repeat split; try discriminate; exact eq_refl.
  - right; left; exists "tmtk_", "AbC", "IjK", "dEfGh", "xxxx"; repeat split; try discriminate; by left.
Defined.
