(* ===== verification/CliOutput.v ===== *)
(** What the command line client shows: [internal/cli/output].

    A value given to a formatter is what [reflect] sees of it: its kind, and its parts.
    The fields of a struct come with their names and tags, the entries of a map in the
    order of the iteration. *)

From Stdlib Require Import Ascii String SpecFloat.
From stdpp Require Import list strings gmap fin_maps.
From S2P Require Import Prelude Errors GoStrings Strconv Float64 Json.

Open Scope string_scope.
Open Scope Z_scope.

(** ** Numbers *)

(** [num/den] to the nearest integer, to even at a tie. *)
Definition round_even (num den : Z) : Z :=
  let q := num / den in
  let r := num mod den in
  if 2 * r <? den then q else if den <? 2 * r then q + 1 else if Z.even q then q else q + 1.
(** [%.<d>f] of a double: its exact value, rounded; it has up to 309 digits before the point. *)
Definition fixed_text (d : Z) (x : float64) : string :=
  let digits (neg : bool) (n : Z) : string :=
    (if neg then "-" else "") +:+ print_digits 310 (n / 10 ^ d) "" +:+
    (if d =? 0 then "" else let f := print_digits 20 (n mod 10 ^ d) "" in "." +:+ zeros (Z.to_nat d - String.length f) +:+ f) in
  match x with
  | S754_zero neg => digits neg 0
  | S754_finite neg m e =>
      digits neg (if 0 <=? e then Z.pos m * 2 ^ e * 10 ^ d else round_even (Z.pos m * 10 ^ d) (2 ^ (- e)))
  | S754_infinity neg => if neg then "-Inf" else "+Inf"
  | S754_nan => "NaN"
  end.

(** [strconv.ParseFloat] of a JSON number: the nearest double to a decimal; [None] is
    out of range.  The quotient keeps at least 64 bits, and a last one for the rest. *)
Definition f64_quotient (neg : bool) (num den : Z) : float64 :=
  let s := Z.max 0 (66 + Z.log2 den - Z.log2 num) in
  let q := 2 * (num * 2 ^ s / den) + (if num * 2 ^ s mod den =? 0 then 0 else 1) in
  binary_normalize f64_prec f64_emax (if neg then - q else q) (- s - 1) neg.
Definition split_at (c : ascii) (s : string) : string * string :=
  match SplitN2 s c with [a; b] => (a, b) | _ => (s, "") end.
Definition ParseFloat (lit : string) : option float64 :=
  let '(neg, s) := match lit with String "-" s => (true, s) | _ => (false, lit) end in
  let '(mant, exp) := if Contains s "e" then split_at "e" s else split_at "E" s in
  let '(ip, fp) := split_at "." mant in
  let n := default 0 (parse_digits (ip +:+ fp) 0) in
  let e := match exp with
           | "" => 0
           | String "-" ds => - default 0 (parse_digits ds 0)
           | String "+" ds => default 0 (parse_digits ds 0)
           | ds => default 0 (parse_digits ds 0)
           end - slen fp in
  let x :=
    if n =? 0 then S754_zero neg
    (* far outside the range of exponents the answer is known *)
    else if 400 + slen mant <? e then S754_infinity neg
    else if e <? - 400 - slen mant then S754_zero neg
    else if 0 <=? e then f64_quotient neg (n * 10 ^ e) 1
    else f64_quotient neg n (10 ^ (- e)) in
  match x with S754_infinity _ => None | x => Some x end.

Example fixed_rounds : fixed_text 2 (f64_quotient false 1005 1000) = "1.00" /\ fixed_text 2 (f64_quotient true 5 2) = "-2.50" /\
  fixed_text 2 (f64_of_Z 1731000000000) = "1731000000000.00" /\ fixed_text 0 (f64_quotient false 5 2) = "2".
Proof. vm_compute; auto. Qed.
Example parse_float : option_map (fixed_text 3) (ParseFloat "-12.5e1") = Some "-125.000" /\ ParseFloat "1e309" = None /\
  ParseFloat "5e-324" = Some (S754_finite false 1 (-1074)) /\ ParseFloat "1e-1000000000" = Some (S754_zero false) /\
  ParseFloat "0.1" = Some (S754_finite false 7205759403792794 (-56)).
Proof. vm_compute; auto. Qed.

(** ** Tables *)
Record Table := MkTable { Headers : list string; Rows : list (list string) }.
Definition AddRow (cells : list string) (t : Table) : Table := MkTable (Headers t) (Rows t ++ [cells]).
Definition SetHeaders (headers : list string) (t : Table) : Table := MkTable headers (Rows t).

(** What the table writes to the [tabwriter]: cells with tabs between them. *)
Definition line_text (cells : list string) : string := Join cells (chr 9) +:+ chr 10.
Definition table_text (t : Table) (noHeaders : bool) : string :=
  (if negb noHeaders && (0 <? llen (Headers t)) then line_text (Headers t) else "") +:+
  String.concat "" (map line_text (Rows t)).

(** *** [text/tabwriter], with padding 2 and no minimal width, alignment or flags *)

(** The number of runes; a byte that is no UTF-8 counts as one. *)
Fixpoint RuneCount (s : string) : nat :=
  match s with
  | EmptyString => O
  | String a s1 =>
      if ascii_Z a <? 128 then S (RuneCount s1)
      else match utf8_size s, s1 with
      | Some 2%nat, String _ s2 => S (RuneCount s2)
      | Some 3%nat, String _ (String _ s3) => S (RuneCount s3)
      | Some 4%nat, String _ (String _ (String _ s4)) => S (RuneCount s4)
      | _, _ => S (RuneCount s1)
      end
  end.
Fixpoint spaces (n : nat) : string := match n with O => "" | S n' => String " " (spaces n') end.

(** A line is its cells; the last one is not ended by a tab, and belongs to no column.
    The widths of the columns to the left are known; the lines of a block are the ones
    next to each other that have a cell in the column at hand. *)
Fixpoint write_cells (widths : list nat) (cells : list string) : string :=
  match cells, widths with
  | [], _ => ""
  | c :: cells, [] => c +:+ write_cells [] cells
  | c :: cells, w :: widths => c +:+ spaces (w - RuneCount c) +:+ write_cells widths cells
  end.
Definition has_column (column : nat) (line : list string) : bool := (column <? length line - 1)%nat.
Fixpoint span {A} (p : A -> bool) (l : list A) : list A * list A :=
  match l with
  | x :: l' => if p x then let '(a, b) := span p l' in (x :: a, b) else ([], l)
  | [] => ([], [])
  end.
Definition cell_width (column : nat) (line : list string) : nat := (RuneCount (default ""%string (line !! column)) + 2)%nat.
(** [fuel] bounds the lines and the columns together. *)
Fixpoint format (fuel : nat) (widths : list nat) (lines : list (list string)) : list string :=
  match fuel with
  | O => []
  | S fuel =>
      let column := length widths in
      match lines with
      | [] => []
      | line :: rest =>
          if has_column column line then
            let '(block, after) := span (has_column column) lines in
            let width := foldr Nat.max O (map (cell_width column) block) in
            (format fuel (widths ++ [width]) block ++ format fuel widths after)%list
          else write_cells widths line :: format fuel widths rest
      end
  end.
(** The lines of a text: cells end with a tab, vertical or not, lines with a newline; a
    form feed is a newline that also ends all columns. *)
Definition tab (a : ascii) : ascii := if ascii_Z a =? 11 then Z_ascii 9 else a.
Definition text_lines (text : string) : list (list string) := map (fun l => Split l (Z_ascii 9)) (Split text (Z_ascii 10)).
Definition total_cells (lines : list (list string)) : nat := list_sum (map (fun l => S (length l)) lines).
Definition format_all (lines : list (list string)) : list string := format (S (total_cells lines)) [] lines.
Definition tabwriter (text : string) : string :=
  Join (map (fun part => Join (format_all (text_lines (smap tab part))) (chr 10)) (Split text (Z_ascii 12))) (chr 10).

Definition RenderWithOptions (t : Table) (noHeaders : bool) : string := tabwriter (table_text t noHeaders).
Definition Render (t : Table) : string := RenderWithOptions t false.


(** ** Values *)
Record Field := MkField { f_Name : string; f_Exported : bool; f_json : string; f_table : string }.
#[warnings="-register-all"]
Inductive gval :=
| VNil
| VIface (v : option gval)
| VPtr (v : option gval)
| VTime (zero : bool) (text : string)
| VString (s : string)
| VInt (z : Z)
| VUint (z : Z)
| VFloat (x : float64)
| VBool (b : bool)
| VSlice (l : list gval)
| VMap (entries : list (gval * gval))
| VStruct (fields : list (Field * gval))
| VOther (text : string).

(** What [%v] prints of a value whose kind has no case of its own is an argument. *)
Class Sprint := sprint_v : gval -> string.

(** The values [encoding/json] makes for an [any]; a number out of range is an error. *)
Definition any_map {A} (m : list (string * A)) : gmap string A := foldl (fun acc kv => <[kv.1 := kv.2]> acc) ∅ m.
Fixpoint any_ok (v : json) : bool :=
  match v with
  | JNum lit => match ParseFloat lit with Some _ => true | None => false end
  | JArr l => forallb any_ok l
  | JObj m => forallb (fun kv => any_ok (snd kv)) m
  | _ => true
  end.
Fixpoint any_value (v : json) : gval :=
  VIface match v with
  | JNull => None
  | JBool b => Some (VBool b)
  | JNum lit => Some (VFloat (default S754_nan (ParseFloat lit)))
  | JStr s => Some (VString s)
  | JArr l => Some (VSlice (map any_value l))
  | JObj m => Some (VMap (map (fun kv => (VString (fst kv), snd kv)) (map_to_list (any_map (map (fun kv => (fst kv, any_value (snd kv))) m)))))
  end.
Definition map_value (m : list (string * json)) : gval :=
  VMap (map (fun kv => (VString (fst kv), any_value (snd kv))) (map_to_list (any_map m))).

Section Values.
Context `{Sprint}.

Definition count_text (n : nat) (open what close : string) : string :=
  if (n =? 0)%nat then "-" else open +:+ FormatInt (Z.of_nat n) +:+ what +:+ close.
(** A time is held as the text of RFC 3339: [Format] with its layout to the minute is its first
    parts, whatever its zone. *)
Definition minute_text (t : string) : string := upto 10 t +:+ " " +:+ upto 5 (from 11 t).
(** The first step goes through an interface, the second through a pointer. *)
Definition format_plain (v : gval) : string :=
  match v with
  | VTime true _ => "-"
  | VTime false text => minute_text text
  | VString s => if String.eqb s "" then "-" else s
  | VInt z => FormatInt z
  | VUint z => FormatUint z
  | VFloat x => fixed_text 2 x
  | VBool b => if b then "true" else "false"
  | VSlice l => count_text (length l) "[" " items" "]"
  | VMap l => count_text (length l) "{" " keys" "}"
  | _ => sprint_v v
  end.
Definition through_ptr (v : gval) : string :=
  match v with VPtr None => "" | VPtr (Some v) => format_plain v | _ => format_plain v end.
Definition formatValue (v : gval) : string :=
  match v with VNil => "" | VIface None => "" | VIface (Some v) => through_ptr v | _ => through_ptr v end.

(** *** Names *)
Definition is_upper (a : ascii) : bool := (65 <=? ascii_Z a) && (ascii_Z a <=? 90).
Fixpoint snake_rest (s : string) : string :=
  match s with
  | EmptyString => ""
  | String a s' => (if is_upper a then "_" else "") +:+ String a (snake_rest s')
  end.
Definition toSnakeCase (s : string) : string := match s with EmptyString => "" | String a s' => String a (snake_rest s') end.
Definition json_name (f : Field) : string :=
  if String.eqb (f_json f) "" then f_Name f
  else match Split (f_json f) "," with
       | part :: _ => if negb (String.eqb part "") && negb (String.eqb part "-") then part else f_Name f
       | [] => f_Name f
       end.

(** *** Tables of values *)
Definition deref (v : gval) : gval := match v with VPtr (Some v) => v | VPtr None => VNil | _ => v end.
Definition shown (wide : bool) (f : Field) : bool :=
  f_Exported f && negb (String.eqb (f_table f) "-") && (negb (Contains (f_table f) "wide") || wide).
Fixpoint indices {A} (p : A -> bool) (i : nat) (l : list A) : list nat :=
  match l with [] => [] | x :: l' => (if p x then [i] else []) ++ indices p (S i) l' end.
Definition entry_row (kv : gval * gval) : list string := [formatValue (fst kv); formatValue (snd kv)].

(** The rows of one element; [None] is a panic: a field that the type of the element
    does not have.  [pick] holds the positions of the fields of the first element. *)
Definition element_rows (pick : list nat) (elem : gval) : option (list (list string)) :=
  match deref elem with
  | VStruct fields => row ← mapM (fun i => option_map (fun f => formatValue (snd f)) (fields !! i)) pick; Some [row]
  | VMap entries => Some (map entry_row entries)
  | v => Some [[formatValue v]]
  end.
Definition sliceToTable (l : list gval) (wide : bool) : option Table :=
  match l with
  | [] => Some (MkTable [] [])
  | first :: _ =>
      let '(headers, pick) :=
        match deref first with
        | VStruct fields =>
            let pick := indices (fun f => shown wide (fst f)) 0 fields in
            (map (fun f => ToUpper (toSnakeCase (json_name (fst f)))) (List.filter (fun f => shown wide (fst f)) fields), pick)
        | VMap _ => (["KEY"; "VALUE"], [])
        | _ => (["VALUE"], [])
        end in
      rows ← mapM (element_rows pick) l;
      Some (MkTable headers (concat rows))
  end.
Definition mapToTable (entries : list (gval * gval)) : Table := MkTable ["KEY"; "VALUE"] (map entry_row entries).
Definition structToTable (fields : list (Field * gval)) : Table :=
  MkTable ["FIELD"; "VALUE"]
    (map (fun f => [json_name (fst f); formatValue (snd f)]) (List.filter (fun f => f_Exported (fst f)) fields)).
(** The outer option is a panic, the inner one the error. *)
Definition toTable (data : gval) (wide : bool) : option (option Table) :=
  match deref data with
  | VSlice l => option_map Some (sliceToTable l wide)
  | VMap entries => Some (Some (mapToTable entries))
  | VStruct fields => Some (Some (structToTable fields))
  | _ => Some None
  end.

(** ** Formatters

    A table is written as text; of a JSON document the value is kept, not the layout. *)
Inductive Output := Text (s : string) | Document (v : gval).
Inductive Formatter := TableFormatter (Wide NoHeaders : bool) | JSONFormatter | YAMLFormatter.
Definition NewFormatter (format : string) (wide : bool) : Formatter :=
  if String.eqb format "json" then JSONFormatter
  else if String.eqb format "yaml" then YAMLFormatter
  else TableFormatter wide false.
(** [None] is a panic; the data is a table already, or a value. *)
Definition Format (f : Formatter) (data : Table + gval) : option (list Output) :=
  match f, data with
  | JSONFormatter, inr v => Some [Document v]
  | JSONFormatter, inl t =>
      let field name v := (MkField name true "" "", VSlice v) in
      Some [Document (VStruct [field "Headers" (map VString (Headers t)); field "Rows" (map (fun r => VSlice (map VString r)) (Rows t))])]
  | YAMLFormatter, _ => Some []
  | TableFormatter _ noHeaders, inl t => Some [Text (RenderWithOptions t noHeaders)]
  | TableFormatter _ _, inr VNil => Some []
  | TableFormatter wide noHeaders, inr v =>
      table ← toTable v wide;
      Some [match table with Some t => Text (RenderWithOptions t noHeaders) | None => Document v end]
  end.
End Values.

Example table_demo : Render (MkTable ["ID"; "USER"; "AT"] [["tmss-1"; "alice"; "now"]; ["x"]; ["a"; "b"; "c"]]) =
  "ID      USER   AT" +:+ chr 10 +:+ "tmss-1  alice  now" +:+ chr 10 +:+ "x" +:+ chr 10 +:+ "a  b  c" +:+ chr 10.
Proof. vm_compute. reflexivity. Qed.
Example snake : toSnakeCase "KeyID" = "Key_I_D".
Proof. reflexivity. Qed.

(** * Alignment

    Tables come out aligned: [text/tabwriter]'s blocks of columns against the layout row by row. *)

(** ** The layout of a table, row by row *)

(** A cell that is text on one line. *)
Definition plain_cell (c : string) : bool :=
  sforall (fun a => negb ((9 <=? ascii_Z a) && (ascii_Z a <=? 12))) c.
Definition column_width (rows : list (list string)) (j : nat) : nat := foldr Nat.max O (map (cell_width j) rows).
Definition padded (w : nat) (c : string) : string := c +:+ spaces (w - RuneCount c).
(** Every cell but the last is padded to the width of its column. *)
Definition row_text (widths : list nat) (row : list string) : string :=
  String.concat "" (zip_with padded widths row) +:+ default "" (last row).
Definition table_layout (rows : list (list string)) (n : nat) : string :=
  String.concat "" (map (fun row => row_text (map (column_width rows) (seq 0 n)) row +:+ chr 10) rows).

Lemma concat_cons s l : String.concat "" (s :: l) = s +:+ String.concat "" l.
Proof. destruct l; [by rewrite app_nil_str|done]. Qed.

Lemma write_cells_row widths row : length row = S (length widths) -> write_cells widths row = row_text widths row.
Proof.
  revert row; induction widths as [|w widths IH]; intros [|c row] Hl; try done.
  - destruct row; [exact (app_nil_str c)|discriminate].
  - injection Hl as Hl; destruct row as [|d row]; [done|].
    change (c +:+ spaces (w - RuneCount c) +:+ write_cells widths (d :: row) = row_text (w :: widths) (c :: d :: row)).
    rewrite IH by done; unfold row_text; cbn [zip_with]; rewrite concat_cons; unfold padded; by rewrite !app_assoc_str.
Qed.

(** ** The blocks *)
Lemma span_all {A} (p : A -> bool) l : Forall (fun x => p x = true) l -> span p l = (l, []).
Proof. induction 1 as [|x l Hx _ IH]; [done|]; simpl; by rewrite Hx, IH. Qed.
Lemma span_app {A} (p : A -> bool) l y : Forall (fun x => p x = true) l -> p y = false -> span p (l ++ [y]) = (l, [y]).
Proof. intros Hl Hy; induction Hl as [|x l Hx _ IH]; simpl; [by rewrite Hy|by rewrite Hx, IH]. Qed.

Lemma format_rows k : forall fuel widths (rows : list (list string)),
  Forall (fun r => length r = S (length widths + k)) rows -> (k + length rows < fuel)%nat ->
  format fuel widths rows = map (write_cells (widths ++ map (column_width rows) (seq (length widths) k))) rows.
Proof.
  induction k as [|k IH]; intros fuel widths rows Hr Hf.
  - rewrite Nat.add_0_r in Hr; simpl; rewrite app_nil_r; clear -Hr Hf.
    revert fuel Hf; induction Hr as [|r rows Hl Hr IH]; intros [|fuel] Hf; simpl in *; try done; try lia.
    unfold has_column; rewrite Hl, (proj2 (Nat.ltb_ge _ _)) by lia; by rewrite IH by lia.
  - destruct rows as [|r rows]; destruct fuel as [|fuel]; try done; try (simpl in Hf; lia).
    assert (Forall (fun x => has_column (length widths) x = true) (r :: rows)) as Hc.
    { eapply Forall_impl; [exact Hr|]; intros x Hx; unfold has_column; apply Nat.ltb_lt; rewrite Hx; lia. }
    cbn [format]; inversion_clear Hc as [|? ? H0 H1]; rewrite H0, span_all by (by constructor).
    rewrite IH; [|eapply Forall_impl; [exact Hr|]; intros x Hx; rewrite Hx, length_app; simpl; lia|simpl in *; lia].
    assert (format fuel widths [] = []) as -> by (by destruct fuel).
    rewrite app_nil_r, length_app, Nat.add_1_r; cbn [seq map]; by rewrite <- (assoc_L app).
Qed.
Lemma format_last n fuel (rows : list (list string)) y : Forall (fun r => length r = S n) rows -> length y = 1%nat ->
  (n + length rows + 2 < fuel)%nat ->
  format fuel [] (rows ++ [y]) = (map (write_cells (map (column_width rows) (seq 0 n))) rows ++ [write_cells [] y])%list.
Proof.
  intros Hr Hy Hf; destruct n as [|n].
  - rewrite (format_rows 0); [by rewrite map_app|apply Forall_app; split; [exact Hr|by constructor]|rewrite length_app; simpl; lia].
  - destruct rows as [|r rows].
    + rewrite (format_rows 0); [done|by constructor|simpl in *; lia].
    + destruct fuel as [|fuel]; [lia|].
      assert (Forall (fun x => has_column 0 x = true) (r :: rows)) as Hc.
      { eapply Forall_impl; [exact Hr|]; intros x Hx; unfold has_column; apply Nat.ltb_lt; rewrite Hx; lia. }
      assert (has_column 0 y = false) as Hy0 by (unfold has_column; by rewrite Hy).
      inversion Hc as [|? ? H0 H1]; subst.
      cbn [format app length]; rewrite H0; change (r :: (rows ++ [y])%list) with ((r :: rows) ++ [y])%list.
      rewrite span_app by done; rewrite (format_rows n); [|exact Hr|simpl in *; lia].
      rewrite (format_rows 0 fuel [] [y]); [done|by constructor|simpl in *; lia].
Qed.

(** ** The text a table hands over *)
Lemma plain_cell_without c z : plain_cell c = true -> 9 <= z <= 12 -> without (Z_ascii z) c = true.
Proof.
  intros Hc Hz; revert Hc; apply sforall_weaken; intros a Ha; apply negb_true_iff, Ascii.eqb_neq; intros ->.
  revert Ha; unfold ascii_Z, Z_ascii; assert (z = 9 \/ z = 10 \/ z = 11 \/ z = 12) as [->|[->|[->| ->]]] by lia; by vm_compute.
Qed.
Lemma Split_lines c (ls : list string) : Forall (fun x => without c x = true) ls ->
  Split (String.concat "" (map (fun l => l +:+ String c "") ls)) c = (ls ++ [""])%list.
Proof.
  induction 1 as [|x ls Hx Hl IH]; [done|]; cbn [map]; rewrite concat_cons, app_assoc_str.
  change (String c "" +:+ ?r) with (String c r); by rewrite Split_app, IH by done.
Qed.
Lemma Join_lines (ls : list string) sep : Join (ls ++ [""]) sep = String.concat "" (map (fun l => l +:+ sep) ls).
Proof.
  induction ls as [|x ls IH]; [done|]; cbn [map app]; rewrite concat_cons, <- IH.
  destruct ls; cbn [app Join]; by rewrite ?app_assoc_str, ?app_nil_str.
Qed.
Lemma total_cells_rows n (rows : list (list string)) y : Forall (fun r => length r = S n) rows ->
  total_cells (rows ++ [y])%list = (length rows * (n + 2) + S (length y))%nat.
Proof.
  unfold total_cells; induction 1 as [|r rows Hr Hrows IH]; [simpl; lia|]; cbn [map app list_sum foldr length].
  unfold list_sum in IH; rewrite IH, Hr; lia.
Qed.
Definition rows_of (t : Table) : list (list string) := if 0 <? llen (Headers t) then Headers t :: Rows t else Rows t.
Lemma table_text_rows t : table_text t false = String.concat "" (map (fun l => l +:+ chr 10) (map (fun r => Join r (chr 9)) (rows_of t))).
Proof.
  unfold table_text, rows_of, line_text; rewrite map_map; cbn [negb andb].
  destruct (0 <? llen (Headers t)); [cbn [map]; by rewrite concat_cons|done].
Qed.
Lemma without_concat c (ls : list string) : Forall (fun x => without c x = true) ls -> without c (String.concat "" ls) = true.
Proof. induction 1 as [|x l Hx Hl IH]; [done|]; by rewrite concat_cons, without_app, Hx, IH. Qed.
Lemma smap_tab s : without (Z_ascii 11) s = true -> smap tab s = s.
Proof.
  apply smap_id_on; intros a Ha; unfold tab; destruct (Z.eqb_spec (ascii_Z a) 11) as [E|]; [|done].
  apply negb_true_iff, Ascii.eqb_neq in Ha; destruct Ha; rewrite <- E; clear E; apply Ascii.eqb_eq; revert a.
  apply forall_ascii; by vm_compute.
Qed.

(** Tables come out aligned: if all rows of a table, the headers among them, have the same
    number of cells, each text on one line, then what is printed is the rows one below the
    other, every cell but the last padded with blanks to two more than the longest of its
    column, counted in characters. *)
Theorem Render_aligned (t : Table) (n : nat)
    (Hn : Forall (fun r => length r = S n /\ Forall (fun c => plain_cell c = true) r) (Headers t :: Rows t)) :
  Render t = table_layout (Headers t :: Rows t) n.
Proof.
  assert (rows_of t = Headers t :: Rows t) as Hrows.
  { unfold rows_of; inversion_clear Hn as [|? ? [Hl _] _]; unfold llen; by rewrite Hl. }
  assert (forall z, 9 < z <= 12 -> Forall (fun x => without (Z_ascii z) x = true) (map (fun r => Join r (chr 9)) (Headers t :: Rows t))) as Hclean.
  { intros z Hz; apply Forall_map; eapply Forall_impl; [exact Hn|]; intros r [_ Hr]; apply without_Join.
    - eapply Forall_impl; [exact Hr|]; intros c Hc; apply plain_cell_without; [done|lia].
    - assert (z = 10 \/ z = 11 \/ z = 12) as [->|[->| ->]] by lia; done. }
  unfold Render, RenderWithOptions; rewrite table_text_rows, Hrows; unfold tabwriter.
  set (ls := map (fun r => Join r (chr 9)) (Headers t :: Rows t)) in *.
  assert (forall z, 10 < z <= 12 -> without (Z_ascii z) (String.concat "" (map (fun l => l +:+ chr 10) ls)) = true) as Hw.
  { intros z Hz; apply without_concat, Forall_map; eapply Forall_impl; [apply (Hclean z); lia|]; intros l Hl.
    rewrite without_app, Hl; assert (z = 11 \/ z = 12) as [->| ->] by lia; done. }
  rewrite Split_single by (apply Hw; lia); cbn [map Join]; rewrite smap_tab by (apply Hw; lia).
  unfold text_lines; change (chr 10) with (String (Z_ascii 10) ""); rewrite (Split_lines (Z_ascii 10)) by (apply Hclean; lia).
  unfold ls; rewrite map_app, map_map; change (map (fun l => Split l (Z_ascii 9)) [""]) with [[""]].
  assert (map (fun r => Split (Join r (chr 9)) (Z_ascii 9)) (Headers t :: Rows t) = Headers t :: Rows t) as ->.
  { rewrite <- (map_id (Headers t :: Rows t)) at 2; apply map_ext_Forall; eapply Forall_impl; [exact Hn|].
    intros r [Hl Hr]; apply Split_Join; [by intros ->|]; eapply Forall_impl; [exact Hr|]; intros c Hc; by apply plain_cell_without; [|lia]. }
  unfold format_all; rewrite (format_last n); [|eapply Forall_impl; [exact Hn|]; intros r [Hl _]; exact Hl|done|].
  - change [write_cells [] [""]] with [""]; rewrite Join_lines; unfold table_layout; rewrite map_map; f_equal.
    apply map_ext_Forall; eapply Forall_impl; [exact Hn|]; intros r [Hl _]; f_equal; apply write_cells_row; by rewrite length_map, length_seq.
  - rewrite (total_cells_rows n); [simpl; nia|]; eapply Forall_impl; [exact Hn|]; intros r [Hl _]; exact Hl.
Qed.

Lemma Render_aligned_witness :
  Render (MkTable ["ID"; "USER"] [["tmss-1"; "alice"]; ["x"; "b"]]) = table_layout [["ID"; "USER"]; ["tmss-1"; "alice"]; ["x"; "b"]] 1.
Proof. apply (Render_aligned (MkTable ["ID"; "USER"] [["tmss-1"; "alice"]; ["x"; "b"]]) 1); repeat constructor. Defined.
