(* ===== verification/Cli.v ===== *)
(** The command line client: [internal/cli/connection] and [internal/cli/command].

    A command reads its flags and arguments, talks to the terminal and sends requests; the
    network is an interface, [Transport].  The parsing of the command line is third-party
    code: an action is given the values of the flags as the library hands them out.  The
    texts of the errors of [net/url] and [encoding/json] are left out. *)

From Stdlib Require Import Ascii String.
From stdpp Require Import list strings gmap fin_maps.
From S2P Require Import Prelude Errors GoStrings Strconv Float64 Json APIKey HttpNet CliOutput.

Open Scope string_scope.
Open Scope Z_scope.

(** ** Addresses: [net/url] *)
Definition is_ctl (a : ascii) : bool := (ascii_Z a <? 32) || (ascii_Z a =? 127).
Definition valid_path_char (a : ascii) : bool := path_char a || GoStrings.Contains "!'()*[]%" (String a "").
Record URL := MkURL { u_base : string; u_path : string; u_query : string }.
Definition cut (s : string) (sep : ascii) : string * string :=
  match SplitN2 s sep with [a; b] => (a, b) | _ => (s, "") end.
(** The path as it is sent: as it was written, if it is a valid encoding. *)
Definition EscapedPath_of (p : string) : option string :=
  match PathUnescape p with
  | None => None
  | Some path => Some (if sforall valid_path_char p then p else if String.eqb path "*" then "%2A" else escape_path path)
  end.
(** The address of an absolute URL: scheme and authority, path and query. *)
Definition ParseURL (rawURL : string) : option URL :=
  let '(u, frag) := cut rawURL "#" in
  let scheme := if HasPrefix u "https://" then "https://" else "http://" in
  let '(rest, query) := cut (from (String.length scheme) u) "?" in
  let '(authority, path) := match Index rest "/" with Some i => (upto i rest, from i rest) | None => (rest, "") end in
  if negb (sforall (fun a => negb (is_ctl a)) u) then None
  else
    match PathUnescape frag, EscapedPath_of path with
    | Some _, Some p => Some (MkURL (scheme +:+ authority) (if String.eqb p "" then "/" else p) query)
    | _, _ => None
    end.

(** ** The network

    A request goes to an address; the answer is a status, headers and a body, or an error. *)
Definition Response : Type := Z * list (string * string) * string.
Class Transport (W : Type) := round_trip : string -> Request APIKey -> M W (Res Response).

Definition valid_header (v : string) : bool := sforall (fun a => negb (is_ctl a) || (ascii_Z a =? 9)) v.
Definition url_error : error := SimpleError "net/url".
(** [http.Client.Do]: redirects are followed to a rooted path on the same server, ten
    requests in all, a [POST] as a [GET] without its body unless the status says otherwise. *)
Section Client.
Context {W : Type} `{Transport W}.

Definition redirect_method (status : Z) (method : string) : option string :=
  if (status =? 301) || (status =? 302) || (status =? 303)
  then Some (if String.eqb method "GET" || String.eqb method "HEAD" then method else "GET")
  else if (status =? 307) || (status =? 308) then Some method
  else None.
Fixpoint Do (redirects : nat) (method : string) (url : URL) (hs : list (string * string)) (body : list Z) : M W (Res Response) :=
  if negb (forallb (fun kv => valid_header (snd kv)) hs) then ret (Err (SimpleError "net/http: invalid header field value"))
  else
    resp <-? round_trip (u_base url) (MkRequest method (u_path url) (u_query url) hs "" body None None []) ;;
    match redirect_method (fst (fst resp)) method, assoc "Location" (snd (fst resp)) with
    | Some method', Some loc =>
        match ParseURL (u_base url +:+ loc), redirects with
        | None, _ => ret (Err url_error)
        | Some _, O => ret (Err (SimpleError "stopped after 10 redirects"))
        | Some url', S redirects => Do redirects method' url' hs (if String.eqb method' method then body else [])
        end
    | _, _ => ret (Ok resp)
    end.

Record HTTPClient := MkHTTPClient { baseURL : string; hc_apiKeyID : string; hc_apiKey : string }.
Definition NewHTTPClient (server apiKeyID apiKey : string) : HTTPClient :=
  MkHTTPClient (if HasPrefix server "http://" || HasPrefix server "https://" then server else "http://" +:+ server) apiKeyID apiKey.
Definition addHeaders (c : HTTPClient) : list (string * string) :=
  (if negb (String.eqb (hc_apiKeyID c) "") && negb (String.eqb (hc_apiKey c) "")
   then [("X-Api-Key-Id", hc_apiKeyID c); ("X-Api-Key", hc_apiKey c)] else []) ++ [("User-Agent", "tokmesh-cli/1.0")].
Definition Get (c : HTTPClient) (path : string) : M W (Res Response) :=
  match ParseURL (baseURL c +:+ path) with
  | None => ret (Err (WrapError "create request" url_error))
  | Some url => Do 9 "GET" url (addHeaders c) []
  end.
Definition Post (c : HTTPClient) (path : string) (body : option json) : M W (Res Response) :=
  match ParseURL (baseURL c +:+ path) with
  | None => ret (Err (WrapError "create request" url_error))
  | Some url =>
      Do 9 "POST" url (addHeaders c ++ match body with Some _ => [("Content-Type", "application/json")] | None => [] end)
        (match body with Some v => to_bytes (print v) | None => [] end)
  end.
End Client.

(** The answer: an error text if the status says so, the decoded body otherwise. *)
Definition assign_error (k : string) (v : json) (b : string * string) : option (string * string) :=
  code ← (if String.eqb k "code" then dec_string v (fst b) else Some (fst b));
  message ← (if String.eqb k "message" then dec_string v (snd b) else Some (snd b));
  Some (code, message).
Definition response_error (resp : Response) : error :=
  let '(status, _, body) := resp in
  let plain := SimpleError ("request failed with status " +:+ FormatInt status) in
  match decode_first (to_bytes body) ≫= unmarshal assign_error ("", "") with
  | Some (code, message) => if String.eqb message "" then plain else SimpleError ("[" +:+ code +:+ "] " +:+ message)
  | None => plain
  end.
Definition ParseResponse {A} (decode : json -> option A) (resp : Response) : Res A :=
  if 400 <=? fst (fst resp) then Err (response_error resp)
  else match decode_first (to_bytes (snd resp)) ≫= decode with
       | Some a => Ok a
       | None => Err (WrapError "parse response" (SimpleError "encoding/json"))
       end.
(** With no target the body is not read. *)
Definition ParseResponse_nil (resp : Response) : option error :=
  if 400 <=? fst (fst resp) then Some (response_error resp) else None.
(** The target [map[string]any]; [null] leaves it nil, here empty. *)
Definition decode_any (v : json) : option (list (string * json)) :=
  match v with JNull => Some [] | JObj m => if any_ok v then Some m else None | _ => None end.

(** ** Commands *)

(** [connection.Manager]: the connection it holds, or none. *)
Record Connection := MkConnection { cn_Name : string; cn_Server : string; cn_APIKeyID : string; cn_APIKey : string; cn_TLS : bool }.
Definition Manager : Type := option Connection.
Definition NewManager : Manager := None.
Definition Connect (conn : Connection) : M Manager (option error) := put_st (Some conn) ;;; ret None.
Definition Disconnect : M Manager unit := put_st None.
Definition Current : M Manager (option Connection) := get_st.
Definition IsConnected : M Manager bool := m <- get_st ;; ret (match m with Some _ => true | None => false end).

(** The terminal, the manager, and the world behind the network. *)
Record Console (W : Type) := MkConsole { stdout : list Output; stderr : list string; stdin : string; manager : Manager; net : W }.
Arguments MkConsole {W} _ _ _ _ _.
Arguments manager {W} _.
Arguments stdout {W} _.
Arguments stderr {W} _.
Arguments stdin {W} _.
Arguments net {W} _.

(** The flags and arguments of a call. *)
Record Context := MkContext {
  c_String : string -> string;
  c_Int : string -> Z;
  c_Bool : string -> bool;
  c_Duration : string -> Z;
  c_StringSlice : string -> list string;
  c_Args : list string;
}.
Definition First (c : Context) : string := default "" (head (c_Args c)).

Record GlobalFlags := MkFlags { g_Server : string; g_APIKeyID : string; g_APIKey : string; g_Output : string; g_Wide : bool; g_Verbose : bool }.
Definition ParseGlobalFlags (c : Context) : GlobalFlags :=
  MkFlags (c_String c "server") (c_String c "api-key-id") (c_String c "api-key") (c_String c "output") (c_Bool c "wide") (c_Bool c "verbose").
Definition EnsureConnected (c : Context) : HTTPClient :=
  let flags := ParseGlobalFlags c in NewHTTPClient (g_Server flags) (g_APIKeyID flags) (g_APIKey flags).

Definition truncateID (id : string) : string := if slen id <=? 16 then id else upto 13 id +:+ "...".

(** [fmt.Scanln] of one string: the first word of the first line, and none if the line has none. *)
Definition is_blank (a : ascii) : bool := (ascii_Z a =? 32) || (ascii_Z a =? 9) || (ascii_Z a =? 11) || (ascii_Z a =? 12) || (ascii_Z a =? 13).
Fixpoint skip_spaces (s : string) : string :=
  match s with String a s' => if is_blank a then skip_spaces s' else s | EmptyString => "" end.
Fixpoint word (s : string) : string :=
  match s with
  | String a s' => if is_blank a || (ascii_Z a =? 10) then "" else String a (word s')
  | EmptyString => ""
  end.
Definition scan_word (input : string) : string := word (skip_spaces input).

(** The host's files: the home directory, whether a path does not exist, and contents. *)
Class Files := { HomeDir : string; IsNotExist : string -> bool; ReadFile : string -> Res string }.

Section Commands.
Context {W : Type} `{Transport W} `{Sprint} `{Files}.
#[local] Abbreviation Console := (Console W).
(** An action ends with or without an error; [None] is a panic. *)
Definition Action : Type := Context -> M Console (option (option error)).

Definition emit (o : list Output) : M Console unit :=
  upd_st (fun t => MkConsole (stdout t ++ o)%list (stderr t) (stdin t) (manager t) (net t)).
Definition Printf (s : string) : M Console unit := emit [Text s].
Definition Println (s : string) : M Console unit := emit [Text (s +:+ chr 10)].
Definition PrintError (s : string) : M Console unit :=
  upd_st (fun t => MkConsole (stdout t) (stderr t ++ ["error: " +:+ s +:+ chr 10])%list (stdin t) (manager t) (net t)).
Definition Scanln : M Console string := t <- get_st ;; ret (scan_word (stdin t)).
Definition over_net {A} (m : M W A) : M Console A :=
  zoom net (fun w t => MkConsole (stdout t) (stderr t) (stdin t) (manager t) w) m.
Definition in_manager {A} (m : M Manager A) : M Console A :=
  zoom manager (fun g t => MkConsole (stdout t) (stderr t) (stdin t) g (net t)) m.
Definition ok : M Console (option (option error)) := ret (Some None).
Definition fail (e : error) : M Console (option (option error)) := ret (Some (Some e)).
Definition Errorf (msg : string) : M Console (option (option error)) := fail (SimpleError msg).
(** The formatter's output, and the end of the action. *)
Definition show (f : Formatter) (data : Table + gval) : M Console (option (option error)) :=
  match Format f data with Some o => emit o ;;; ok | None => ret None end.

(** A request, its answer decoded, and what is done with it. *)
Definition request {A} (send : M W (Res Response)) (decode : json -> option A) (k : A -> M Console (option (option error)))
    : M Console (option (option error)) :=
  resp <- over_net send ;;
  match resp with
  | Err err => fail (WrapError "request failed" err)
  | Ok resp => match ParseResponse decode resp with Err err => fail err | Ok a => k a end
  end.
Definition request_nil (send : M W (Res Response)) (k : M Console (option (option error))) : M Console (option (option error)) :=
  resp <- over_net send ;;
  match resp with
  | Err err => fail (WrapError "request failed" err)
  | Ok resp => match ParseResponse_nil resp with Some err => fail err | None => k end
  end.
(** Unless forced, an action goes on only if [expected] accepts the word typed. *)
Definition confirmed (c : Context) (question : string) (expected : string -> bool) (k : M Console (option (option error)))
    : M Console (option (option error)) :=
  if c_Bool c "force" then k
  else
    Printf question ;;;
    confirm <- Scanln ;;
    if expected confirm then k else Println "Cancelled." ;;; ok.
Definition yes (confirm : string) : bool := String.eqb confirm "y" || String.eqb confirm "Y".
Definition with_arg (c : Context) (what : string) (k : string -> M Console (option (option error))) : M Console (option (option error)) :=
  if String.eqb (First c) "" then Errorf (what +:+ " required") else k (First c).
Definition Formatter_of (c : Context) : Formatter := NewFormatter (g_Output (ParseGlobalFlags c)) (g_Wide (ParseGlobalFlags c)).
Definition is_json (c : Context) : bool := String.eqb (g_Output (ParseGlobalFlags c)) "json".

(** *** Sessions *)

(** [time.Time]'s [UnmarshalJSON]: strict RFC 3339. *)
Definition days_in (y m : Z) : Z :=
  if m =? 2 then (if (y mod 4 =? 0) && (negb (y mod 100 =? 0) || (y mod 400 =? 0)) then 29 else 28)
  else if existsb (Z.eqb m) [4; 6; 9; 11] then 30 else 31.
Definition number (lo hi : Z) (s : string) : option Z :=
  n ← (if sforall is_digit s then parse_digits s 0 else None); if (lo <=? n) && (n <=? hi) then Some n else None.
Definition at_ (i n : nat) (s : string) : string := upto n (from i s).
Definition valid_zone (s : string) : bool :=
  String.eqb s "Z" ||
  ((slen s =? 6) && (HasPrefix s "+" || HasPrefix s "-") && String.eqb (at_ 3 1 s) ":" &&
   bool_decide (is_Some (number 0 23 (at_ 1 2 s))) && bool_decide (is_Some (number 0 59 (at_ 4 2 s)))).
Definition drop_fraction (s : string) : string :=
  match s with
  | String "." (String d s') => if is_digit d then drop_digits s' else s
  | _ => s
  end.
Definition valid_RFC3339 (s : string) : bool :=
  (19 <=? slen s) &&
  match number 0 9999 (at_ 0 4 s), number 1 12 (at_ 5 2 s), number 0 23 (at_ 11 2 s), number 0 59 (at_ 14 2 s), number 0 59 (at_ 17 2 s) with
  | Some y, Some m, Some _, Some _, Some _ =>
      bool_decide (is_Some (number 1 (days_in y m) (at_ 8 2 s))) &&
      String.eqb (at_ 4 1 s) "-" && String.eqb (at_ 7 1 s) "-" && String.eqb (at_ 10 1 s) "T" && String.eqb (at_ 13 1 s) ":" &&
      String.eqb (at_ 16 1 s) ":" && valid_zone (drop_fraction (from 19 s))
  | _, _, _, _, _ => false
  end.
Definition dec_time (v : json) (old : string) : option string :=
  match v with JNull => Some old | JStr s => if valid_RFC3339 s then Some s else None | _ => None end.
Definition dec_list {A} (dec : json -> option A) (v : json) (old : option (list A)) : option (option (list A)) :=
  match v with JNull => Some None | JArr l => x ← mapM dec l; Some (Some x) | _ => None end.

Record SessionItem := MkItem { it_ID : string; it_UserID : string; it_CreatedAt : string; it_ExpiresAt : string }.
Definition zero_time : string := "0001-01-01T00:00:00Z".
Definition assign_item (k : string) (v : json) (x : SessionItem) : option SessionItem :=
  id ← (if String.eqb k "id" then dec_string v (it_ID x) else Some (it_ID x));
  user ← (if String.eqb k "user_id" then dec_string v (it_UserID x) else Some (it_UserID x));
  created ← (if String.eqb k "created_at" then dec_time v (it_CreatedAt x) else Some (it_CreatedAt x));
  expires ← (if String.eqb k "expires_at" then dec_time v (it_ExpiresAt x) else Some (it_ExpiresAt x));
  Some (MkItem id user created expires).
Definition assign_list (k : string) (v : json) (b : option (list SessionItem) * Z) : option (option (list SessionItem) * Z) :=
  items ← (if String.eqb k "items" then dec_list (unmarshal assign_item (MkItem "" "" zero_time zero_time)) v (fst b) else Some (fst b));
  total ← (if String.eqb k "total" then dec_int v (snd b) else Some (snd b));
  Some (items, total).

Definition item_value (x : SessionItem) : gval :=
  let field name tag v := (MkField name true tag "", v) in
  let time t := VTime (String.eqb t zero_time) t in
  VStruct [field "ID" "id" (VString (it_ID x)); field "UserID" "user_id" (VString (it_UserID x));
    field "CreatedAt" "created_at" (time (it_CreatedAt x)); field "ExpiresAt" "expires_at" (time (it_ExpiresAt x))].
Definition outputSessions (c : Context) (sessions : option (list SessionItem)) (total : Z) : M Console (option (option error)) :=
  if is_json c then emit [Document (match sessions with None => VNil | Some l => VSlice (map item_value l) end)] ;;; ok
  else
    let row x := [truncateID (it_ID x); it_UserID x; minute_text (it_CreatedAt x); minute_text (it_ExpiresAt x)] in
    Printf (Render (MkTable ["SESSION ID"; "USER ID"; "CREATED"; "EXPIRES"] (map row (default [] sessions)))) ;;;
    Printf (chr 10 +:+ "Total: " +:+ FormatInt total +:+ " sessions" +:+ chr 10) ;;;
    ok.

Definition list_path (userID : string) (page pageSize : Z) : string :=
  let params := ((if String.eqb userID "" then [] else ["user_id=" +:+ userID]) ++
                 (if 0 <? page then ["page=" +:+ FormatInt page] else []) ++
                 (if 0 <? pageSize then ["page_size=" +:+ FormatInt pageSize] else []))%list in
  "/sessions" +:+ (if 0 <? llen params then "?" +:+ Join params "&" else "").
Definition sessionList : Action := fun c =>
  request (Get (EnsureConnected c) (list_path (c_String c "user-id") (c_Int c "page") (c_Int c "page-size")))
    (unmarshal assign_list (None, 0)) (fun r => outputSessions c (fst r) (snd r)).

Definition sessionGet : Action := fun c =>
  with_arg c "session ID" (fun sessionID =>
    request (Get (EnsureConnected c) ("/sessions/" +:+ sessionID)) decode_any (fun m => show (Formatter_of c) (inr (map_value m)))).

(** The flags [KEY=VALUE]; one without the sign is dropped. *)
Definition data_map (flags : list string) : gmap string string :=
  foldl (fun m d => match SplitN2 d "=" with [k; v] => <[k := v]> m | _ => m end) ∅ flags.
Definition seconds_of (d : Z) : Z := f64_to_i64 (Seconds d).
Definition create_body (userID : string) (ttl : Z) (data : list string) : json :=
  JObj ((if 0 <? llen data then [("data", enc_map (Some (data_map data)))] else []) ++
        [("ttl_seconds", JNum (FormatInt (seconds_of ttl))); ("user_id", JStr userID)])%list.
Definition assign_created (k : string) (v : json) (b : string * string) : option (string * string) :=
  id ← (if String.eqb k "session_id" then dec_string v (fst b) else Some (fst b));
  token ← (if String.eqb k "token" then dec_string v (snd b) else Some (snd b));
  Some (id, token).
Definition warning : string := chr 226 +:+ chr 154 +:+ chr 160 +:+ chr 239 +:+ chr 184 +:+ chr 143.
Definition created_text (id token : string) : string :=
  "Session created successfully:" +:+ chr 10 +:+ "  Session ID: " +:+ id +:+ chr 10 +:+ "  Token:      " +:+ token +:+ chr 10 +:+
  chr 10 +:+ warning +:+ "  Save this token - it cannot be retrieved later." +:+ chr 10.
Definition sessionCreate : Action := fun c =>
  request (Post (EnsureConnected c) "/sessions" (Some (create_body (c_String c "user-id") (c_Duration c "ttl") (c_StringSlice c "data"))))
    (unmarshal assign_created ("", "")) (fun r => Printf (created_text (fst r) (snd r)) ;;; ok).

Definition renew_body (ttl : Z) : json := JObj (if 0 <? ttl then [("ttl_seconds", JNum (FormatInt (seconds_of ttl)))] else []).
Definition sessionRenew : Action := fun c =>
  with_arg c "session ID" (fun sessionID =>
    request (Post (EnsureConnected c) ("/sessions/" +:+ sessionID +:+ "/renew") (Some (renew_body (c_Duration c "ttl")))) decode_any (fun _ =>
      Printf ("Session " +:+ truncateID sessionID +:+ " renewed successfully." +:+ chr 10) ;;; ok)).

Definition sessionRevoke : Action := fun c =>
  with_arg c "session ID" (fun sessionID =>
    confirmed c ("Are you sure you want to revoke session '" +:+ truncateID sessionID +:+ "'? [y/N]: ") yes
      (request_nil (Post (EnsureConnected c) ("/sessions/" +:+ sessionID +:+ "/revoke") None)
        (Printf ("Session " +:+ truncateID sessionID +:+ " revoked successfully." +:+ chr 10) ;;; ok))).

Definition assign_count (name k : string) (v : json) (n : Z) : option Z := if String.eqb k name then dec_int v n else Some n.
Definition sessionRevokeAll : Action := fun c =>
  with_arg c "user ID" (fun userID =>
    confirmed c ("This will revoke all sessions for user '" +:+ userID +:+ "'. Type '" +:+ userID +:+ "' to confirm: ") (String.eqb userID)
      (request (Post (EnsureConnected c) ("/users/" +:+ userID +:+ "/sessions/revoke") None) (unmarshal (assign_count "revoked_count") 0)
        (fun n => Printf (FormatInt n +:+ " sessions revoked for user '" +:+ userID +:+ "'." +:+ chr 10) ;;; ok))).

(** *** API keys *)
Record KeyItem := MkKeyItem { ki_KeyID : string; ki_Name : string; ki_Role : string; ki_Status : string; ki_Description : string; ki_RateLimit : Z }.
Definition assign_key_item (k : string) (v : json) (x : KeyItem) : option KeyItem :=
  id ← (if String.eqb k "key_id" then dec_string v (ki_KeyID x) else Some (ki_KeyID x));
  name ← (if String.eqb k "name" then dec_string v (ki_Name x) else Some (ki_Name x));
  role ← (if String.eqb k "role" then dec_string v (ki_Role x) else Some (ki_Role x));
  status ← (if String.eqb k "status" then dec_string v (ki_Status x) else Some (ki_Status x));
  descr ← (if String.eqb k "description" then dec_string v (ki_Description x) else Some (ki_Description x));
  limit ← (if String.eqb k "rate_limit" then dec_int v (ki_RateLimit x) else Some (ki_RateLimit x));
  Some (MkKeyItem id name role status descr limit).
Definition assign_keys (k : string) (v : json) (l : option (list KeyItem)) : option (option (list KeyItem)) :=
  if String.eqb k "keys" then dec_list (unmarshal assign_key_item (MkKeyItem "" "" "" "" "" 0)) v l else Some l.
Definition key_value (x : KeyItem) : gval :=
  let field name tag v := (MkField name true tag "", v) in
  VStruct [field "KeyID" "key_id" (VString (ki_KeyID x)); field "Name" "name" (VString (ki_Name x));
    field "Role" "role" (VString (ki_Role x)); field "Status" "status" (VString (ki_Status x));
    field "Description" "description" (VString (ki_Description x)); field "RateLimit" "rate_limit" (VInt (ki_RateLimit x))].
Definition apikeyList : Action := fun c =>
  request (Get (EnsureConnected c) "/admin/v1/keys") (unmarshal assign_keys None) (fun keys =>
    if is_json c then emit [Document (match keys with None => VNil | Some l => VSlice (map key_value l) end)] ;;; ok
    else
      let row x := [truncateID (ki_KeyID x); ki_Name x; ki_Role x; ki_Status x; FormatInt (ki_RateLimit x)] in
      Printf (Render (MkTable ["KEY ID"; "NAME"; "ROLE"; "STATUS"; "RATE LIMIT"] (map row (default [] keys)))) ;;;
      Printf (chr 10 +:+ "Total: " +:+ FormatInt (llen (default [] keys)) +:+ " keys" +:+ chr 10) ;;;
      ok).

Definition apikeyGet : Action := fun c =>
  with_arg c "key ID" (fun keyID =>
    request (Get (EnsureConnected c) ("/admin/v1/keys/" +:+ keyID)) decode_any (fun m => show (Formatter_of c) (inr (map_value m)))).

Definition create_key_body (name role descr : string) (limit : Z) : json :=
  JObj ((if String.eqb descr "" then [] else [("description", JStr descr)]) ++
        [("name", JStr name); ("rate_limit", JNum (FormatInt limit)); ("role", JStr role)])%list.
Definition assign_new_key (k : string) (v : json) (b : string * string) : option (string * string) :=
  id ← (if String.eqb k "key_id" then dec_string v (fst b) else Some (fst b));
  secret ← (if String.eqb k "secret" then dec_string v (snd b) else Some (snd b));
  Some (id, secret).
Definition save_text : string := warning +:+ "  IMPORTANT: Save this secret now - it cannot be retrieved later!" +:+ chr 10.
Definition new_key_text (id secret : string) : string :=
  "API Key created successfully:" +:+ chr 10 +:+ "  Key ID: " +:+ id +:+ chr 10 +:+ "  Secret: " +:+ secret +:+ chr 10 +:+
  chr 10 +:+ save_text +:+ "   Use format: " +:+ id +:+ ":" +:+ secret +:+ chr 10.
Definition apikeyCreate : Action := fun c =>
  request (Post (EnsureConnected c) "/admin/v1/keys"
      (Some (create_key_body (c_String c "name") (c_String c "role") (c_String c "description") (c_Int c "rate-limit"))))
    (unmarshal assign_new_key ("", "")) (fun r => Printf (new_key_text (fst r) (snd r)) ;;; ok).

Definition status_body (status : string) : json := JObj [("status", JStr status)].
Definition post_status (c : Context) (keyID status done_text : string) : M Console (option (option error)) :=
  request_nil (Post (EnsureConnected c) ("/admin/v1/keys/" +:+ keyID +:+ "/status") (Some (status_body status)))
    (Printf ("API key " +:+ truncateID keyID +:+ " " +:+ done_text +:+ " successfully." +:+ chr 10) ;;; ok).
Definition apikeyDisable : Action := fun c =>
  with_arg c "key ID" (fun keyID =>
    confirmed c ("Are you sure you want to disable API key '" +:+ truncateID keyID +:+ "'? [y/N]: ") yes
      (post_status c keyID "disabled" "disabled")).
Definition apikeyEnable : Action := fun c => with_arg c "key ID" (fun keyID => post_status c keyID "active" "enabled").

Definition assign_secret (k : string) (v : json) (secret : string) : option string :=
  if String.eqb k "new_secret" then dec_string v secret else Some secret.
Definition rotated_text (keyID secret : string) : string :=
  "API key secret rotated successfully:" +:+ chr 10 +:+ "  Key ID:     " +:+ keyID +:+ chr 10 +:+ "  New Secret: " +:+ secret +:+ chr 10 +:+
  chr 10 +:+ save_text +:+ "   Old secret remains valid for 24 hours (grace period)." +:+ chr 10.
Definition apikeyRotate : Action := fun c =>
  with_arg c "key ID" (fun keyID =>
    confirmed c ("Are you sure you want to rotate secret for API key '" +:+ truncateID keyID +:+ "'? [y/N]: ") yes
      (request (Post (EnsureConnected c) ("/admin/v1/keys/" +:+ keyID +:+ "/rotate") None) (unmarshal assign_secret "")
        (fun secret => Printf (rotated_text keyID secret) ;;; ok))).

(** *** The system *)
Definition line_of_string (m : list (string * json)) (key label : string) : list Output :=
  match any_map m !! key with Some (JStr s) => [Text (label +:+ s +:+ chr 10)] | _ => [] end.
Definition line_of_number (m : list (string * json)) (key : string) (text : float64 -> string) : list Output :=
  match any_map m !! key with
  | Some (JNum lit) => match ParseFloat lit with Some x => [Text (text x)] | None => [] end
  | _ => []
  end.
Definition f1024 : float64 := f64_of_Z 1024.
Definition systemStatus : Action := fun c =>
  request (Get (EnsureConnected c) "/admin/v1/status/summary") decode_any (fun m =>
    if is_json c then emit [Document (map_value m)] ;;; ok
    else
      Printf ("System Status" +:+ chr 10) ;;;
      Printf ("=============" +:+ chr 10 +:+ chr 10) ;;;
      emit (line_of_string m "version" "Version:        " ++ line_of_string m "uptime" "Uptime:         " ++
        line_of_number m "active_sessions" (fun x => "Active Sessions: " +:+ fixed_text 0 x +:+ chr 10) ++
        line_of_number m "memory_usage" (fun x => "Memory Usage:   " +:+ fixed_text 2 (f64_div (f64_div x f1024) f1024) +:+ " MB" +:+ chr 10) ++
        line_of_number m "goroutines" (fun x => "Goroutines:     " +:+ fixed_text 0 x +:+ chr 10))%list ;;;
      ok).

Definition assign_text (name k : string) (v : json) (s : string) : option string := if String.eqb k name then dec_string v s else Some s.
Definition check_mark : string := chr 226 +:+ chr 156 +:+ chr 147.
Definition cross_mark : string := chr 226 +:+ chr 156 +:+ chr 151.
Definition struct1 (name tag : string) (v : gval) : gval := VStruct [(MkField name true tag "", v)].
Definition systemHealth : Action := fun c =>
  resp <- over_net (Get (EnsureConnected c) "/health") ;;
  match resp with
  | Err err => PrintError ("Health check failed: " +:+ Errors.Error err) ;;; Errorf "server unhealthy"
  | Ok resp =>
      match ParseResponse (unmarshal (assign_text "status") "") resp with
      | Err err => fail err
      | Ok status =>
          if is_json c then emit [Document (struct1 "Status" "status" (VString status))] ;;; ok
          else if String.eqb status "healthy" then
            Printf (check_mark +:+ " Server is healthy" +:+ chr 10) ;;;
            Printf ("  Target: " +:+ baseURL (EnsureConnected c) +:+ chr 10) ;;; ok
          else Printf (cross_mark +:+ " Server is unhealthy: " +:+ status +:+ chr 10) ;;; ok
      end
  end.

Record GCResult := MkGC { gc_Expired : Z; gc_Freed : Z; gc_DryRun : bool }.
Definition assign_gc (k : string) (v : json) (x : GCResult) : option GCResult :=
  expired ← (if String.eqb k "expired_count" then dec_int v (gc_Expired x) else Some (gc_Expired x));
  freed ← (if String.eqb k "freed_bytes" then dec_int v (gc_Freed x) else Some (gc_Freed x));
  dry ← (if String.eqb k "dry_run" then dec_bool v (gc_DryRun x) else Some (gc_DryRun x));
  Some (MkGC expired freed dry).
Definition gc_value (x : GCResult) : gval :=
  VStruct [(MkField "ExpiredCount" true "expired_count" "", VInt (gc_Expired x));
    (MkField "FreedBytes" true "freed_bytes" "", VInt (gc_Freed x)); (MkField "DryRun" true "dry_run" "", VBool (gc_DryRun x))].
Definition gc_body (dryRun : bool) : json := JObj (if dryRun then [("dry_run", JBool true)] else []).
Definition systemGC : Action := fun c =>
  let dryRun := c_Bool c "dry-run" in
  Println (if dryRun then "[DRY RUN] Would trigger garbage collection..." else "Triggering garbage collection...") ;;;
  request (Post (EnsureConnected c) "/admin/v1/gc/trigger" (Some (gc_body dryRun))) (unmarshal assign_gc (MkGC 0 0 false)) (fun r =>
    if is_json c then emit [Document (gc_value r)] ;;; ok
    else
      Printf (chr 10 +:+ (if dryRun then "[DRY RUN] Would clean up:" else "Garbage collection completed:") +:+ chr 10) ;;;
      Printf ("  Expired sessions: " +:+ FormatInt (gc_Expired r) +:+ chr 10) ;;;
      Printf ("  Freed memory:     " +:+ fixed_text 2 (f64_div (f64_of_Z (gc_Freed r)) f1024) +:+ " KB" +:+ chr 10) ;;;
      ok).

(** *** Configuration: the files of the host are an argument. *)
Definition config_path : string := HomeDir +:+ "/.config/tokmesh-cli/cli.yaml".
Definition configCLIShow : Action := fun c =>
  Printf ("CLI Configuration" +:+ chr 10) ;;;
  Printf ("=================" +:+ chr 10 +:+ chr 10) ;;;
  Printf ("Config file: " +:+ config_path +:+ chr 10 +:+ chr 10) ;;;
  if IsNotExist config_path then
    Printf ("(No configuration file found)" +:+ chr 10) ;;;
    Printf (chr 10 +:+ "Default settings:" +:+ chr 10) ;;;
    Printf ("  Server:   localhost:5080" +:+ chr 10) ;;;
    Printf ("  Output:   table" +:+ chr 10) ;;;
    Printf ("  Timeout:  30s" +:+ chr 10) ;;; ok
  else match ReadFile config_path with
       | Err err => fail (WrapError "read config" err)
       | Ok content => Printf (content +:+ chr 10) ;;; ok
       end.
Definition configCLIValidate : Action := fun c =>
  if IsNotExist config_path then
    Printf ("No configuration file found at " +:+ config_path +:+ chr 10) ;;;
    Printf ("Using default settings." +:+ chr 10) ;;; ok
  else match ReadFile config_path with
       | Err err => fail (WrapError "cannot read config" err)
       | Ok _ => Printf (check_mark +:+ " Configuration file is valid: " +:+ config_path +:+ chr 10) ;;; ok
       end.

Definition assign_valid (k : string) (v : json) (b : bool * option (list string)) : option (bool * option (list string)) :=
  valid ← (if String.eqb k "valid" then dec_bool v (fst b) else Some (fst b));
  errors ← (if String.eqb k "errors" then dec_list (fun x => dec_string x "") v (snd b) else Some (snd b));
  Some (valid, errors).
Definition configServerTest : Action := fun c =>
  if String.eqb (First c) "" then Errorf "configuration file path required"
  else match ReadFile (First c) with
  | Err err => fail (WrapError "read file" err)
  | Ok content =>
      if negb (c_Bool c "remote") then
        Printf ("[LOCAL] Testing configuration syntax..." +:+ chr 10) ;;;
        Printf (check_mark +:+ " Configuration syntax is valid." +:+ chr 10) ;;; ok
      else
        request (Post (EnsureConnected c) "/admin/v1/config/validate" (Some (JObj [("content", JStr content)])))
          (unmarshal assign_valid (false, None)) (fun r =>
            Printf ("[REMOTE: " +:+ g_Server (ParseGlobalFlags c) +:+ "] Testing configuration..." +:+ chr 10) ;;;
            if fst r then Printf (check_mark +:+ " Configuration is valid and compatible with server." +:+ chr 10) ;;; ok
            else
              Printf (cross_mark +:+ " Configuration validation failed:" +:+ chr 10) ;;;
              emit (map (fun e => Text ("  - " +:+ e +:+ chr 10)) (default [] (snd r))) ;;;
              Errorf "validation failed")
  end.
Definition configServerShow : Action := fun c =>
  request (Get (EnsureConnected c) ("/admin/v1/config" +:+ (if c_Bool c "merged" then "?merged=true" else ""))) decode_any
    (fun m => show (Formatter_of c) (inr (map_value m))).
Definition configServerReload : Action := fun c =>
  Println "Reloading server configuration..." ;;;
  request_nil (Post (EnsureConnected c) "/admin/v1/config/reload" None)
    (Printf (check_mark +:+ " Server configuration reloaded successfully." +:+ chr 10) ;;; ok).

(** *** Connections: a connection is remembered, and no command uses it. *)
Definition connectAction : Action := fun c =>
  let flags := ParseGlobalFlags c in
  let server := if String.eqb (First c) "" then g_Server flags else First c in
  err <- in_manager (Connect (MkConnection (c_String c "name") server (g_APIKeyID flags) (g_APIKey flags) false)) ;;
  match err with
  | Some err => fail (WrapError "connect failed" err)
  | None => Printf ("Connected to " +:+ server +:+ chr 10) ;;; ok
  end.
Definition disconnectAction : Action := fun c =>
  connected <- in_manager IsConnected ;;
  if connected then in_manager Disconnect ;;; Println "Disconnected" ;;; ok
  else Println "Not connected to any server" ;;; ok.
Definition useAction : Action := fun c =>
  if String.eqb (First c) "" then Errorf "connection name required"
  else Printf ("Switching to connection: " +:+ First c +:+ chr 10) ;;; ok.
End Commands.

(** ** The tree of commands *)
Inductive FlagKind := StringFlag (value : string) | IntFlag (value : Z) | BoolFlag | DurationFlag (value : Z) | StringSliceFlag.
Record Flag := MkFlag { fl_Name : string; fl_Aliases : list string; fl_Kind : FlagKind; fl_Required : bool; fl_EnvVars : list string }.
#[warnings="-register-all"]
Inductive Command (A : Type) :=
| Cmd (name : string) (aliases : list string) (flags : list Flag) (action : A)
| Group (name : string) (aliases : list string) (sub : list (Command A)).
Arguments Cmd {A} _ _ _ _.
Arguments Group {A} _ _ _.

Definition flag (name : string) (aliases : list string) (kind : FlagKind) : Flag := MkFlag name aliases kind false [].
Definition required (name : string) (aliases : list string) : Flag := MkFlag name aliases (StringFlag "") true [].
Definition force : Flag := flag "force" ["f"] BoolFlag.
Definition globalFlags : list Flag := [
  MkFlag "server" ["s"] (StringFlag "localhost:5080") false ["TOKMESH_SERVER"];
  MkFlag "api-key-id" ["k"] (StringFlag "") false ["TOKMESH_API_KEY_ID"];
  MkFlag "api-key" ["K"] (StringFlag "") false ["TOKMESH_API_KEY"];
  flag "output" ["o"] (StringFlag "table");
  flag "wide" ["w"] BoolFlag;
  flag "verbose" ["V"] BoolFlag].

Section App.
Context {W : Type} `{Transport W} `{Sprint} `{Files}.
#[local] Abbreviation Action := (Action (W := W)).
Definition SessionCommand : Command Action := Group "session" ["sess"] [
  Cmd "list" [] [flag "user-id" ["u"] (StringFlag ""); flag "page" [] (IntFlag 1); flag "page-size" [] (IntFlag 20)] sessionList;
  Cmd "get" [] [] sessionGet;
  Cmd "create" [] [required "user-id" ["u"]; flag "ttl" ["t"] (DurationFlag (12 * 3600 * 1000000000)); flag "data" ["d"] StringSliceFlag] sessionCreate;
  Cmd "renew" ["extend"] [flag "ttl" ["t"] (DurationFlag 0)] sessionRenew;
  Cmd "revoke" [] [force] sessionRevoke;
  Cmd "revoke-all" [] [force] sessionRevokeAll].
Definition APIKeyCommand : Command Action := Group "apikey" ["key"] [
  Cmd "list" [] [] apikeyList;
  Cmd "get" [] [] apikeyGet;
  Cmd "create" [] [required "name" ["n"]; required "role" ["r"]; flag "description" ["d"] (StringFlag ""); flag "rate-limit" [] (IntFlag 1000)] apikeyCreate;
  Cmd "disable" [] [force] apikeyDisable;
  Cmd "enable" [] [] apikeyEnable;
  Cmd "rotate" [] [force] apikeyRotate].
Definition SystemCommand : Command Action := Group "system" ["sys"] [
  Cmd "status" [] [] systemStatus;
  Cmd "health" [] [] systemHealth;
  Cmd "gc" [] [flag "dry-run" [] BoolFlag] systemGC].
Definition ConfigCommand : Command Action := Group "config" [] [
  Group "cli" [] [Cmd "show" [] [] configCLIShow; Cmd "validate" [] [] configCLIValidate];
  Group "server" ["cfg"] [
    Cmd "show" [] [flag "merged" [] BoolFlag] configServerShow;
    Cmd "test" [] [flag "remote" [] BoolFlag] configServerTest;
    Cmd "reload" [] [] configServerReload]].
Definition ConnectCommand : Command Action := Cmd "connect" [] [flag "name" ["n"] (StringFlag "")] connectAction.
Definition App : list (Command Action) := [ConnectCommand; SessionCommand; APIKeyCommand; SystemCommand; ConfigCommand].

(** The action that a list of names, or aliases, leads to. *)
Definition is_named (name : string) (c : Command Action) : bool :=
  match c with Cmd n l _ _ | Group n l _ => String.eqb name n || existsb (String.eqb name) l end.
Fixpoint find_action (cmds : list (Command Action)) (names : list string) : option Action :=
  match names with
  | [] => None
  | name :: names =>
      match List.find (is_named name) cmds with
      | Some (Cmd _ _ _ action) => match names with [] => Some action | _ => None end
      | Some (Group _ _ sub) => find_action sub names
      | None => None
      end
  end.
(** A new manager, and the action, if the names lead to one. *)
Definition run (names : list string) (c : Context) : option (M (Console W) (option (option error))) :=
  option_map (fun action => in_manager (put_st NewManager) ;;; action c) (find_action App names).
End App.
