(* ===== verification/CliSpec.v ===== *)
(** The command line client against the server the program runs: what a command does to the
    server, and what it tells its user. *)

From Stdlib Require Import Ascii String.
From stdpp Require Import list strings gmap fin_maps.
From S2P Require Import Prelude Errors GoStrings Strconv Encoding Float64 GoTime Json JsonFacts.
From S2P Require Import APIKey.
From S2P Require Import Lru AuthService AuthServiceSpec Session MemoryStore TokenService.
From S2P Require Import SessionService SessionServiceSpec.
From S2P Require Import HttpNet HttpHandler HttpServer HttpApiSpec CliOutput Cli.

Open Scope string_scope.
Open Scope Z_scope.

(** ** Addresses *)
Definition host_char (a : ascii) : bool :=
  negb (is_ctl a || Ascii.eqb a "/" || Ascii.eqb a "?" || Ascii.eqb a "#").
(** The scheme and the authority of a server. *)
Definition good_base (b : string) : Prop :=
  exists scheme host, (scheme = "http://" \/ scheme = "https://") /\ sforall host_char host = true /\ b = scheme +:+ host.
(** The elements of a path that is sent and routed as it is written. *)
Definition good_element (x : string) : bool :=
  sforall (fun a => path_char a && negb (Ascii.eqb a "/")) x &&
  negb (String.eqb x "" || String.eqb x "." || String.eqb x "..").
Definition path_of (els : list string) : string := Join ("" :: els) "/".

Lemma unescape_plain plus s : sforall (fun a => path_char a && negb (plus && Ascii.eqb a "+")) s = true -> unescape plus s = Some s.
Proof.
  induction s as [|a s IH]; [done|]; cbn [sforall unescape]; intros [[Ha Hp]%andb_true_iff Hs]%andb_true_iff.
  destruct (Ascii.eqb_spec a "%") as [->|_]; [discriminate Ha|]; rewrite IH by done; apply negb_true_iff in Hp as ->; done.
Qed.
Lemma PathUnescape_plain s : sforall path_char s = true -> PathUnescape s = Some s.
Proof. intros Hs; apply unescape_plain; revert Hs; apply sforall_weaken; intros a ->; done. Qed.
Lemma path_char_spec a : path_char a = true ->
  is_ctl a = false /\ Ascii.eqb a "?" = false /\ Ascii.eqb a "#" = false /\ valid_path_char a = true.
Proof.
  intros Ha; assert (implb (path_char a) (negb (is_ctl a) && negb (Ascii.eqb a "?") && negb (Ascii.eqb a "#") && valid_path_char a) = true) as H.
  { clear Ha; revert a; apply forall_ascii; vm_compute; reflexivity. }
  rewrite Ha in H; cbn [implb] in H; repeat apply andb_true_iff in H as [H ?]; by repeat split; try apply negb_true_iff.
Qed.
Lemma sforall_without p c s : sforall p s = true -> (forall a, p a = true -> Ascii.eqb a c = false) -> without c s = true.
Proof. intros Hs Hp; revert Hs; apply sforall_weaken; intros a Ha; by rewrite Hp. Qed.
Lemma cut_none c s : without c s = true -> cut s c = (s, "").
Proof. intros Hs; unfold cut, SplitN2; by rewrite Index_byte_none. Qed.
Lemma host_char_spec a : host_char a = true ->
  is_ctl a = false /\ Ascii.eqb a "/" = false /\ Ascii.eqb a "?" = false /\ Ascii.eqb a "#" = false.
Proof. unfold host_char; rewrite negb_true_iff, !orb_false_iff; tauto. Qed.

(** The address of a path on a server. *)
Lemma ParseURL_plain b p : good_base b -> sforall path_char (String "/" p) = true ->
  ParseURL (b +:+ String "/" p) = Some (MkURL b (String "/" p) "").
Proof.
  intros (scheme & host & Hsch & Hhost & ->) Hp; unfold ParseURL.
  assert (sforall (fun a => negb (is_ctl a) && negb (Ascii.eqb a "?") && negb (Ascii.eqb a "#")) (host +:+ String "/" p) = true) as Hu.
  { rewrite sforall_app; apply andb_true_iff; split.
    - revert Hhost; apply sforall_weaken; intros a (-> & _ & -> & ->)%host_char_spec; done.
    - revert Hp; apply sforall_weaken; intros a (-> & -> & -> & _)%path_char_spec; done. }
  assert (without "#" ((scheme +:+ host) +:+ String "/" p) = true) as Hf.
  { rewrite app_assoc_str, without_app; apply andb_true_iff; split; [by destruct Hsch as [->| ->]|].
    apply (sforall_without _ _ _ Hu); intros a [_ ?%negb_true_iff]%andb_true_iff; done. }
  rewrite (cut_none _ _ Hf), app_assoc_str.
  assert ((if HasPrefix (scheme +:+ host +:+ String "/" p) "https://" then "https://" else "http://") = scheme) as ->
    by (destruct Hsch as [->| ->]; [done|unfold HasPrefix; by rewrite str_prefix_app]).
  rewrite from_app, cut_none by (apply (sforall_without _ _ _ Hu); intros a [[_ ?%negb_true_iff]%andb_true_iff _]%andb_true_iff; done).
  rewrite Index_byte_app by (apply (sforall_without _ _ _ Hhost); by intros a (_ & ? & _)%host_char_spec).
  rewrite upto_app, from_app.
  assert (sforall (fun a => negb (is_ctl a)) (scheme +:+ host +:+ String "/" p) = true) as ->.
  { rewrite sforall_app; apply andb_true_iff; split; [by destruct Hsch as [->| ->]|].
    revert Hu; apply sforall_weaken; intros a [[-> _]%andb_true_iff _]%andb_true_iff; done. }
  unfold EscapedPath_of; rewrite (PathUnescape_plain (String "/" p)) by done.
  assert (sforall valid_path_char (String "/" p) = true) as ->; [|done].
  revert Hp; apply sforall_weaken; by intros a (_ & _ & _ & ?)%path_char_spec.
Qed.

(** ** Routes of good paths *)
Lemma good_chars x : good_element x = true -> sforall path_char x = true /\ without "/" x = true.
Proof.
  unfold good_element; intros [Hx _]%andb_true_iff; split; revert Hx; apply sforall_weaken; intros a [Ha Hs]%andb_true_iff; assumption.
Qed.
Lemma good_names x : good_element x = true -> String.eqb x "" = false /\ String.eqb x "." = false /\ String.eqb x ".." = false.
Proof. unfold good_element; rewrite andb_true_iff, negb_true_iff, !orb_false_iff; tauto. Qed.
Lemma clean_good els acc : Forall (fun x => good_element x = true) els -> clean_elements els acc = (rev acc ++ els)%list.
Proof.
  intros Hels; revert acc; induction Hels as [|x els Hx _ IH]; intros acc; [by rewrite app_nil_r|]; simpl.
  destruct (good_names x Hx) as (-> & -> & ->); simpl; rewrite IH; simpl; by rewrite <- (assoc_L app).
Qed.
Lemma path_of_cons x els : path_of (x :: els) = String "/" (Join (x :: els) "/").
Proof. done. Qed.
Lemma path_of_chars els : Forall (fun x => good_element x = true) els -> els <> [] ->
  sforall path_char (path_of els) = true.
Proof.
  intros Hels Hne; destruct els as [|x els]; [done|]; rewrite path_of_cons; cbn [sforall]; apply andb_true_iff; split; [done|].
  clear Hne; revert x Hels; induction els as [|y l IH]; intros x [Hx Hl]%Forall_cons.
  - by apply good_chars.
  - rewrite Join_cons, !sforall_app, IH by done; by rewrite (proj1 (good_chars x Hx)).
Qed.
Lemma Split_suffix c t : exists l, l <> [] /\ Split (t +:+ String c "") c = (l ++ [""])%list.
Proof.
  induction t as [|a t (l & Hl & IH)].
  - exists [""]; split; [done|]; change ("" +:+ String c "") with (String c ""); cbn [Split]; by rewrite Ascii.eqb_refl.
  - change (String a t +:+ String c "") with (String a (t +:+ String c "")); cbn [Split]; rewrite IH.
    destruct (Ascii.eqb a c); [by exists ("" :: l)|]; destruct l as [|p l]; [done|]; by exists (String a p :: l).
Qed.
Lemma Split_path els : Forall (fun x => good_element x = true) els -> Split (path_of els) "/" = "" :: els.
Proof.
  intros Hels; apply (Split_Join "/"); [done|]; constructor; [done|].
  eapply Forall_impl; [exact Hels|]; intros x Hx; by apply good_chars.
Qed.
Lemma cleanPath_good els : Forall (fun x => good_element x = true) els -> els <> [] -> cleanPath (path_of els) = path_of els.
Proof.
  intros Hels Hne; unfold cleanPath.
  assert (String.eqb (path_of els) "" = false /\ HasPrefix (path_of els) "/" = true) as [-> ->].
  { destruct els as [|x els]; [done|]; rewrite path_of_cons; split; [done|exact (str_prefix_app "/" _)]. }
  cbv zeta; rewrite Split_path by done.
  assert (clean_elements ("" :: els) [] = els) as -> by (cbn; by rewrite clean_good).
  assert (HasSuffix (path_of els) "/" = false) as ->.
  { apply not_true_is_false; intros (t & E)%HasSuffix_inv; pose proof (Split_path els Hels) as Hsp; rewrite E in Hsp.
    destruct (Split_suffix "/" t) as (l & _ & Hl); rewrite Hl in Hsp.
    destruct els as [|x els] using rev_ind; [done|]; rewrite app_comm_cons in Hsp; apply app_inj_tail in Hsp as [_ <-].
    apply Forall_app in Hels as [_ Hx]; inversion Hx as [|? ? Hg]; discriminate. }
  destruct els as [|x els]; [done|]; by rewrite path_of_cons.
Qed.
Lemma dispatch_good {A} (routes : list (pattern A)) m els : String.eqb m "CONNECT" = false ->
  Forall (fun x => good_element x = true) els -> els <> [] ->
  dispatch routes m (path_of els) =
    match head (omap (fun p => if serves (p_method p) m then option_map (pair (p_handler p)) (match_segments (p_segments p) els) else None) routes) with
    | Some (h, values) => Found h values
    | None => if existsb (fun p => match match_segments (p_segments p) els with Some _ => true | None => false end) routes
              then MethodNotAllowed else NotFound
    end.
Proof.
  intros Hm Hels Hne; unfold dispatch; rewrite Hm, cleanPath_good, String.eqb_refl by done; cbn [negb]; unfold find_route.
  assert (path_elements (path_of els) = els) as ->; [|done].
  unfold path_elements; rewrite Split_path by done; cbn [tail]; rewrite <- (map_id els) at 2; apply map_ext_Forall.
  eapply Forall_impl; [exact Hels|]; intros x Hx; unfold pathUnescape; rewrite PathUnescape_plain; [done|by apply good_chars].
Qed.

(** ** The network: a server at the other end

    Requests come from one address; a blank in the query spoils the request line. *)
Section Program.
Context {R K : Type} `{SessionRepository R} `{TokenRepository R} `{APIKeyRepository K}.
Context `{Argon2Lib} `{RateLib} `{UlidLib} `{TimeZone} `{Sprint} `{Files}.
#[local] Abbreviation Services := (HttpHandler.Services (R := R) (K := K)).

Definition from_peer (peer : string) (r : Request APIKey) : Request APIKey :=
  MkRequest (Method r) (HttpNet.EscapedPath r) (RawQuery r) (Header r) peer (Body r) (ctx_RequestID r) (ctx_APIKey r) (pathValues r).
Definition wire (peer : string) : Transport Services := fun _ r =>
  if GoStrings.Contains (RawQuery r) " " then ret (Ok (400, [], "400 Bad Request: malformed HTTP version"))
  else
    resp <- serve httpHandler (from_peer peer r) ;;
    ret (match resp with Some x => Ok x | None => Err (SimpleError "EOF") end).

Context (peer : string).
#[local] Instance net_instance : Transport Services := wire peer.

(** The flags with which the client can reach a server. *)
Definition reaches (c : Context) : Prop :=
  good_base (baseURL (EnsureConnected c)) /\ forallb (fun kv => valid_header (snd kv)) (addHeaders (EnsureConnected c)) = true.
Definition cli_request (c : Context) (method path : string) (body : option json) : Request APIKey :=
  MkRequest method path "" (addHeaders (EnsureConnected c) ++ match body with Some _ => [("Content-Type", "application/json")] | None => [] end)%list
    peer (match body with Some v => to_bytes (print v) | None => [] end) None None [].

Lemma wire_run b r (s s' : Services) e e' x : RawQuery r = "" -> serve httpHandler (from_peer peer r) s e = (Some x, s', e') ->
  wire peer b r s e = (Ok x, s', e').
Proof. intros Hq Hs; unfold wire; rewrite Hq; change (GoStrings.Contains "" " ") with false; cbv iota; by erewrite bind_run by exact Hs. Qed.
Lemma Do_answer n method url hs body (s s' : Services) e e' status rh text :
  forallb (fun kv => valid_header (snd kv)) hs = true -> u_query url = "" -> redirect_method status method = None ->
  serve httpHandler (MkRequest method (u_path url) "" hs peer body None None []) s e = (Some (status, rh, text), s', e') ->
  Do n method url hs body s e = (Ok (status, rh, text), s', e').
Proof.
  intros Hh Hq Hr Hs; destruct n; cbn [Do]; rewrite Hh; cbn [negb]; unfold round_trip, net_instance; rewrite Hq;
    erewrite bind_run by (apply wire_run; [done|exact Hs]); cbn [fst snd]; by rewrite Hr.
Qed.
Lemma Post_answer c els body (s s' : Services) e e' status rh text :
  reaches c -> Forall (fun x => good_element x = true) els -> els <> [] -> redirect_method status "POST" = None ->
  serve httpHandler (cli_request c "POST" (path_of els) body) s e = (Some (status, rh, text), s', e') ->
  Post (EnsureConnected c) (path_of els) body s e = (Ok (status, rh, text), s', e').
Proof.
  intros [Hb Hh] Hels Hne Hr Hs; unfold Post.
  pose proof (path_of_chars els Hels Hne) as Hp; destruct els as [|x els]; [done|]; rewrite path_of_cons in *.
  rewrite ParseURL_plain by done; apply Do_answer; [|done|done|exact Hs].
  rewrite forallb_app, Hh; by destruct body.
Qed.
Lemma Get_answer c els (s s' : Services) e e' status rh text :
  reaches c -> Forall (fun x => good_element x = true) els -> els <> [] -> redirect_method status "GET" = None ->
  serve httpHandler (cli_request c "GET" (path_of els) None) s e = (Some (status, rh, text), s', e') ->
  Get (EnsureConnected c) (path_of els) s e = (Ok (status, rh, text), s', e').
Proof.
  intros [Hb Hh] Hels Hne Hr Hs; unfold Get.
  pose proof (path_of_chars els Hels Hne) as Hp; destruct els as [|x els]; [done|]; rewrite path_of_cons in *.
  rewrite ParseURL_plain by done; apply Do_answer; [done|done|done|].
  unfold cli_request in Hs; by rewrite app_nil_r in Hs.
Qed.

(** *** The routes the commands use *)
Ltac route_tac Hid :=
  rewrite dispatch_good; [|done|repeat constructor; done|done];
  unfold registerRoutes; cbn;
  try change (parse_segment "{key_id}") with (Wild "key_id"); try change (parse_segment "{id}") with (Wild "id");
  try change (parse_segment "{user_id}") with (Wild "user_id");
  cbn; rewrite ?(proj1 (good_names _ Hid)); cbn;
  rewrite ?(proj1 (good_names _ Hid)); done.
Lemma route_status id : good_element id = true ->
  dispatch (registerRoutes (R := R) (K := K)) "POST" (path_of ["admin"; "v1"; "keys"; id; "status"]) = Found handleUpdateAPIKeyStatus [("key_id", id)].
Proof. intros Hid; route_tac Hid. Qed.
Lemma route_rotate id : good_element id = true ->
  dispatch (registerRoutes (R := R) (K := K)) "POST" (path_of ["admin"; "v1"; "keys"; id; "rotate"]) = Found handleRotateAPIKey [("key_id", id)].
Proof. intros Hid; route_tac Hid. Qed.
Lemma route_revoke id : good_element id = true ->
  dispatch (registerRoutes (R := R) (K := K)) "POST" (path_of ["sessions"; id; "revoke"]) = Found handleRevokeSession [("id", id)].
Proof. intros Hid; route_tac Hid. Qed.
Lemma route_key id : good_element id = true ->
  dispatch (registerRoutes (R := R) (K := K)) "GET" (path_of ["admin"; "v1"; "keys"; id]) = NotFound.
Proof. intros Hid; route_tac Hid. Qed.

(** *** Answers *)
Definition with_net (s : Services) (t : Console Services) : Console Services :=
  MkConsole (stdout t) (stderr t) (stdin t) (manager t) s.
Definition printed (o : list Output) (t : Console Services) : Console Services :=
  MkConsole (stdout t ++ o)%list (stderr t) (stdin t) (manager t) (net t).
Lemma printed_nil t : printed [] t = t.
Proof. unfold printed; rewrite app_nil_r; by destruct t. Qed.
Lemma over_net_run {A} (m : M Services A) t e a s' e' : m (net t) e = (a, s', e') -> over_net m t e = (a, with_net s' t, e').
Proof. intros Hm; unfold over_net, zoom; by rewrite Hm. Qed.

(** A type whose decoder looks for no member that an envelope has. *)
Definition ignores {A} (assign : string -> json -> A -> option A) : Prop :=
  forall k v x, k ∈ ["code"; "message"; "request_id"; "timestamp"; "data"] -> assign k v x = Some x.
Ltac ignores_tac :=
  intros k v x Hk; repeat (apply elem_of_cons in Hk as [->|Hk]; [first [reflexivity|by destruct x]|]); by inversion Hk.
Lemma nums_ok_members m : Forall (fun kv => nums_ok (snd kv) = true) m -> nums_ok (JObj m) = true.
Proof. intros Hm; apply forallb_forall; intros x Hx; eapply Forall_forall in Hm; [exact Hm|by apply list_elem_of_In]. Qed.
Lemma nums_ok_int z : in_i64 z -> nums_ok (JNum (FormatInt z)) = true.
Proof. exact (valid_FormatInt z). Qed.
Lemma envelope_nums code message id ts data : nums_ok data = true -> nums_ok (envelope code message id ts [("data", data)]) = true.
Proof.
  intros Hd; apply nums_ok_members; repeat constructor; [apply nums_ok_int, i64_range|exact Hd].
Qed.
Lemma envelope_ignored {A} (assign : string -> json -> A -> option A) z code message id ts data : ignores assign ->
  unmarshal assign z (clean (envelope code message id ts [("data", data)])) = Some z.
Proof.
  intros Hi; unfold envelope; cbn [clean map app fst snd unmarshal dec_members].
  change (ToLower (sanitize "code")) with "code"; change (ToLower (sanitize "message")) with "message";
  change (ToLower (sanitize "request_id")) with "request_id"; change (ToLower (sanitize "timestamp")) with "timestamp";
  change (ToLower (sanitize "data")) with "data".
  by rewrite !Hi by (rewrite !elem_of_cons; tauto).
Qed.
Lemma parse_ignored {A} (assign : string -> json -> A -> option A) z r tm data code hs : ignores assign -> nums_ok data = true ->
  code < 400 -> ParseResponse (unmarshal assign z) (code, hs, body_text r tm (Some data)) = Ok z.
Proof.
  intros Hi Hd Hc; unfold ParseResponse; cbn [fst snd]; rewrite (proj2 (Z.leb_gt _ _)) by lia; unfold body_text.
  rewrite decode_first_any by (first [by apply envelope_nums|done]); cbn [mbind option_bind]; by rewrite envelope_ignored.
Qed.
Lemma not_redirected code method : 400 <= code \/ code = 200 \/ code = 201 -> redirect_method code method = None.
Proof.
  intros Hc; unfold redirect_method.
  by rewrite (proj2 (Z.eqb_neq code 301)), (proj2 (Z.eqb_neq code 302)), (proj2 (Z.eqb_neq code 303)),
    (proj2 (Z.eqb_neq code 307)), (proj2 (Z.eqb_neq code 308)) by lia.
Qed.
Lemma parse_error {A} (decode : json -> option A) resp : 400 <= fst (fst resp) -> ParseResponse decode resp = Err (response_error resp).
Proof. intros Hr; unfold ParseResponse; by rewrite (proj2 (Z.leb_le _ _)). Qed.
Lemma with_arg_run c what k id : First c = id -> good_element id = true -> with_arg (W := Services) c what k = k id.
Proof. intros <- Hg; unfold with_arg; by rewrite (proj1 (good_names _ Hg)). Qed.

(** *** API keys *)
Lemma decode_sent {A} (assign : string -> json -> A -> option A) z (v : json) (r : Request APIKey) : nums_ok v = true ->
  Body r = to_bytes (print v) -> decode_body assign z r = unmarshal assign z (clean v).
Proof.
  intros Hv Hb; unfold decode_body; rewrite Hb; pose proof (decode_first_any v "" Hv I) as Hd.
  rewrite app_nil_str in Hd; by rewrite Hd.
Qed.
Lemma post_status_run `{!APIKeyRepositoryLaws K} c t e id k status text : reaches c -> good_element id = true ->
  auth_ok (authSvc (net t)) -> keys_of (auth_repo (authSvc (net t))) !! id = Some k ->
  exists t' e', post_status c id status text t e = (Some None, t', e') /\
    stdout t' = (stdout t ++ [Text ("API key " +:+ truncateID id +:+ " " +:+ text +:+ " successfully." +:+ chr 10)])%list /\
    auth_ok (authSvc (net t')) /\ items (cache (authSvc (net t'))) !! id = None /\
    keys_of (auth_repo (authSvc (net t'))) = <[id := set_Status KeyStatusDisabled k]> (keys_of (auth_repo (authSvc (net t)))).
Proof.
  intros Hc Hg Hs Hk; destruct (UpdateAPIKeyStatus_run (authSvc (net t)) id false e k Hs Hk) as (r' & c' & Hu & Hok & Hcache & Hkeys).
  set (els := ["admin"; "v1"; "keys"; id; "status"]); set (r := cli_request c "POST" (path_of els) (Some (status_body status))).
  set (s' := MkServices (tokenSvc (net t)) (set_cache c' (set_auth_repo r' (authSvc (net t)))) (Buckets (net t))).
  destruct (answer_run (with_pathValues [("key_id", id)] r) StatusOK (fun _ => success) (Ok true) s' e) as (code & hs & txt & Ha & -> & ->).
  exists (printed [Text ("API key " +:+ truncateID id +:+ " " +:+ text +:+ " successfully." +:+ chr 10)] (with_net s' t)), (tick e).
  split; [|by split_ands]; unfold post_status, request_nil.
  erewrite bind_run; [|apply over_net_run, (Post_answer c els _ _ s' _ (tick e) StatusOK hs
    (body_text (with_pathValues [("key_id", id)] r) (clk e 0%nat) success)); [done|by repeat constructor|done|by apply not_redirected; auto|]].
  { cbn [ParseResponse_nil fst snd]; reflexivity. }
  fold r; apply serve_answer; rewrite (httpHandler_route handleUpdateAPIKeyStatus [("key_id", id)] "POST" (path_of els));
    [|by split|by apply route_status].
  unfold handleUpdateAPIKeyStatus; cbv zeta; change (PathValue (with_pathValues [("key_id", id)] r) "key_id") with id.
  rewrite (proj1 (good_names _ Hg)); rewrite (decode_sent _ _ (status_body status)) by done; cbn [clean status_body map unmarshal dec_members fst snd];
  change (assign_status _ _ false) with (Some false); unfold done; erewrite bind_run; [reflexivity|].
  erewrite bind_run; [exact Ha|]; unfold in_auth, zoom; cbn [services authSvc]; by rewrite Hu.
Qed.

(** Enabling an API key from the command line disables it: for a key that the server has,
    [apikey enable] tells its user that the key has been enabled, and from then on the key is
    disabled and every validation with it is refused. *)
Theorem cli_enable_disables `{!APIKeyRepositoryLaws K} (c : Cli.Context) (t : Console Services) (e : env) (id : string) (k : APIKey)
    (Hc : reaches c) (Hid : First c = id) (Hg : good_element id = true)
    (Hs : auth_ok (authSvc (net t))) (Hk : keys_of (auth_repo (authSvc (net t))) !! id = Some k) :
  exists t' e', apikeyEnable c t e = (Some None, t', e') /\
    stdout t' = (stdout t ++ [Text ("API key " +:+ truncateID id +:+ " enabled successfully." +:+ chr 10)])%list /\
    keys_of (auth_repo (authSvc (net t'))) !! id = Some (set_Status KeyStatusDisabled k) /\
    (forall req e2, vreq_KeyID req = id -> fst (fst (ValidateAPIKey req (authSvc (net t')) e2)) = Err ErrAPIKeyDisabled).
Proof.
  destruct (post_status_run c t e id k "active" "enabled" Hc Hg Hs Hk) as (t' & e' & Hrun & Hout & Hok & Hcache & Hkeys).
  exists t', e'; split_ands; [|done|by rewrite Hkeys, lookup_insert_eq|].
  - unfold apikeyEnable; by rewrite (with_arg_run _ _ _ _ Hid Hg).
  - intros req e2 Hreq; eapply inactive_refused; [done|by rewrite Hreq|rewrite Hreq, Hkeys; apply lookup_insert_eq|discriminate].
Qed.

(** *** The system *)
Lemma route_health : dispatch (registerRoutes (R := R) (K := K)) "GET" (path_of ["health"]) = Found handleHealth [].
Proof. reflexivity. Qed.
Lemma route_gc : dispatch (registerRoutes (R := R) (K := K)) "POST" (path_of ["admin"; "v1"; "gc"; "trigger"]) = Found handleGCTrigger [].
Proof. reflexivity. Qed.
Lemma route_reload : dispatch (registerRoutes (R := R) (K := K)) "POST" (path_of ["admin"; "v1"; "config"; "reload"]) = NotFound.
Proof. reflexivity. Qed.

(** A healthy server is reported unhealthy: [system health] in its default format says so of
    every server that answers, and ends without an error. *)
Theorem cli_health_unhealthy (c : Cli.Context) (t : Console Services) (e : env) (Hc : reaches c) (Hj : is_json c = false) :
  exists e', systemHealth c t e = (Some None, printed [Text (cross_mark +:+ " Server is unhealthy: " +:+ "" +:+ chr 10)] t, e').
Proof.
  set (r := cli_request c "GET" (path_of ["health"]) None).
  set (doc := JObj [("status", JStr "healthy"); ("time", JStr (@RFC3339 (fun _ => 0) (unix_milli (clk e 0%nat))))]).
  destruct (writeJSON_run (with_pathValues [] r) StatusOK (Some doc) (net t) (tick e)) as (hs & Hw).
  exists (tick (tick e)); unfold systemHealth; erewrite bind_run; [|apply over_net_run, (Get_answer c ["health"] _ (net t) _ (tick (tick e)) StatusOK hs
    (body_text (with_pathValues [] r) (clk (tick e) 0%nat) (Some doc))); [done|by repeat constructor|done|by apply not_redirected; auto|]].
  - cbv beta iota; rewrite parse_ignored by (done || ignores_tac); rewrite Hj; done.
  - fold r; apply serve_answer; rewrite (httpHandler_route handleHealth [] "GET" (path_of ["health"])) by (by split || exact route_health).
    unfold handleHealth, status_answer, done; erewrite bind_run; [reflexivity|]; erewrite bind_run by reflexivity; exact Hw.
Qed.

(** A dry run collects: [system gc --dry-run] removes from the server exactly what the
    collection of expired sessions removes, as [system gc] does. *)
Theorem cli_dry_run_collects (c : Cli.Context) (t : Console Services) (e e1 : env) (res : Res Z) (repo : R)
    (Hc : reaches c) (Hdry : c_Bool c "dry-run" = true)
    (Hgc : SessionService.GC (ts_repo (tokenSvc (net t))) e = (res, repo, e1)) :
  exists r t' e', systemGC c t e = (r, t', e') /\
    net t' = MkServices (set_ts_repo repo (tokenSvc (net t))) (authSvc (net t)) (Buckets (net t)).
Proof.
  set (r := cli_request c "POST" (path_of ["admin"; "v1"; "gc"; "trigger"]) (Some (gc_body true))).
  set (s' := MkServices (set_ts_repo repo (tokenSvc (net t))) (authSvc (net t)) (Buckets (net t))).
  assert (exists status hs text e2, (400 <= status \/ status = 200 \/ status = 201) /\
    serve httpHandler r (net t) e = (Some (status, hs, text), s', e2)) as (status & hs & text & e2 & Hst & Hs).
  { assert (exists status hs text e2, (400 <= status \/ status = 200 \/ status = 201) /\
      handleGCTrigger (with_pathValues [] r) (MkExchange (net t) new_writer) e =
      (Some tt, MkExchange s' (MkWriter hs (Some (status, hs)) text), e2)) as (status & hs & text & e2 & Hst & Hh).
    - unfold handleGCTrigger, done; destruct res as [count|err].
      + destruct (writeJSON_run (with_pathValues [] r) StatusOK (Some (JObj [("cleaned_count", JNum (FormatInt count)); ("success", JBool true);
          ("triggered_at", JStr (@RFC3339 (fun _ => 0) (unix_milli (clk e1 0%nat))))])) s' (tick e1)) as (hs & Hw).
        do 4 eexists; split; [|erewrite bind_run; [reflexivity|]; erewrite bind_run by (apply run_in_sessions; exact Hgc);
          cbn beta iota; erewrite bind_run by reflexivity; exact Hw]; auto.
      + destruct (handleServiceError_run (with_pathValues [] r) err s' e1) as (status & hs & text & Hr & Hw).
        do 4 eexists; split; [|erewrite bind_run; [reflexivity|]; erewrite bind_run by (apply run_in_sessions; exact Hgc); exact Hw]; lia.
    - exists status, hs, text, e2; split; [done|]; apply serve_answer.
      by rewrite (httpHandler_route handleGCTrigger [] "POST" (path_of ["admin"; "v1"; "gc"; "trigger"])) by (by split || exact route_gc). }
  unfold systemGC; rewrite Hdry; cbv zeta; unfold Println, emit at 1, upd_st at 1; unfold bind at 1; unfold request.
  erewrite bind_run; [|apply over_net_run, (Post_answer c ["admin"; "v1"; "gc"; "trigger"] _ _ s' _ e2 status hs text);
    [done|by repeat constructor|done|by apply not_redirected|exact Hs]].
  cbv beta iota; match goal with |- context [ParseResponse ?d ?x] => destruct (ParseResponse d x) as [g|err] end; [|by do 3 eexists].
  destruct (is_json c); by do 3 eexists.
Qed.

(** *** Sessions *)
Lemma route_create : dispatch (registerRoutes (R := R) (K := K)) "POST" (path_of ["sessions"]) = Found handleCreateSession [].
Proof. reflexivity. Qed.
Lemma f64_to_i64_range x : in_i64 (f64_to_i64 x).
Proof.
  unfold in_i64; destruct x as [| | |neg m ex]; cbn [f64_to_i64]; try lia.
  destruct (_ && _) eqn:E; [|lia]; apply andb_true_iff in E as [?%Z.leb_le ?%Z.ltb_lt]; lia.
Qed.
Lemma create_body_nums user ttl data : nums_ok (create_body user ttl data) = true.
Proof.
  apply nums_ok_members, Forall_app; split.
  - destruct (0 <? llen data); [|done]; repeat constructor; apply nums_ok_members.
    apply Forall_map, Forall_true; done.
  - repeat constructor; apply nums_ok_int, f64_to_i64_range.
Qed.
Lemma created_json_nums resp d : created_json resp = Some d -> nums_ok d = true.
Proof.
  unfold created_json, members, str_member, time_member; destruct (RFC3339Nano (cr_ExpiresAt resp)); [|done].
  by intros [= <-].
Qed.
Lemma decode_create_user v b : unmarshal assign_create (MkCreateBody "" "" None 0) (clean v) = Some b ->
  forall user ttl data, v = create_body user ttl data -> cb_UserID b = sanitize user.
Proof.
  intros Hd user ttl data ->; revert Hd; unfold create_body; cbn [clean unmarshal]; rewrite map_app, dec_members_bind.
  destruct (dec_members assign_create _ _) as [b1|]; [|done]; cbn [mbind option_bind map fst snd clean dec_members].
  change (ToLower (sanitize "ttl_seconds")) with "ttl_seconds"; change (ToLower (sanitize "user_id")) with "user_id".
  unfold assign_create at 2; cbn; destruct (ParseInt _); [|done]; by intros [= <-].
Qed.
(** What the server makes of the request of [session create]. *)
Lemma create_served c (s : Services) e user ttl data :
  let r := cli_request c "POST" (path_of ["sessions"]) (Some (create_body user ttl data)) in
  exists status hs text s' e2, serve httpHandler r s e = (Some (status, hs, text), s', e2) /\
    (400 <= status \/
     status = 201 /\ exists req resp repo e1,
       SessionService.Create req (ts_repo (tokenSvc s)) e = (Ok resp, repo, e1) /\ c_UserID req = sanitize user /\
       s' = MkServices (set_ts_repo repo (tokenSvc s)) (authSvc s) (Buckets s) /\
       text = body_text (with_pathValues [] r) (clk e1 0%nat) (created_json resp)).
Proof.
  intros r; set (r1 := with_pathValues [] r).
  assert (forall st hs txt s' e2, handleCreateSession r1 (MkExchange s new_writer) e =
    (Some tt, MkExchange s' (MkWriter hs (Some (st, hs)) txt), e2) -> serve httpHandler r s e = (Some (st, hs, txt), s', e2)) as Hserve.
  { intros; apply serve_answer; by rewrite (httpHandler_route handleCreateSession [] "POST" (path_of ["sessions"])) by (by split || exact route_create). }
  unfold handleCreateSession in Hserve; unfold r1 in Hserve at 1.
  rewrite (decode_sent assign_create _ (create_body user ttl data)) in Hserve by (apply create_body_nums || done).
  destruct (unmarshal assign_create _ _) as [b|] eqn:Eb.
  - set (req := MkCreateRequest _ _ _ _ _ _ _ _) in Hserve.
    destruct (SessionService.Create req (ts_repo (tokenSvc s)) e) as [[res repo] e1] eqn:Ec.
    set (s' := MkServices (set_ts_repo repo (tokenSvc s)) (authSvc s) (Buckets s)).
    destruct (answer_run r1 StatusCreated created_json res s' e1) as (status & hs & text & Ha & Hres).
    exists status, hs, text, s', (tick e1); split.
    + apply Hserve; unfold done; erewrite bind_run; [reflexivity|]; erewrite bind_run by (apply run_in_sessions; exact Ec); exact Ha.
    + destruct res as [resp|err]; [|left; lia]; destruct Hres as [-> ->]; right; split; [done|].
      exists req, resp, repo, e1; split; [exact Ec|]; split; [|done]; unfold req; cbn [c_UserID].
      by apply (decode_create_user _ _ Eb user ttl data).
  - destruct (writeError_run r1 StatusBadRequest "TM-SYS-4000" "invalid request body" s e) as (hs & text & Hw).
    exists StatusBadRequest, hs, text, s, (tick e); split; [|by left].
    apply Hserve; unfold done, bad_body; by erewrite bind_run by exact Hw.
Qed.

(** A session created from the command line is lost to its user: whenever [session create] ends
    without an error, the server has created a session for the user named, and what is
    printed as its id and its token, with the advice to save it, is empty. *)
Theorem cli_create_hides_token (c : Cli.Context) (t t' : Console Services) (e e' : env) (Hc : reaches c)
    (Hrun : sessionCreate c t e = (Some None, t', e')) :
  stdout t' = (stdout t ++ [Text (created_text "" "")])%list /\
  exists req resp repo e1, SessionService.Create req (ts_repo (tokenSvc (net t))) e = (Ok resp, repo, e1) /\
    c_UserID req = sanitize (c_String c "user-id") /\
    net t' = MkServices (set_ts_repo repo (tokenSvc (net t))) (authSvc (net t)) (Buckets (net t)).
Proof.
  revert Hrun; unfold sessionCreate, request.
  set (body := create_body _ _ _); destruct (create_served c (net t) e (c_String c "user-id") (c_Duration c "ttl") (c_StringSlice c "data"))
    as (status & hs & text & s' & e2 & Hs & Hcases); fold body in Hs, Hcases.
  erewrite bind_run; [|apply over_net_run, (Post_answer c ["sessions"] (Some body) _ s' _ e2 status hs text);
    [done|by repeat constructor|done|apply not_redirected; lia|exact Hs]]; cbv beta iota.
  destruct Hcases as [Herr|(-> & req & resp & repo & e1 & Hcr & Hu & -> & ->)]; [by rewrite parse_error|].
  destruct (created_json resp) as [d|] eqn:Ed; [|done].
  rewrite parse_ignored; [|ignores_tac|by eapply created_json_nums|done].
  intros [= <- <-]; split; [done|]; by exists req, resp, repo, e1.
Qed.

(** C27: Revoking from the command line: [session revoke] asks first; without the consent it sends
    nothing, and with it, or forced, the session is revoked on the server, and the user is told
    so exactly when the server says so, and given an error otherwise. *)
Theorem cli_revoke (c : Cli.Context) (t : Console Services) (e e1 : env) (id : string) (res : Res bool) (repo : R)
    (Hc : reaches c) (Hid : First c = id) (Hg : good_element id = true)
    (Hrev : Revoke id (ts_repo (tokenSvc (net t))) e = (res, repo, e1)) :
  let question := Text ("Are you sure you want to revoke session '" +:+ truncateID id +:+ "'? [y/N]: ") in
  let asked := if c_Bool c "force" then t else printed [question] t in
  let server := MkServices (set_ts_repo repo (tokenSvc (net t))) (authSvc (net t)) (Buckets (net t)) in
  if c_Bool c "force" || String.eqb (scan_word (stdin t)) "y" || String.eqb (scan_word (stdin t)) "Y" then
    exists r o e', sessionRevoke c t e = (r, printed o (with_net server asked), e') /\
      match res with
      | Ok _ => r = Some None /\ o = [Text ("Session " +:+ truncateID id +:+ " revoked successfully." +:+ chr 10)]
      | Err _ => (exists err, r = Some (Some err)) /\ o = []
      end
  else sessionRevoke c t e = (Some None, printed [Text ("Cancelled." +:+ chr 10)] (printed [question] t), e).
Proof.
  intros question asked server; unfold sessionRevoke; rewrite (with_arg_run _ _ _ _ Hid Hg), <- orb_assoc; fold (yes (scan_word (stdin t))).
  set (send := request_nil _ _).
  assert (confirmed c ("Are you sure you want to revoke session '" +:+ truncateID id +:+ "'? [y/N]: ") yes send t e =
    if c_Bool c "force" || yes (scan_word (stdin t)) then send asked e
    else (Some None, printed [Text ("Cancelled." +:+ chr 10)] (printed [question] t), e)) as ->.
  { unfold confirmed, asked; destruct (c_Bool c "force"); [done|]; cbn [orb].
    unfold Printf, emit at 1, upd_st at 1, Scanln; unfold bind at 1; erewrite bind_run by reflexivity.
    change (stdin _) with (stdin t); by destruct (yes (scan_word (stdin t))). }
  destruct (c_Bool c "force" || yes (scan_word (stdin t))); [|done].
  assert (net asked = net t) as Hnet by (unfold asked; by destruct (c_Bool c "force")).
  set (r := cli_request c "POST" (path_of ["sessions"; id; "revoke"]) None); set (r1 := with_pathValues [("id", id)] r).
  destruct (answer_run r1 StatusOK (fun _ => success) res server e1) as (status & hs & text & Ha & Hst).
  assert (serve httpHandler r (net asked) e = (Some (status, hs, text), server, tick e1)) as Hs.
  { rewrite Hnet; apply serve_answer; rewrite (httpHandler_route handleRevokeSession [("id", id)] "POST" (path_of ["sessions"; id; "revoke"]))
      by (by split || by apply route_revoke).
    unfold handleRevokeSession; cbv zeta; change (PathValue (with_pathValues [("id", id)] r) "id") with id.
    rewrite (proj1 (good_names _ Hg)); unfold done; erewrite bind_run; [reflexivity|].
    erewrite bind_run by (apply run_in_sessions; exact Hrev); exact Ha. }
  unfold send, request_nil; destruct res as [b|err].
  - destruct Hst as [-> _]; eexists _, _, _; split; [|by split].
    erewrite bind_run; [|apply over_net_run, (Post_answer c ["sessions"; id; "revoke"] None _ server _ (tick e1) StatusOK hs text);
      [done|by repeat constructor|done|by apply not_redirected; auto|exact Hs]]; reflexivity.
  - eexists _, [], _; split; [|by split; [eexists|]]; rewrite printed_nil.
    erewrite bind_run; [|apply over_net_run, (Post_answer c ["sessions"; id; "revoke"] None _ server _ (tick e1) status hs text);
      [done|by repeat constructor|done|by apply not_redirected; lia|exact Hs]]; cbv beta iota.
    unfold ParseResponse_nil; cbn [fst snd]; by rewrite (proj2 (Z.leb_le 400 status)) by lia.
Qed.

(** Commands the server does not know: [apikey get] and [config server reload] end with the error
    of status 404 and leave the server as it is. *)
Theorem cli_unserved (c : Cli.Context) (t : Console Services) (e : env) (id : string)
    (Hc : reaches c) (Hid : First c = id) (Hg : good_element id = true) :
  apikeyGet c t e = (Some (Some (SimpleError "request failed with status 404")), t, e) /\
  configServerReload c t e =
    (Some (Some (SimpleError "request failed with status 404")), printed [Text ("Reloading server configuration..." +:+ chr 10)] t, e).
Proof.
  assert (forall r s, dispatch (registerRoutes (R := R) (K := K)) (Method r) (HttpNet.EscapedPath r) = NotFound ->
    serve httpHandler r s e = (Some (404, [], ""), s, e)) as Hserve.
  { intros r s Hd; apply serve_answer; unfold httpHandler, ServeHTTP, mux; by rewrite Hd. }
  assert (with_net (net t) t = t) as Ht by (by destruct t).
  split.
  - unfold apikeyGet; rewrite (with_arg_run _ _ _ _ Hid Hg); unfold request.
    erewrite bind_run; [|apply over_net_run, (Get_answer c ["admin"; "v1"; "keys"; id] _ (net t) _ e 404 [] "");
      [done|by repeat constructor|done|by apply not_redirected; lia|by apply Hserve, route_key]]; cbv beta iota.
    rewrite parse_error by done; by rewrite Ht.
  - unfold configServerReload, Println, emit at 1, upd_st at 1; unfold bind at 1; unfold request_nil.
    erewrite bind_run; [|apply over_net_run, (Post_answer c ["admin"; "v1"; "config"; "reload"] None _ (net t) _ e 404 [] "");
      [done|by repeat constructor|done|by apply not_redirected; lia|by apply Hserve, route_reload]]; reflexivity.
Qed.
End Program.

(** ** Witnesses: a server with one key and one session. *)
Section Demo.
#[local] Existing Instances AuthServiceSpec.demo_argon2 AuthServiceSpec.demo_rate HttpApiSpec.demo_ulid HttpApiSpec.demo_zone.
#[local] Instance demo_sprint : Sprint := fun _ => "?".
#[local] Instance demo_files : Files := { HomeDir := "/root"; IsNotExist _ := true; ReadFile _ := Err (SimpleError "no file") }.
#[local] Instance demo_net : Transport (Services (R := Store) (K := APIKeyStore.t)) := net_instance "192.0.2.1:4711".
Definition demo_context (strings : list (string * string)) (bools args : list string) : Cli.Context :=
  MkContext (fun name => default "" (assoc name strings)) (fun _ => 0) (fun name => existsb (String.eqb name) bools)
    (fun _ => 3600000000000) (fun _ => []) args.
Definition demo_server : Services (R := Store) (K := APIKeyStore.t) := MkServices (NewTokenService (New 50) None) demo_auth ∅.
Definition demo_console : Console (Services (R := Store) (K := APIKeyStore.t)) := MkConsole [] [] "" None demo_server.
Lemma demo_reaches bools args : reaches (demo_context [("server", "localhost:5080"); ("user-id", "alice")] bools args).
Proof. split; [|done]; exists "http://", "localhost:5080"; by split; [left|]. Qed.
Definition demo_cli : Cli.Context := demo_context [("server", "localhost:5080"); ("user-id", "alice")] ["force"; "dry-run"] ["tmak-1"].

Lemma cli_enable_disables_witness :
  exists t' e', apikeyEnable demo_cli demo_console demo_auth_env = (Some None, t', e') /\
    stdout t' = (stdout demo_console ++ [Text ("API key " +:+ truncateID "tmak-1" +:+ " enabled successfully." +:+ chr 10)])%list /\
    keys_of (auth_repo (authSvc (net t'))) !! "tmak-1" = Some (set_Status KeyStatusDisabled demo_key) /\
    (forall req e2, vreq_KeyID req = "tmak-1" -> fst (fst (ValidateAPIKey req (authSvc (net t')) e2)) = Err ErrAPIKeyDisabled).
Proof.
  unfold demo_net; apply (cli_enable_disables (R := Store) (K := APIKeyStore.t) "192.0.2.1:4711" demo_cli demo_console demo_auth_env "tmak-1" demo_key);
    [exact (demo_reaches _ _)|done|done|apply demo_auth_ok|apply lookup_singleton_eq].
Defined.
Lemma cli_health_unhealthy_witness :
  exists e', systemHealth demo_cli demo_console demo_auth_env =
    (Some None, printed [Text (cross_mark +:+ " Server is unhealthy: " +:+ "" +:+ chr 10)] demo_console, e').
Proof.
  unfold demo_net; apply (cli_health_unhealthy (R := Store) (K := APIKeyStore.t) "192.0.2.1:4711" demo_cli demo_console); [exact (demo_reaches _ _)|done].
Defined.
Lemma cli_dry_run_collects_witness :
  exists r t' e', systemGC demo_cli demo_console demo_auth_env = (r, t', e') /\
    net t' = MkServices (set_ts_repo (New 50) (tokenSvc demo_server)) demo_auth ∅.
Proof.
  destruct (SessionService.GC (ts_repo (tokenSvc (net demo_console))) demo_auth_env) as [[res repo] e1] eqn:E.
  assert (repo = New 50) as Hr by (vm_compute in E; injection E as _ <- _; by vm_compute).
  unfold demo_net; destruct (cli_dry_run_collects (R := Store) (K := APIKeyStore.t) "192.0.2.1:4711" demo_cli demo_console demo_auth_env e1 res repo
    (demo_reaches _ _) eq_refl E) as (r & t' & e' & Hrun & Hnet).
  exists r, t', e'; split; [exact Hrun|]; by rewrite Hnet, Hr.
Defined.
Lemma cli_create_hides_token_witness :
  match sessionCreate demo_cli demo_console HttpApiSpec.demo_env with
  | (Some None, t', e') => stdout t' = (stdout demo_console ++ [Text (created_text "" "")])%list /\
      exists req resp repo e1, SessionService.Create req (ts_repo (tokenSvc (net demo_console))) HttpApiSpec.demo_env = (Ok resp, repo, e1) /\
        c_UserID req = sanitize (c_String demo_cli "user-id") /\
        net t' = MkServices (set_ts_repo repo (tokenSvc (net demo_console))) (authSvc (net demo_console)) (Buckets (net demo_console))
  | _ => False
  end.
Proof.
  assert (match fst (fst (sessionCreate demo_cli demo_console HttpApiSpec.demo_env)) with Some None => True | _ => False end) as Hok
    by (vm_compute; exact I).
  destruct (sessionCreate demo_cli demo_console HttpApiSpec.demo_env) as [[r t'] e'] eqn:E; cbn [fst] in Hok.
  destruct r as [[err|]|]; [destruct Hok| |destruct Hok].
  exact (cli_create_hides_token (R := Store) (K := APIKeyStore.t) "192.0.2.1:4711" demo_cli demo_console t' _ e' (demo_reaches _ _) E).
Defined.
Lemma cli_revoke_witness :
  exists r o e', sessionRevoke demo_cli demo_console demo_auth_env = (r, printed o (with_net demo_server demo_console), e') /\
    r = Some None /\ o = [Text ("Session " +:+ truncateID "tmak-1" +:+ " revoked successfully." +:+ chr 10)].
Proof.
  unfold demo_net; exact (cli_revoke (R := Store) (K := APIKeyStore.t) "192.0.2.1:4711" demo_cli demo_console demo_auth_env demo_auth_env "tmak-1"
    (Ok true) (New 50) (demo_reaches _ _) eq_refl eq_refl eq_refl).
Defined.
Lemma cli_unserved_witness :
  apikeyGet demo_cli demo_console demo_auth_env = (Some (Some (SimpleError "request failed with status 404")), demo_console, demo_auth_env) /\
  configServerReload demo_cli demo_console demo_auth_env =
    (Some (Some (SimpleError "request failed with status 404")),
     printed [Text ("Reloading server configuration..." +:+ chr 10)] demo_console, demo_auth_env).
Proof.
  unfold demo_net; exact (cli_unserved (R := Store) (K := APIKeyStore.t) "192.0.2.1:4711" demo_cli demo_console demo_auth_env "tmak-1"
    (demo_reaches _ _) eq_refl eq_refl).
Defined.
End Demo.
