(* ===== verification/Program.v ===== *)
(** The server program: [internal/server/config], [internal/infra/shutdown] and
    [cmd/tokmesh-server/main.go].

    The program reads its configuration, opens the storage engine, recovers, makes the services
    and starts its servers; a signal runs the hooks registered for the shutdown.  The loader
    of configuration files, the directories of the host and the cluster server are
    arguments; of a server that listens the model keeps whether it does. *)

From Stdlib Require Import Ascii String.
From stdpp Require Import list strings gmap fin_maps.
From S2P Require Import Prelude Errors GoStrings Encoding APIKey AuthService Session MemoryStore.
From S2P Require Import TokenService.
From S2P Require Import SessionService WalCodec WalLog Snapshot Engine EngineRepo.
From S2P Require Import HttpHandler HttpServer Logger.
From S2P Require Cluster Rebalance.

Open Scope string_scope.
Open Scope Z_scope.

(** ** Configuration *)
Record HTTPConfig := MkHTTPConfig { http_Addr : string; http_TLSCertFile : string; http_TLSKeyFile : string }.
Record RedisConfig := MkRedisConfig { redis_Enabled : bool; redis_Addr : string }.
Record ServerSection := MkServerSection { sv_HTTP : HTTPConfig; sv_Redis : RedisConfig; sv_ClusterAddr : string; sv_LocalPath : string }.
Record StorageSection := MkStorageSection { st_DataDir : string; st_WALSyncInterval : Z; st_SnapshotKeep : Z }.
Record SecuritySection := MkSecuritySection { sec_EncryptionKey : string; sec_TLSCAFile : string }.
Record ClusterSection := MkClusterSection {
  cl_NodeID : string; cl_RaftAddr : string; cl_GossipAddr : string; cl_GossipPort : Z; cl_Bootstrap : bool; cl_Seeds : list string;
  cl_DataDir : string; cl_ReplicationFactor : Z; cl_RebalanceMaxRateMBps : Z; cl_RebalanceMinTTL : Z; cl_RebalanceConcurrentQty : Z }.
Record LogSection := MkLogSection { log_Level : string; log_Format : string }.
Record ServerConfig := MkServerConfig {
  c_Server : ServerSection; c_Storage : StorageSection; c_Security : SecuritySection; c_Cluster : ClusterSection; c_Log : LogSection }.

Definition DefaultHTTPAddr : string := "127.0.0.1:5080".
Definition DefaultRedisAddr : string := "127.0.0.1:6379".
Definition DefaultClusterAddr : string := "127.0.0.1:5343".
Definition DefaultLocalSocket : string := "/var/run/tokmesh-server/tokmesh-server.sock".
Definition DefaultDataDir : string := "/var/lib/tokmesh-server/data".
Definition DefaultWALSyncInterval : Z := 100 * 1000000.
Definition DefaultSnapshotKeep : Z := 3.
Definition Default : ServerConfig :=
  MkServerConfig
    (MkServerSection (MkHTTPConfig DefaultHTTPAddr "" "") (MkRedisConfig false DefaultRedisAddr) DefaultClusterAddr DefaultLocalSocket)
    (MkStorageSection DefaultDataDir DefaultWALSyncInterval DefaultSnapshotKeep)
    (MkSecuritySection "" "")
    (MkClusterSection "" "" "" 0 false [] "" 0 0 0 0)
    (MkLogSection "info" "json").

(** [os.MkdirAll]: its error, if any. *)
Class Directories := MkdirAll : string -> option error.
Definition verifyStorage `{Directories} (cfg : StorageSection) : option error :=
  if String.eqb (st_DataDir cfg) "" then Some (SimpleError "storage.data_dir is required")
  else match MkdirAll (st_DataDir cfg) with
       | Some err => Some (SimpleError ("cannot create data directory: " +:+ Errors.Error err))
       | None => if st_SnapshotKeep cfg <? 1 then Some (SimpleError "storage.snapshot_keep must be at least 1") else None
       end.
Definition Verify `{Directories} (cfg : ServerConfig) : option error := verifyStorage (c_Storage cfg).

(** *** Logged configuration *)
Fixpoint Repeat (s : string) (n : nat) : string := match n with O => "" | S n' => s +:+ Repeat s n' end.
Definition maskSecret (s : string) : string :=
  if slen s <=? 4 then "****"
  else upto 2 s +:+ Repeat "*" (String.length s - 4) +:+ from (String.length s - 2) s.
Definition Sanitize (cfg : ServerConfig) : ServerConfig :=
  let key := sec_EncryptionKey (c_Security cfg) in
  MkServerConfig (c_Server cfg) (c_Storage cfg)
    (if String.eqb key "" then c_Security cfg else MkSecuritySection (maskSecret key) (sec_TLSCAFile (c_Security cfg)))
    (c_Cluster cfg) (c_Log cfg).

(** *** The configuration of the cluster server *)
Definition generateNodeID {S} : M S (Res string) :=
  buf <-? rand_read 8 ;; ret (Ok ("tmnode-" +:+ hex_encode buf)).
(** The product is one of 64-bit integers. *)
Definition buildRebalanceConfig (cluster : ClusterSection) : Rebalance.RebalanceConfig :=
  let maxRateMBps := if cl_RebalanceMaxRateMBps cluster <=? 0 then 20 else cl_RebalanceMaxRateMBps cluster in
  let minTTL := if cl_RebalanceMinTTL cluster <=? 0 then 60 * 1000000000 else cl_RebalanceMinTTL cluster in
  let concurrentQty := if cl_RebalanceConcurrentQty cluster <=? 0 then 3 else cl_RebalanceConcurrentQty cluster in
  Rebalance.MkRebalanceConfig (i64 (maxRateMBps * 1024 * 1024)) minTTL concurrentQty 0.
Definition ToClusterConfig {S} (cfg : ServerConfig) (storageEngine : bool) : M S (Res (Cluster.Config * Rebalance.RebalanceConfig)) :=
  let c := c_Cluster cfg in
  nodeID <- (if String.eqb (cl_NodeID c) "" then generateNodeID else ret (Ok (cl_NodeID c))) ;;
  match nodeID with
  | Err err => ret (Err (WrapError "generate node ID" err))
  | Ok nodeID =>
      let rebalanceCfg := buildRebalanceConfig c in
      ret (Ok (Cluster.MkConfig nodeID "" (cl_RaftAddr c) (cl_GossipAddr c) (cl_GossipPort c) (cl_Bootstrap c) (cl_Seeds c)
        (cl_DataDir c) (cl_ReplicationFactor c) storageEngine (Rebalance.ConcurrentShards rebalanceCfg)
        (Cluster.MkTimeouts 0 0 0 0 0 0), rebalanceCfg))
  end.

(** ** Shutdown: [infra/shutdown] *)
Section Handler.
Context {S : Type}.
(** A hook gives an error or none; [None] is a panic. *)
Definition hook : Type := M S (option (option error)).
Definition OnShutdown (h : hook) (hooks : list hook) : list hook := (hooks ++ [h])%list.
(** All the hooks run, whatever they return; the last error stays. *)
Fixpoint run_hooks (hooks : list hook) (lastErr : option error) : hook :=
  match hooks with
  | [] => ret (Some lastErr)
  | h :: hooks =>
      err <- h ;;
      match err with
      | None => ret None
      | Some None => run_hooks hooks lastErr
      | Some (Some err) => run_hooks hooks (Some err)
      end
  end.
(** What [Wait] does once the signal is there. *)
Definition Wait (hooks : list hook) : hook := run_hooks (rev hooks) None.
End Handler.
Arguments hook : clear implicits.

(** ** The program *)
#[export] Instance Engine_TokenRepository : TokenRepository Engine := {
  GetSessionByTokenHash := Engine.GetSessionByTokenHash;
  UpdateSession := Engine.UpdateSession;
}.

Section Main.
Context `{Directories} `{RateLib}.

Record Proc := MkProc {
  proc_services : Services (R := Engine) (K := APIKeyStore.t);
  http_open : bool;
  http_TLS : bool;
  redis_open : bool;
  cluster_open : bool;
}.
Definition proc_engine (p : Proc) : Engine := ts_repo (tokenSvc (proc_services p)).
Definition set_engine (g : Engine) (p : Proc) : Proc :=
  MkProc (MkServices (set_ts_repo g (tokenSvc (proc_services p))) (authSvc (proc_services p)) (Buckets (proc_services p)))
    (http_open p) (http_TLS p) (redis_open p) (cluster_open p).

(** The outside: the file of the configuration, the directories of the log and the
    snapshots, how the other servers start and stop. *)
Record Host := MkHost {
  load : ServerConfig -> Res ServerConfig;
  wal_dir : Dir;
  snap_dir : SnapDir;
  cluster_start : Cluster.Config -> option error;
  redis_start : string -> option error;
  cluster_stop : option error;
  redis_stop : option error;
  http_stop : option error;
}.
Context (host : Host).

Definition loadConfig : Res ServerConfig :=
  match load host Default with
  | Err err => Err err
  | Ok cfg => match Verify cfg with Some err => Err (WrapError "invalid configuration" err) | None => Ok cfg end
  end.
(** The interval of the timer that flushes the log is set here too. *)
Definition storage_config (cfg : ServerConfig) : EngineConfig :=
  let c := DefaultConfig (st_DataDir (c_Storage cfg)) in
  let n := SnapshotCfg c in
  let keep := st_SnapshotKeep (c_Storage cfg) in
  MkEngineConfig (DataDir c) (WAL c)
    (if 0 <? keep then MkSnapConfig (s_Dir n) keep (RetentionDays n) (s_Cipher n) (s_NodeID n) else n)
    (MaxPerUser c) (SnapshotInterval c) (EngineCipher c) (cl_NodeID (c_Cluster cfg)).
Definition initStorage (cfg : ServerConfig) : env -> (Engine + error * Dir) * env :=
  Engine.New (storage_config cfg) (wal_dir host) (snap_dir host).

(** The cluster server, if the node has a name: its configuration, the check, the start. *)
Definition start_cluster (cfg : ServerConfig) : M Engine (Res bool) :=
  if String.eqb (cl_NodeID (c_Cluster cfg)) "" then ret (Ok false)
  else
    clusterCfg <- ToClusterConfig cfg true ;;
    ret match clusterCfg with
        | Err err => Err (WrapError "create cluster config" err)
        | Ok (clusterCfg, _) =>
            match Cluster.validate clusterCfg with
            | Err err => Err (WrapError "create cluster server" err)
            | Ok clusterCfg =>
                match cluster_start host clusterCfg with
                | Some err => Err (WrapError "start cluster server" err)
                | None => Ok true
                end
            end
        end.
Definition wants_TLS (cfg : ServerConfig) : bool :=
  let h := sv_HTTP (c_Server cfg) in negb (String.eqb (http_TLSCertFile h) "") && negb (String.eqb (http_TLSKeyFile h) "").

(** Up to the wait for a signal; [None] would be a recovery that never ends. *)
Definition start (e : env) : option (Proc + error) :=
  match loadConfig with
  | Err err => Some (inr (WrapError "load config" err))
  | Ok cfg =>
      match initStorage cfg e with
      | (inr (err, _), _) => Some (inr (WrapError "init storage" err))
      | (inl engine, e1) =>
          match Engine.Recover engine e1 with
          | (None, _, _) => None
          | (Some (Some err), _, _) => Some (inr (WrapError "storage recovery" err))
          | (Some None, engine, e2) =>
              let services := initServices engine APIKeyStore.NewAPIKeyStore in
              match start_cluster cfg engine e2 with
              | (Err err, _, _) => Some (inr err)
              | (Ok cluster, _, _) =>
                  let redis := redis_Enabled (sv_Redis (c_Server cfg)) in
                  match (if redis then redis_start host (redis_Addr (sv_Redis (c_Server cfg))) else None) with
                  | Some err => Some (inr (WrapError "start redis server" err))
                  | None => Some (inl (MkProc services true (wants_TLS cfg) redis cluster))
                  end
              end
          end
      end
  end.

(** *** The hooks, in the order in which they are registered. *)
Definition stop_cluster : hook Proc :=
  upd_st (fun p => MkProc (proc_services p) (http_open p) (http_TLS p) (redis_open p) false) ;;; ret (Some (cluster_stop host)).
Definition stop_redis : hook Proc :=
  upd_st (fun p => MkProc (proc_services p) (http_open p) (http_TLS p) false (cluster_open p)) ;;; ret (Some (redis_stop host)).
Definition stop_http : hook Proc :=
  upd_st (fun p => MkProc (proc_services p) false (http_TLS p) (redis_open p) (cluster_open p)) ;;; ret (Some (http_stop host)).
Definition close_storage : hook Proc := zoom proc_engine set_engine Engine.Close.
Definition hooks (cluster redis : bool) : list (hook Proc) :=
  let h := if cluster then OnShutdown stop_cluster [] else [] in
  let h := if redis then OnShutdown stop_redis h else h in
  let h := OnShutdown stop_http h in
  OnShutdown close_storage h.
Definition shutdown : hook Proc := p <- get_st ;; Wait (hooks (cluster_open p) (redis_open p)).
End Main.
