(* ===== verification/ProgramSpec.v ===== *)
(** The start and the end of the program: the configuration the cluster server gets, and what
    the order of the shutdown does to the requests that are still served. *)

From Stdlib Require Import Ascii String.
From stdpp Require Import list strings gmap fin_maps.
From S2P Require Import Prelude Errors GoStrings Encoding APIKey AuthService Session MemoryStore.
From S2P Require Import MemoryStoreFacts TokenService.
From S2P Require Import SessionService WalCodec WalLog Snapshot Engine EngineRepo.
From S2P Require Import HttpHandler HttpServer Program.
From S2P Require Cluster Rebalance.

Open Scope string_scope.
Open Scope Z_scope.

(** ** A closed log *)
Lemma preserves_put_st {S} (I : S -> Prop) s : I s -> preserves I (put_st s).
Proof. intros Hs x e _; exact Hs. Qed.
Definition is_closed (w : Writer) : Prop := closed w = true.
Lemma writeLocked_closed p : preserves is_closed (writeLocked p).
Proof. intros w e Hw; unfold writeLocked, bind, get_st, put_st, ret; by destruct (file w). Qed.
Lemma finalize_closed : preserves is_closed finalizeSegmentWithoutFlushingLocked.
Proof. intros w e Hw; unfold finalizeSegmentWithoutFlushingLocked, bind, get_st, put_st, ret; by destruct (file w). Qed.
Lemma openNew_closed : preserves is_closed openNewSegment.
Proof.
  intros w e Hw; unfold openNewSegment, bind at 1, get_st; cbv beta iota; unfold bind at 1, put_st; cbv beta iota.
  by apply writeLocked_closed.
Qed.
Lemma upd_closed f : (forall w, closed (f w) = closed w) -> preserves is_closed (upd_st f).
Proof. intros Hf; apply preserves_upd_st; intros w Hw; unfold is_closed; by rewrite Hf. Qed.
#[local] Hint Resolve writeLocked_closed finalize_closed openNew_closed : go.
#[local] Hint Extern 1 (preserves is_closed (upd_st _)) => (apply upd_closed; done) : go.
#[local] Opaque writeLocked finalizeSegmentWithoutFlushingLocked openNewSegment.
Lemma flush_closed : preserves is_closed flushLocked.
Proof. unfold flushLocked; preserves_tac. Qed.
#[local] Hint Resolve flush_closed : go.
#[local] Opaque flushLocked.
Lemma Close_closes w e : closed (snd (fst (WalLog.Close w e))) = true.
Proof.
  unfold WalLog.Close, bind at 1, get_st; cbv beta iota; destruct (closed w) eqn:Hw; [exact Hw|].
  unfold bind at 1, upd_st; cbv beta iota; unfold bind at 1; cbv beta iota; destruct (file (set_closed w)); [|done].
  assert (preserves is_closed finalizeSegmentLocked) as H by (unfold finalizeSegmentLocked; preserves_tac).
  specialize (H (set_closed w) e eq_refl); by destruct (finalizeSegmentLocked (set_closed w) e) as [[r w'] e'].
Qed.

(** ** An engine whose log is closed *)
Definition tick (e : env) : env := Env (fun k => clk e (k + 1)%nat) (rnd e) (ulids e).
Definition refused : error := WrapError "write wal" (SimpleError "wal: writer is closed").
Lemma set_wal_id g : set_wal (wal g) g = g.
Proof. by destruct g. Qed.
Lemma set_store_id g : set_store (store g) g = g.
Proof. by destruct g. Qed.
Lemma write_wal_closed new g e : closed (wal g) = true -> (exists x, new (wal g) e = (x, wal g, tick e)) ->
  write_wal new g e = (Some refused, g, tick e).
Proof.
  intros Hw (x & Hn); unfold write_wal; erewrite bind_run by (unfold in_wal, zoom; rewrite Hn; cbv beta iota; by rewrite set_wal_id).
  erewrite bind_run by (unfold in_wal, zoom, Append, bind, get_st; rewrite Hw; unfold ret; cbv beta iota; by rewrite set_wal_id); done.
Qed.
Lemma writes_refused g e : closed (wal g) = true ->
  (forall s, Engine.Create s g e = (Some refused, g, tick e)) /\
  (forall s v, Engine.Update s v g e = ((Some refused, s), g, tick e)) /\
  (forall s, Engine.UpdateSession s g e = (Some refused, g, tick e)) /\
  (forall id, Engine.Delete id g e = (Some refused, g, tick e)).
Proof.
  intros Hw; split_ands; intros; unfold Engine.Create, Engine.Update, Engine.UpdateSession, Engine.Delete;
    erewrite bind_run by (apply write_wal_closed; [done|by eexists]); done.
Qed.

(** Removing the sessions of a user is not refused: only the log says no. *)
Lemma in_store_read {A} (m : M Store A) g : preserves (eq (store g)) m -> preserves (eq g) (in_store m).
Proof.
  intros Hm x e <-; unfold in_store, zoom; specialize (Hm _ e eq_refl).
  destruct (m (store g) e) as [[a s] e']; subst s; by rewrite set_store_id.
Qed.
Lemma DeleteByUserID_closed g u e : closed (wal g) = true -> Inv (store g) -> exists e',
  Engine.DeleteByUserID u g e =
  (UserIndex.Count (userIndex (store g)) u, set_store (drop_all (UserIndex.Get (userIndex (store g)) u) (store g)) g, e').
Proof.
  intros Hw Hi; unfold Engine.DeleteByUserID.
  assert (preserves (eq g) (in_store (MemoryStore.ListByUserID u))) as Hl.
  { apply in_store_read; unfold MemoryStore.ListByUserID; preserves_tac. }
  specialize (Hl g e eq_refl); unfold bind at 1; destruct (in_store _ g e) as [[l g1] e1]; subst g1.
  assert (preserves (eq g) (for_range l (fun sess => write_wal (NewDeleteEntry (ID sess)) ;;; ret tt))) as Hd.
  { apply preserves_for_range; intros sess x e2 <-.
    by erewrite bind_run by (apply write_wal_closed; [done|by eexists]). }
  specialize (Hd g e1 eq_refl); unfold bind at 1; destruct (for_range l _ g e1) as [[[] g2] e2]; subst g2.
  exists e2; unfold in_store, zoom; by rewrite DeleteByUserID_run.
Qed.

Section Shutdown.
Context `{RateLib}.

(** ** The shutdown *)
Lemma Engine_Close_run g e : stopped g = false -> exists err w e', Engine.Close g e = (Some err, set_wal w (set_stopped g), e') /\ closed w = true.
Proof.
  intros Hg; unfold Engine.Close; erewrite bind_run by reflexivity; cbv beta; rewrite Hg.
  erewrite bind_run by reflexivity; unfold bind, in_wal, zoom; pose proof (Close_closes (wal (set_stopped g)) e) as Hc.
  destruct (WalLog.Close (wal (set_stopped g)) e) as [[err w] e']; by exists err, w, e'.
Qed.
Lemma close_storage_run p e : stopped (proc_engine p) = false -> exists err w e',
  close_storage p e = (Some err, set_engine (set_wal w (set_stopped (proc_engine p))) p, e') /\ closed w = true.
Proof.
  intros Hp; destruct (Engine_Close_run _ e Hp) as (err & w & e' & He & Hw); exists err, w, e'.
  unfold close_storage, zoom; by rewrite He.
Qed.
Lemma proc_engine_set g p : proc_engine (set_engine g p) = g.
Proof. done. Qed.

(** C26: The storage is the last part to register its hook, so it is the first that is closed.
    While the hooks after it have not run the servers answer requests: a session can
    neither be made nor changed nor deleted, but a request to revoke all the sessions of a
    user succeeds: they leave the memory, and the log and the snapshots, from which the next
    start rebuilds the sessions, still hold them. *)
Theorem shutdown_window (host : Host) (p : Proc) (e : env)
  (Hrun : stopped (proc_engine p) = false) (Hinv : Inv (store (proc_engine p))) :
  head (rev (hooks host (cluster_open p) (redis_open p))) = Some close_storage /\
  let '(_, p1, _) := close_storage p e in
  let g := proc_engine p1 in
  http_open p1 = http_open p /\ redis_open p1 = redis_open p /\ cluster_open p1 = cluster_open p /\
  stopped g = true /\ store g = store (proc_engine p) /\
  forall e1,
  (forall s, Engine.Create s g e1 = (Some refused, g, tick e1)) /\
  (forall s v, Engine.Update s v g e1 = ((Some refused, s), g, tick e1)) /\
  (forall s, Engine.UpdateSession s g e1 = (Some refused, g, tick e1)) /\
  (forall id, Engine.Delete id g e1 = (Some refused, g, tick e1)) /\
  forall u, let '(n, g2, _) := Engine.DeleteByUserID u g e1 in
    n = UserIndex.Count (userIndex (store g)) u /\
    (forall id, sessions (store g2) !! id = s ← sessions (store g) !! id; if decide (UserID s = u) then None else Some s) /\
    wal g2 = wal g /\ snapshot g2 = snapshot g.
Proof.
  split; [unfold hooks; by destruct (cluster_open p), (redis_open p)|].
  destruct (close_storage_run p e Hrun) as (err & w & e' & -> & Hw).
  set (g := set_wal w (set_stopped (proc_engine p))); cbv zeta; rewrite proc_engine_set.
  split_ands; [done..|]; intros e1; pose proof (writes_refused g e1 Hw) as (? & ? & ? & ?).
  split_ands; [done..|]; intros u; destruct (DeleteByUserID_closed g u e1 Hw Hinv) as (e2 & ->).
  split_ands; [done| |done..]; intros id; change (store g) with (store (proc_engine p)); change (store (set_store ?s _)) with s.
  pose proof (elem_of_Get (store (proc_engine p)) u id Hinv) as Hin; unfold has_session in Hin; rewrite lookup_drop_all.
  destruct (sessions (store (proc_engine p)) !! id) as [s|] eqn:Hs; cbn; [|by destruct (decide _)].
  case_decide as Hd; case_decide as Hu; try done.
  - apply Hin in Hd; by destruct Hd as (? & [= <-] & ?).
  - destruct Hd; apply Hin; by exists s.
Qed.

(** When the hooks are done, nothing listens any more and the engine is stopped, whatever the
    stops of the servers answered. *)
Theorem shutdown_complete (host : Host) (p : Proc) (e : env) (Hrun : stopped (proc_engine p) = false) :
  let '(r, p', _) := shutdown host p e in
  (exists err, r = Some err) /\ http_open p' = false /\ redis_open p' = false /\ cluster_open p' = false /\
  stopped (proc_engine p') = true /\ closed (wal (proc_engine p')) = true /\ store (proc_engine p') = store (proc_engine p).
Proof.
  destruct (close_storage_run p e Hrun) as (err & w & e' & Hc & Hw).
  unfold shutdown; erewrite bind_run by reflexivity; cbv beta; unfold Wait, hooks.
  destruct (cluster_open p) eqn:Ec, (redis_open p) eqn:Er; cbn [rev app OnShutdown run_hooks];
    (erewrite bind_run by exact Hc); unfold stop_http, stop_redis, stop_cluster, bind, upd_st, ret;
    destruct err, (http_stop host), (redis_stop host), (cluster_stop host); cbn;
    (split_ands; [eexists; reflexivity|done..|exact Hw|done]) || (split_ands; eauto).
Qed.

(** ** The configuration of the cluster server *)
(** A complete cluster section passes the checks of the cluster server; no cluster
    identifier is ever set, and the rate of a rebalancing is positive for a rate below 2^43 MB/s. *)
Theorem cluster_section_accepted (cfg : ServerConfig) (g : Engine) (e : env)
  (Hn : cl_NodeID (c_Cluster cfg) <> "") (Hr : cl_RaftAddr (c_Cluster cfg) <> "") (Hg : cl_GossipAddr (c_Cluster cfg) <> "")
  (Hp : cl_GossipPort (c_Cluster cfg) <> 0) (Hd : cl_DataDir (c_Cluster cfg) <> "")
  (Hb : cl_Bootstrap (c_Cluster cfg) = true -> cl_Seeds (c_Cluster cfg) = [])
  (Hf : cl_ReplicationFactor (c_Cluster cfg) <= 7) (Hm : cl_RebalanceMaxRateMBps (c_Cluster cfg) < 2 ^ 43) :
  exists c r c', ToClusterConfig cfg true g e = (Ok (c, r), g, e) /\ Cluster.validate c = Ok c' /\
    Cluster.cfg_ClusterID c' = "" /\ Cluster.cfg_NodeID c' = cl_NodeID (c_Cluster cfg) /\
    0 < Rebalance.MaxRateBytesPerSec r /\ 0 < Rebalance.ConcurrentShards r /\ 0 < Rebalance.MinTTL r.
Proof.
  unfold ToClusterConfig; rewrite (proj2 (String.eqb_neq _ _) Hn); erewrite bind_run by reflexivity; cbv beta iota.
  do 3 eexists; split; [reflexivity|]; unfold Cluster.validate, buildRebalanceConfig; cbn.
  rewrite !(proj2 (String.eqb_neq _ "")), (proj2 (Z.eqb_neq _ _) Hp) by done; rewrite andb_false_r.
  assert (cl_Bootstrap (c_Cluster cfg) && (0 <? llen (cl_Seeds (c_Cluster cfg))) = false) as ->.
  { destruct (cl_Bootstrap _); [by rewrite Hb|done]. }
  replace (7 <? _) with false by (symmetry; apply Z.ltb_ge; destruct (Z.ltb_spec (cl_ReplicationFactor (c_Cluster cfg)) 1); lia).
  split_ands; [reflexivity|done|done|..].
  - rewrite i64_id; unfold in_i64; destruct (Z.leb_spec (cl_RebalanceMaxRateMBps (c_Cluster cfg)) 0); lia.
  - destruct (Z.leb_spec (cl_RebalanceConcurrentQty (c_Cluster cfg)) 0); lia.
  - destruct (Z.leb_spec (cl_RebalanceMinTTL (c_Cluster cfg)) 0); lia.
Qed.
End Shutdown.

(** ** Witnesses *)
#[local] Instance demo_rate : RateLib := {
  Limiter := unit; NewLimiter _ _ := tt; Allow _ l := (true, l); reserve_delay _ l := ("0s", l) }.
Definition demo_session (id hash : string) : Session :=
  MkSession id "alice" hash "" "" "" "" "" "" 1000 9000 1000 None 1 0 0 false.
Definition demo_engine : Engine :=
  MkEngine (DefaultConfig "data") (put_session (demo_session "tmss-2" "h2") (put_session (demo_session "tmss-1" "h1") (MemoryStore.New 50)))
    (MkWriter ∅ (WAL (DefaultConfig "data")) 1 None 0 0 [] [] 0 false) (MkManager ∅ (SnapshotCfg (DefaultConfig "data"))) 0 false.
Definition demo_proc : Proc := MkProc (initServices demo_engine APIKeyStore.NewAPIKeyStore) true false true false.
Definition demo_host : Host :=
  MkHost (fun c => Ok c) ∅ ∅ (fun _ => None) (fun _ => None) None None (Some (SimpleError "context deadline exceeded")).
Definition demo_env : env := Env (fun _ => 5000000000) (fun _ _ => Err EOF) (fun _ => Err EOF).
Lemma demo_engine_Inv : Inv (store (proc_engine demo_proc)).
Proof.
  apply Inv_put_session; [apply Inv_put_session; [apply Inv_New| |]| |];
    try reflexivity; right; reflexivity.
Qed.

Lemma shutdown_window_witness :
  let '(_, p1, e1) := close_storage demo_proc demo_env in
  http_open p1 = true /\ redis_open p1 = true /\
  Engine.Delete "tmss-1" (proc_engine p1) e1 = (Some refused, proc_engine p1, tick e1) /\
  fst (fst (Engine.DeleteByUserID "alice" (proc_engine p1) e1)) = 2.
Proof.
  pose proof (shutdown_window demo_host demo_proc demo_env eq_refl demo_engine_Inv) as [_ H].
  destruct (close_storage demo_proc demo_env) as [[r p1] e1].
  destruct H as (Hh & Hr & _ & _ & Hst & H); destruct (H e1) as (_ & _ & _ & Hd & Hu); specialize (Hu "alice").
  destruct (Engine.DeleteByUserID _ _ _) as [[n g2] e2]; destruct Hu as [-> _].
  split; [exact Hh|]; split; [exact Hr|]; split; [apply Hd|]; rewrite Hst; vm_compute; reflexivity.
Defined.

Lemma shutdown_complete_witness :
  let '(r, p', _) := shutdown demo_host demo_proc demo_env in
  (exists err, r = Some err) /\ http_open p' = false /\ redis_open p' = false.
Proof.
  pose proof (shutdown_complete demo_host demo_proc demo_env eq_refl) as H.
  destruct (shutdown _ _ _) as [[r p'] e']; destruct H as (? & ? & ? & _); done.
Defined.

Lemma cluster_section_accepted_witness :
  let cfg := MkServerConfig (c_Server Default) (c_Storage Default) (c_Security Default)
    (MkClusterSection "n1" "10.0.0.1:7000" "10.0.0.1" 7946 false ["10.0.0.2:7946"] "data/raft" 3 50 0 0) (c_Log Default) in
  exists c r c', ToClusterConfig cfg true demo_engine demo_env = (Ok (c, r), demo_engine, demo_env) /\
    Cluster.validate c = Ok c' /\ Cluster.cfg_NodeID c' = "n1" /\ 0 < Rebalance.MaxRateBytesPerSec r.
Proof.
  cbv zeta; destruct (cluster_section_accepted (MkServerConfig (c_Server Default) (c_Storage Default) (c_Security Default)
    (MkClusterSection "n1" "10.0.0.1:7000" "10.0.0.1" 7946 false ["10.0.0.2:7946"] "data/raft" 3 50 0 0) (c_Log Default))
    demo_engine demo_env) as (c & r & c' & ? & ? & _ & ? & ? & _); try discriminate; [done|]; by exists c, r, c'.
Defined.
