(* ===== verification/Badger.v ===== *)
(** The embedded key-value engine: [internal/storage/kv.go] and [internal/storage/badger.go].

    The Badger database is third-party code: a class of operations on a type of databases and a
    type of transactions, with what its documentation says of them as laws.  The model leaves out
    the logger and the registry of the metrics; [gc_interval] is what the loop of the background
    collection waits for, and each of its rounds is a [GC]. *)

From Stdlib Require Import Ascii String.
From stdpp Require Import list strings gmap fin_maps.
From S2P Require Import Prelude Errors GoStrings Encoding Float64.

Open Scope string_scope.
Open Scope Z_scope.

(** ** Configuration *)
Record BadgerConfig := MkBadgerConfig {
  GCInterval : string; GCThreshold : float64; CacheSize : Z; ValueLogFileSize : Z; NumMemtables : Z;
  NumLevelZeroTables : Z; NumLevelZeroTablesStall : Z; SyncWrites : bool; DetectConflicts : bool }.
Record KVConfig := MkKVConfig { kv_Engine : string; kv_Dir : string; kv_Badger : BadgerConfig }.
Definition DefaultBadgerConfig : BadgerConfig :=
  MkBadgerConfig "10m" (f64_div (f64_of_Z 1) (f64_of_Z 2)) (Z.shiftl 64 20) (Z.shiftl 1 30) 2 5 10 false false.
Definition DefaultKVConfig (dir : string) : KVConfig := MkKVConfig "badger" dir DefaultBadgerConfig.

Record KVStats := MkKVStats { TotalKeys : Z; TotalSize : Z; LSMSize : Z; ValueLogSize : Z; LastGCTime : Z; GCBytesReclaimed : Z }.

Definition ErrKeyNotFound := SimpleError "key not found".
Definition ErrClosed := SimpleError "kv engine closed".

(** ** The database *)
(** The options the engine sets; the rest of them is what [badger.DefaultOptions] gives. *)
Record Options := MkOptions { o_Dir : string; o_cfg : BadgerConfig }.

(** [View] and [Update] run a function in a transaction; the function also changes the
    variables it captures.  An error of the function, or one of [View] and [Update]
    themselves, is the error of the call. *)
Class Badger (Disk DB Txn : Type) := {
  badger_Open : Options -> Disk -> Res DB;
  badger_Close : DB -> option error * DB;
  badger_View {A} : (Txn -> A -> A * option error) -> A -> DB -> A * option error;
  badger_Update {A} : (Txn -> A -> (Txn * A) * option error) -> A -> DB -> (DB * A) * option error;
  txn_Get : bytes -> Txn -> Res bytes;
  txn_Set : bytes -> bytes -> Txn -> Txn * option error;
  txn_Delete : bytes -> Txn -> Txn * option error;
  (* the items of an iterator: the keys with the prefix, and what copying their value gives *)
  txn_items : bytes -> Txn -> list (bytes * Res bytes);
  badger_Backup : DB -> Res bytes;
  badger_Load : bytes -> DB -> option error * DB;
  badger_RunValueLogGC : float64 -> DB -> option error * DB;
  badger_Size : DB -> Z * Z;
  badger_ErrKeyNotFound : error;
  badger_ErrNoRewrite : error;
  os_RemoveAll : string -> Disk -> option error * Disk;
  os_MkdirAll : string -> Disk -> option error * Disk;
}.

(** What the documentation says: the pairs an open database holds, those a transaction sees,
    and that a transaction changes the database as a whole or not at all. *)
Class BadgerLaws (Disk DB Txn : Type) `{Badger Disk DB Txn} := {
  contents : DB -> gmap bytes bytes;
  is_open : DB -> Prop;
  seen : Txn -> gmap bytes bytes;
  law_sentinel : errors_is badger_ErrKeyNotFound badger_ErrKeyNotFound = true;
  law_View : forall d, is_open d -> exists t, seen t = contents d /\
    forall A (f : Txn -> A -> A * option error) a, badger_View f a d = f t a;
  law_Update : forall d A (f : Txn -> A -> (Txn * A) * option error) a, is_open d -> exists t, seen t = contents d /\
    let '((t', a'), err) := f t a in
    let '((d', b), err') := badger_Update f a d in
    b = a' /\ is_open d' /\ (err <> None -> err' = err) /\
    contents d' = match err' with None => seen t' | Some _ => contents d end;
  law_Get : forall k t, k <> [] ->
    match seen t !! k with Some v => txn_Get k t = Ok v | None => txn_Get k t = Err badger_ErrKeyNotFound end;
  law_Set : forall k v t, let '(t', err) := txn_Set k v t in
    seen t' = match err with None => <[k := v]> (seen t) | Some _ => seen t end;
  law_Delete : forall k t, let '(t', err) := txn_Delete k t in
    seen t' = match err with None => delete k (seen t) | Some _ => seen t end;
  law_items : forall prefix t, NoDup (map fst (txn_items prefix t)) /\
    forall k, k ∈ map fst (txn_items prefix t) <-> prefix `prefix_of` k /\ is_Some (seen t !! k);
  law_values : forall prefix t k v, (k, Ok v) ∈ txn_items prefix t -> seen t !! k = Some v;
  law_Close : forall d err d', badger_Close d = (err, d') -> ~ is_open d';
  law_Open : forall o disk e1 disk1 e2 disk2 d, os_RemoveAll (o_Dir o) disk = (e1, disk1) -> e1 = None ->
    os_MkdirAll (o_Dir o) disk1 = (e2, disk2) -> e2 = None -> badger_Open o disk2 = Ok d -> is_open d /\ contents d = ∅;
  law_Load : forall src b d d', is_open src -> badger_Backup src = Ok b -> is_open d -> contents d = ∅ ->
    badger_Load b d = (None, d') -> is_open d' /\ contents d' = contents src;
  law_GC : forall r d, is_open d -> let '(_, d') := badger_RunValueLogGC r d in is_open d' /\ contents d' = contents d;
}.

(** [time.ParseDuration], in nanoseconds. *)
Class Durations := ParseDuration : string -> Res Z.

(** ** The engine *)
Section Engine.
Context {Disk DB Txn : Type} `{Badger Disk DB Txn}.

(** The file system is part of the state; [stopped] is the closed channel [stopCh]. *)
Record BadgerEngine := MkBadgerEngine {
  db : DB; opts : Options; disk : Disk; lastGCTime : Z; gcBytesReclaimed : Z; kv_stopped : bool }.
Definition set_db (d : DB) (e : BadgerEngine) : BadgerEngine :=
  MkBadgerEngine d (opts e) (disk e) (lastGCTime e) (gcBytesReclaimed e) (kv_stopped e).
Definition set_disk (d : Disk) (e : BadgerEngine) : BadgerEngine :=
  MkBadgerEngine (db e) (opts e) d (lastGCTime e) (gcBytesReclaimed e) (kv_stopped e).

Definition NewBadgerEngine (cfg : KVConfig) (dsk : Disk) : Res BadgerEngine :=
  if String.eqb (kv_Dir cfg) "" then Err (SimpleError "badger: dir is required")
  else
    let o := MkOptions (kv_Dir cfg) (kv_Badger cfg) in
    match badger_Open o dsk with
    | Err err => Err (WrapError "badger: open db" err)
    | Ok d => Ok (MkBadgerEngine d o dsk 0 0 false)
    end.

Definition Get (key : bytes) : M BadgerEngine (Res bytes) :=
  e <- get_st ;;
  ret match badger_View (fun txn value =>
          match txn_Get key txn with
          | Err err => (value, Some (if errors_is err badger_ErrKeyNotFound then ErrKeyNotFound else err))
          | Ok v => (v, None)
          end) [] (db e) with
      | (_, Some err) => Err err
      | (value, None) => Ok value
      end.

(** A transaction that captures nothing. *)
Definition update (f : Txn -> Txn * option error) : M BadgerEngine (option error) :=
  e <- get_st ;;
  let '((d, _), err) := badger_Update (fun txn (u : unit) => let '(txn, err) := f txn in ((txn, u), err)) tt (db e) in
  put_st (set_db d e) ;;; ret err.
Definition Set_ (key value : bytes) : M BadgerEngine (option error) := update (txn_Set key value).
Definition Delete (key : bytes) : M BadgerEngine (option error) := update (txn_Delete key).

Definition be64_get (b : bytes) : Z := be32_get (firstn 4 b) * 4294967296 + be32_get (skipn 4 b).
Definition AppendEntry (key value : bytes) : M BadgerEngine (Res Z) :=
  err <- Set_ key value ;;
  ret match err with
      | Some err => Err err
      | None => Ok (if llen key =? 8 then be64_get key else 0)
      end.

(** The callback has a state; it says whether to go on. *)
Fixpoint scan_items {A} (items : list (bytes * Res bytes)) (fn : bytes -> bytes -> A -> A * bool) (a : A) : A * option error :=
  match items with
  | [] => (a, None)
  | (key, Err err) :: _ => (a, Some err)
  | (key, Ok value) :: items => let '(a, more) := fn key value a in if more then scan_items items fn a else (a, None)
  end.
Definition Scan {A} (prefix : bytes) (fn : bytes -> bytes -> A -> A * bool) (a : A) : M BadgerEngine (A * option error) :=
  e <- get_st ;; ret (badger_View (fun txn a => scan_items (txn_items prefix txn) fn a) a (db e)).

(** What a snapshot holds, as its reader gives it: the file it lives in is removed when the
    reader is closed. *)
Definition SaveSnapshot : M BadgerEngine (Res bytes) :=
  e <- get_st ;;
  ret match badger_Backup (db e) with Err err => Err (WrapError "backup" err) | Ok b => Ok b end.

(** A reader that fails, or one with so many bytes; each step that fails leaves what the
    steps before it did. *)
Definition LoadSnapshot (r : bytes) : M BadgerEngine (option error) :=
  e <- get_st ;;
  let '(err, closed) := badger_Close (db e) in
  put_st (set_db closed e) ;;;
  match err with
  | Some err => ret (Some (WrapError "close current db" err))
  | None =>
      let '(err, dsk) := os_RemoveAll (o_Dir (opts e)) (disk e) in
      upd_st (set_disk dsk) ;;;
      match err with
      | Some err => ret (Some (WrapError "remove existing data" err))
      | None =>
          let '(err, dsk) := os_MkdirAll (o_Dir (opts e)) dsk in
          upd_st (set_disk dsk) ;;;
          match err with
          | Some err => ret (Some (WrapError "create db dir" err))
          | None =>
              match badger_Open (opts e) dsk with
              | Err err => ret (Some (WrapError "open new db" err))
              | Ok d =>
                  match badger_Load r d with
                  | (Some err, d) => ret (Some (WrapError "load snapshot" err))
                  | (None, d) => upd_st (set_db d) ;;; ret None
                  end
              end
          end
      end
  end.

(** The loop over the keys, with the number it deleted. *)
Fixpoint prune_items (items : list (bytes * Res bytes)) (beforeOffset : Z) (txn : Txn) (deleted : Z) : (Txn * Z) * option error :=
  match items with
  | [] => ((txn, deleted), None)
  | (key, _) :: items =>
      if (llen key =? 8) && (be64_get key <? beforeOffset) then
        match txn_Delete key txn with
        | (txn, Some err) => ((txn, deleted), Some err)
        | (txn, None) => prune_items items beforeOffset txn (deleted + 1)
        end
      else prune_items items beforeOffset txn deleted
  end.
Definition Prune (beforeOffset : Z) : M BadgerEngine (option error) :=
  e <- get_st ;;
  let '((d, _), err) := badger_Update (fun txn deleted => prune_items (txn_items [] txn) beforeOffset txn deleted) 0 (db e) in
  put_st (set_db d e) ;;; ret err.

(** Each round counts for a megabyte; [None] is a loop that has not ended. *)
Fixpoint gc_rounds (fuel : nat) (totalReclaimed : Z) : M BadgerEngine (option (Z * option error)) :=
  match fuel with
  | O => ret None
  | S fuel' =>
      e <- get_st ;;
      let '(err, d) := badger_RunValueLogGC (GCThreshold (o_cfg (opts e))) (db e) in
      put_st (set_db d e) ;;;
      match err with
      | Some err =>
          ret (Some (totalReclaimed, if errors_is err badger_ErrNoRewrite then None else Some (WrapError "gc" err)))
      | None => gc_rounds fuel' (u64 (totalReclaimed + Z.shiftl 1 20))
      end
  end.
Definition GC (fuel : nat) : M BadgerEngine (option (Z * option error)) :=
  r <- gc_rounds fuel 0 ;;
  match r with
  | Some (totalReclaimed, None) =>
      now <- now_milli ;;
      upd_st (fun e => MkBadgerEngine (db e) (opts e) (disk e) now (u64 (gcBytesReclaimed e + totalReclaimed)) (kv_stopped e)) ;;;
      ret r
  | _ => ret r
  end.
(** What the ticker of the loop is made with; it panics, in its own goroutine, when that is
    not positive. *)
Definition gc_interval `{Durations} (cfg : BadgerConfig) : option Z :=
  let interval := match ParseDuration (GCInterval cfg) with Ok d => d | Err _ => 600 * 1000000000 end in
  if 0 <? interval then Some interval else None.

Definition Stats : M BadgerEngine KVStats :=
  e <- get_st ;;
  let '(lsm, vlog) := badger_Size (db e) in
  ret (MkKVStats 0 (u64 (i64 (lsm + vlog))) (u64 lsm) (u64 vlog) (lastGCTime e) (gcBytesReclaimed e)).

(** [None] is the panic of closing a closed channel. *)
Definition Close : M BadgerEngine (option (option error)) :=
  e <- get_st ;;
  if kv_stopped e then ret None
  else
    let '(err, d) := badger_Close (db e) in
    put_st (MkBadgerEngine d (opts e) (disk e) (lastGCTime e) (gcBytesReclaimed e) true) ;;;
    ret (Some (option_map (WrapError "close db") err)).

(** ** Metrics *)
(** The gauges, and the counter of reclaimed bytes, as what they show. *)
Record Metrics := MkMetrics {
  metricsLSMSize : float64; metricsValueLogSize : float64; metricsTotalSize : float64; metricsLastGCTime : float64; metricsGCReclaimed : float64 }.
Definition f64_zero : float64 := f64_of_Z 0.
Definition RegisterMetrics : Metrics := MkMetrics f64_zero f64_zero f64_zero f64_zero f64_zero.
(** A tick of the loop; the counter is told to add zero. *)
Definition metricsUpdate (m : Metrics) : M BadgerEngine Metrics :=
  stats <- Stats ;;
  ret (MkMetrics (f64_of_Z (LSMSize stats)) (f64_of_Z (ValueLogSize stats)) (f64_of_Z (TotalSize stats))
         (if 0 <? LastGCTime stats then f64_div (f64_of_Z (LastGCTime stats)) (f64_of_Z 1000) else metricsLastGCTime m)
         (if 0 <? GCBytesReclaimed stats then f64_add (metricsGCReclaimed m) (f64_of_Z 0) else metricsGCReclaimed m)).
(** The ticks of the loop, between which the engine does what it does. *)
Fixpoint metricsUpdateLoop (ticks : list (M BadgerEngine unit)) (m : Metrics) : M BadgerEngine Metrics :=
  match ticks with [] => ret m | between :: ticks => between ;;; m <- metricsUpdate m ;; metricsUpdateLoop ticks m end.

(** However much the collection of garbage reclaims, the counter shows zero. *)
Lemma reclaimed_stays_zero ticks m e en m' e' en' : metricsGCReclaimed m = f64_zero ->
  metricsUpdateLoop ticks m e en = (m', e', en') -> metricsGCReclaimed m' = f64_zero.
Proof.
  revert m e en; induction ticks as [|t ticks IH]; intros m e en Hm; cbn; [by intros [= <- <- <-]|].
  unfold bind at 1; destruct (t e en) as [[[] e1] en1]; unfold metricsUpdate, Stats, bind, get_st, ret.
  destruct (badger_Size (db e1)) as [lsm vlog]; apply IH; cbn; rewrite Hm; by case_match.
Qed.

(** ** The reader of a snapshot that removes its file *)
(** The first error, of closing or of removing. *)
Definition autoDelete_Close (close_err remove_err : option error) : option error :=
  match close_err with Some err => Some err | None => remove_err end.
End Engine.
