(* ===== verification/BadgerSpec.v ===== *)
(** The key-value engine is a finite map with prefix scans, and its snapshots carry that map. *)

From Stdlib Require Import Ascii String.
From stdpp Require Import list strings gmap fin_maps.
From S2P Require Import Prelude Errors GoStrings Encoding Float64 Badger.

Open Scope string_scope.
Open Scope Z_scope.

Section Spec.
Context {Disk DB Txn : Type} `{BadgerLaws Disk DB Txn}.

(** A log index that pruning removes. *)
Definition prunable (off : Z) (key : bytes) : bool := (llen key =? 8) && (be64_get key <? off).

Lemma prune_items_spec off items t n : let '((t', _), err) := prune_items items off t n in
  err = None -> forall k, seen t' !! k = if decide (k ∈ map fst items /\ prunable off k = true) then None else seen t !! k.
Proof.
  revert t n; induction items as [|[key v] items IH]; intros t n; cbn [prune_items map fst].
  { intros _ k; rewrite decide_False; [done|]; intros [Hk _]; by apply elem_of_nil in Hk. }
  change ((llen key =? 8) && (be64_get key <? off)) with (prunable off key).
  destruct (prunable off key) eqn:Hp.
  - pose proof (law_Delete key t) as Hd; destruct (txn_Delete key t) as [t1 [err|]]; [done|].
    specialize (IH t1 (n + 1)); destruct (prune_items items off t1 (n + 1)) as [[t2 m] err]; intros He k.
    rewrite IH, Hd by done; destruct (decide (k = key)) as [->|Hne].
    + rewrite lookup_delete_eq, (decide_True _ _ (P := _ ∈ key :: _ /\ _)) by (split; [by apply list_elem_of_here|done]).
      by case_decide.
    + rewrite lookup_delete_ne by done; case_decide as H1; case_decide as H2; try done; exfalso.
      * apply H2; destruct H1; split; [by apply list_elem_of_further|done].
      * apply H1; destruct H2 as [H2 ?]; split; [by apply elem_of_cons in H2 as [|]|done].
  - specialize (IH t n); destruct (prune_items items off t n) as [[t2 m] err]; intros He k.
    rewrite IH by done; case_decide as H1; case_decide as H2; try done; exfalso.
    + apply H2; destruct H1; split; [by apply list_elem_of_further|done].
    + apply H1; destruct H2 as [H2 ?]; split; [apply elem_of_cons in H2 as [->|]; [congruence|done]|done].
Qed.

(** Collecting the pairs of a scan. *)
Definition collect (key value : bytes) (l : list (bytes * bytes)) : list (bytes * bytes) * bool := ((l ++ [(key, value)])%list, true).
Lemma scan_items_collect items l : let '(l', err) := scan_items items collect l in
  err = None -> exists vs, l' = (l ++ vs)%list /\ items = map (fun kv => (fst kv, Ok (snd kv))) vs.
Proof.
  revert l; induction items as [|[k [v|err]] items IH]; intros l; simpl.
  - intros _; exists []; by rewrite app_nil_r.
  - specialize (IH (l ++ [(k, v)])%list); destruct (scan_items items collect _) as [l' err]; intros He.
    destruct (IH He) as (vs & -> & ->); exists ((k, v) :: vs); by rewrite <- app_assoc.
  - done.
Qed.

Lemma update_run (f : Txn -> Txn * option error) (e : BadgerEngine (Disk := Disk) (DB := DB)) (ev : env) (op : gmap bytes bytes -> gmap bytes bytes) :
  is_open (db e) ->
  (forall t, let '(t', err) := f t in seen t' = match err with None => op (seen t) | Some _ => seen t end) ->
  let '(err, e', _) := update f e ev in
  is_open (db e') /\ contents (db e') = match err with None => op (contents (db e)) | Some _ => contents (db e) end.
Proof.
  intros Ho Hf; unfold update, bind, get_st, put_st, ret.
  set (g := fun txn (u : unit) => _); destruct (law_Update (db e) unit g tt Ho) as (t & Ht & Hu).
  unfold g in Hu at 1; specialize (Hf t); destruct (f t) as [t' err1]; destruct (badger_Update g tt (db e)) as [[d u] err2].
  destruct Hu as (_ & Hod & He & Hc); cbn; split; [done|]; rewrite Hc; destruct err2 as [err2|]; [done|].
  destruct err1 as [err1|]; [by specialize (He ltac:(done))|]; by rewrite Hf, Ht.
Qed.

Lemma be32_get_mod n : be32_get (be32 n) = n mod 4294967296.
Proof. rewrite be32_div; unfold be32_get; Z.to_euclidean_division_equations; lia. Qed.
Lemma be64_get_be64 i : 0 <= i < two64 -> be64_get (be32 (i / 2 ^ 32) ++ be32 i) = i.
Proof.
  intros Hi; unfold be64_get; change (firstn 4 _) with (be32 (i / 2 ^ 32)); change (skipn 4 _) with (be32 i).
  rewrite (be32_get_mod i), be32_get_be32; [|split; [apply Z.div_pos; lia|apply Z.div_lt_upper_bound; unfold two64 in Hi; lia]].
  change 4294967296 with (2 ^ 32); pose proof (Z.div_mod i (2 ^ 32)); lia.
Qed.
Lemma Get_reads (e : BadgerEngine (Disk := Disk) (DB := DB)) (ev : env) k : is_open (db e) -> k <> [] ->
  Get k e ev = (match contents (db e) !! k with Some v => Ok v | None => Err ErrKeyNotFound end, e, ev).
Proof.
  intros Ho Hk; unfold Get, bind, get_st, ret; destruct (law_View (db e) Ho) as (t & <- & ->).
  pose proof (law_Get k t Hk) as Hg; destruct (seen t !! k); rewrite Hg; [done|by rewrite law_sentinel].
Qed.
Lemma Scan_collects (e : BadgerEngine (Disk := Disk) (DB := DB)) (ev : env) prefix l : is_open (db e) ->
  Scan prefix collect [] e ev = ((l, None), e, ev) ->
  NoDup (map fst l) /\ forall k v, (k, v) ∈ l <-> prefix `prefix_of` k /\ contents (db e) !! k = Some v.
Proof.
  intros Ho; unfold Scan, bind, get_st, ret; destruct (law_View (db e) Ho) as (t & <- & ->); intros [= Hs].
  pose proof (scan_items_collect (txn_items prefix t) []) as Hc; rewrite Hs in Hc.
  destruct (Hc eq_refl) as (vs & -> & Hi); cbn; destruct (law_items prefix t) as [Hn Hin].
  assert (map fst (txn_items prefix t) = map fst vs) as Hm by (rewrite Hi, map_map; done).
  rewrite Hm in Hn, Hin; split; [done|]; intros k v.
  assert (forall x, (k, x) ∈ vs -> seen t !! k = Some x) as Hv.
  { intros x Hx; apply (law_values prefix); rewrite Hi; apply list_elem_of_fmap; by exists (k, x). }
  split.
  - intros Hk; split; [|by apply Hv]; apply Hin, list_elem_of_fmap; by exists (k, v).
  - intros [Hp Hk]; assert (k ∈ map fst vs) as Hf by (apply Hin; split; [done|by eexists]).
    apply list_elem_of_fmap in Hf as ([k' x] & -> & Hx); specialize (Hv x Hx); simpl in *; congruence.
Qed.
Lemma Prune_drops (e : BadgerEngine (Disk := Disk) (DB := DB)) (ev : env) off : is_open (db e) ->
  let '(err, e', _) := Prune off e ev in
  is_open (db e') /\ contents (db e') =
    match err with None => filter (fun kv => prunable off (fst kv) = false) (contents (db e)) | Some _ => contents (db e) end.
Proof.
  intros Ho; unfold Prune, bind, get_st, put_st, ret; set (g := fun txn (n : Z) => _).
  destruct (law_Update (db e) Z g 0 Ho) as (t & Ht & Hu); unfold g in Hu at 1.
  pose proof (prune_items_spec off (txn_items [] t) t 0) as Hp.
  destruct (prune_items _ off t 0) as [[t' n] err1]; destruct (badger_Update g 0 (db e)) as [[d u] err2].
  destruct Hu as (_ & Hod & He & Hc); cbn; split; [done|]; rewrite Hc; destruct err2 as [err2|]; [done|].
  destruct err1 as [err1|]; [by specialize (He ltac:(done))|]; specialize (Hp eq_refl).
  apply map_eq; intros k; rewrite Hp, Ht; destruct (law_items [] t) as [_ Hin]; rewrite Ht in Hin.
  apply option_eq; intros v; rewrite map_lookup_filter_Some; simpl; case_decide as Hd.
  - split; [done|]; intros [_ Hf]; destruct Hd; congruence.
  - split; [|tauto]; intros Hv; split; [done|]; destruct (prunable off k) eqn:Hk; [|done].
    destruct Hd; split; [|done]; apply Hin; split; [apply prefix_nil|by eexists].
Qed.
Lemma gc_rounds_keeps m fuel n : preserves (fun e : BadgerEngine (Disk := Disk) (DB := DB) => is_open (db e) /\ contents (db e) = m) (gc_rounds fuel n).
Proof.
  revert n; induction fuel as [|fuel IH]; intros n e ev [Ho Hm]; [done|]; cbn [gc_rounds]; unfold bind at 1, get_st; cbv beta iota.
  pose proof (law_GC (GCThreshold (o_cfg (opts e))) (db e) Ho) as Hg; destruct (badger_RunValueLogGC _ _) as [[err|] d];
    destruct Hg as [Hod Hc]; unfold bind, put_st; cbn; [|apply IH; cbn]; by rewrite Hc.
Qed.

(** Between opening and closing the engine is a finite map: what is read is what the map holds,
    a write that succeeds is the update of the map, one that fails leaves the map alone, a scan
    that succeeds collects every pair under the prefix once, pruning that succeeds drops the
    keys of eight bytes below the offset and nothing else, a collection keeps all. *)
Theorem kv_refines (e : BadgerEngine (Disk := Disk) (DB := DB)) (ev : env) (Ho : is_open (db e)) :
  let m := contents (db e) in
  (forall k, k <> [] -> Get k e ev = (match m !! k with Some v => Ok v | None => Err ErrKeyNotFound end, e, ev)) /\
  (forall k v, let '(err, e', _) := Set_ k v e ev in
     is_open (db e') /\ contents (db e') = match err with None => <[k := v]> m | Some _ => m end) /\
  (forall k, let '(err, e', _) := Delete k e ev in
     is_open (db e') /\ contents (db e') = match err with None => delete k m | Some _ => m end) /\
  (forall i v, 0 <= i < two64 -> let k := (be32 (i / 2 ^ 32) ++ be32 i)%list in let '(r, e', _) := AppendEntry k v e ev in
     is_open (db e') /\ match r with Ok off => off = i /\ contents (db e') = <[k := v]> m | Err _ => contents (db e') = m end) /\
  (forall prefix l, Scan prefix collect [] e ev = ((l, None), e, ev) ->
     NoDup (map fst l) /\ forall k v, (k, v) ∈ l <-> prefix `prefix_of` k /\ m !! k = Some v) /\
  (forall off, let '(err, e', _) := Prune off e ev in
     is_open (db e') /\ contents (db e') = match err with None => filter (fun kv => prunable off (fst kv) = false) m | Some _ => m end) /\
  (forall fuel, let '(_, e', _) := GC fuel e ev in is_open (db e') /\ contents (db e') = m).
Proof.
  cbv zeta; split_ands; intros.
  - by apply Get_reads.
  - unfold Set_; apply (update_run _ _ _ (<[k := v]>) Ho); intros; apply law_Set.
  - unfold Delete; apply (update_run _ _ _ (delete k) Ho); intros; apply law_Delete.
  - unfold AppendEntry, bind.
    pose proof (update_run (txn_Set (be32 (i / 2 ^ 32) ++ be32 i) v) e ev _ Ho (law_Set _ v)) as Hs.
    unfold Set_; destruct (update _ e ev) as [[[err|] e'] ev']; unfold ret; [done|].
    split; [apply Hs|]; split; [|apply Hs]; by apply be64_get_be64.
  - by apply (Scan_collects e ev).
  - by apply Prune_drops.
  - unfold GC, bind; pose proof (gc_rounds_keeps (contents (db e)) fuel 0 e ev (conj Ho eq_refl)) as Hk.
    destruct (gc_rounds fuel 0 e ev) as [[[[n [err|]]|] e'] ev']; done.
Qed.

(** A snapshot of one engine that another one loads gives it the same pairs; a load that fails,
    at whatever step, leaves an engine whose database is closed, with the data it had. *)
Theorem restore_or_closed (e1 e2 : BadgerEngine (Disk := Disk) (DB := DB)) (ev1 ev2 : env) (b : bytes)
  (Ho : is_open (db e1)) (Hs : SaveSnapshot e1 ev1 = (Ok b, e1, ev1)) :
  let '(err, e', _) := LoadSnapshot b e2 ev2 in
  match err with
  | None => is_open (db e') /\ contents (db e') = contents (db e1)
  | Some _ => ~ is_open (db e')
  end.
Proof.
  assert (badger_Backup (db e1) = Ok b) as Hb.
  { revert Hs; unfold SaveSnapshot, bind, get_st, ret; destruct (badger_Backup (db e1)); congruence. }
  unfold LoadSnapshot, bind, get_st, put_st, upd_st, ret.
  destruct (badger_Close (db e2)) as [err closed] eqn:Hc; apply law_Close in Hc; destruct err; [exact Hc|].
  destruct (os_RemoveAll _ _) as [[err|] d1] eqn:Hr; [exact Hc|].
  destruct (os_MkdirAll _ _) as [[err|] d2] eqn:Hm; [exact Hc|].
  destruct (badger_Open _ _) as [d|err] eqn:Hop; [|exact Hc].
  destruct (law_Open _ _ _ _ _ _ _ Hr eq_refl Hm eq_refl Hop) as [Hod He].
  destruct (badger_Load b d) as [[err|] d'] eqn:Hl; [exact Hc|].
  by apply (law_Load _ _ _ _ Ho Hb Hod He Hl).
Qed.
End Spec.

(** ** A database that is a map *)
Definition mem_db : Type := bool * gmap bytes bytes.
Definition mem_items (prefix : bytes) (t : gmap bytes bytes) : list (bytes * Res bytes) :=
  map (fun kv => (fst kv, Ok (snd kv))) (map_to_list (filter (fun kv => prefix `prefix_of` fst kv) t)).
#[local] Instance mem_badger : Badger (gmap string (gmap bytes bytes)) mem_db (gmap bytes bytes) := {
  badger_Open o d := Ok (true, default ∅ (d !! o_Dir o));
  badger_Close d := (None, (false, snd d));
  badger_View A f a d := if fst d then f (snd d) a else (a, Some ErrClosed);
  badger_Update A f a d :=
    if fst d then match f (snd d) a with ((t, a), None) => (((true, t), a), None) | ((_, a), Some err) => ((d, a), Some err) end
    else ((d, a), Some ErrClosed);
  txn_Get k t := match t !! k with Some v => Ok v | None => Err (SimpleError "Key not found") end;
  txn_Set k v t := (<[k := v]> t, None);
  txn_Delete k t := (delete k t, None);
  txn_items := mem_items;
  badger_Backup d := Ok [Zpos (encode (snd d))];
  badger_Load b d := match b with [Zpos p] => match decode p with Some m => (None, (true, m)) | None => (Some EOF, d) end | _ => (Some EOF, d) end;
  badger_RunValueLogGC _ d := (Some (SimpleError "Value log GC attempt didn't result in any cleanup"), d);
  badger_Size _ := (0, 0);
  badger_ErrKeyNotFound := SimpleError "Key not found";
  badger_ErrNoRewrite := SimpleError "Value log GC attempt didn't result in any cleanup";
  os_RemoveAll dir d := (None, delete dir d);
  os_MkdirAll _ d := (None, d);
}.
Lemma mem_items_keys prefix t : map fst (mem_items prefix t) = map fst (map_to_list (filter (fun kv => prefix `prefix_of` fst kv) t)).
Proof. unfold mem_items; by rewrite map_map. Qed.
#[local] Instance mem_laws : BadgerLaws (gmap string (gmap bytes bytes)) mem_db (gmap bytes bytes).
Proof.
  refine (Build_BadgerLaws _ _ _ _ snd (fun d => fst d = true) (fun t => t) _ _ _ _ _ _ _ _ _ _ _ _); cbn.
  - done.
  - intros [[] m] Ho; [|done]; exists m; done.
  - intros [[] m] A f a Ho; [|done]; exists m; split; [done|]; cbn.
    destruct (f m a) as [[t' a'] [err|]]; cbn; done.
  - intros k t _; by destruct (t !! k).
  - done.
  - done.
  - intros prefix t; rewrite mem_items_keys; split; [apply NoDup_fst_map_to_list|].
    intros k; rewrite list_elem_of_fmap; split.
    + intros ([k' v] & -> & Hv); apply elem_of_map_to_list, map_lookup_filter_Some in Hv as [Hk ?]; split; [done|by eexists].
    + intros [Hp [v Hv]]; exists (k, v); split; [done|]; by apply elem_of_map_to_list, map_lookup_filter_Some.
  - intros prefix t k v Hk; apply list_elem_of_fmap in Hk as ([k' v'] & [= -> ->] & Hv).
    by apply elem_of_map_to_list, map_lookup_filter_Some in Hv as [Hk ?].
  - by intros [o m] err d' [= <- <-].
  - intros o disk e1 d1 e2 d2 d [= <- <-] _ [= <- <-] _ [= <-]; split; [done|]; cbn; by rewrite lookup_delete_eq.
  - intros [o m] b d d' _ [= <-] _ _; cbn; rewrite decode_encode; by intros [= <-].
  - by intros r [o m].
Defined.

(** ** Witnesses *)
Definition demo_kv : BadgerEngine := MkBadgerEngine (true, {[ [1] := [7] ]} : gmap bytes bytes) (MkOptions "data" DefaultBadgerConfig) (∅ : gmap string (gmap bytes bytes)) 0 0 false.
Definition demo_kv_env : env := Env (fun _ => 5000000000) (fun _ _ => Err EOF) (fun _ => Err EOF).

Lemma demo_kv_open : is_open (db demo_kv).
Proof. reflexivity. Qed.

Lemma kv_refines_witness :
  fst (fst (Get [1] demo_kv demo_kv_env)) = Ok [7] /\ fst (fst (Get [2] demo_kv demo_kv_env)) = Err ErrKeyNotFound /\
  contents (db (snd (fst (Prune 5 demo_kv demo_kv_env)))) = {[ [1] := [7] ]}.
Proof.
  destruct (kv_refines demo_kv demo_kv_env demo_kv_open) as (Hg & _ & _ & _ & _ & Hp & _).
  split_ands; [by rewrite Hg by done|by rewrite Hg by done|].
  specialize (Hp 5); destruct (Prune 5 demo_kv demo_kv_env) as [[[err|] e'] ev']; destruct Hp as [_ Hp]; cbn [fst snd]; rewrite Hp; vm_compute; reflexivity.
Defined.

Lemma restore_or_closed_witness :
  let '(err, e', _) := LoadSnapshot [Zpos (encode ({[ [1] := [7] ]} : gmap bytes bytes))] demo_kv demo_kv_env in
  match err with None => contents (db e') = {[ [1] := [7] ]} | Some _ => ~ is_open (db e') end.
Proof.
  pose proof (restore_or_closed demo_kv demo_kv demo_kv_env demo_kv_env _ demo_kv_open eq_refl) as H.
  destruct (LoadSnapshot _ _ _) as [[[err|] e'] ev']; [exact H|exact (proj2 H)].
Defined.
