(* ===== verification/ClusterNode.v ===== *)
(** The life of a cluster node: starting and stopping in [internal/server/clusterserver/server.go],
    the resources [raft.go] and [discovery.go] open, and the interceptors of [interceptor.go].

    What the libraries answer is an argument: whether a listener, a store of BoltDB, raft or
    memberlist can be opened, and whether it can be closed.  The model keeps which of them are open.  The loops that run in
    goroutines of their own are only started and stopped here; what they do is in Cluster.v. *)

From Stdlib Require Import Ascii String.
From stdpp Require Import list strings gmap fin_sets.
From S2P Require Import Prelude Errors GoStrings Cluster.

Open Scope string_scope.
Open Scope Z_scope.

(** ** What a node holds open *)
Inductive handle := Transport | LogStore | StableStore | RaftInstance | Memberlist.
#[export] Instance handle_eq_dec : EqDecision handle.
Proof. solve_decision. Defined.
Definition handle_code (h : handle) : nat := (match h with Transport => 0 | LogStore => 1 | StableStore => 2 | RaftInstance => 3 | Memberlist => 4 end)%nat.
Definition handle_of (n : nat) : handle := match n with 0%nat => Transport | 1%nat => LogStore | 2%nat => StableStore | 3%nat => RaftInstance | _ => Memberlist end.
Lemma handle_of_code h : handle_of (handle_code h) = h.
Proof. by destruct h. Qed.
#[export] Instance handle_countable : Countable handle := inj_countable' handle_code handle_of handle_of_code.

(** [Disk] is what raft keeps in its stores.  [Release] is what closing a resource answers, with
    [Shutdown] for raft and for the member list: one that answers an error stays open. *)
Record Libraries (Disk : Type) := MkLibraries {
  MkdirAll : string -> option error;
  ResolveTCPAddr : string -> option error;
  NewTCPTransport : string -> option error;
  NewBoltStore : string -> option error;
  NewFileSnapshotStore : string -> option error;
  NewRaft : Disk -> option error;
  BootstrapCluster : string -> Disk -> option error * Disk;
  memberlist_Create : string -> option error;
  memberlist_Join : list string -> option error;
  Release : handle -> option error;
}.
Arguments MkdirAll {Disk} _ _.
Arguments ResolveTCPAddr {Disk} _ _.
Arguments NewTCPTransport {Disk} _ _.
Arguments NewBoltStore {Disk} _ _.
Arguments NewFileSnapshotStore {Disk} _ _.
Arguments NewRaft {Disk} _ _.
Arguments BootstrapCluster {Disk} _ _ _.
Arguments memberlist_Create {Disk} _ _.
Arguments memberlist_Join {Disk} _ _.
Arguments Release {Disk} _ _.

Record RaftConfig := MkRaftConfig { r_NodeID : string; r_BindAddr : string; r_DataDir : string; r_Bootstrap : bool; TransportTimeout : Z }.
Record DiscoveryConfig := MkDiscoveryConfig {
  d_NodeID : string; d_ClusterID : string; d_BindAddr : string; d_BindPort : Z; d_RaftAddr : string; d_SeedNodes : list string }.

(** The server: [s_raft] and [s_discovery] are its pointers, with whether the channel of
    raft is closed and whether the discovery was shut down. *)
Record Node (Disk : Type) := MkNode {
  n_config : Config;
  handles : gset handle;
  raft_disk : Disk;
  s_raft : option bool;
  s_discovery : option bool;
  callbacks : bool;
  leader_loop : bool;
  replication_loop : bool;
  n_stopped : bool;
}.
Arguments MkNode {Disk} _ _ _ _ _ _ _ _ _.
Arguments n_config {Disk} _.
Arguments handles {Disk} _.
Arguments raft_disk {Disk} _.
Arguments s_raft {Disk} _.
Arguments s_discovery {Disk} _.
Arguments callbacks {Disk} _.
Arguments leader_loop {Disk} _.
Arguments replication_loop {Disk} _.
Arguments n_stopped {Disk} _.

Section Node.
Context {Disk : Type} (lib : Libraries Disk).
Implicit Types n : Node Disk.

Definition with_handles (f : gset handle -> gset handle) n : Node Disk :=
  MkNode (n_config n) (f (handles n)) (raft_disk n) (s_raft n) (s_discovery n) (callbacks n) (leader_loop n) (replication_loop n) (n_stopped n).
Definition opened (h : handle) : M (Node Disk) unit := upd_st (with_handles (fun s => {[h]} ∪ s)).
Definition closed (h : handle) (s : gset handle) : gset handle :=
  match Release lib h with None => s ∖ {[h]} | Some _ => s end.
Definition close (h : handle) : M (Node Disk) (option error) := upd_st (with_handles (closed h)) ;;; ret (Release lib h).
Definition set_disk (d : Disk) n : Node Disk :=
  MkNode (n_config n) (handles n) d (s_raft n) (s_discovery n) (callbacks n) (leader_loop n) (replication_loop n) (n_stopped n).
Definition set_raft (r : option bool) n : Node Disk :=
  MkNode (n_config n) (handles n) (raft_disk n) r (s_discovery n) (callbacks n) (leader_loop n) (replication_loop n) (n_stopped n).
Definition set_discovery (d : option bool) n : Node Disk :=
  MkNode (n_config n) (handles n) (raft_disk n) (s_raft n) d (callbacks n) (leader_loop n) (replication_loop n) (n_stopped n).

(** ** [raft.go] *)
(** Whether the channel of the node was closed before; [None] is the panic of closing it
    again.  The errors of the steps are logged; those of the closes of a start that fails are
    dropped. *)
Definition RaftNode_Close (ch_closed : bool) : M (Node Disk) (option unit) :=
  close RaftInstance ;;;
  if ch_closed then ret None
  else close StableStore ;;; close LogStore ;;; close Transport ;;; ret (Some tt).

Definition fail (msg : string) (err : error) : M (Node Disk) (option error) := ret (Some (WrapError msg err)).
Definition NewRaftNode (cfg : RaftConfig) : M (Node Disk) (option error) :=
  if String.eqb (r_DataDir cfg) "" then ret (Some (SimpleError "raft: data_dir is required"))
  else
  match MkdirAll lib (r_DataDir cfg) with Some err => fail "create data dir" err | None =>
  match ResolveTCPAddr lib (r_BindAddr cfg) with Some err => fail "resolve bind addr" err | None =>
  match NewTCPTransport lib (r_BindAddr cfg) with Some err => fail "create transport" err | None =>
  opened Transport ;;;
  match NewBoltStore lib (r_DataDir cfg +:+ "/raft-log.db") with
  | Some err => close Transport ;;; fail "create log store" err
  | None =>
  opened LogStore ;;;
  match NewBoltStore lib (r_DataDir cfg +:+ "/raft-stable.db") with
  | Some err => close LogStore ;;; close Transport ;;; fail "create stable store" err
  | None =>
  opened StableStore ;;;
  match NewFileSnapshotStore lib (r_DataDir cfg) with
  | Some err => close StableStore ;;; close LogStore ;;; close Transport ;;; fail "create snapshot store" err
  | None =>
  n <- get_st ;;
  match NewRaft lib (raft_disk n) with
  | Some err => close StableStore ;;; close LogStore ;;; close Transport ;;; fail "create raft" err
  | None =>
  opened RaftInstance ;;;
  if r_Bootstrap cfg then
    let '(err, d) := BootstrapCluster lib (r_NodeID cfg) (raft_disk n) in
    upd_st (set_disk d) ;;;
    match err with
    | Some err => RaftNode_Close false ;;; fail "bootstrap cluster" err
    | None => ret None
    end
  else ret None
  end end end end end end end.

(** ** [discovery.go] *)
Definition NewDiscovery (cfg : DiscoveryConfig) : M (Node Disk) (option error) :=
  match memberlist_Create lib (d_BindAddr cfg) with
  | Some err => fail "create memberlist" err
  | None =>
      opened Memberlist ;;;
      if 0 <? llen (d_SeedNodes cfg) then
        match memberlist_Join lib (d_SeedNodes cfg) with
        | Some err => close Memberlist ;;; fail "join seed nodes" err
        | None => ret None
        end
      else ret None
  end.
(** Only the first call does anything, whether or not it succeeds. *)
Definition Shutdown (was_shut : bool) : M (Node Disk) (option error) :=
  if was_shut then ret None
  else
    upd_st (set_discovery (Some true)) ;;;
    err <- close Memberlist ;;
    match err with
    | Some err => fail "shutdown memberlist" err
    | None => ret None
    end.

(** ** [server.go] *)
Definition NewServer (cfg : Config) (d : Disk) : Res (Node Disk) :=
  match validate cfg with
  | Err err => Err (WrapError "invalid config" err)
  | Ok cfg => Ok (MkNode cfg ∅ d None None false false false false)
  end.
Definition raft_config (c : Config) : RaftConfig :=
  MkRaftConfig (cfg_NodeID c) (cfg_RaftBindAddr c) (cfg_RaftDataDir c) (cfg_Bootstrap c)
    (if RaftTransport (cfg_Timeouts c) =? 0 then 10 * Second else RaftTransport (cfg_Timeouts c)).
Definition discovery_config (c : Config) : DiscoveryConfig :=
  MkDiscoveryConfig (cfg_NodeID c) (cfg_ClusterID c) (cfg_GossipBindAddr c) (cfg_GossipBindPort c) (cfg_RaftBindAddr c) (cfg_SeedNodes c).

(** The wait for the first leader only logs that it was in vain. *)
Definition Start : M (Node Disk) (option error) :=
  n <- get_st ;;
  err <- NewRaftNode (raft_config (n_config n)) ;;
  match err with
  | Some err => fail "create raft node" err
  | None =>
      upd_st (set_raft (Some false)) ;;;
      err <- NewDiscovery (discovery_config (n_config n)) ;;
      match err with
      | Some err =>
          RaftNode_Close false ;;;
          upd_st (set_raft (Some true)) ;;;
          fail "create discovery" err
      | None =>
          upd_st (set_discovery (Some false)) ;;;
          upd_st (fun n => MkNode (n_config n) (handles n) (raft_disk n) (s_raft n) (s_discovery n) true true
                             (1 <? cfg_ReplicationFactor (n_config n)) (n_stopped n)) ;;;
          ret None
      end
  end.

(** Errors of the parts, the one of the message to the other members among them, are logged;
    [None] is a panic.  What the monitor of the leader does
    until it sees the signal is left out: it ends by the time [Stop] returns, or is late by
    more than the five seconds [Stop] waits; that the context of [Stop] may end before, which
    makes its answer the error of the context, is left out too. *)
Definition Stop : M (Node Disk) (option (option error)) :=
  n <- get_st ;;
  if n_stopped n then ret (Some None)
  else
    put_st (MkNode (n_config n) (handles n) (raft_disk n) (s_raft n) (s_discovery n) (callbacks n) false false true) ;;;
    match s_discovery n with
    | None => ret tt
    | Some was_shut => _ <- Shutdown was_shut ;; ret tt
    end ;;;
    match s_raft n with
    | None => ret (Some None)
    | Some ch_closed =>
        r <- RaftNode_Close ch_closed ;;
        match r with
        | None => ret None
        | Some _ => upd_st (set_raft (Some true)) ;;; ret (Some None)
        end
    end.
End Node.

(** ** The interceptors of the RPC handlers *)
Section Interceptors.
Context `{X509} {S : Type}.
(** A call runs in the context of its connection, the TLS state if that was put there; its
    answer is a panic, an error or a response. *)
Definition Call (A : Type) : Type := option (list Certificate) -> M S (option (Res A)).
Definition Interceptor : Type := forall A, Call A -> Call A.

(** The interceptor that logs passes everything through. *)
Definition LoggingInterceptor : Interceptor := fun A next => next.
(** [AuthInterceptor] for calls that can panic. *)
Definition AuthWrap (i : AuthInterceptor) : Interceptor := fun A next tls =>
  r <- authenticate i tls ;;
  match r with Some err => ret (Some (Err (WrapError "unauthenticated" err))) | None => next tls end.
Definition RecoveryInterceptor : Interceptor := fun A next tls =>
  r <- next tls ;;
  match r with
  | None => ret (Some (Err (WrapError "internal" (SimpleError "internal server error: panic recovered"))))
  | Some r => ret (Some r)
  end.
Definition NewAuthInterceptor (clientCAPool : bool) (nodes : option (gmap string bool)) (strict : bool) : AuthInterceptor :=
  MkAuthInterceptor clientCAPool nodes strict.
Definition DefaultInterceptors : list Interceptor :=
  [RecoveryInterceptor; AuthWrap (NewAuthInterceptor false None false); LoggingInterceptor].
(** [connect.WithInterceptors]: the first is the outermost. *)
Fixpoint intercepted (l : list Interceptor) {A} (next : Call A) : Call A :=
  match l with [] => next | i :: l => i A (intercepted l next) end.
(** A request over TLS, or one that is not. *)
Definition TLSMiddleware {A} (next : Call A) (r_TLS : option (list Certificate)) : M S (option (Res A)) :=
  match r_TLS with Some tls => next (Some tls) | None => next None end.
End Interceptors.
Arguments Call : clear implicits.
Arguments Interceptor : clear implicits.
