(* ===== verification/ClusterNodeSpec.v ===== *)
(** Starting and stopping a cluster node: what it holds open, and the restart of the node that
    founded the cluster. *)

From Stdlib Require Import Ascii String.
From stdpp Require Import list strings gmap fin_sets.
From S2P Require Import Prelude Errors GoStrings Cluster ClusterNode.

Open Scope string_scope.
Open Scope Z_scope.

Definition all_handles : gset handle := {[Transport; LogStore; StableStore; RaftInstance; Memberlist]}.
Definition raft_handles : gset handle := {[Transport; LogStore; StableStore; RaftInstance]}.

Section Node.
Context {Disk : Type} (lib : Libraries Disk).

(** A node that was made and not started. *)
Definition fresh (n : Node Disk) : Prop :=
  handles n = ∅ /\ s_raft n = None /\ s_discovery n = None /\ leader_loop n = false /\ replication_loop n = false /\ n_stopped n = false.
Lemma NewServer_fresh cfg d n : NewServer cfg d = Ok n -> fresh n /\ raft_disk n = d /\ validate cfg = Ok (n_config n).
Proof. unfold NewServer; destruct (validate cfg); [by intros [= <-]|done]. Qed.

(** Everything raft is made of can be opened. *)
Definition raft_opens (cfg : RaftConfig) : Prop :=
  String.eqb (r_DataDir cfg) "" = false /\ MkdirAll lib (r_DataDir cfg) = None /\ ResolveTCPAddr lib (r_BindAddr cfg) = None /\
  NewTCPTransport lib (r_BindAddr cfg) = None /\ NewBoltStore lib (r_DataDir cfg +:+ "/raft-log.db") = None /\
  NewBoltStore lib (r_DataDir cfg +:+ "/raft-stable.db") = None /\ NewFileSnapshotStore lib (r_DataDir cfg) = None.

(** Every resource of the set is one that could not be closed. *)
Definition unreleased (hs : gset handle) : Prop := forall h, h ∈ hs -> is_Some (Release lib h).
Lemma elem_of_closed x h hs : x ∈ closed lib h hs <-> x ∈ hs /\ (x = h -> is_Some (Release lib h)).
Proof.
  unfold closed; destruct (Release lib h) as [err|]; [split; [by intros; split; [|eexists]|by intros []]|].
  rewrite elem_of_difference, elem_of_singleton; split; intros [Hx Hn]; (split; [done|]); intros He.
  - by destruct (Hn He).
  - by destruct (Hn He).
Qed.
Lemma unreleased_empty : unreleased ∅.
Proof. by intros h ?%elem_of_empty. Qed.
(** Closing the stores and the transport, and raft with them. *)
Definition stores_released (hs : gset handle) : gset handle :=
  closed lib Transport (closed lib LogStore (closed lib StableStore hs)).
Definition raft_released (hs : gset handle) : gset handle := stores_released (closed lib RaftInstance hs).
Ltac released :=
  intros x; unfold all_handles, raft_handles, raft_released, stores_released;
  rewrite ?elem_of_closed, ?elem_of_union, ?elem_of_singleton, ?elem_of_empty; destruct x; naive_solver.
Ltac refused d hs := eexists d, hs, _; split; [try reflexivity; repeat (unfold with_handles, stores_released, closed; cbn; case_match; try done)|split; [released|done]].

Lemma NewRaftNode_refused cfg n e err d : raft_opens cfg -> handles n = ∅ -> NewRaft lib (raft_disk n) = None ->
  r_Bootstrap cfg = true -> BootstrapCluster lib (r_NodeID cfg) (raft_disk n) = (Some err, d) ->
  exists hs, NewRaftNode lib cfg n e = (Some (WrapError "bootstrap cluster" err), set_disk d (with_handles (fun _ => hs) n), e) /\ unreleased hs.
Proof.
  destruct n as [c hs d0 r disc cb l rl st]; cbn [handles raft_disk]; intros (H1 & H2 & H3 & H4 & H5 & H6 & H7) -> Hr Hb Hbc.
  unfold NewRaftNode; rewrite H1, H2, H3, H4; unfold opened, bind, upd_st; rewrite H5, H6, H7; unfold get_st; cbn; rewrite Hr, Hb, Hbc.
  exists (raft_released raft_handles); split; [reflexivity|released].
Qed.

(** What opening raft does to a fresh node: all of its handles, or those that cannot be closed. *)
Lemma NewRaftNode_run cfg n e : handles n = ∅ -> exists d hs err,
  NewRaftNode lib cfg n e = (err, set_disk d (with_handles (fun _ => hs) n), e) /\
  (match err with None => hs = raft_handles | Some _ => unreleased hs end) /\
  (err = None -> raft_opens cfg /\ (r_Bootstrap cfg = true -> BootstrapCluster lib (r_NodeID cfg) (raft_disk n) = (None, d))).
Proof.
  destruct n as [c hs0 d r disc cb l rl st]; simpl; intros ->; unfold raft_opens, NewRaftNode, fail, opened, close, bind, upd_st, get_st, ret.
  destruct (String.eqb _ _) eqn:?; [refused d (∅ : gset handle)|].
  destruct (MkdirAll _ _) eqn:?; [refused d (∅ : gset handle)|].
  destruct (ResolveTCPAddr _ _) eqn:?; [refused d (∅ : gset handle)|].
  destruct (NewTCPTransport _ _) eqn:?; [refused d (∅ : gset handle)|].
  destruct (NewBoltStore _ (_ +:+ "/raft-log.db")) eqn:?; [refused d (stores_released {[Transport]})|].
  destruct (NewBoltStore _ (_ +:+ "/raft-stable.db")) eqn:?; [refused d (stores_released {[LogStore; Transport]})|].
  destruct (NewFileSnapshotStore _ _) eqn:?; [refused d (stores_released {[StableStore; LogStore; Transport]})|].
  simpl; destruct (NewRaft _ _); [refused d (stores_released {[StableStore; LogStore; Transport]})|].
  destruct (r_Bootstrap cfg); [|by eexists d, raft_handles, _].
  destruct (BootstrapCluster _ _ _) as [[err|] d']; [refused d' (raft_released raft_handles)|by eexists d', raft_handles, _].
Qed.

Lemma validate_Bootstrap cfg c : validate cfg = Ok c -> cfg_Bootstrap c = cfg_Bootstrap cfg.
Proof. unfold validate; repeat case_match; by intros [= <-] || done. Qed.

Definition started (n : Node Disk) (d : Disk) : Node Disk :=
  MkNode (n_config n) all_handles d (Some false) (Some false) true true (1 <? cfg_ReplicationFactor (n_config n)) false.
(** A start that fails leaves the fresh node, or one whose raft is closed. *)
Definition start_failed (n : Node Disk) (hs : gset handle) (d : Disk) (r : option bool) : Node Disk :=
  MkNode (n_config n) hs d r None (callbacks n) false false false.
Definition discovery_fails (n : Node Disk) : Prop :=
  is_Some (memberlist_Create lib (cfg_GossipBindAddr (n_config n))) \/
  (0 < llen (cfg_SeedNodes (n_config n)) /\ is_Some (memberlist_Join lib (cfg_SeedNodes (n_config n)))).
Lemma NewDiscovery_run cfg (n : Node Disk) e : handles n = raft_handles -> exists err,
  NewDiscovery lib cfg n e =
    (err, with_handles (fun _ => match err with
       | None => all_handles
       | Some _ => match memberlist_Create lib (d_BindAddr cfg) with Some _ => raft_handles | None => closed lib Memberlist all_handles end end) n, e) /\
  (err <> None <-> is_Some (memberlist_Create lib (d_BindAddr cfg)) \/
     (0 < llen (d_SeedNodes cfg) /\ is_Some (memberlist_Join lib (d_SeedNodes cfg)))).
Proof.
  destruct n as [c hs0 d r disc cb l rl st]; simpl; intros ->; unfold NewDiscovery, fail, opened, close, closed, bind, upd_st, ret.
  destruct (memberlist_Create _ _) as [err|]; [exists (Some (WrapError "create memberlist" err)); split; [done|]; split; [by left; eexists|done]|].
  destruct (Z.ltb_spec 0 (llen (d_SeedNodes cfg))).
  - destruct (memberlist_Join _ _) as [err|]; [exists (Some (WrapError "join seed nodes" err))|exists None]; (split; [by destruct (Release lib Memberlist)|]); split; try done.
    + by right; split; [|eexists].
    + by intros [[? ?]|[_ [? ?]]].
  - exists None; split; [done|]; split; [done|]; intros [[? ?]|[? _]]; [done|lia].
Qed.
Lemma Start_run n e : fresh n -> exists err d,
  (err = None /\ Start lib n e = (None, started n d, e) /\
     raft_opens (raft_config (n_config n)) /\ ~ discovery_fails n /\
     (cfg_Bootstrap (n_config n) = true -> BootstrapCluster lib (cfg_NodeID (n_config n)) (raft_disk n) = (None, d))) \/
  (exists err', err = Some err' /\ exists r hs, Start lib n e = (Some err', start_failed n hs d r, e) /\ unreleased hs /\
     (r = None \/ (r = Some true /\ discovery_fails n))).
Proof.
  destruct n as [c hs0 d0 r disc cb l rl st]; intros (Hh & Hr & Hd & Hl & Hrl & Hs); simpl in *; subst.
  destruct (NewRaftNode_run (raft_config c) (MkNode c ∅ d0 None None cb false false false) e eq_refl) as (d & hs & err & Hn & Hhs & Hb).
  destruct err as [err|].
  { eexists (Some _), d; right; eexists; split; [reflexivity|]; exists None, hs; split; [|split; [done|by left]].
    unfold Start; erewrite bind_run by reflexivity; cbv beta; erewrite bind_run by exact Hn; done. }
  subst hs.
  destruct (NewDiscovery_run (discovery_config c) (MkNode c raft_handles d (Some false) None cb false false false) e eq_refl) as (err & Hdr & Hf).
  destruct err as [err|].
  - eexists (Some _), d; right; eexists; split; [reflexivity|].
    exists (Some true), (raft_released (match memberlist_Create lib (d_BindAddr (discovery_config c)) with Some _ => raft_handles | None => closed lib Memberlist all_handles end)).
    split; [|split; [destruct (memberlist_Create _ _); released|right; split; [done|by apply Hf]]].
    unfold Start; do 3 (erewrite bind_run by first [reflexivity|exact Hn|exact Hdr]; cbv beta iota).
    erewrite bind_run by exact Hdr; reflexivity.
  - exists None, d; left; destruct (Hb eq_refl) as [Ho Hbc]; split; [done|]; split; [|split; [done|split; [by intros ?%Hf|done]]].
    unfold Start; do 3 (erewrite bind_run by first [reflexivity|exact Hn|exact Hdr]; cbv beta iota).
    erewrite bind_run by exact Hdr; reflexivity.
Qed.

(** C29: Starting a fresh node opens everything and starts the loops, or fails with nothing running;
    of what the failed start had opened only that stays open whose own close failed, so nothing
    if every close works.  Stopping a started node never panics, tries to close everything and
    leaves open exactly what could not be closed; stopping again does nothing. *)
Theorem node_lifecycle (n : Node Disk) (e : env) (Hn : fresh n) :
  let '(err, n1, e1) := Start lib n e in
  match err with
  | Some _ =>
      (forall h, h ∈ handles n1 -> is_Some (Release lib h)) /\ leader_loop n1 = false /\ replication_loop n1 = false
  | None =>
      handles n1 = all_handles /\ callbacks n1 = true /\ leader_loop n1 = true /\
      let '(r, n2, e2) := Stop lib n1 e1 in
      r = Some None /\ (forall h, h ∈ handles n2 <-> is_Some (Release lib h)) /\
      leader_loop n2 = false /\ replication_loop n2 = false /\ Stop lib n2 e2 = (Some None, n2, e2)
  end.
Proof.
  destruct (Start_run n e Hn) as (err & d & [(-> & -> & _)|(err' & -> & r & hs & -> & Hhs & _)]); [|done].
  assert (forall h, h ∈ raft_released (closed lib Memberlist all_handles) <-> is_Some (Release lib h)) as H.
  { intros h; unfold raft_released, stores_released; rewrite !elem_of_closed; split; [|intros Hh; destruct h; set_solver].
    intros [[[[[_ H1] H2] H3] H4] H5]; destruct h; auto. }
  unfold Stop, Shutdown, RaftNode_Close, fail, close, bind, upd_st, get_st, put_st, ret; cbn.
  destruct (Release lib Memberlist); done.
Qed.

(** When the member list could not be made or no seed could be joined, the start has closed
    raft but the server keeps it: stopping the server closes the channel of raft a second time,
    which panics. *)
Theorem stop_after_failed_start (n : Node Disk) (e : env) (Hn : fresh n) (Hf : discovery_fails n) :
  let '(err, n1, e1) := Start lib n e in
  err <> None /\ (s_raft n1 = Some true -> fst (fst (Stop lib n1 e1)) = None) /\ (s_raft n1 = None -> fst (fst (Stop lib n1 e1)) = Some None).
Proof.
  destruct (Start_run n e Hn) as (err & d & [(_ & _ & _ & Hd & _)|(err' & -> & r & hs & -> & _ & Hr)]); [done|].
  split; [done|]; destruct Hr as [->|[-> _]]; (split; [|]); try done; intros _; unfold Stop, RaftNode_Close, close, bind, upd_st, get_st, put_st, ret; cbn; done.
Qed.

(** The node that founded the cluster cannot be started again with its configuration: raft
    refuses to bootstrap stores that hold state, and the start takes that for a failure. *)
Theorem bootstrap_restart (ErrCantBootstrap : error) (cfg : Config) (d : Disk) (n n1 : Node Disk) (e e1 e2 : env)
  (Hlaw : forall id d0 d1, BootstrapCluster lib id d0 = (None, d1) -> BootstrapCluster lib id d1 = (Some ErrCantBootstrap, d1))
  (Hb : cfg_Bootstrap cfg = true) (Hn : NewServer cfg d = Ok n) (Hs : Start lib n e = (None, n1, e1))
  (Hr : NewRaft lib (raft_disk n1) = None) :
  exists n2, NewServer cfg (raft_disk n1) = Ok n2 /\
  let '(err, n3, _) := Start lib n2 e2 in
  err = Some (WrapError "create raft node" (WrapError "bootstrap cluster" ErrCantBootstrap)) /\
  (forall h, h ∈ handles n3 -> is_Some (Release lib h)).
Proof.
  destruct (NewServer_fresh _ _ _ Hn) as (Hf & Hd & Hv).
  exists (MkNode (n_config n) ∅ (raft_disk n1) None None false false false false); split; [unfold NewServer; by rewrite Hv|].
  destruct (Start_run n e Hf) as (err & d1 & [(_ & Hs' & Ho & _ & Hbc)|(err' & _ & r & hs & Hs' & _)]); rewrite Hs in Hs'; [|done].
  injection Hs' as ->; cbn [started raft_disk n_config] in *.
  assert (cfg_Bootstrap (n_config n) = true) as Hb' by (by rewrite (validate_Bootstrap _ _ Hv)).
  unfold Start; erewrite bind_run by reflexivity; cbv beta.
  edestruct (NewRaftNode_refused (raft_config (n_config n)) (MkNode (n_config n) ∅ d1 None None false false false false) e2 ErrCantBootstrap d1)
    as (hs & Hr2 & Hhs); [done|done|done|done|exact (Hlaw _ _ _ (Hbc Hb'))|].
  erewrite bind_run by exact Hr2; done.
Qed.

End Node.

(** ** The interceptors *)
Section Interceptors.
Context `{X509} {S : Type}.

(** The interceptors the package gives to a server let every call through, with whatever
    certificate or none; a panic of the handler becomes an error of the call. *)
Theorem default_interceptors_open {A} (next : Call S A) (r_TLS : option (list Certificate)) (s : S) (e : env) :
  TLSMiddleware (intercepted DefaultInterceptors next) r_TLS s e =
  let '(r, s', e') := next r_TLS s e in
  (Some (default (Err (WrapError "internal" (SimpleError "internal server error: panic recovered"))) r), s', e').
Proof.
  unfold TLSMiddleware, DefaultInterceptors; destruct r_TLS; cbn;
    unfold RecoveryInterceptor, AuthWrap, LoggingInterceptor, bind; cbn; destruct (next _ s e) as [[[r|] s'] e']; done.
Qed.

(** With a pool of authorities and the strict check the handler runs only for a peer whose
    certificate verifies, is within its time, is not one of an authority, and names an allowed node. *)
Theorem strict_interceptor_guards {A} (nodes : gmap string bool) (next : Call S A) (r_TLS : option (list Certificate)) (s : S) (e : env) :
  let '(r, s', e') := TLSMiddleware (AuthWrap (NewAuthInterceptor true (Some nodes) true) A next) r_TLS s e in
  (exists cert certs t e1, r_TLS = Some (cert :: certs) /\ Verify cert t = None /\ IsCA cert = false /\
     CommonName cert <> "" /\ nodes !! CommonName cert = Some true /\ (r, s', e') = next r_TLS s e1) \/
  (exists err, r = Some (Err (WrapError "unauthenticated" err)) /\ s' = s).
Proof.
  unfold TLSMiddleware, AuthWrap, authenticate, verifyCertificate, bind, time_now, ret.
  destruct r_TLS as [[|cert certs]|]; cbn; [right; by eexists| |right; by eexists].
  destruct (Verify cert _) eqn:Hv; cbn; [right; by eexists|].
  destruct (_ <? NotBefore cert); cbn; [right; by eexists|]; destruct (NotAfter cert <? _); cbn; [right; by eexists|].
  destruct (IsCA cert) eqn:Hc; cbn; [right; by eexists|].
  destruct (String.eqb_spec (CommonName cert) "") as [|Hn]; cbn; [right; by eexists|].
  destruct (nodes !! CommonName cert) as [[]|] eqn:Ha; cbn; [|right; by eexists..].
  destruct (next _ s _) as [[r s'] e'] eqn:Hx; left; exists cert, certs; do 2 eexists; split_ands; try done; exact Hv.
Qed.
End Interceptors.

(** ** Witnesses *)
(** Stores that hold state once the cluster was founded. *)
Definition demo_libraries (release : handle -> option error) (join : option error) : Libraries bool :=
  MkLibraries bool (fun _ => None) (fun _ => None) (fun _ => None) (fun _ => None) (fun _ => None) (fun _ => None)
    (fun _ d => if d then (Some (SimpleError "bootstrap only works on new clusters"), d) else (None, true))
    (fun _ => None) (fun _ => join) release.
Definition demo_lib : option error -> Libraries bool := demo_libraries (fun _ => None).
(** A library in which only the member list cannot be closed. *)
Definition demo_stuck_lib : option error -> Libraries bool :=
  demo_libraries (fun h => match h with Memberlist => Some (SimpleError "close udp: bad file descriptor") | _ => None end).
Definition demo_config (bootstrap : bool) (seeds : list string) : Config :=
  MkConfig "n1" "c1" "10.0.0.1:7000" "10.0.0.1" 7946 bootstrap seeds "data/raft" 3 true 3 (MkTimeouts 0 0 0 0 0 0).
Definition demo_node : Node bool := MkNode (demo_config false ["10.0.0.9:7946"]) ∅ false None None false false false false.
Definition demo_node_env : env := Env (fun _ => 5000000000) (fun _ _ => Err EOF) (fun _ => Err EOF).
Lemma demo_node_fresh : fresh demo_node.
Proof. done. Qed.

Lemma node_lifecycle_witness :
  let '(_, n1, e1) := Start (demo_lib None) demo_node demo_node_env in
  handles n1 = all_handles /\ (forall h, h ∉ handles (snd (fst (Stop (demo_lib None) n1 e1)))).
Proof.
  pose proof (node_lifecycle (demo_lib None) demo_node demo_node_env demo_node_fresh) as H.
  destruct (Start _ _ _) as [[[err|] n1] e1] eqn:Hs; [discriminate Hs|]; destruct H as (Hh & _ & _ & H).
  destruct (Stop _ n1 e1) as [[r n2] e2]; destruct H as (_ & Hh2 & _); split; [exact Hh|].
  intros h Hin; destruct (proj1 (Hh2 h) Hin) as [x Hx]; discriminate Hx.
Defined.
(** A start that joins no seed: the member list is closed again, unless that fails too. *)
Example failed_start_open :
  let open lib := handles (snd (fst (Start (lib (Some (SimpleError "no route to host"))) demo_node demo_node_env))) in
  open demo_lib = ∅ /\ open demo_stuck_lib = {[Memberlist]}.
Proof. done. Qed.

Lemma stop_after_failed_start_witness :
  let '(err, n1, e1) := Start (demo_lib (Some (SimpleError "no route to host"))) demo_node demo_node_env in
  err <> None /\ fst (fst (Stop (demo_lib (Some (SimpleError "no route to host"))) n1 e1)) = None.
Proof.
  pose proof (stop_after_failed_start (demo_lib (Some (SimpleError "no route to host"))) demo_node demo_node_env demo_node_fresh
    (or_intror (conj eq_refl (ex_intro _ _ eq_refl)))) as H.
  destruct (Start _ _ _) as [[err n1] e1] eqn:Hs; destruct H as (He & Hp & _); split; [exact He|]; apply Hp; by injection Hs as _ <- _.
Defined.

Lemma bootstrap_restart_witness :
  exists n2, NewServer (demo_config true []) true = Ok n2 /\
  let '(err, n3, _) := Start (demo_lib None) n2 demo_node_env in
  err = Some (WrapError "create raft node" (WrapError "bootstrap cluster" (SimpleError "bootstrap only works on new clusters"))) /\
  (forall h, h ∈ handles n3 -> is_Some (Release (demo_lib None) h)).
Proof.
  apply (bootstrap_restart (demo_lib None) (SimpleError "bootstrap only works on new clusters") (demo_config true []) false
    (MkNode (with_factor 3 (default_timeouts (MkTimeouts 0 0 0 0 0 0)) (demo_config true [])) ∅ false None None false false false false)
    (snd (fst (Start (demo_lib None) (MkNode (with_factor 3 (default_timeouts (MkTimeouts 0 0 0 0 0 0)) (demo_config true [])) ∅ false None None false false false false) demo_node_env)))
    demo_node_env demo_node_env demo_node_env); try reflexivity.
  intros id [] d1; [discriminate|by intros [= <-]].
Defined.
