(* ===== verification/ConfLoader.v ===== *)
(** Loading the configuration: [internal/infra/confloader], a file first, then the environment.

    Koanf is third-party code: a store of values under dotted paths, into which loading puts
    more, with what its documentation says of it as laws.  The parsing of YAML and the decoding
    into the target are its, too. *)

From Stdlib Require Import Ascii String.
From stdpp Require Import list strings gmap fin_maps.
From S2P Require Import Prelude Errors GoStrings.

Open Scope string_scope.
Open Scope Z_scope.

Definition DefaultEnvPrefix : string := "TOKMESH_".
Definition ErrReadBytesNotSupported : error :=
  SimpleError "confloader: ReadBytes not supported by map provider, use Read() instead".

(** A path stands above another if it names one of its sections. *)
Definition above (a b : string) : Prop := HasPrefix b (a +:+ ".") = true.
Definition related (a b : string) : Prop := a = b \/ above a b \/ above b a.

(** [Load] of the leaves of a map, from any provider. *)
Class Koanf (K V T : Type) := {
  koanf_New : K;
  koanf_Load : list (string * V) -> K -> K;
  koanf_Get : string -> K -> option V;
  koanf_Unmarshal : K -> T -> option error * T;
  yaml_file : string -> Res (list (string * V));
  env_value : string -> V;
}.
Class KoanfLaws (K V T : Type) `{Koanf K V T} := {
  law_New : forall key, koanf_Get key koanf_New = None;
  law_keeps : forall l k key, (forall p v, (p, v) ∈ l -> ~ related p key) -> koanf_Get key (koanf_Load l k) = koanf_Get key k;
  law_sets : forall l k key v, (key, v) ∈ l -> (forall p w, (p, w) ∈ l -> related p key -> (p, w) = (key, v)) ->
    koanf_Get key (koanf_Load l k) = Some v;
}.

Section Loader.
Context {K V T : Type} `{Koanf K V T}.

Record Loader := MkLoader { k : K; envPrefix : string; filePath : string; loaded : bool }.
Definition Option_ : Type := Loader -> Loader.
Definition WithEnvPrefix (prefix : string) : Option_ := fun l => MkLoader (k l) prefix (filePath l) (loaded l).
Definition WithConfigFile (path : string) : Option_ := fun l => MkLoader (k l) (envPrefix l) path (loaded l).
Definition NewLoader (opts : list Option_) : Loader :=
  foldl (fun l opt => opt l) (MkLoader koanf_New DefaultEnvPrefix "" false) opts.

Definition TrimPrefix (s p : string) : string := if HasPrefix s p then from (String.length p) s else s.
Definition dot (a : ascii) : ascii := if Ascii.eqb a "_" then "."%char else a.
(** The path a variable is loaded under. *)
Definition envTransformer (prefix s : string) : string := smap dot (ToLower (TrimPrefix s prefix)).

(** The state of a loader; the variables of the process are an argument. *)
Definition load_values (vs : list (string * V)) : M Loader unit :=
  upd_st (fun l => MkLoader (koanf_Load vs (k l)) (envPrefix l) (filePath l) (loaded l)).
Definition LoadFile (path : string) : M Loader (option error) :=
  if String.eqb path "" then ret None
  else match yaml_file path with
       | Err err => ret (Some (WrapError ("load file " +:+ path) err))
       | Ok vs => load_values vs ;;; ret None
       end.
(** [env.Provider]: the variables with the prefix; one whose path is empty is left out. *)
Definition env_values (prefix : string) (environ : list (string * string)) : list (string * V) :=
  omap (fun nv => let path := envTransformer prefix (fst nv) in
                  if HasPrefix (fst nv) prefix && negb (String.eqb path "") then Some (path, env_value (snd nv)) else None) environ.
Definition LoadEnv (environ : list (string * string)) : M Loader (option error) :=
  l <- get_st ;; load_values (env_values (envPrefix l) environ) ;;; ret None.
Definition LoadMap (data : list (string * V)) : M Loader (option error) := load_values data ;;; ret None.
Definition Unmarshal (target : T) : M Loader (option error * T) := l <- get_st ;; ret (koanf_Unmarshal (k l) target).
Definition Load (environ : list (string * string)) (target : T) : M Loader (option error * T) :=
  l <- get_st ;;
  err <- (if String.eqb (filePath l) "" then ret None else LoadFile (filePath l)) ;;
  match err with
  | Some err => ret (Some (WrapError "load config file" err), target)
  | None =>
      err <- LoadEnv environ ;;
      match err with
      | Some err => ret (Some (WrapError "load env" err), target)
      | None =>
          r <- Unmarshal target ;;
          match r with
          | (Some err, target) => ret (Some (WrapError "unmarshal config" err), target)
          | (None, target) =>
              upd_st (fun l => MkLoader (k l) (envPrefix l) (filePath l) true) ;;;
              ret (None, target)
          end
      end
  end.
Definition Get (key : string) : M Loader (option V) := l <- get_st ;; ret (koanf_Get key (k l)).
Definition IsLoaded : M Loader bool := l <- get_st ;; ret (loaded l).

(** ** What the environment reaches *)
Context `{!KoanfLaws K V T}.

Lemma without_dots s : without "_" (smap dot s) = true.
Proof.
  unfold without; induction s as [|a s IH]; [done|]; cbn; rewrite IH, andb_true_r; unfold dot.
  destruct (Ascii.eqb_spec a "_"); [done|]; by apply negb_true_iff, Ascii.eqb_neq.
Qed.
Lemma prefix_without c (s p : string) : HasPrefix s p = true -> without c s = true -> without c p = true.
Proof.
  revert s; induction p as [|a p IH]; intros [|b s]; try done; unfold HasPrefix, without; cbn.
  destruct (Ascii.ascii_dec a b) as [->|]; [|by intros ?]; intros Hp [Hb Hs]%andb_true_iff; apply andb_true_iff; split; [done|].
  by apply (IH s).
Qed.
Lemma env_values_elem prefix environ p v : (p, v) ∈ env_values prefix environ <->
  exists name text, (name, text) ∈ environ /\ HasPrefix name prefix = true /\ p = envTransformer prefix name /\ p <> "" /\ v = env_value text.
Proof.
  unfold env_values; rewrite list_elem_of_omap; split.
  - intros ([name text] & Hin & Hv); revert Hv; cbv zeta; cbn [fst snd]; destruct (HasPrefix name prefix) eqn:Hp; cbn [andb]; [|done].
    destruct (String.eqb_spec (envTransformer prefix name) "") as [|Hn]; [done|]; intros [= <- <-].
    by exists name, text.
  - intros (name & text & Hin & Hp & -> & Hn & ->); exists (name, text); split; [done|]; cbv zeta; cbn [fst snd]; rewrite Hp.
    by rewrite (proj2 (String.eqb_neq _ _) Hn).
Qed.

(** A variable is loaded under its name in lower case with a dot for every underscore.  It
    reaches the entry of that path, over the file, if it is alone to do so; an entry with an
    underscore in its name, as half of the entries have, is out of reach of every variable,
    except that one named like a section above it overwrites the section. *)
Theorem environment_reach (environ : list (string * string)) (l : Loader) (e : env) (key : string) :
  let '(_, l', _) := LoadEnv environ l e in
  (forall name text, (name, text) ∈ environ -> HasPrefix name (envPrefix l) = true -> key <> "" ->
     key = envTransformer (envPrefix l) name ->
     (forall name' text', (name', text') ∈ environ -> HasPrefix name' (envPrefix l) = true ->
        related (envTransformer (envPrefix l) name') key -> (name', text') = (name, text)) ->
     koanf_Get key (k l') = Some (env_value text)) /\
  (without "_" key = false ->
     (forall name text, (name, text) ∈ environ -> HasPrefix name (envPrefix l) = true ->
        ~ above (envTransformer (envPrefix l) name) key) ->
     koanf_Get key (k l') = koanf_Get key (k l)).
Proof.
  unfold LoadEnv, load_values, bind, get_st, upd_st, ret; cbn [k envPrefix]; split.
  - intros name text Hin Hp Hne -> Halone; apply law_sets.
    + apply env_values_elem; by exists name, text.
    + intros p w (name' & text' & Hin' & Hp' & -> & _ & ->)%env_values_elem Hr.
      by injection (Halone name' text' Hin' Hp' Hr) as -> ->.
  - intros Hk Habove; apply law_keeps; intros p v (name & text & Hin & Hp & -> & _ & _)%env_values_elem [Heq|[Ha|Hb]].
    + rewrite <- Heq in Hk; unfold envTransformer in Hk; by rewrite without_dots in Hk.
    + by apply (Habove name text Hin Hp).
    + pose proof (prefix_without "_" _ _ Hb (without_dots _)) as Hw; rewrite without_app in Hw.
      by rewrite Hk in Hw.
Qed.
End Loader.

(** ** A store of dotted paths *)
#[local] Instance related_dec a b : Decision (related a b).
Proof. unfold related, above; apply _. Defined.
Definition put (m : gmap string string) (pv : string * string) : gmap string string :=
  <[fst pv := snd pv]> (filter (fun kv => ~ related (fst pv) (fst kv)) m).
Lemma put_other m pv key : ~ related (fst pv) key -> put m pv !! key = m !! key.
Proof.
  intros Hr; unfold put; rewrite lookup_insert_ne by (intros <-; apply Hr; by left).
  apply option_eq; intros v; rewrite map_lookup_filter_Some; cbn; naive_solver.
Qed.
#[local] Instance demo_koanf : Koanf (gmap string string) string unit := {
  koanf_New := ∅;
  koanf_Load l m := foldl put m l;
  koanf_Get key m := m !! key;
  koanf_Unmarshal _ t := (None, t);
  yaml_file _ := Ok [("storage.data_dir", "/srv/tokmesh"); ("server.http.addr", ":80")];
  env_value s := s;
}.
#[local] Instance demo_koanf_laws : KoanfLaws (gmap string string) string unit.
Proof.
  split; cbn.
  - done.
  - intros l; induction l as [|pv l IH]; intros m key Hl; [done|]; cbn.
    rewrite IH by (intros p v Hin; apply (Hl p v); by right).
    apply put_other; destruct pv as [p v]; apply (Hl p v); by left.
  - intros l; induction l as [|pv l IH] using rev_ind; intros m key v Hin Halone; [by apply elem_of_nil in Hin|].
    rewrite foldl_app; cbn; destruct (decide (related (fst pv) key)) as [Hr|Hr].
    + destruct pv as [p w]; injection (Halone p w ltac:(apply elem_of_app; right; by left) Hr) as -> ->.
      unfold put; cbn; by rewrite lookup_insert_eq.
    + rewrite put_other by done; apply IH.
      * apply elem_of_app in Hin as [Hin|Hin]; [done|]; apply list_elem_of_singleton in Hin as <-; by destruct Hr; left.
      * intros p w Hp; apply Halone, elem_of_app; by left.
Qed.

(** ** Witness *)
Definition demo_loader : Loader := snd (fst (LoadFile "config.yaml" (NewLoader [WithConfigFile "config.yaml"]) (Env (fun _ => 0) (fun _ _ => Err EOF) (fun _ => Err EOF)))).
Definition demo_environ : list (string * string) :=
  [("HOME", "/root"); ("TOKMESH_SERVER_HTTP_ADDR", ":8080"); ("TOKMESH_STORAGE_DATA_DIR", "/mnt/data")].
Lemma environment_reach_witness :
  let '(_, l', _) := LoadEnv demo_environ demo_loader (Env (fun _ => 0) (fun _ _ => Err EOF) (fun _ => Err EOF)) in
  koanf_Get "server.http.addr" (k l') = Some ":8080" /\ koanf_Get "storage.data_dir" (k l') = Some "/srv/tokmesh".
Proof.
  pose proof (environment_reach demo_environ demo_loader (Env (fun _ => 0) (fun _ _ => Err EOF) (fun _ => Err EOF)) "server.http.addr") as H1.
  pose proof (environment_reach demo_environ demo_loader (Env (fun _ => 0) (fun _ _ => Err EOF) (fun _ => Err EOF)) "storage.data_dir") as H2.
  destruct (LoadEnv _ _ _) as [[r l'] e']; destruct H1 as [H1 _]; destruct H2 as [_ H2]; split.
  - apply (H1 "TOKMESH_SERVER_HTTP_ADDR" ":8080"); [by right; left|exact eq_refl|discriminate|exact eq_refl|].
    assert (Forall (fun nt => HasPrefix (fst nt) "TOKMESH_" = true -> related (envTransformer "TOKMESH_" (fst nt)) "server.http.addr" ->
      nt = ("TOKMESH_SERVER_HTTP_ADDR", ":8080")) demo_environ) as HF.
    { constructor; [discriminate|constructor; [reflexivity|constructor; [|constructor]]].
      intros _ Hr; exfalso; revert Hr; apply (bool_decide_unpack (not (related _ _))); vm_compute; exact I. }
    intros name text Hin; exact (proj1 (Forall_forall _ _) HF (name, text) Hin).
  - rewrite H2; [by vm_compute|exact eq_refl|].
    assert (Forall (fun nt => HasPrefix (fst nt) "TOKMESH_" = true -> ~ above (envTransformer "TOKMESH_" (fst nt)) "storage.data_dir") demo_environ) as HF.
    { unfold above; repeat constructor; vm_compute; discriminate. }
    intros name text Hin; exact (proj1 (Forall_forall _ _) HF (name, text) Hin).
Defined.
