(* ===== verification/RedisServer.v ===== *)
(** Starting and stopping the Redis server: [internal/server/redisserver/server.go].

    The listeners and the connections run in goroutines of their own.  A state is what they
    share: the flag, the listeners, the counter of the wait group; a label is one step of one
    of the goroutines, so an interleaving is a list of labels.  What a connection does between
    its start and its end is in Redis.v. *)

From Stdlib Require Import Ascii String.
From stdpp Require Import list sets strings.
From S2P Require Import Prelude Errors GoStrings.

Open Scope string_scope.
Open Scope Z_scope.

(** ** Configuration *)
Record Config := MkConfig {
  PlainEnabled : bool; PlainAddress : string; TLSEnabled : bool; TLSAddress : string; hasTLSConfig : bool;
  ReadTimeout : Z; WriteTimeout : Z; IdleTimeout : Z; RateLimit : Z }.
Definition DefaultConfig : Config :=
  MkConfig false "127.0.0.1:6379" false "127.0.0.1:6380" false (30 * 1000000000) (30 * 1000000000) (5 * 60 * 1000000000) 1000.

(** ** State *)
Inductive kind := Plain | TLS.
#[export] Instance kind_eq_dec : EqDecision kind.
Proof. solve_decision. Defined.
(** A goroutine that listens: not started, before the call of [Listen], in its loop, ended. *)
Inductive phase := Idle | Starting | Accepting | Ended.
#[export] Instance phase_eq_dec : EqDecision phase.
Proof. solve_decision. Defined.
(** A listener as [Shutdown] sees it: nil, open, or closed. *)
Inductive listener := NoListener | Open | Closed.
#[export] Instance listener_eq_dec : EqDecision listener.
Proof. solve_decision. Defined.
(** [Shutdown]: not called, waiting, returned with the error of the context or without. *)
Inductive stop_state := Serving | Waiting | Returned (timeout : bool).
#[export] Instance stop_eq_dec : EqDecision stop_state.
Proof. solve_decision. Defined.

Record Server := MkServer {
  cfg : Config;
  running : bool;
  plain : phase * listener;
  tls : phase * listener;
  wg : Z;
  conns : nat;
  stop : stop_state;
}.
Definition New (c : Config) : Server := MkServer c false (Idle, NoListener) (Idle, NoListener) 0 0 Serving.
Definition slot (k : kind) (s : Server) : phase * listener := match k with Plain => plain s | TLS => tls s end.
Definition set_slot (k : kind) (p : phase * listener) (s : Server) : Server :=
  match k with
  | Plain => MkServer (cfg s) (running s) p (tls s) (wg s) (conns s) (stop s)
  | TLS => MkServer (cfg s) (running s) (plain s) p (wg s) (conns s) (stop s)
  end.
Definition add_wg (n : Z) (s : Server) : Server := MkServer (cfg s) (running s) (plain s) (tls s) (wg s + n) (conns s) (stop s).
Definition set_conns (n : nat) (s : Server) : Server := MkServer (cfg s) (running s) (plain s) (tls s) (wg s) n (stop s).
Definition set_stop (x : stop_state) (s : Server) : Server := MkServer (cfg s) (running s) (plain s) (tls s) (wg s) (conns s) x.

(** ** Steps *)
Definition Start (s : Server) : Server :=
  if negb (PlainEnabled (cfg s)) && negb (TLSEnabled (cfg s)) then s
  else
    let s := MkServer (cfg s) true (plain s) (tls s) (wg s) (conns s) (stop s) in
    let s := if PlainEnabled (cfg s) then add_wg 1 (set_slot Plain (Starting, snd (plain s)) s) else s in
    if TLSEnabled (cfg s) then add_wg 1 (set_slot TLS (Starting, snd (tls s)) s) else s.
(** [startPlain] and [startTLS] up to their loops: the listener, or the end of the goroutine. *)
Definition listen (k : kind) (listens : bool) (s : Server) : option Server :=
  match slot k s with
  | (Starting, ln) =>
      if listens && match k with TLS => hasTLSConfig (cfg s) | Plain => true end
      then Some (set_slot k (Accepting, Open) s)
      else Some (add_wg (-1) (set_slot k (Ended, ln) s))
  | _ => None
  end.
(** One round of [acceptLoop]: a connection, or any error, which ends the loop. *)
Definition accept (k : kind) (s : Server) : option Server :=
  match slot k s with
  | (Accepting, Open) => Some (add_wg 1 (set_conns (S (conns s)) s))
  | _ => None
  end.
Definition accept_error (k : kind) (s : Server) : option Server :=
  match slot k s with
  | (Accepting, ln) => Some (add_wg (-1) (set_slot k (Ended, ln) s))
  | _ => None
  end.
(** A connection ends: the client leaves, idles too long or breaks the protocol. *)
Definition conn_end (s : Server) : option Server :=
  match conns s with O => None | S n => Some (add_wg (-1) (set_conns n s)) end.
(** The first part of [Shutdown]: the flag, and the listeners there are. *)
Definition close_listener (p : phase * listener) : phase * listener :=
  match p with (ph, Open) => (ph, Closed) | _ => p end.
Definition Shutdown (s : Server) : option Server :=
  match stop s with
  | Serving => Some (MkServer (cfg s) false (close_listener (plain s)) (close_listener (tls s)) (wg s) (conns s) Waiting)
  | _ => None
  end.
(** Its end: the counter is zero, or the context is over. *)
Definition wait_done (s : Server) : option Server :=
  match stop s with Waiting => if wg s =? 0 then Some (set_stop (Returned false) s) else None | _ => None end.
Definition wait_timeout (s : Server) : option Server :=
  match stop s with Waiting => Some (set_stop (Returned true) s) | _ => None end.

Inductive label := Listen (k : kind) (listens : bool) | Accept (k : kind) | AcceptError (k : kind) | ConnEnd | ShutdownCall | WaitDone | WaitTimeout.
Definition step (l : label) (s : Server) : option Server :=
  match l with
  | Listen k b => listen k b s
  | Accept k => accept k s
  | AcceptError k => accept_error k s
  | ConnEnd => conn_end s
  | ShutdownCall => Shutdown s
  | WaitDone => wait_done s
  | WaitTimeout => wait_timeout s
  end.
Fixpoint exec (ls : list label) (s : Server) : option Server :=
  match ls with [] => Some s | l :: ls => s ← step l s; exec ls s end.

(** ** What the wait group counts *)
Definition live (p : phase * listener) : Z := match fst p with Starting | Accepting => 1 | _ => 0 end.
Definition counted (s : Server) : Prop := wg s = live (plain s) + live (tls s) + Z.of_nat (conns s).
(** A goroutine that listens and [Shutdown] does not see. *)
Definition unseen (s : Server) : Prop := fst (plain s) = Starting \/ fst (tls s) = Starting.
Definition closing (s : Server) : Prop :=
  stop s <> Serving /\ ~ unseen s /\ snd (plain s) <> Open /\ snd (tls s) <> Open.

Lemma Start_counted c : counted (Start (New c)).
Proof. destruct c as [[] ? [] ? ? ? ? ? ?]; reflexivity. Qed.
Lemma step_counted l s s' : counted s -> step l s = Some s' -> counted s'.
Proof.
  unfold counted; destruct s as [c r [p pl] [t tl] w n st]; intros Hc; destruct l as [[] b|[]|[]| | | |]; cbn in *;
    unfold listen, accept, accept_error, conn_end, Shutdown, wait_done, wait_timeout; cbn; intros Hs;
    repeat case_match; simplify_eq; cbn in *; unfold live in *; cbn in *; repeat case_match; simplify_eq; try lia.
Qed.
Lemma exec_counted ls s s' : counted s -> exec ls s = Some s' -> counted s'.
Proof.
  revert s; induction ls as [|l ls IH]; intros s Hc; cbn; [by intros [= <-]|].
  destruct (step l s) as [s1|] eqn:Hs; [|done]; cbn; apply IH; by apply (step_counted l s).
Qed.
Lemma exec_app a b s : exec (a ++ b)%list s = s' ← exec a s; exec b s'.
Proof. revert s; induction a as [|l a IH]; intros s; cbn; [done|]; destruct (step l s); cbn; [apply IH|done]. Qed.
Lemma conns_counted s : counted s -> wg s = 0 ->
  conns s = 0%nat /\ (fst (plain s) = Idle \/ fst (plain s) = Ended) /\ (fst (tls s) = Idle \/ fst (tls s) = Ended).
Proof. unfold counted, live; destruct (fst (plain s)), (fst (tls s)); intros -> ?; split_ands; auto; lia. Qed.

(** ** Once [Shutdown] has seen every listener *)
Definition left_over (s : Server) : Z := wg s + match stop s with Waiting => 1 | _ => 0 end.
Lemma closing_step l s s' : closing s -> step l s = Some s' ->
  closing s' /\ (conns s' <= conns s)%nat /\ left_over s' < left_over s.
Proof.
  unfold closing, unseen, left_over; destruct s as [c r [p pl] [t tl] w n st]; intros (Hst & Hu & Hp & Ht); destruct l as [[] b|[]|[]| | | |]; cbn in *;
    unfold listen, accept, accept_error, conn_end, Shutdown, wait_done, wait_timeout; cbn; intros Hs;
    repeat case_match; simplify_eq; cbn in *; try tauto; split_ands; try (lia || tauto); try done; naive_solver.
Qed.
Lemma closing_exec ls s s' : closing s -> counted s -> exec ls s = Some s' ->
  closing s' /\ (conns s' <= conns s)%nat /\ Z.of_nat (length ls) <= left_over s.
Proof.
  revert s; induction ls as [|l ls IH]; intros s Hcl Hc; cbn [exec].
  { intros [= <-]; split_ands; [done|lia|]; unfold left_over, counted, live in *; cbn; repeat case_match; lia. }
  destruct (step l s) as [s1|] eqn:Hs; [|done]; cbn; intros He.
  destruct (closing_step _ _ _ Hcl Hs) as (Hcl1 & Hn & Hw).
  destruct (IH s1 Hcl1 (step_counted _ _ _ Hc Hs) He) as (Hcl' & Hn' & Hlen); split_ands; [done|lia|]; cbn [length]; lia.
Qed.
(** Something other than the end of the context can happen until [Shutdown] returns. *)
Lemma closing_goes_on s : closing s -> counted s -> stop s = Waiting ->
  exists l s', l <> WaitTimeout /\ step l s = Some s' /\ (stop s' = Waiting \/ stop s' = Returned false).
Proof.
  unfold closing, unseen, counted, live; destruct s as [c r [p pl] [t tl] w n st]; cbn; intros (Hst & Hu & Hp & Ht) Hc ->.
  destruct (decide (p = Accepting)) as [->|Hpa]; [exists (AcceptError Plain); eexists; split; [done|]; split; [reflexivity|by left]|].
  destruct (decide (t = Accepting)) as [->|Hta]; [exists (AcceptError TLS); eexists; split; [done|]; split; [reflexivity|by left]|].
  destruct n as [|n]; [|exists ConnEnd; eexists; split; [done|]; split; [reflexivity|by left]].
  assert (w = 0) as -> by (destruct p, t; cbn in Hc; try done; tauto || lia).
  exists WaitDone; eexists; split; [done|]; split; [reflexivity|by right].
Qed.
Lemma closing_completes s : closing s -> counted s -> stop s = Waiting -> exists ls s',
  ~ (WaitTimeout ∈ ls) /\ exec ls s = Some s' /\ stop s' = Returned false.
Proof.
  remember (Z.to_nat (left_over s)) as m eqn:Hm; revert s Hm; induction m as [m IH] using lt_wf_ind; intros s -> Hcl Hc Hst.
  destruct (closing_goes_on s Hcl Hc Hst) as (l & s1 & Hl & Hs & Hw).
  destruct Hw as [Hw|Hw]; [|exists [l], s1; split_ands; [set_solver|cbn; by rewrite Hs|done]].
  destruct (closing_step _ _ _ Hcl Hs) as (Hcl1 & _ & Hlt); pose proof (step_counted _ _ _ Hc Hs) as Hc1.
  destruct (IH (Z.to_nat (left_over s1))) with (s := s1) as (ls & s2 & Hn & He & Hr); try done.
  - assert (0 <= left_over s1) by (unfold left_over, counted, live in *; repeat case_match; lia); lia.
  - exists (l :: ls), s2; split_ands; [set_solver|cbn; by rewrite Hs|done].
Qed.

Lemma drained_stuck l s : counted s -> stop s = Returned false -> wg s = 0 -> step l s = None.
Proof.
  intros Hc Hst Hw; destruct (conns_counted _ Hc Hw) as (Hn & Hp & Ht); destruct s as [c r [p pl] [t tl] w n st]; cbn in *; subst.
  destruct l as [[] b|[]|[]| | | |]; unfold step, listen, accept, accept_error, conn_end, Shutdown, wait_done, wait_timeout; cbn;
    try done; destruct Hp as [->| ->], Ht as [->| ->]; done.
Qed.
Lemma returned_step l s s' : counted s -> (stop s = Returned false -> wg s = 0) -> step l s = Some s' -> stop s' = Returned false -> wg s' = 0.
Proof.
  intros Hc Hi Hs Hr; destruct (decide (stop s = Returned false)) as [Hst|Hst].
  { by rewrite (drained_stuck l s Hc Hst (Hi Hst)) in Hs. }
  revert Hs Hr; destruct s as [c r [p pl] [t tl] w n st]; cbn in *; clear Hi Hc; destruct l as [[] b|[]|[]| | | |]; cbn;
    unfold listen, accept, accept_error, conn_end, Shutdown, wait_done, wait_timeout; cbn;
    repeat case_match; intros; simplify_eq; cbn in *; simplify_eq; by apply Z.eqb_eq.
Qed.
Lemma returned_exec ls s s' : counted s -> (stop s = Returned false -> wg s = 0) -> exec ls s = Some s' -> stop s' = Returned false -> wg s' = 0.
Proof.
  revert s; induction ls as [|l ls IH]; intros s Hc Hi; cbn; [by intros [= <-]|].
  destruct (step l s) as [s1|] eqn:Hs; [|done]; cbn; apply IH; [by apply (step_counted l s)|by apply (returned_step l s)].
Qed.
Lemma Start_serving c : stop (Start (New c)) = Serving.
Proof. destruct c as [[] ? [] ? ? ? ? ? ?]; reflexivity. Qed.
Lemma Shutdown_closing s s1 : ~ unseen s -> Shutdown s = Some s1 -> closing s1 /\ stop s1 = Waiting /\ wg s1 = wg s /\ conns s1 = conns s.
Proof.
  unfold closing, unseen, Shutdown, close_listener; destruct s as [c r [p pl] [t tl] w n st]; cbn; intros Hu; case_match; [|done..].
  intros [= <-]; cbn; destruct pl, tl; cbn; split_ands; done || tauto.
Qed.

(** C28: When [Shutdown] returned without an error no connection is served, no goroutine listens
    and nothing can happen any more, whatever the order of the steps was.  If every goroutine
    had its listener when [Shutdown] was called, no connection is accepted after the call, only
    so many steps as the wait group counts are left, and, if the clients leave, it returns
    without an error. *)
Theorem shutdown_drains (c : Config) (ls : list label) (s : Server) (Hs : exec ls (Start (New c)) = Some s) :
  (stop s = Returned false -> conns s = 0%nat /\ forall l, step l s = None) /\
  (forall s1, ~ unseen s -> Shutdown s = Some s1 ->
    (forall ls' s2, exec ls' s1 = Some s2 -> (conns s2 <= conns s)%nat /\ Z.of_nat (length ls') <= wg s + 1) /\
    exists ls' s2, ~ (WaitTimeout ∈ ls') /\ exec ls' s1 = Some s2 /\ stop s2 = Returned false).
Proof.
  pose proof (exec_counted _ _ _ (Start_counted c) Hs) as Hc; split.
  - intros Hr; assert (wg s = 0) as Hw.
    { apply (returned_exec _ _ _ (Start_counted c)) in Hs; [done| |done]; by rewrite Start_serving. }
    split; [apply (conns_counted _ Hc Hw)|]; intros l; by apply drained_stuck.
  - intros s1 Hu Hd; destruct (Shutdown_closing s s1 Hu Hd) as (Hcl & Hst & Hw & Hn).
    pose proof (step_counted ShutdownCall _ _ Hc Hd) as Hc1; split; [|by apply closing_completes].
    intros ls' s2 He; destruct (closing_exec _ _ _ Hcl Hc1 He) as (_ & Hle & Hlen); unfold left_over in Hlen.
    rewrite Hst, Hw in Hlen; rewrite Hn in Hle; done.
Qed.

Definition missed (k : kind) (s : Server) : Prop :=
  counted s /\ slot k s = (Accepting, Open) /\ stop s <> Serving /\ stop s <> Returned false /\ running s = false.
Lemma missed_step k l s s' : l <> AcceptError k -> missed k s -> step l s = Some s' -> missed k s'.
Proof.
  intros Hl (Hc & Hk & Hst & Hr & Hrun) Hs; split; [by apply (step_counted l s)|].
  revert Hs Hl Hk Hst Hr Hrun; destruct s as [c r [p pl] [t tl] w n st]; unfold counted, live in Hc; destruct l as [[] b|[]|[]| | | |]; cbn in *;
    unfold listen, accept, accept_error, conn_end, Shutdown, wait_done, wait_timeout; cbn; intros Hs Hl Hk Hst Hr Hrun;
    destruct k; cbn in *; simplify_eq; cbn in *; repeat case_match; simplify_eq; cbn; split_ands; try done;
    match goal with Hw : (_ =? 0) = true |- _ => apply Z.eqb_eq in Hw; lia end.
Qed.
(** A goroutine that had not called [Listen] yet when [Shutdown] looked is not stopped: its
    listener is never closed, it goes on accepting connections, and [Shutdown] returns only
    when its context is over, unless accepting fails by itself. *)
Theorem shutdown_misses (c : Config) (ls ls' : list label) (k : kind) (s s1 s2 : Server)
  (Hs : exec ls (Start (New c)) = Some s) (Hk : fst (slot k s) = Starting)
  (Hd : exec [ShutdownCall; Listen k true] s = Some s1) (Hl : fst (slot k s1) = Accepting)
  (Hf : AcceptError k ∉ ls') (He : exec ls' s1 = Some s2) :
  slot k s2 = (Accepting, Open) /\ stop s2 <> Returned false /\ is_Some (step (Accept k) s2) /\ running s2 = false.
Proof.
  assert (missed k s1) as Hm.
  { pose proof (exec_counted _ _ _ (exec_counted _ _ _ (Start_counted c) Hs) Hd) as Hc; split; [done|]; clear Hc He Hs.
    revert Hd Hk Hl; destruct s as [c0 r [p pl] [t tl] w n st]; cbn; unfold Shutdown, listen, slot; cbn.
    destruct st, k; cbn; try done; intros Hd Hk Hl; subst; repeat case_match; try discriminate; injection Hd as <-; cbn in *; split_ands; done. }
  clear Hs Hk Hd Hl; revert s1 Hm He; induction ls' as [|l ls' IH]; intros s1 Hm; cbn.
  - intros [= <-]; destruct Hm as (_ & Hk & _ & Hr & Hrun); split_ands; try done; cbn; unfold accept; rewrite Hk; by eexists.
  - destruct (step l s1) as [s'|] eqn:Hs; [|done]; cbn; apply IH; [set_solver|].
    apply (missed_step k l s1); [set_solver|done|done].
Qed.


(** ** Witnesses *)
Definition demo_cfg : Config := MkConfig true "127.0.0.1:6379" false "" false 0 0 0 0.
Definition demo_schedule : list label := [Listen Plain true; Accept Plain; Accept Plain; ConnEnd; ShutdownCall; AcceptError Plain; ConnEnd; WaitDone].
Lemma shutdown_drains_witness : exists s, exec demo_schedule (Start (New demo_cfg)) = Some s /\ conns s = 0%nat /\ step (Accept Plain) s = None.
Proof.
  eexists; split; [vm_compute; reflexivity|].
  match goal with |- conns ?s = _ /\ _ => destruct (shutdown_drains demo_cfg demo_schedule s) as [H _]; [vm_compute; reflexivity|] end.
  destruct H as [Hn Hs]; [reflexivity|]; split; [exact Hn|apply Hs].
Defined.
Lemma shutdown_misses_witness :
  exists s1 s2, exec [ShutdownCall; Listen Plain true] (Start (New demo_cfg)) = Some s1 /\
    exec [Accept Plain; ConnEnd; Accept Plain] s1 = Some s2 /\ stop s2 <> Returned false /\ running s2 = false.
Proof.
  eexists; eexists; split; [vm_compute; reflexivity|]; split; [vm_compute; reflexivity|].
  edestruct (shutdown_misses demo_cfg [] [Accept Plain; ConnEnd; Accept Plain] Plain) as (_ & Hr & _ & Hrun);
    [reflexivity|reflexivity|vm_compute; reflexivity|reflexivity| |vm_compute; reflexivity|].
  - intros Hin; repeat (apply elem_of_cons in Hin as [Hin|Hin]; [discriminate|]); by apply elem_of_nil in Hin.
  - split; [exact Hr|exact Hrun].
Defined.
