(* ===== verification/FileWatch.v ===== *)
(** Watching files: the notifications of [fsnotify], and the watcher of the configuration
    ([internal/infra/confloader/watcher.go]).

    [fsnotify] and the delivery of its notifications are third-party code: a run is the list of
    what the loop takes from its channels, in the order it takes it.  Logging is left out. *)

From Stdlib Require Import Ascii String.
From stdpp Require Import list strings.
From S2P Require Import Prelude Errors GoStrings.

Open Scope string_scope.
Open Scope Z_scope.

(** ** [path/filepath] on a slash-separated path *)
Fixpoint clean_parts (rooted : bool) (acc parts : list string) : list string :=
  match parts with
  | [] => rev acc
  | p :: parts =>
      if String.eqb p "" || String.eqb p "." then clean_parts rooted acc parts
      else if String.eqb p ".." then
        match acc with
        | q :: acc' => if String.eqb q ".." then clean_parts rooted (p :: acc) parts else clean_parts rooted acc' parts
        | [] => clean_parts rooted (if rooted then [] else [p]) parts
        end
      else clean_parts rooted (p :: acc) parts
  end.
Definition Clean (path : string) : string :=
  let rooted := HasPrefix path "/" in
  let s := Join (clean_parts rooted [] (Split path "/")) "/" in
  if rooted then "/" +:+ s else if String.eqb s "" then "." else s.
Definition Dir (path : string) : string :=
  Clean (match LastIndex path "/" with Some i => upto (i + 1) path | None => "" end).
Fixpoint trim_slashes (fuel : nat) (path : string) : string :=
  match fuel with
  | O => path
  | S fuel' => if HasSuffix path "/" then trim_slashes fuel' (upto (String.length path - 1) path) else path
  end.
Definition Base (path : string) : string :=
  if String.eqb path "" then "."
  else
    let path := trim_slashes (String.length path) path in
    let path := match LastIndex path "/" with Some i => from (i + 1) path | None => path end in
    if String.eqb path "" then "/" else path.

Example Dir_examples : map Dir ["/etc/tokmesh/config.yaml"; "config.yaml"; "/config.yaml"; "a//b/../c/d"; "../x"] = ["/etc/tokmesh"; "."; "/"; "a/c"; ".."].
Proof. vm_compute; reflexivity. Qed.
Example Base_examples : map Base ["/etc/tokmesh/config.yaml"; "config.yaml"; "a/b/"; "/"; ""] = ["config.yaml"; "config.yaml"; "b"; "/"; "."].
Proof. vm_compute; reflexivity. Qed.

(** ** Notifications *)
Inductive Op := Create | Write | Remove | Rename | Chmod.
#[export] Instance Op_eq_dec : EqDecision Op.
Proof. solve_decision. Defined.
(** The bits of the operation, and when the notification comes. *)
Record Event := MkEvent { ev_Name : string; ev_Op : list Op; ev_at : Z }.
Definition Has (op : Op) (ev : Event) : bool := bool_decide (op ∈ ev_Op ev).
(** The test of both watchers. *)
Definition reloads (ev : Event) : bool := Has Write ev || Has Create ev.

(** ** The watcher of the configuration *)
Module ConfWatcher.
(** A callback is known by a number; what it is called with is recorded. *)
Record Watcher := MkWatcher { dirs : list string; callbacks : list nat; done : bool }.
(** [fsnotify.NewWatcher], or its error. *)
Definition NewWatcher (created : Res unit) : Res Watcher :=
  match created with Err err => Err err | Ok _ => Ok (MkWatcher [] [] false) end.
(** What adding the directory answers is an argument. *)
Definition Watch (add : string -> option error) (path : string) : M Watcher (option error) :=
  let dir := Dir path in
  match add dir with
  | Some err => ret (Some err)
  | None => upd_st (fun w => MkWatcher (dirs w ++ [dir]) (callbacks w) (done w)) ;;; ret None
  end.
Definition OnChange (callback : nat) (w : Watcher) : Watcher := MkWatcher (dirs w) (callbacks w ++ [callback]) (done w).
Definition notifyCallbacks (path : string) (w : Watcher) : list (nat * string) := map (fun cb => (cb, path)) (callbacks w).
(** Closing the channel twice panics. *)
Definition Stop (close_err : option error) (w : Watcher) : option (option error * Watcher) :=
  if done w then None else Some (close_err, MkWatcher (dirs w) (callbacks w) true).

(** What the loop takes: a notification, an error, the end of a channel, the stop; and a call of
    [OnChange] between two of them. *)
Inductive Input := Notified (ev : Event) | WatchError | EventsClosed | ErrorsClosed | Stopped | Registered (callback : nat).
Fixpoint Start (ins : list Input) (w : Watcher) : list (nat * string) :=
  match ins with
  | [] => []
  | Notified ev :: ins => ((if reloads ev then notifyCallbacks (ev_Name ev) w else []) ++ Start ins w)%list
  | WatchError :: ins => Start ins w
  | EventsClosed :: _ | ErrorsClosed :: _ | Stopped :: _ => []
  | Registered cb :: ins => Start ins (OnChange cb w)
  end.
Definition stops (i : Input) : bool := match i with EventsClosed | ErrorsClosed | Stopped => true | _ => false end.
(** The callbacks registered by a part of a run. *)
Definition registered (ins : list Input) : list nat := omap (fun i => match i with Registered cb => Some cb | _ => None end) ins.

Lemma Start_app ins ins' w : forallb (fun i => negb (stops i)) ins = true ->
  Start (ins ++ ins') w = (Start ins w ++ Start ins' (MkWatcher (dirs w) (callbacks w ++ registered ins) (done w)))%list.
Proof.
  revert w; induction ins as [|i ins IH]; intros w; cbn [app forallb].
  { intros _; destruct w; cbn; by rewrite app_nil_r. }
  destruct i; cbn [stops negb andb Start registered omap list_omap]; intros Hs; try discriminate; rewrite IH by done; cbn [OnChange dirs callbacks done].
  - by rewrite (assoc_L (++)%list).
  - done.
  - by rewrite <- (assoc_L (++)%list).
Qed.
(** A notification calls every callback registered before it, in order and with its name, if
    it is a write or a creation and nothing has stopped the loop, and nothing in the test looks
    at the file: a change of any other file of the directory is reported as well. *)
Lemma Start_calls ins ev ins' w :
  Start (ins ++ Notified ev :: ins') w =
  if forallb (fun i => negb (stops i)) ins
  then (Start ins w ++ (if reloads ev then map (fun cb => (cb, ev_Name ev)) (callbacks w ++ registered ins) else []) ++
        Start ins' (MkWatcher (dirs w) (callbacks w ++ registered ins) (done w)))%list
  else Start ins w.
Proof.
  destruct (forallb _ ins) eqn:Hs; [by rewrite Start_app|].
  revert w Hs; induction ins as [|i ins IH]; intros w; cbn; [done|]; destruct i; cbn; intros Hs; rewrite ?IH by done; done.
Qed.
Lemma Stop_once e1 e2 w r w' : Stop e1 w = Some (r, w') -> Stop e2 w' = None.
Proof. unfold Stop; destruct (done w); [done|]; by intros [= <- <-]. Qed.
Example other_file_reported : exists w,
  Watch (fun _ => None) "/etc/tokmesh/config.yaml" (MkWatcher [] [7%nat] false) (Env (fun _ => 0) (fun _ _ => Ok []) (fun _ => Ok "")) =
    (None, w, Env (fun _ => 0) (fun _ _ => Ok []) (fun _ => Ok "")) /\
  Start [Notified (MkEvent "/etc/tokmesh/notes.txt" [Write] 0)] w = [(7%nat, "/etc/tokmesh/notes.txt")].
Proof. eexists; split; vm_compute; reflexivity. Qed.
End ConfWatcher.
