(* ===== verification/TlsRoots.v ===== *)
(** Certificates: [internal/infra/tlsroots], the pool of roots and the watcher that reloads
    the certificate of a server when its files change.

    PEM, X.509 and the notifications of the file system are library code: how a block is
    split off and parsed, and what loading the pair of files gives at a time, are arguments.
    The underlying pool is the list of the certificates added to it; logging is left out. *)

From Stdlib Require Import Ascii String.
From stdpp Require Import list strings.
From S2P Require Import Prelude Errors GoStrings FileWatch.

Open Scope string_scope.
Open Scope Z_scope.

Definition ErrNoCertsFound : error := SimpleError "tlsroots: no certificates found in PEM file".
Definition ErrInvalidPEM : error := SimpleError "tlsroots: invalid PEM data".

(** [pem.Decode]: the first block, by its type and its bytes, and the data after it. *)
Class PemLib (Cert : Type) := {
  pem_Decode : bytes -> option (string * bytes * bytes);
  x509_ParseCertificate : bytes -> Res Cert;
}.
(** The rest is shorter than the data. *)
Class PemLaws (Cert : Type) `{PemLib Cert} :=
  law_Decode : forall data t b rest, pem_Decode data = Some (t, b, rest) -> (length rest < length data)%nat.

(** ** The pool *)
Section Pool.
Context {Cert : Type} `{PemLib Cert}.

Definition Pool : Type := list Cert.
Definition NewEmptyPool : Pool := [].
(** [x509.SystemCertPool], or an empty pool. *)
Definition NewPool (system : Res (list Cert)) : Pool := match system with Ok l => l | Err _ => [] end.
Definition AddCert (cert : Cert) : M Pool unit := upd_st (fun p => p ++ [cert])%list.
(** The blocks up to the first certificate that does not parse; [None] is too little fuel. *)
Fixpoint pem_loop (fuel : nat) (pemData : bytes) (certsAdded : Z) : M Pool (option (option error)) :=
  match fuel with
  | O => ret None
  | S fuel' =>
      match pemData with
      | [] => ret (Some (if certsAdded =? 0 then Some ErrNoCertsFound else None))
      | _ =>
          match pem_Decode pemData with
          | None => ret (Some (if certsAdded =? 0 then Some ErrNoCertsFound else None))
          | Some (type, block, rest) =>
              if negb (String.eqb type "CERTIFICATE") then pem_loop fuel' rest certsAdded
              else match x509_ParseCertificate block with
                   | Err err => ret (Some (Some (WrapError "tlsroots: parse certificate" err)))
                   | Ok cert => AddCert cert ;;; pem_loop fuel' rest (certsAdded + 1)
                   end
          end
      end
  end.
Definition AddCertPEM (pemData : bytes) : M Pool (option (option error)) := pem_loop (S (length pemData)) pemData 0.
(** The file, as [os.ReadFile] gives it. *)
Definition AddCertFile (ReadFile : string -> Res bytes) (path : string) : M Pool (option (option error)) :=
  match ReadFile path with
  | Err err => ret (Some (Some (WrapError ("tlsroots: read cert file " +:+ path) err)))
  | Ok data => AddCertPEM data
  end.
Definition cert_name (name : string) : bool :=
  let ext := if 4 <? slen name then from (String.length name - 4) name else "" in
  String.eqb ext ".pem" || String.eqb ext ".crt" || String.eqb ext ".cer".
(** The entries of a directory, with whether they are directories; a file that cannot be
    added is passed over. *)
Definition AddCertDir (ReadFile : string -> Res bytes) (dir : string) (entries : Res (list (string * bool))) : M Pool (option error) :=
  match entries with
  | Err err => ret (Some (WrapError ("tlsroots: read dir " +:+ dir) err))
  | Ok entries =>
      for_range entries (fun entry =>
        if snd entry || negb (cert_name (fst entry)) then ret tt
        else AddCertFile ReadFile (dir +:+ "/" +:+ fst entry) ;;; ret tt) ;;;
      ret None
  end.

Lemma pem_loop_ends `{!PemLaws Cert} fuel data n p e : (length data < fuel)%nat ->
  exists r p', pem_loop fuel data n p e = (Some r, p', e) /\ p `prefix_of` p'.
Proof.
  revert data n p; induction fuel as [|fuel IH]; intros data n p Hl; [lia|]; cbn.
  destruct data as [|b data]; [by eexists _, p|].
  destruct (pem_Decode (b :: data)) as [[[t blk] rest]|] eqn:Hd; [|by eexists _, p].
  apply law_Decode in Hd; destruct (negb _); [apply IH; lia|].
  destruct (x509_ParseCertificate blk); [|by eexists _, p]; unfold bind, AddCert, upd_st.
  destruct (IH rest (n + 1) (p ++ [a])%list) as (r & p' & -> & Hp); [lia|]; exists r, p'; split; [done|].
  by etrans; [apply prefix_app_r, reflexivity|].
Qed.
End Pool.

(** ** Configurations of TLS *)
(** The fields the code sets; the others are zero. *)
Record TLSConf (Cert Pair : Type) := MkTLSConf {
  RootCAs : list Cert; ClientCAs : option (list Cert); Certificates : list Pair; RequireAndVerifyClientCert : bool; MinVersion : Z }.
Definition VersionTLS12 : Z := 771.
Definition TLSConfig {Cert Pair} (p : list Cert) : TLSConf Cert Pair := MkTLSConf Cert Pair p None [] false VersionTLS12.
(** The pair of files, as [tls.LoadX509KeyPair] gives it. *)
Definition MutualTLSConfig {Cert Pair} (pair : Res Pair) (p : list Cert) : Res (TLSConf Cert Pair) :=
  match pair with
  | Err err => Err (WrapError "tlsroots: load key pair" err)
  | Ok cert => Ok (MkTLSConf Cert Pair p (Some p) [cert] true VersionTLS12)
  end.

(** ** The watcher *)
Section Watcher.
Context {Cert : Type}.
(** What loading the pair of files gives at a time. *)
Context (LoadX509KeyPair : Z -> Res Cert).

(** [lastReload] is the zero time before the first reload; [busy] is when the loop is done
    with what it has taken so far. *)
Record Watcher := MkWatcher {
  certFile : string; keyFile : string; cert : Cert; debounce : Z; lastReload : option Z; busy : Z; done : bool }.
Definition set_cert (c : Cert) (w : Watcher) : Watcher :=
  MkWatcher (certFile w) (keyFile w) c (debounce w) (lastReload w) (busy w) (done w).
Definition set_time (last : option Z) (t : Z) (w : Watcher) : Watcher :=
  MkWatcher (certFile w) (keyFile w) (cert w) (debounce w) last t (done w).
Definition default_debounce : Z := 500 * 1000000.
Definition reload_delay : Z := 100 * 1000000.

Definition reload (now : Z) (w : Watcher) : Watcher * option error :=
  match LoadX509KeyPair now with
  | Err err => (w, Some (WrapError "load key pair" err))
  | Ok c => (set_cert c w, None)
  end.
(** The interval is the default one, or that of the option [WithDebounce]. *)
Definition NewWatcher (certFile keyFile : string) (WithDebounce : option Z) (now : Z) : Res Watcher :=
  match LoadX509KeyPair now with
  | Err err => Err (WrapError "tlsroots: initial load" (WrapError "load key pair" err))
  | Ok c => Ok (MkWatcher certFile keyFile c (default default_debounce WithDebounce) None now false)
  end.
Definition debouncedReload (now : Z) (w : Watcher) : Watcher * option error :=
  if match lastReload w with None => false | Some last => now - last <? debounce w end then (w, None)
  else let now' := now + reload_delay in reload now' (set_time (Some now) now' w).
(** The directories [Start] watches, up to the first that cannot be. *)
Definition Start_dirs (created : option error) (add : string -> option error) (w : Watcher) : option error :=
  let certDir := Dir (certFile w) in
  let keyDir := Dir (keyFile w) in
  match created with
  | Some err => Some (WrapError "tlsroots: create watcher" err)
  | None =>
      match add certDir with
      | Some err => Some (WrapError ("tlsroots: watch cert dir " +:+ certDir) err)
      | None =>
          if String.eqb keyDir certDir then None
          else match add keyDir with
               | Some err => Some (WrapError ("tlsroots: watch key dir " +:+ keyDir) err)
               | None => None
               end
      end
  end.
(** A notification in the loop of [Start]; an error of the reload is logged. *)
Definition ours (ev : Event) (w : Watcher) : bool :=
  String.eqb (Base (ev_Name ev)) (Base (certFile w)) || String.eqb (Base (ev_Name ev)) (Base (keyFile w)).
Definition on_event (ev : Event) (w : Watcher) : Watcher :=
  let now := Z.max (ev_at ev) (busy w) in
  let w := set_time (lastReload w) now w in
  if negb (ours ev w) then w
  else if negb (reloads ev) then w
  else fst (debouncedReload now w).
(** What the loop takes from its channels: a notification, an error, the end of one, the stop. *)
Inductive Input := Notified (ev : Event) | WatchError | ChannelClosed | Stopped.
Fixpoint Start_loop (ins : list Input) (w : Watcher) : Watcher :=
  match ins with
  | [] => w
  | Notified ev :: ins => Start_loop ins (on_event ev w)
  | WatchError :: ins => Start_loop ins w
  | ChannelClosed :: _ | Stopped :: _ => w
  end.
(** Closing the channel twice panics. *)
Definition Stop (w : Watcher) : option Watcher :=
  if done w then None else Some (MkWatcher (certFile w) (keyFile w) (cert w) (debounce w) (lastReload w) (busy w) true).
(** [GetClientCertificate] returns the same. *)
Definition GetCertificate (w : Watcher) : Cert := cert w.

(** An input that does not lead to a reload. *)
Definition quiet (w : Watcher) (i : Input) : Prop :=
  match i with Notified ev => ours ev w = false \/ reloads ev = false | _ => True end.
Lemma quiet_keeps ins w : Forall (quiet w) ins -> cert (Start_loop ins w) = cert w.
Proof.
  revert w; induction ins as [|i ins IH]; intros w Hq; [done|]; apply Forall_cons in Hq as [Hi Hq]; destruct i as [ev| | |]; cbn; [|by apply IH|done..].
  assert (on_event ev w = set_time (lastReload w) (Z.max (ev_at ev) (busy w)) w) as ->.
  { unfold on_event; destruct Hi as [Ho|Hr]; unfold ours in *; cbn [set_time certFile keyFile] in *; [by rewrite Ho|].
    rewrite Hr; cbn [negb]; by case_match. }
  by rewrite IH.
Qed.
End Watcher.
Arguments Watcher : clear implicits.

(** The two files of a certificate are replaced, first the certificate and then the key, and in
    between they do not fit together.  The server ends up with the new pair if the key follows
    within the 100 ms the first reload waits, or after the debounce interval.  In between the
    notification of the key is the one that is dropped, and the server keeps the old certificate
    until it is notified of another change of these files, however long that takes. *)
Theorem renewal_window {Cert : Type} (load : Z -> Res Cert) (w : Watcher Cert) (old new : Cert) (certEv keyEv : Event) (rest : list Input)
  (Hold : cert w = old) (Hcert : Base (ev_Name certEv) = Base (certFile w)) (Hkey : Base (ev_Name keyEv) = Base (keyFile w))
  (Hc : reloads certEv = true) (Hk : reloads keyEv = true) (Hrest : Forall (quiet w) rest)
  (Hnew : forall t, ev_at keyEv <= t -> load t = Ok new)
  (Hmix : forall t, ev_at certEv <= t < ev_at keyEv -> exists err, load t = Err err) (Ht : ev_at certEv < ev_at keyEv)
  (Hbusy : busy w <= ev_at certEv) (Hdb : reload_delay <= debounce w)
  (Hlast : forall last, lastReload w = Some last -> debounce w <= ev_at certEv - last) :
  let gap := ev_at keyEv - ev_at certEv in
  GetCertificate (Start_loop load (Notified certEv :: Notified keyEv :: rest) w) =
  if (gap <=? reload_delay) || (debounce w <=? gap) then new else old.
Proof.
  destruct w as [cf kf c db last busy0 dn]; cbn in Hold, Hbusy, Hdb, Hlast, Hcert, Hkey |- *; subst c; unfold GetCertificate.
  assert (forall w', certFile w' = cf -> keyFile w' = kf -> cert (Start_loop load rest w') = cert w') as Hq.
  { intros w' Hcf Hkf; apply quiet_keeps; eapply Forall_impl; [exact Hrest|]; intros [ev| | |]; unfold quiet, ours; cbn; by rewrite ?Hcf, ?Hkf. }
  unfold on_event, ours, set_time, debouncedReload, reload; cbn [certFile keyFile cert debounce lastReload busy done].
  rewrite Hc, Hcert, String.eqb_refl; cbn [negb orb]; rewrite (Z.max_l (ev_at certEv)) by lia.
  replace (match last with None => false | Some l => ev_at certEv - l <? db end) with false by
    (destruct last as [l|]; [symmetry; apply Z.ltb_ge, Hlast; done|done]).
  unfold reload_delay in *; destruct (Z.leb_spec (ev_at keyEv - ev_at certEv) (100 * 1000000)) as [Hd|Hd]; cbn [orb].
  - rewrite (Hnew (ev_at certEv + 100 * 1000000)) by lia; cbn [fst set_cert certFile keyFile cert debounce lastReload busy done].
    rewrite Hkey, Hk, String.eqb_refl, orb_true_r; cbn [negb]; rewrite Hq; repeat case_match; rewrite ?Hnew in * by lia; by simplify_eq.
  - destruct (Hmix (ev_at certEv + 100 * 1000000)) as (err & ->); [lia|]; cbn [fst set_cert set_time certFile keyFile cert debounce lastReload busy done].
    rewrite Hkey, Hk, String.eqb_refl, orb_true_r, Z.max_l by lia; cbn [negb].
    destruct (Z.ltb_spec (ev_at keyEv - ev_at certEv) db); destruct (Z.leb_spec db (ev_at keyEv - ev_at certEv)); try lia; cbn [fst]; [by rewrite Hq|].
    by rewrite Hnew, Hq by (lia || done).
Qed.

(** ** Witnesses *)
Definition demo_load (t : Z) : Res string := if t <? 10 then Ok "old" else if t <? 200000010 then Err ErrInvalidPEM else Ok "new".
Definition demo_watcher : Watcher string := MkWatcher "/etc/tls/tls.crt" "/etc/tls/tls.key" "old" default_debounce None 0 false.
Definition demo_later : list Input := [Notified (MkEvent "/etc/tls/other" [Write] 90000000000); WatchError; Stopped].
Lemma renewal_window_witness :
  GetCertificate (Start_loop demo_load (Notified (MkEvent "/etc/tls/tls.crt" [Create] 10) :: Notified (MkEvent "/etc/tls/tls.key" [Write; Chmod] 200000010) :: demo_later) demo_watcher) = "old".
Proof.
  refine (renewal_window demo_load demo_watcher "old" "new" (MkEvent "/etc/tls/tls.crt" [Create] 10) (MkEvent "/etc/tls/tls.key" [Write; Chmod] 200000010) demo_later
    eq_refl eq_refl eq_refl eq_refl eq_refl _ _ _ _ _ _ _); unfold demo_load, reload_delay, demo_watcher, default_debounce; cbn [ev_at busy debounce lastReload].
  - repeat apply Forall_cons_2; [left; vm_compute; reflexivity|exact I..|apply Forall_nil_2].
  - intros t Ht; by rewrite (proj2 (Z.ltb_ge t 10)), (proj2 (Z.ltb_ge t 200000010)) by lia.
  - intros t Ht; rewrite (proj2 (Z.ltb_ge t 10)), (proj2 (Z.ltb_lt t 200000010)) by lia; by eexists.
  - lia.
  - lia.
  - lia.
  - discriminate.
Defined.
