(* ===== verification/Repl.v ===== *)
(** The interactive mode of the command line client, and the file of its configuration:
    [internal/cli/repl] and [internal/cli/config].

    The loop reads commands and keeps a history of them; executing one is a stub.  The terminal
    and the file of the history are arguments: the bytes read and how reading ends, the contents
    of the file, the errors of the system calls. *)

From Stdlib Require Import Ascii String.
From stdpp Require Import list strings.
From S2P Require Import Prelude Errors GoStrings FileWatch.

Open Scope string_scope.
Open Scope Z_scope.

Definition nl : ascii := Z_ascii 10.
Definition cr : ascii := Z_ascii 13.

(** ** [bufio.Scanner] over lines *)
Definition ErrTooLong : error := SimpleError "bufio.Scanner: token too long".
Definition MaxScanTokenSize : Z := 65536.
Definition dropCR (line : string) : string :=
  if HasSuffix line (String cr "") then upto (String.length line - 1) line else line.
(** The lines up to the first that does not fit into the buffer; what follows the last newline
    is a line unless it is empty. *)
Fixpoint scan_pieces (pieces : list string) : list string * option error :=
  match pieces with
  | [] => ([], None)
  | [last] => if MaxScanTokenSize <=? slen last then ([], Some ErrTooLong) else (if String.eqb last "" then [] else [dropCR last], None)
  | p :: pieces =>
      if MaxScanTokenSize <=? slen p then ([], Some ErrTooLong)
      else let '(l, err) := scan_pieces pieces in (dropCR p :: l, err)
  end.
Definition scan_lines (text : string) : list string * option error := scan_pieces (Split text nl).

(** ** History *)
Record History := MkHistory { entries : list string; maxSize : Z; file : string }.
(** [filepath.Join] leaves out empty elements. *)
Definition NewHistory (homeDir : string) : History :=
  MkHistory [] 1000 (Clean (if String.eqb homeDir "" then ".tokmesh/history" else homeDir +:+ "/.tokmesh/history")).
Definition set_entries (l : list string) (h : History) : History := MkHistory l (maxSize h) (file h).
Definition Add (cmd : string) (h : History) : History :=
  let l := (entries h ++ [cmd])%list in
  set_entries (if maxSize h <? llen l then drop 1 l else l) h.
Definition Get (index : Z) (h : History) : string :=
  if (index <? 0) || (llen (entries h) <=? index) then ""
  else nth (Z.to_nat (llen (entries h) - 1 - index)) (entries h) "".
(** Opening the file: its contents, that there is none, or another error. *)
Inductive Opened := Contents (text : string) | NotExist | OpenError (err : error).
Definition Load (opened : Opened) (h : History) : option error * History :=
  match opened with
  | NotExist => (None, h)
  | OpenError err => (Some err, h)
  | Contents text => let '(l, err) := scan_lines text in (err, set_entries (entries h ++ l) h)
  end.
(** The writes that succeed, up to the first error; [err_at] is what the write of an entry answers. *)
Fixpoint write_entries (err_at : nat -> option error) (i : nat) (l : list string) : string * option error :=
  match l with
  | [] => ("", None)
  | entry :: l =>
      match err_at i with
      | Some err => ("", Some err)
      | None => let '(text, err) := write_entries err_at (S i) l in (entry +:+ String nl text, err)
      end
  end.
(** The file afterwards, if it was created, and the result. *)
Definition Save (mkdir create : option error) (err_at : nat -> option error) (h : History) : option string * option error :=
  match mkdir with
  | Some err => (None, Some err)
  | None =>
      match create with
      | Some err => (None, Some err)
      | None => let '(text, err) := write_entries err_at 0 (entries h) in (Some text, err)
      end
  end.

(** ** Completion *)
Definition commands : list string :=
  [ "session"; "session list"; "session get"; "session create"; "session delete"; "session extend";
    "apikey"; "apikey list"; "apikey create"; "apikey delete";
    "config"; "config show"; "config set"; "config get";
    "backup"; "backup create"; "backup restore"; "backup list";
    "system"; "system status"; "system info"; "system health";
    "connect"; "disconnect"; "use"; "help"; "exit"; "quit" ].
Definition Complete (prefix : string) : list string := List.filter (fun cmd => HasPrefix cmd prefix) commands.

(** ** The loop *)
Definition execute (line : string) : option error := None.
Definition prompt : string := "tokmesh> ".
(** What it wrote, its result, and the history. *)
Record Outcome := MkOutcome { written : string; result : option error; after : History }.
Definition prepend (s : string) (o : Outcome) : Outcome := MkOutcome (s +:+ written o) (result o) (after o).
(** [ReadString] on the pieces of the input between newlines: the last one ends with the input,
    by its end or with an error. *)
Fixpoint run (ending : option error) (pieces : list string) (h : History) : Outcome :=
  prepend prompt
    match pieces with
    | p :: (_ :: _) as rest =>
        let line := TrimSpace (p +:+ String nl "") in
        if String.eqb line "" then run ending rest h
        else
          let h := Add line h in
          if String.eqb line "exit" || String.eqb line "quit" then MkOutcome "" None h
          else match execute line with
               | Some err => prepend ("Error: " +:+ Error err +:+ String nl "") (run ending rest h)
               | None => run ending rest h
               end
    | _ => match ending with None => MkOutcome (String nl "") None h | Some err => MkOutcome "" (Some err) h end
    end.
Definition Run (input : string) (ending : option error) (h : History) : Outcome := run ending (Split input nl) h.

(** ** The configuration of the client *)
Module CliConfig.
Record ConnectionConfig := MkConnection { Server : string; APIKeyID : string; APIKey : string; TLS : bool }.
Record CLIConfig := MkConfig { DefaultServer : string; DefaultOutput : string; Connections : list (string * ConnectionConfig); CurrentConnection : string }.
Definition Default : CLIConfig := MkConfig "http://localhost:5080" "table" [] "".
Definition DefaultConfigPath (homeDir : string) : string :=
  Clean (if String.eqb homeDir "" then ".tokmesh/cli.yaml" else homeDir +:+ "/.tokmesh/cli.yaml").
(** The contents of the file are not read, and not written. *)
Definition Load (exists_ : string -> bool) (homeDir path : string) : Res CLIConfig :=
  let path := if String.eqb path "" then DefaultConfigPath homeDir else path in
  if negb (exists_ path) then Ok Default else Ok Default.
Definition Save (mkdir : string -> option error) (homeDir : string) (cfg : CLIConfig) (path : string) : option error :=
  let path := if String.eqb path "" then DefaultConfigPath homeDir else path in
  mkdir (Dir path).
Definition Merge (cfg : CLIConfig) (env flags : list (string * string)) : CLIConfig := cfg.
(** A configuration that was saved without an error loads as the default one. *)
Lemma saved_is_lost exists_ mkdir home cfg path : Save mkdir home cfg path = None -> Load exists_ home path = Ok Default.
Proof. intros _; unfold Load; by case_match. Qed.
End CliConfig.

(** ** What the loop keeps *)
Definition newest (n : nat) (l : list string) : list string := drop (length l - n) l.
(** The commands of an input: its lines up to the first [exit] or [quit], without blanks. *)
Fixpoint commands_of (pieces : list string) : list string :=
  match pieces with
  | p :: (_ :: _) as rest =>
      let line := TrimSpace (p +:+ String nl "") in
      if String.eqb line "" then commands_of rest
      else if String.eqb line "exit" || String.eqb line "quit" then [line]
      else line :: commands_of rest
  | _ => []
  end.

Lemma newest_all n l : (length l <= n)%nat -> newest n l = l.
Proof. intros H; unfold newest; by replace (length l - n)%nat with 0%nat by lia. Qed.
Lemma length_newest n l : (length (newest n l) <= n)%nat.
Proof. unfold newest; rewrite length_drop; lia. Qed.
Lemma newest_app n l k : newest n (newest n l ++ k) = newest n (l ++ k).
Proof.
  unfold newest; rewrite !length_app, length_drop.
  destruct (decide (length l <= n)%nat) as [Hl|Hl]; [by replace (length l - n)%nat with 0%nat by lia; rewrite drop_0, Nat.sub_0_r|].
  replace (length l - (length l - n))%nat with n by lia.
  rewrite !drop_app, length_drop, drop_drop; f_equal; f_equal; lia.
Qed.
Lemma Add_newest cmd h n : Z.of_nat n = maxSize h -> (length (entries h) <= n)%nat ->
  Add cmd h = set_entries (newest n (entries h ++ [cmd])) h.
Proof.
  intros Hn Hl; unfold Add, newest, llen; rewrite length_app, <- Hn; cbn [length]; f_equal.
  destruct (Z.ltb_spec (Z.of_nat n) (Z.of_nat (length (entries h) + 1))).
  - f_equal; lia.
  - by replace (length (entries h) + 1 - n)%nat with 0%nat by lia.
Qed.
(** The loop ends on every input, and keeps the newest commands. *)
Lemma run_history ending pieces h n : Z.of_nat n = maxSize h -> (length (entries h) <= n)%nat ->
  after (run ending pieces h) = set_entries (newest n (entries h ++ commands_of pieces)) h.
Proof.
  revert h; induction pieces as [|p pieces IH]; intros h Hn Hl; cbn [run prepend after commands_of].
  { rewrite app_nil_r, newest_all by done; destruct h, ending; done. }
  destruct pieces as [|q pieces]; [rewrite app_nil_r, newest_all by done; destruct h, ending; done|].
  set (line := TrimSpace (p +:+ String nl "")); destruct (String.eqb line ""); [by apply IH|].
  rewrite (Add_newest line h n Hn Hl); destruct (_ || _); cbn [after]; [done|]; cbn [execute].
  rewrite IH; cbn [set_entries entries maxSize file]; [|done|apply length_newest].
  by rewrite newest_app, <- app_assoc.
Qed.

(** ** Lines that survive the file *)
Definition plain_entry (e : string) : Prop := without nl e = true /\ HasSuffix e (String cr "") = false.
Lemma trim_left_piece p k : without nl p = true ->
  trim_left_from (p +:+ String nl "") k = "" \/ exists p', without nl p' = true /\ trim_left_from (p +:+ String nl "") k = p' +:+ String nl "".
Proof.
  revert k; induction p as [|a p IH]; intros k.
  { intros _; left; by destruct k. }
  change (String a p +:+ String nl "") with (String a (p +:+ String nl "")); intros Hp; pose proof Hp as [Ha Hp']%andb_true_iff.
  cbn [trim_left_from]; destruct k; [|by apply IH]; case_match; [|by apply IH]; right; by exists (String a p).
Qed.
Lemma trim_right_piece p k : without nl p = true -> without nl (trim_right_from (p +:+ String nl "") k) = true.
Proof.
  revert k; induction p as [|a p IH]; intros k; [by destruct k|].
  change (String a p +:+ String nl "") with (String a (p +:+ String nl "")); intros [Ha Hp]%andb_true_iff.
  assert (forall r, without nl r = true -> without nl (String a r) = true) as Hc by (intros r Hr; apply andb_true_iff; by split).
  cbn [trim_right_from]; destruct k; [case_match|]; case_match; try done; apply Hc, IH, Hp.
Qed.
Lemma trim_right_cr s k t : trim_right_from s k <> t +:+ String cr "".
Proof.
  revert k t; induction s as [|a s IH]; intros k t; cbn [trim_right_from]; [by destruct t|].
  assert (forall j b, (if String.eqb (trim_right_from s j) "" && b then "" else String a (trim_right_from s j)) = t +:+ String cr "" ->
    b = false /\ a = cr) as Hk.
  { intros j b; destruct (String.eqb_spec (trim_right_from s j) "") as [He|He]; [destruct b|]; cbn [andb].
    - by destruct t.
    - rewrite He; destruct t as [|c t]; [by intros [= ->]|]; by destruct t.
    - destruct t as [|c t]; [by intros [= -> ?]|]; intros [= -> ?]; by destruct (IH j t). }
  destruct k; [case_match eqn:Hs|]; intros [? ->]%Hk; try done; by cbn in Hs.
Qed.
Lemma TrimSpace_plain_entry p : without nl p = true -> plain_entry (TrimSpace (p +:+ String nl "")).
Proof.
  intros Hp; unfold TrimSpace; split.
  - destruct (trim_left_piece p 0 Hp) as [->|(p' & Hp' & ->)]; [done|by apply trim_right_piece].
  - destruct (HasSuffix _ _) eqn:Hs; [|done]; apply HasSuffix_inv in Hs as [t Ht]; by apply trim_right_cr in Ht.
Qed.
Lemma Split_without c s : Forall (fun p => without c p = true) (Split s c).
Proof.
  induction s as [|a s IH]; cbn [Split]; [by repeat constructor|]; destruct (Ascii.eqb a c) eqn:Ha; [by constructor|].
  destruct (Split s c) as [|p ps]; [repeat constructor|apply Forall_cons in IH as [Hp Hps]; constructor; [|done]];
    apply andb_true_iff; split; [by rewrite Ha|done|by rewrite Ha|done].
Qed.
Lemma commands_plain pieces : Forall (fun p => without nl p = true) pieces -> Forall plain_entry (commands_of pieces).
Proof.
  induction 1 as [|p pieces Hp Hps IH]; cbn [commands_of]; [constructor|]; destruct pieces as [|q pieces]; [constructor|].
  pose proof (TrimSpace_plain_entry p Hp); repeat case_match; eauto using Forall_cons_2, Forall_nil_2.
Qed.
Lemma scan_cons p q qs : scan_pieces (p :: q :: qs) =
  if MaxScanTokenSize <=? slen p then ([], Some ErrTooLong) else let '(l, err) := scan_pieces (q :: qs) in (dropCR p :: l, err).
Proof. done. Qed.
Lemma scan_entries l : Forall plain_entry l -> Forall (fun e => slen e < MaxScanTokenSize) l ->
  scan_lines (fst (write_entries (fun _ => None) 0 l)) = (l, None).
Proof.
  unfold scan_lines; generalize 0%nat; intros i Hp Hs; revert i; induction l as [|e l IH]; intros i; [done|].
  apply Forall_cons in Hp as [[Hn Hc] Hp]; apply Forall_cons in Hs as [He Hs]; specialize (IH Hp Hs (S i)); cbn [write_entries].
  destruct (write_entries _ _ _) as [text err]; cbn [fst] in IH |- *; rewrite Split_app by done.
  destruct (Split text nl) as [|q qs] eqn:Hq; [by destruct text; cbn in Hq; repeat case_match|].
  rewrite scan_cons, (proj2 (Z.leb_gt _ _) He), IH.
  unfold dropCR; by rewrite Hc.
Qed.

Lemma write_ok i l : write_entries (fun _ => None) i l = (fst (write_entries (fun _ => None) i l), None).
Proof. revert i; induction l as [|e l IH]; intros i; cbn [write_entries]; [done|]; by rewrite IH. Qed.

(** The history of a session, saved and loaded, is the newest thousand of its commands, in
    order, whatever was typed: commands have no blanks around them, so that no line is split,
    joined or shortened by the file.  Only a line that does not fit into the buffer of the
    scanner is in the way. *)
Theorem history_persists (input : string) (ending : option error) (home : string) :
  let h := after (Run input ending (NewHistory home)) in
  entries h = newest 1000 (commands_of (Split input nl)) /\
  (Forall (fun e => slen e < MaxScanTokenSize) (entries h) ->
   exists text, Save None None (fun _ => None) h = (Some text, None) /\ Load (Contents text) (NewHistory home) = (None, h)).
Proof.
  cbv zeta; unfold Run; rewrite (run_history _ _ _ 1000) by (cbn; lia || done).
  cbn [set_entries NewHistory entries maxSize file app]; split; [done|]; intros Hs.
  exists (fst (write_entries (fun _ => None) 0 (newest 1000 (commands_of (Split input nl))))); split.
  - unfold Save; by rewrite write_ok at 1.
  - unfold Load; rewrite scan_entries; [done| |done].
    apply Forall_drop, commands_plain, Split_without.
Qed.
(** A history that was loaded is not cut to its size, and [Add] removes one entry at most: it
    stays as long as it was. *)
Lemma loaded_history_stays cmds text home l : scan_lines text = (l, None) -> (1000 <= length l)%nat ->
  length (entries (foldl (fun h c => Add c h) (snd (Load (Contents text) (NewHistory home))) cmds)) = length l.
Proof.
  intros Hl Hlen; unfold Load; rewrite Hl; cbn [snd set_entries NewHistory entries maxSize file app].
  assert (forall h, maxSize h = 1000 -> (1000 <= length (entries h))%nat ->
    length (entries (foldl (fun h c => Add c h) h cmds)) = length (entries h)) as Hg; [|by rewrite Hg].
  induction cmds as [|c cmds IH]; intros h Hm Hh; [done|]; cbn [foldl].
  assert (length (entries (Add c h)) = length (entries h)) as Ha.
  { unfold Add, llen; rewrite Hm, length_app; cbn [length set_entries entries]; rewrite (proj2 (Z.ltb_lt _ _)) by lia.
    rewrite length_drop, length_app; cbn [length]; lia. }
  rewrite IH; [done|done|by rewrite Ha].
Qed.

(** ** Witnesses *)
Definition demo_input : string :=
  Join ["  session list "; ""; "apikey list" +:+ String cr ""; "quit"; "system status"] (String nl "") +:+ String nl "".
Lemma history_persists_witness :
  let h := after (Run demo_input None (NewHistory "/root")) in
  entries h = ["session list"; "apikey list"; "quit"] /\
  exists text, Save None None (fun _ => None) h = (Some text, None) /\ Load (Contents text) (NewHistory "/root") = (None, h).
Proof.
  split; [vm_compute; reflexivity|]; apply (history_persists demo_input None "/root").
  assert (entries (after (Run demo_input None (NewHistory "/root"))) = ["session list"; "apikey list"; "quit"]) as -> by (vm_compute; reflexivity).
  repeat constructor.
Defined.
