(* ===== verification/LocalServer.v ===== *)
(** The local management server ([internal/server/localserver]) and the client of its socket
    ([internal/cli/connection/socket.go]).

    The server listens in the goroutine that calls [ListenAndServe], every connection has one of
    its own, and [Shutdown] runs in another: an interleaving is a list of labels.  Reading a
    command from a connection is a stub.  The network is an argument. *)

From Stdlib Require Import Ascii String.
From stdpp Require Import list strings.
From S2P Require Import Prelude GoStrings.

Open Scope string_scope.
Open Scope Z_scope.

Definition ErrClosed : error := SimpleError "use of closed network connection".
Definition EOF : error := SimpleError "EOF".
Definition nl : ascii := Z_ascii 10.

(** ** The handler of commands *)
Module Handler.
Definition handleStatus : option error := None.
Definition handleShutdown : option error := None.
Definition handleReload : option error := None.
Definition handleDrain : option error := None.
(** What is written, and the result; [write_err] is what writing answers. *)
Definition Execute (write_err : option error) (cmd : string) (args : list string) : string * option error :=
  if String.eqb cmd "status" then ("", handleStatus)
  else if String.eqb cmd "shutdown" then ("", handleShutdown)
  else if String.eqb cmd "reload" then ("", handleReload)
  else if String.eqb cmd "drain" then ("", handleDrain)
  else ("unknown command: " +:+ cmd +:+ String nl "", write_err).
End Handler.

(** ** The server *)
(** Where [ListenAndServe] is: not called, before the flag is set, in the loop, returned. *)
Inductive phase := Idle | Listening | Accepting | Done (r : option error).
Inductive listener := NoListener | Open | Closed.
Inductive stop_state := Serving | Waiting (close_err : option error) | Returned (timeout : bool).
Record Server := MkServer { path : string; running : bool; pc : phase; ln : listener; conns : nat; stop : stop_state }.
Definition New (socketPath : string) : Server := MkServer socketPath false Idle NoListener 0 Serving.

Definition set_pc (p : phase) (s : Server) : Server := MkServer (path s) (running s) p (ln s) (conns s) (stop s).
Definition set_conns (n : nat) (s : Server) : Server := MkServer (path s) (running s) (pc s) (ln s) n (stop s).
Definition set_stop (x : stop_state) (s : Server) : Server := MkServer (path s) (running s) (pc s) (ln s) (conns s) x.

(** [net.Listen], then the flag. *)
Definition listen (r : option error) (s : Server) : option Server :=
  match pc s with
  | Idle =>
      match r with
      | Some err => Some (set_pc (Done (Some err)) s)
      | None => Some (MkServer (path s) (running s) Listening Open (conns s) (stop s))
      end
  | _ => None
  end.
Definition set_running (s : Server) : option Server :=
  match pc s with Listening => Some (MkServer (path s) true Accepting (ln s) (conns s) (stop s)) | _ => None end.
(** A round of the loop: a connection, while the listener is open, or an error. *)
Definition accept (s : Server) : option Server :=
  match pc s, ln s with Accepting, Open => Some (set_conns (S (conns s)) s) | _, _ => None end.
Definition accept_error (err : error) (s : Server) : option Server :=
  match pc s with
  | Accepting =>
      let err := match ln s with Closed => ErrClosed | _ => err end in
      if negb (running s) then Some (set_pc (Done None) s)
      else if match ln s with Closed => true | _ => false end then Some (set_pc (Done None) s)
      else Some (set_pc (Done (Some err)) s)
  | _ => None
  end.
(** [handleConnection] closes the connection. *)
Definition handleConnection (s : Server) : option Server :=
  match conns s with O => None | S n => Some (set_conns n s) end.
Definition Shutdown (close_err : option error) (s : Server) : option Server :=
  match stop s with
  | Serving =>
      match ln s with
      | NoListener => Some (MkServer (path s) false (pc s) (ln s) (conns s) (Waiting None))
      | _ => Some (MkServer (path s) false (pc s) Closed (conns s) (Waiting close_err))
      end
  | _ => None
  end.
(** The wait group counts the connections. *)
Definition wait_done (s : Server) : option Server :=
  match stop s, conns s with Waiting _, O => Some (set_stop (Returned false) s) | _, _ => None end.
Definition wait_timeout (s : Server) : option Server :=
  match stop s with Waiting _ => Some (set_stop (Returned true) s) | _ => None end.

Inductive label := Listen (r : option error) | SetRunning | Accept | AcceptError (err : error) | ConnDone | ShutdownCall (close_err : option error) | WaitDone | WaitTimeout.
Definition step (l : label) (s : Server) : option Server :=
  match l with
  | Listen r => listen r s
  | SetRunning => set_running s
  | Accept => accept s
  | AcceptError err => accept_error err s
  | ConnDone => handleConnection s
  | ShutdownCall e => Shutdown e s
  | WaitDone => wait_done s
  | WaitTimeout => wait_timeout s
  end.
Fixpoint exec (ls : list label) (s : Server) : option Server :=
  match ls with [] => Some s | l :: ls => s ← step l s; exec ls s end.

(** After a [Shutdown] that saw the listener. *)
Definition closing (s : Server) : Prop :=
  stop s <> Serving /\ ln s = Closed /\ match pc s with Accepting => True | Done r => r = None | _ => False end.
Definition left_over (s : Server) : nat :=
  (conns s + match pc s with Accepting => 1 | _ => 0 end + match stop s with Waiting _ => 1 | _ => 0 end)%nat.
Lemma stopping_step l s s' : closing s -> step l s = Some s' ->
  closing s' /\ (conns s' <= conns s)%nat /\ (left_over s' < left_over s)%nat.
Proof.
  unfold closing, left_over; destruct s as [p r c n k st]; cbn; intros (Hst & -> & Hpc); destruct l as [?| | |?| |?| |]; cbn;
    unfold listen, set_running, accept, accept_error, handleConnection, Shutdown, wait_done, wait_timeout; cbn;
    intros Hs; repeat case_match; simplify_eq; cbn in *; simplify_eq; try done; split_ands; (done || lia).
Qed.
Lemma stopping_exec ls s s' : closing s -> exec ls s = Some s' -> closing s' /\ (conns s' <= conns s)%nat /\ (length ls <= left_over s)%nat.
Proof.
  revert s; induction ls as [|l ls IH]; intros s Hc; cbn [exec]; [intros [= <-]; split_ands; [done|lia|cbn; lia]|].
  destruct (step l s) as [s1|] eqn:Hs; [|done]; cbn; intros He; destruct (stopping_step _ _ _ Hc Hs) as (Hc1 & Hn & Hl).
  destruct (IH s1 Hc1 He) as (Hc' & Hn' & Hl'); split_ands; [done|lia|cbn; lia].
Qed.
Lemma stopping_stuck s : closing s -> (forall l, step l s = None) -> pc s = Done None /\ conns s = 0%nat /\ exists t, stop s = Returned t.
Proof.
  unfold closing; destruct s as [p r c n k st]; cbn; intros (Hst & -> & Hpc) Hl; destruct c; try done; subst.
  - specialize (Hl (AcceptError EOF)); cbn in Hl; unfold accept_error in Hl; cbn in Hl; by repeat case_match.
  - destruct k; [|by specialize (Hl ConnDone)]; destruct st; [done|by specialize (Hl WaitTimeout)|split_ands; eauto].
Qed.

(** [Shutdown] of a server that accepts connections: none is accepted any more, at most two
    steps more than there are connections are left, and when no step is left [ListenAndServe]
    returned without an error, every connection is closed and [Shutdown] returned. *)
Theorem local_shutdown (s s1 : Server) (close_err : option error) (ls : list label) (s2 : Server)
  (Hs : pc s = Accepting) (Hln : ln s = Open) (Hd : Shutdown close_err s = Some s1) (He : exec ls s1 = Some s2) :
  (conns s2 <= conns s)%nat /\ (length ls <= conns s + 2)%nat /\
  ((forall l, step l s2 = None) -> pc s2 = Done None /\ conns s2 = 0%nat /\ exists t, stop s2 = Returned t).
Proof.
  assert (closing s1 /\ conns s1 = conns s /\ left_over s1 = conns s + 2)%nat as (Hc & Hn & Hl).
  { destruct s as [p r c n k st]; cbn in *; subst; unfold Shutdown in Hd; cbn in Hd; case_match; [|done..].
    injection Hd as <-; unfold closing, left_over; cbn; split_ands; done || lia. }
  destruct (stopping_exec _ _ _ Hc He) as (Hc2 & Hn2 & Hl2); split_ands; [lia|lia|by apply stopping_stuck].
Qed.
Lemma accepts_on n s : pc s = Accepting -> ln s = Open -> is_Some (exec (repeat Accept n) s).
Proof.
  revert s; induction n as [|n IH]; intros s Hp Hl; [by eexists|]; cbn; unfold accept; rewrite Hp, Hl; cbn; by apply IH.
Qed.
(** A [Shutdown] that comes before the socket is bound returns at once, and the server serves
    for good, with the flag set. *)
Lemma shutdown_before_listen p : exists s,
  exec [ShutdownCall None; WaitDone; Listen None; SetRunning] (New p) = Some s /\
  stop s = Returned false /\ running s = true /\ forall n, is_Some (exec (repeat Accept n) s).
Proof.
  eexists; split; [reflexivity|]; split_ands; [done|done|]; intros n; by apply accepts_on.
Qed.

(** ** The client of the socket *)
(** What the peer does with a connection: whether it still takes what is written, what reading
    gives piece by piece, and how reading ends. *)
Record Conn := MkConn { write_err : option error; chunks : list string; read_end : error }.
Record SocketClient := MkClient { socketPath : string; conn : option Conn }.
Definition NewSocketClient (socketPath : string) : SocketClient := MkClient socketPath None.
Definition Connect (dial : Res Conn) : M SocketClient (option error) :=
  match dial with
  | Err err => ret (Some err)
  | Ok c => upd_st (fun cl => MkClient (socketPath cl) (Some c)) ;;; ret None
  end.
Definition Close (close_err : option error) (c : SocketClient) : option error :=
  match conn c with Some _ => close_err | None => None end.
(** [ReadString] of a reader made for this call: what it read behind the line is gone with it. *)
Fixpoint read_line (acc : string) (l : list string) : option string * list string :=
  match l with
  | [] => (None, [])
  | chunk :: l =>
      match Index chunk (String nl "") with
      | Some i => (Some (acc +:+ upto (i + 1) chunk), l)
      | None => read_line (acc +:+ chunk) l
      end
  end.
(** The answer, and what the server got. *)
Definition Execute (dial : Res Conn) (cmd : string) : M SocketClient (Res string) :=
  c <- get_st ;;
  err <- (match conn c with None => Connect dial | Some _ => ret None end) ;;
  match err with
  | Some err => ret (Err err)
  | None =>
      c <- get_st ;;
      match conn c with
      | None => ret (Err EOF)
      | Some k =>
          match write_err k with
          | Some err => ret (Err err)
          | None =>
              let '(line, rest) := read_line "" (chunks k) in
              put_st (MkClient (socketPath c) (Some (MkConn None rest (read_end k)))) ;;;
              ret (match line with Some l => Ok l | None => Err (read_end k) end)
          end
      end
  end.
(** A connection of this server: it closes it without reading, so that writing may still work
    or not, and reading ends at once. *)
Definition served (c : Conn) : Prop := chunks c = [].

Definition served_client (c : SocketClient) : Prop := match conn c with Some k => served k | None => True end.
Lemma Execute_fails dial cmd c e : served_client c -> (forall k, dial = Ok k -> served k) ->
  exists err c', Execute dial cmd c e = (Err err, c', e) /\ served_client c' /\ (is_Some (conn c) -> is_Some (conn c')).
Proof.
  intros Hc Hd; destruct c as [p [k|]]; unfold served_client, Execute, Connect, bind, get_st, ret, put_st, upd_st in *; cbn in *.
  - unfold served in Hc; destruct k as [[err|] ch re]; cbn in *; subst; cbn; eexists _, _; split_ands; try done; by eexists.
  - destruct dial as [k|err]; cbn; [|by eexists err, _].
    specialize (Hd k eq_refl); unfold served in Hd; destruct k as [[err|] ch re]; cbn in *; subst; cbn; eexists _, _; split_ands; try done; by eexists.
Qed.
(** However often it is asked, over one connection or new ones, the client gets no answer from
    this server, whatever the command; and once it has a connection it never dials again, even
    when another server has taken the place of this one. *)
Theorem socket_never_answers (c : SocketClient) (asked : list (Res Conn * string)) (e : env) (Hc : served_client c)
  (Hd : Forall (fun d => forall k, fst d = Ok k -> served k) asked) :
  exists errs c', for_collect asked (fun d => r <- Execute (fst d) (snd d) ;; ret (Some r)) c e = (map Err errs, c', e) /\
    length errs = length asked /\ served_client c' /\
    (is_Some (conn c') -> forall dial cmd, exists err c'', Execute dial cmd c' e = (Err err, c'', e)).
Proof.
  assert (exists errs c', for_collect asked (fun d => r <- Execute (fst d) (snd d) ;; ret (Some r)) c e = (map Err errs, c', e) /\
    length errs = length asked /\ served_client c') as (errs & c' & Hr & Hl & Hc').
  { revert c Hc; induction Hd as [|[dial cmd] asked Hd1 Hd IH]; intros c Hc; [by exists [], c|].
    destruct (Execute_fails dial cmd c e Hc Hd1) as (err & c1 & He & Hc1 & _); destruct (IH c1 Hc1) as (errs & c2 & Hr & Hl & Hc2).
    exists (err :: errs), c2; split_ands; [|by cbn; rewrite Hl|done].
    cbn [for_collect fst snd]; erewrite bind_run; [|by erewrite bind_run; [|exact He]].
    by erewrite bind_run; [|exact Hr]. }
  exists errs, c'; split_ands; try done; intros [k Hk] dial cmd.
  destruct (Execute_fails (Err EOF) cmd c' e Hc') as (err & c'' & He & _); [done|]; exists err, c''.
  revert He; unfold Execute, bind, get_st; by rewrite Hk.
Qed.

(** ** Witnesses *)
Definition demo_server : Server := MkServer "/run/tokmesh.sock" true Accepting Open 2 Serving.
Lemma local_shutdown_witness : exists s1 s2, Shutdown None demo_server = Some s1 /\
  exec [ConnDone; AcceptError EOF; ConnDone; WaitDone] s1 = Some s2 /\ (conns s2 <= 2)%nat.
Proof.
  eexists _, _; split; [reflexivity|]; split; [reflexivity|].
  eapply (local_shutdown demo_server _ None [ConnDone; AcceptError EOF; ConnDone; WaitDone]); reflexivity.
Defined.
Lemma socket_never_answers_witness (e : env) : exists errs c',
  for_collect [(Ok (MkConn None [] EOF), "status"); (Ok (MkConn None [] EOF), "drain")] (fun d => r <- Execute (fst d) (snd d) ;; ret (Some r))
    (NewSocketClient "/run/tokmesh.sock") e = (map Err errs, c', e) /\ length errs = 2%nat.
Proof.
  destruct (socket_never_answers (NewSocketClient "/run/tokmesh.sock") [(Ok (MkConn None [] EOF), "status"); (Ok (MkConn None [] EOF), "drain")] e)
    as (errs & c' & H & Hl & _); [exact I|repeat constructor; by intros k [= <-]|by exists errs, c'].
Defined.
