(* ===== verification/SessionIndex.v ===== *)
(** The secondary indexes by user and by device: [internal/storage/memory/index.go], with their
    sets behind pointers.

    [MemoryStore] takes the index for a map of sets.  Here a set is an object that a map points
    to, and a method is the sequence of its calls on the map and on the set, each atomic under
    a lock of its own.  The store changes its index under its lock, but reads it without: the
    theorem says that such a read gives what the map of sets held at some time during the call.
    Without the lock of the store, as [DeviceIndex] can be used, an addition can be lost. *)

From Stdlib Require Import Ascii String.
From stdpp Require Import list strings gmap fin_maps fin_sets sets infinite.
From S2P Require Import Prelude MemoryStore.

Open Scope string_scope.
Open Scope Z_scope.

(** ** Objects *)
Abbreviation loc := nat.
Record State := MkState { index : gmap string loc; sets : gmap loc (gset string) }.
Definition NewIndex : State := MkState ∅ ∅.

Module SessionSet.
Definition New (s : State) : loc * State :=
  let l : loc := fresh (dom (sets s)) in (l, MkState (index s) (<[l := ∅]> (sets s))).
Definition items (l : loc) (s : State) : gset string := default ∅ (sets s !! l).
Definition Add (id : string) (l : loc) (s : State) : State := MkState (index s) (<[l := {[id]} ∪ items l s]> (sets s)).
Definition Remove (id : string) (l : loc) (s : State) : State := MkState (index s) (<[l := items l s ∖ {[id]}]> (sets s)).
Definition Contains (id : string) (l : loc) (s : State) : bool := bool_decide (id ∈ items l s).
Definition Len (l : loc) (s : State) : Z := Z.of_nat (size (items l s)).
Definition Items (l : loc) (s : State) : list string := elements (items l s).
End SessionSet.

(** [GetOrSet] of the map. *)
Definition GetOrSet (k : string) (l : loc) (s : State) : loc * State :=
  match index s !! k with Some l' => (l', s) | None => (l, MkState (<[k := l]> (index s)) (sets s)) end.
Definition delete_key (k : string) (s : State) : State := MkState (delete k (index s)) (sets s).

(** ** The methods as calls *)
(** Where a method that changes the index is: between two calls. *)
Inductive pc := Idle | AddGot (k : string) (l : loc) (id : string) | RemGot (k : string) (l : loc) (id : string) | RemLen (k : string) (l : loc) | RemDel (k : string) (l : loc).
Inductive act := StartAdd (k id : string) | DoAdd | StartRemove (k id : string) | DoRemove | DoLen | DoDelete | Clear (k : string).
Definition step (a : act) (c : State * pc) : option (State * pc) :=
  let '(s, p) := c in
  match a, p with
  | StartAdd k id, Idle => let '(l, s) := SessionSet.New s in let '(l, s) := GetOrSet k l s in Some (s, AddGot k l id)
  | DoAdd, AddGot k l id => Some (SessionSet.Add id l s, Idle)
  | StartRemove k id, Idle => Some (s, match index s !! k with None => Idle | Some l => RemGot k l id end)
  | DoRemove, RemGot k l id => Some (SessionSet.Remove id l s, RemLen k l)
  | DoLen, RemLen k l => Some (s, if SessionSet.Len l s =? 0 then RemDel k l else Idle)
  | DoDelete, RemDel k l => Some (delete_key k s, Idle)
  | Clear k, Idle => Some (delete_key k s, Idle)
  | _, _ => None
  end.
Fixpoint exec (l : list act) (c : State * pc) : option (State * pc) :=
  match l with [] => Some c | a :: l => c ← step a c; exec l c end.

(** A method that runs alone. *)
Definition Add (k id : string) (s : State) : State :=
  let '(l, s) := SessionSet.New s in let '(l, s) := GetOrSet k l s in SessionSet.Add id l s.
Definition Remove (k id : string) (s : State) : State :=
  match index s !! k with
  | None => s
  | Some l =>
      let s := SessionSet.Remove id l s in
      if SessionSet.Len l s =? 0 then delete_key k s else s
  end.
Definition Get (k : string) (s : State) : list string := match index s !! k with None => [] | Some l => SessionSet.Items l s end.
Definition Count (k : string) (s : State) : Z := match index s !! k with None => 0 | Some l => SessionSet.Len l s end.

Module DeviceIndex.
Definition Add (deviceID sessionID : string) (s : State) : State := if String.eqb deviceID "" then s else Add deviceID sessionID s.
Definition Remove (deviceID sessionID : string) (s : State) : State := if String.eqb deviceID "" then s else Remove deviceID sessionID s.
Definition Get (deviceID : string) (s : State) : list string := if String.eqb deviceID "" then [] else Get deviceID s.
Definition Count (deviceID : string) (s : State) : Z := if String.eqb deviceID "" then 0 else Count deviceID s.
End DeviceIndex.

Lemma Add_calls k id s : exec [StartAdd k id; DoAdd] (s, Idle) = Some (Add k id s, Idle).
Proof. unfold Add, exec, step, mbind, option_bind; by destruct (SessionSet.New s), (GetOrSet _ _ _). Qed.
Lemma Remove_calls k id s : exists l, exec l (s, Idle) = Some (Remove k id s, Idle) /\ (length l <= 4)%nat.
Proof.
  unfold Remove; destruct (index s !! k) as [l|] eqn:Hk; [|exists [StartRemove k id]; cbn; by rewrite Hk; split; [|lia]].
  destruct (SessionSet.Len l (SessionSet.Remove id l s) =? 0) eqn:Hn.
  - exists [StartRemove k id; DoRemove; DoLen; DoDelete]; split; [|cbn; lia]; cbn [exec step mbind option_bind]; rewrite Hk; cbn [exec step mbind option_bind]; by rewrite Hn.
  - exists [StartRemove k id; DoRemove; DoLen]; split; [|cbn; lia]; cbn [exec step mbind option_bind]; rewrite Hk; cbn [exec step mbind option_bind]; by rewrite Hn.
Qed.

(** ** The map of sets *)
Definition value (s : State) (k : string) : gset string := match index s !! k with None => ∅ | Some l => SessionSet.items l s end.
(** The call at which a method takes effect on the map of sets. *)
Definition effect (a : act) (p : pc) (m : UserIndex.t) : UserIndex.t :=
  match a, p with
  | DoAdd, AddGot k _ id => UserIndex.Add m k id
  | DoRemove, RemGot k _ id => UserIndex.Remove m k id
  | Clear k, _ => UserIndex.Clear m k
  | _, _ => m
  end.
Fixpoint effects (l : list act) (c : State * pc) (m : UserIndex.t) : UserIndex.t :=
  match l with
  | [] => m
  | a :: l => match step a c with Some c' => effects l c' (effect a (snd c) m) | None => m end
  end.

(** Each key has a set of its own, which exists; the running method has the set of its key. *)
Record wf (c : State * pc) : Prop := {
  wf_inj : forall k k' l, index (fst c) !! k = Some l -> index (fst c) !! k' = Some l -> k = k';
  wf_sets : forall k l, index (fst c) !! k = Some l -> is_Some (sets (fst c) !! l);
  wf_pc : match snd c with
          | Idle => True
          | AddGot k l _ | RemGot k l _ | RemLen k l => index (fst c) !! k = Some l
          | RemDel k l => index (fst c) !! k = Some l /\ SessionSet.items l (fst c) = ∅
          end;
}.
(** The map of sets holds no empty set. *)
Definition holds (s : State) (m : UserIndex.t) : Prop :=
  (forall k, value s k = default ∅ (m !! k)) /\ forall k x, m !! k = Some x -> x <> ∅.

Lemma wf_new : wf (NewIndex, Idle).
Proof. split; cbn; [by intros ???; rewrite lookup_empty|by intros ??; rewrite lookup_empty|done]. Qed.
Lemma fresh_set (s : State) : sets s !! (fresh (dom (sets s)) : loc) = None.
Proof. apply not_elem_of_dom, is_fresh. Qed.
Lemma items_insert l l' x s : SessionSet.items l (MkState (index s) (<[l' := x]> (sets s))) = if decide (l = l') then x else SessionSet.items l s.
Proof. unfold SessionSet.items; cbn; destruct (decide (l = l')) as [->|]; [by rewrite lookup_insert_eq|by rewrite lookup_insert_ne]. Qed.

Lemma items_pos l s k : index s !! k = Some l -> value s k = SessionSet.items l s.
Proof. unfold value; by intros ->. Qed.
(** Changing the set of a key changes what is under that key only. *)
Lemma value_insert c k l x k' : wf c -> index (fst c) !! k = Some l ->
  value (MkState (index (fst c)) (<[l := x]> (sets (fst c)))) k' = if decide (k' = k) then x else value (fst c) k'.
Proof.
  intros Hw Hk; unfold value; cbn [index]; destruct (decide (k' = k)) as [->|Hne]; [by rewrite Hk, items_insert, decide_True|].
  destruct (index (fst c) !! k') as [l'|] eqn:Hk'; [|done]; rewrite items_insert, decide_False; [done|].
  intros ->; by destruct Hne; apply (wf_inj c Hw k' k l).
Qed.
Lemma value_delete s k k' : value (delete_key k s) k' = if decide (k' = k) then ∅ else value s k'.
Proof.
  unfold value, delete_key, SessionSet.items; cbn; destruct (decide (k' = k)) as [->|Hne]; [by rewrite lookup_delete_eq|by rewrite lookup_delete_ne].
Qed.

Lemma step_wf a c c' : wf c -> step a c = Some c' -> wf c'.
Proof.
  destruct c as [s p]; intros Hw; pose proof Hw as [Hi Hs Hp]; cbn [fst snd] in *.
  assert (forall l x, wf (s, p) -> (forall k l', index s !! k = Some l' -> is_Some (<[l := x]> (sets s) !! l'))) as Hins.
  { intros l x _ k l' Hk; destruct (decide (l = l')) as [->|]; [rewrite lookup_insert_eq; by eexists|rewrite lookup_insert_ne by done; eauto]. }
  assert (forall k, (forall k1 k2 l, delete k (index s) !! k1 = Some l -> delete k (index s) !! k2 = Some l -> k1 = k2) /\
    forall k1 l, delete k (index s) !! k1 = Some l -> is_Some (sets s !! l)) as Hdel.
  { intros k; split; [intros k1 k2 l [_ H1]%lookup_delete_Some [_ H2]%lookup_delete_Some; eauto|intros k1 l [_ H1]%lookup_delete_Some; eauto]. }
  destruct a, p; cbn [step]; try discriminate.
  - unfold SessionSet.New, GetOrSet; cbn [index sets]; pose proof (fresh_set s) as Hf.
    set (l0 := fresh (dom (sets s)) : loc) in *; destruct (index s !! k) as [l|] eqn:Hk; intros [= <-]; split; cbn [fst snd index sets]; try done.
    + intros k1 l1 H1; eapply Hins; eauto.
    + intros k1 k2 l [[<- <-]|[Hn1 H1]]%lookup_insert_Some [[<- ?]|[Hn2 H2]]%lookup_insert_Some; try done; subst.
      * destruct (Hs _ _ H2) as [? Hx]; congruence.
      * destruct (Hs _ _ H1) as [? Hx]; congruence.
      * eauto.
    + intros k1 l1 [[<- <-]|[Hn1 H1]]%lookup_insert_Some; [rewrite lookup_insert_eq; by eexists|eapply Hins; eauto].
    + by rewrite lookup_insert_eq.
  - unfold SessionSet.Add; intros [= <-]; split; cbn; try done; intros; eapply Hins; eauto.
  - intros [= <-]; split; cbn; try done; destruct (index s !! k) eqn:Hk; done.
  - unfold SessionSet.Remove; intros [= <-]; split; cbn; try done; intros; eapply Hins; eauto.
  - intros [= <-]; split; cbn; try done; destruct (Z.eqb_spec (SessionSet.Len l s) 0) as [Hl|]; [|done].
    split; [done|]; unfold SessionSet.Len in Hl; apply leibniz_equiv, size_empty_inv; lia.
  - intros [= <-]; split; cbn; try done; apply Hdel.
  - intros [= <-]; split; cbn; try done; apply Hdel.
Qed.
Lemma exec_wf l c c' : wf c -> exec l c = Some c' -> wf c'.
Proof.
  revert c; induction l as [|a l IH]; intros c Hw; cbn; [by intros [= <-]|].
  destruct (step a c) as [c1|] eqn:Hs; [|done]; cbn; apply IH; by apply (step_wf a c).
Qed.

(** ** Refinement *)
Lemma step_value a s p s' p' k : wf (s, p) -> step a (s, p) = Some (s', p') ->
  value s' k =
    match a, p with
    | DoAdd, AddGot k' _ id => if decide (k = k') then {[id]} ∪ value s k else value s k
    | DoRemove, RemGot k' _ id => if decide (k = k') then value s k ∖ {[id]} else value s k
    | Clear k', _ => if decide (k = k') then ∅ else value s k
    | _, _ => value s k
    end.
Proof.
  intros Hw; pose proof Hw as [Hi Hs Hp]; cbn [fst snd] in *; destruct a, p; cbn [step]; try discriminate.
  - unfold SessionSet.New, GetOrSet; cbn [index sets]; pose proof (fresh_set s) as Hf; set (l0 := fresh (dom (sets s)) : loc) in *.
    assert (forall l k', index s !! k' = Some l -> l <> l0) as Hne by (intros l k' Hl ->; destruct (Hs _ _ Hl); congruence).
    destruct (index s !! k0) as [l|] eqn:Hk; intros [= <- <-]; unfold value; cbn [index].
    + destruct (index s !! k) as [l'|] eqn:Hk'; [|done]; rewrite items_insert, decide_False; eauto.
    + destruct (decide (k = k0)) as [->|]; [rewrite lookup_insert_eq, Hk|rewrite lookup_insert_ne by done].
      * unfold SessionSet.items; cbn; by rewrite lookup_insert_eq.
      * destruct (index s !! k) as [l'|] eqn:Hk'; [|done]; change (SessionSet.items l' (MkState (index s) (<[l0 := ∅]> (sets s))) = SessionSet.items l' s).
        rewrite items_insert, decide_False; eauto.
  - intros [= <- <-]; unfold SessionSet.Add; rewrite <- (items_pos l s k0 Hp), (value_insert (s, AddGot k0 l id) k0 l _ k Hw Hp); cbn [fst].
    case_match; by subst.
  - by intros [= <- <-].
  - intros [= <- <-]; unfold SessionSet.Remove; rewrite <- (items_pos l s k0 Hp), (value_insert (s, RemGot k0 l id) k0 l _ k Hw Hp); cbn [fst].
    case_match; by subst.
  - by intros [= <- <-].
  - intros [= <- <-]; rewrite value_delete; destruct (decide (k = k0)) as [->|]; [|done]; destruct Hp as [Hp He].
    by rewrite (items_pos l s k0 Hp).
  - intros [= <- <-]; apply value_delete.
Qed.
Lemma step_holds a s p s' p' m : wf (s, p) -> holds s m -> step a (s, p) = Some (s', p') -> holds s' (effect a p m).
Proof.
  intros Hw [Hv He] Hs; pose proof (fun k => step_value a s p s' p' k Hw Hs) as Hst; clear Hs; split.
  - intros k; rewrite Hst; destruct a, p; cbn [effect]; try apply Hv; unfold UserIndex.Add, UserIndex.Remove, UserIndex.Clear.
    + destruct (decide (k = k0)) as [->|]; [by rewrite lookup_insert_eq, Hv|by rewrite lookup_insert_ne].
    + rewrite Hv; destruct (decide (k = k0)) as [->|].
      * destruct (m !! k0) as [x|] eqn:Hm; cbn; [|rewrite Hm; cbn; set_solver].
        case_decide as Hd; [rewrite lookup_delete_eq; cbn; apply size_empty_inv, leibniz_equiv in Hd; done|by rewrite lookup_insert_eq].
      * destruct (m !! k0) as [x|] eqn:Hm; [|done]; case_decide; by rewrite ?lookup_delete_ne, lookup_insert_ne by done.
    + destruct (decide (k = k0)) as [->|]; [by rewrite lookup_delete_eq|by rewrite lookup_delete_ne].
    + destruct (decide (k = k0)) as [->|]; [by rewrite lookup_delete_eq|by rewrite lookup_delete_ne].
    + destruct (decide (k = k0)) as [->|]; [by rewrite lookup_delete_eq|by rewrite lookup_delete_ne].
    + destruct (decide (k = k0)) as [->|]; [by rewrite lookup_delete_eq|by rewrite lookup_delete_ne].
    + destruct (decide (k = k0)) as [->|]; [by rewrite lookup_delete_eq|by rewrite lookup_delete_ne].
  - intros k x; destruct a, p; cbn [effect]; eauto; unfold UserIndex.Add, UserIndex.Remove, UserIndex.Clear.
    + intros [[<- <-]|[_ ?]]%lookup_insert_Some; [set_solver|eauto].
    + destruct (m !! k0) as [y|] eqn:Hm; [|eauto]; case_decide as Hd.
      * intros [Hne H]%lookup_delete_Some; rewrite lookup_insert_ne in H by done; eauto.
      * intros [[<- <-]|[_ ?]]%lookup_insert_Some; [|eauto]; intros Hx; apply Hd; by rewrite Hx, size_empty.
    + intros [_ ?]%lookup_delete_Some; eauto.
    + intros [_ ?]%lookup_delete_Some; eauto.
    + intros [_ ?]%lookup_delete_Some; eauto.
    + intros [_ ?]%lookup_delete_Some; eauto.
    + intros [_ ?]%lookup_delete_Some; eauto.
Qed.
Lemma exec_holds l c c' m : wf c -> holds (fst c) m -> exec l c = Some c' -> holds (fst c') (effects l c m).
Proof.
  revert c m; induction l as [|a l IH]; intros c m Hw Hh; cbn [exec effects]; [by intros [= <-]|].
  destruct (step a c) as [[s1 p1]|] eqn:Hs; [|done]; destruct c as [s p]; cbn; intros He.
  apply (IH (s1, p1)); [by apply (step_wf a (s, p))|by apply (step_holds a s p s1 p1)|done].
Qed.

(** ** Reading without the lock *)
(** A set nothing points to any more. *)
Definition orphan (l : loc) (c : State * pc) : Prop :=
  is_Some (sets (fst c) !! l) /\ (forall k, index (fst c) !! k <> Some l) /\
  match snd c with Idle => True | AddGot _ l' _ | RemGot _ l' _ | RemLen _ l' | RemDel _ l' => l' <> l end.
Lemma orphan_step a l c c' : orphan l c -> step a c = Some c' -> orphan l c' /\ SessionSet.items l (fst c') = SessionSet.items l (fst c).
Proof.
  destruct c as [s p]; unfold orphan; cbn [fst snd]; intros (Hl & Hi & Hp); destruct a, p; cbn [step]; try discriminate.
  - unfold SessionSet.New, GetOrSet; cbn [index sets]; pose proof (fresh_set s) as Hf; set (l0 := fresh (dom (sets s)) : loc) in *.
    assert (l <> l0) as Hne by (intros ->; destruct Hl; congruence).
    destruct (index s !! k) as [l'|] eqn:Hk; intros [= <-]; cbn [fst snd index sets]; unfold SessionSet.items; cbn [sets];
      rewrite lookup_insert_ne by done; split_ands; try done; [intros ->; by apply (Hi k)|].
    intros k' [[_ [= ?]]|[_ ?]]%lookup_insert_Some; [by destruct Hne|by apply (Hi k')].
  - intros [= <-]; unfold SessionSet.Add; cbn [fst snd index sets]; rewrite items_insert, decide_False, lookup_insert_ne by done; by split_ands.
  - intros [= <-]; cbn; split_ands; try done; destruct (index s !! k) eqn:Hk; [intros ->; by apply (Hi k)|done].
  - intros [= <-]; unfold SessionSet.Remove; cbn [fst snd index sets]; rewrite items_insert, decide_False, lookup_insert_ne by done; by split_ands.
  - intros [= <-]; cbn; split_ands; try done; by destruct (SessionSet.Len l0 s =? 0).
  - intros [= <-]; cbn; split_ands; try done; intros k' [_ ?]%lookup_delete_Some; by apply (Hi k').
  - intros [= <-]; cbn; split_ands; try done; intros k' [_ ?]%lookup_delete_Some; by apply (Hi k').
Qed.
Lemma orphan_exec l ls c c' : orphan l c -> exec ls c = Some c' -> SessionSet.items l (fst c') = SessionSet.items l (fst c).
Proof.
  revert c; induction ls as [|a ls IH]; intros c Ho; cbn; [by intros [= <-]|].
  destruct (step a c) as [c1|] eqn:Hs; [|done]; cbn; intros He; destruct (orphan_step _ _ _ _ Ho Hs) as [Ho1 <-]; by apply IH.
Qed.
(** When a key loses its set, the set is an orphan and holds what the key had. *)
Lemma step_loses a c c' k l : wf c -> index (fst c) !! k = Some l -> step a c = Some c' -> index (fst c') !! k <> Some l ->
  orphan l c' /\ SessionSet.items l (fst c') = value (fst c) k.
Proof.
  destruct c as [s p]; intros Hw Hk; pose proof Hw as [Hi Hs Hp]; cbn [fst snd] in *; rewrite (items_pos l s k Hk).
  assert (forall k0, delete k0 (index s) !! k <> Some l -> forall k', delete k0 (index s) !! k' <> Some l) as Hd.
  { intros k0 Hn k' [Hne H']%lookup_delete_Some; apply Hn; assert (k' = k) as -> by eauto; by rewrite lookup_delete_ne. }
  destruct a, p; cbn [step]; try discriminate.
  - unfold SessionSet.New, GetOrSet; cbn [index sets]; destruct (index s !! k0) eqn:Hk0; intros [= <-]; cbn; try done.
    rewrite lookup_insert_ne; [done|congruence].
  - by intros [= <-].
  - by intros [= <-].
  - by intros [= <-].
  - by intros [= <-].
  - intros [= <-]; cbn; intros Hn; unfold orphan; cbn; split_ands; eauto.
  - intros [= <-]; cbn; intros Hn; unfold orphan; cbn; split_ands; eauto.
Qed.
(** The two calls of a read, with calls of the lock holder before, between and after. *)
Lemma read_value ls c c' k l : wf c -> index (fst c) !! k = Some l -> exec ls c = Some c' ->
  exists ls1 ls2 cm, ls = (ls1 ++ ls2)%list /\ exec ls1 c = Some cm /\ value (fst cm) k = SessionSet.items l (fst c').
Proof.
  revert c; induction ls as [|a ls IH]; intros c Hw Hk; cbn [exec].
  { intros [= <-]; exists [], [], c; split_ands; [done..|by apply items_pos]. }
  destruct (step a c) as [c1|] eqn:Hs; [|done]; cbn; intros He.
  destruct (decide (index (fst c1) !! k = Some l)) as [Hk1|Hk1].
  - destruct (IH c1 (step_wf _ _ _ Hw Hs) Hk1 He) as (ls1 & ls2 & cm & -> & Hm & Hv).
    exists (a :: ls1), ls2, cm; split_ands; [done| |done]; cbn; by rewrite Hs.
  - destruct (step_loses _ _ _ _ _ Hw Hk Hs Hk1) as [Ho Hi]; exists [], (a :: ls), c; split_ands; [done..|].
    by rewrite <- Hi, (orphan_exec _ _ _ _ Ho He).
Qed.

Lemma calls_app a b c : exec (a ++ b)%list c = c' ← exec a c; exec b c'.
Proof. revert c; induction a as [|x a IH]; intros c; cbn; [done|]; destruct (step x c); cbn; [apply IH|done]. Qed.
Lemma holds_Get s m k : holds s m -> elements (value s k) = UserIndex.Get m k /\ Z.of_nat (size (value s k)) = UserIndex.Count m k.
Proof. intros [Hv _]; rewrite Hv; unfold UserIndex.Get, UserIndex.Count; by destruct (m !! k). Qed.

(** C10: The methods that change the index run one after the other, as under the lock of the store,
    and a read makes its two calls at any time.  Between methods the index is the map of sets
    the methods describe; and what the read returns is what that map held at some time between
    the two calls of the read: [Get] its sessions, [Count] their number. *)
Theorem index_linearizable (before between : list act) (c1 c2 : State * pc) (k : string)
  (H1 : exec before (NewIndex, Idle) = Some c1) (H2 : exec between c1 = Some c2) :
  (snd c1 = Idle -> Get k (fst c1) = UserIndex.Get (effects before (NewIndex, Idle) ∅) k) /\
  exists between1 between2, between = (between1 ++ between2)%list /\
    let m := effects (before ++ between1) (NewIndex, Idle) ∅ in
    match index (fst c1) !! k with
    | Some l => SessionSet.Items l (fst c2) = UserIndex.Get m k /\ SessionSet.Len l (fst c2) = UserIndex.Count m k
    | None => UserIndex.Get m k = [] /\ UserIndex.Count m k = 0
    end.
Proof.
  assert (holds NewIndex ∅) as H0 by (split; intros k'; [by unfold value; cbn; rewrite !lookup_empty|by intros x; rewrite lookup_empty]).
  assert (forall ls c, exec ls (NewIndex, Idle) = Some c -> holds (fst c) (effects ls (NewIndex, Idle) ∅)) as Hh
    by (intros ls c; apply exec_holds; [apply wf_new|done]).
  pose proof (exec_wf _ _ _ wf_new H1) as Hw; split.
  { intros _; destruct (holds_Get _ _ k (Hh _ _ H1)) as [<- _]; unfold Get, value, SessionSet.Items; case_match; [done|by rewrite elements_empty]. }
  destruct (index (fst c1) !! k) as [l|] eqn:Hk.
  - destruct (read_value _ _ _ _ _ Hw Hk H2) as (ls1 & ls2 & cm & -> & Hm & Hv); exists ls1, ls2; split; [done|]; cbv zeta.
    destruct (holds_Get _ _ k (Hh (before ++ ls1)%list cm ltac:(by rewrite calls_app, H1))) as [<- <-]; by rewrite Hv.
  - exists [], between; split; [done|]; cbv zeta; rewrite app_nil_r.
    destruct (holds_Get _ _ k (Hh _ _ H1)) as [<- <-]; unfold value; by rewrite Hk, elements_empty, size_empty.
Qed.

(** ** Without the lock of the store *)
(** Two methods at once: each call says whose it is. *)
Fixpoint exec2 (l : list (bool * act)) (s : State) (p q : pc) : option (State * pc * pc) :=
  match l with
  | [] => Some (s, p, q)
  | (true, a) :: l => c ← step a (s, p); exec2 l (fst c) (snd c) q
  | (false, a) :: l => c ← step a (s, q); exec2 l (fst c) p (snd c)
  end.
Lemma Get_value k s : Get k s = elements (value s k).
Proof. unfold Get, value, SessionSet.Items; case_match; [done|by rewrite elements_empty]. Qed.
Lemma Add_value k id s : wf (s, Idle) -> wf (Add k id s, Idle) /\ value (Add k id s) k = {[id]} ∪ value s k.
Proof.
  intros Hw; pose proof (Add_calls k id s) as He; split; [by apply (exec_wf _ _ _ Hw He)|]; cbn [exec] in He.
  destruct (step (StartAdd k id) (s, Idle)) as [[s1 p1]|] eqn:H1; [|done]; cbn [mbind option_bind] in He.
  destruct (step DoAdd (s1, p1)) as [[s2 p2]|] eqn:H2; [|done]; injection He as -> ->.
  rewrite (step_value _ _ _ _ _ k (step_wf _ _ _ Hw H1) H2), (step_value _ _ _ _ _ k Hw H1).
  cbn [step] in H1; destruct (SessionSet.New s), (GetOrSet k _ _); injection H1 as <- <-; by rewrite decide_True.
Qed.
Lemma Remove_value k id s : wf (s, Idle) -> wf (Remove k id s, Idle) /\ value (Remove k id s) k = value s k ∖ {[id]}.
Proof.
  intros Hw; destruct (Remove_calls k id s) as (ls & He & _); split; [by apply (exec_wf _ _ _ Hw He)|]; clear ls He.
  unfold Remove; destruct (index s !! k) as [l|] eqn:Hk; [|unfold value; rewrite Hk; set_solver].
  assert (value (SessionSet.Remove id l s) k = value s k ∖ {[id]}) as Hv.
  { unfold SessionSet.Remove; rewrite (value_insert (s, Idle) k l _ k Hw Hk), decide_True by done; by rewrite (items_pos l s k Hk). }
  case_match eqn:Hl; [|done]; rewrite value_delete, decide_True, <- Hv by done; symmetry.
  rewrite (items_pos l) by done; unfold SessionSet.Len in Hl; apply Z.eqb_eq in Hl; apply leibniz_equiv, size_empty_inv; lia.
Qed.
(** A session is added to a device while its only one is removed.  When the addition got the
    set before it was dropped, both methods end and the session is not in the index, which it
    is in either order of the two. *)
Theorem unlocked_add_lost (s : State) (k id id' : string) (Hne : id <> id') (Hw : wf (s, Idle)) (Hv : value s k = {[id]}) :
  let lost := [(true, StartAdd k id'); (false, StartRemove k id); (false, DoRemove); (false, DoLen); (true, DoAdd); (false, DoDelete)] in
  (exists s', exec2 lost s Idle Idle = Some (s', Idle, Idle) /\ Get k s' = []) /\
  Get k (Remove k id (Add k id' s)) = [id'] /\ Get k (Add k id' (Remove k id s)) = [id'].
Proof.
  cbv zeta; split_ands.
  - assert (exists l, index s !! k = Some l /\ SessionSet.items l s = {[id]}) as (l & Hk & Hl).
    { revert Hv; unfold value; destruct (index s !! k) as [l|]; [by exists l|]; intros Hv; set_solver. }
    pose proof (fresh_set s) as Hf; set (l0 := fresh (dom (sets s)) : loc) in *.
    assert (l <> l0) as Hn by (intros ->; destruct (wf_sets _ Hw k l0 Hk); cbn in *; congruence).
    unfold exec2; cbn [step mbind option_bind]; unfold SessionSet.New, GetOrSet; cbn [index sets]; fold l0; rewrite Hk; cbn [mbind option_bind fst snd step index sets].
    rewrite Hk; cbn [mbind option_bind fst snd step]; unfold SessionSet.Len.
    assert (SessionSet.items l (SessionSet.Remove id l (MkState (index s) (<[l0:=∅]> (sets s)))) = ∅) as ->.
    { unfold SessionSet.Remove; rewrite items_insert, decide_True by done; rewrite items_insert, decide_False, Hl by done; set_solver. }
    rewrite size_empty; cbn [Z.of_nat Z.eqb mbind option_bind fst snd step]; eexists; split; [done|].
    cbn [fst]; rewrite Get_value, value_delete, decide_True by done; by rewrite elements_empty.
  - destruct (Add_value k id' s Hw) as [Hw1 Hv1]; destruct (Remove_value k id _ Hw1) as [_ Hv2].
    rewrite Get_value, Hv2, Hv1, Hv; replace (({[id']} ∪ {[id]}) ∖ {[id]} : gset string) with ({[id']} : gset string) by set_solver; by rewrite elements_singleton.
  - destruct (Remove_value k id s Hw) as [Hw1 Hv1]; destruct (Add_value k id' _ Hw1) as [_ Hv2].
    rewrite Get_value, Hv2, Hv1, Hv; replace ({[id']} ∪ ({[id]} ∖ {[id]}) : gset string) with ({[id']} : gset string) by set_solver; by rewrite elements_singleton.
Qed.

(** ** Witnesses *)
Definition demo_before : list act := [StartAdd "alice" "s1"; DoAdd].
Definition demo_between : list act := [StartRemove "alice" "s1"; DoRemove; DoLen; DoDelete; StartAdd "alice" "s2"; DoAdd].
Definition demo_end (l : list act) : State * pc := default (NewIndex, Idle) (exec l (NewIndex, Idle)).
(** The read got the set of [s1] and reads it when the user has another set with [s2]. *)
Lemma index_linearizable_witness : exists between1 between2, demo_between = (between1 ++ between2)%list /\
  UserIndex.Get (effects (demo_before ++ between1) (NewIndex, Idle) ∅) "alice" = [] /\ Get "alice" (fst (demo_end (demo_before ++ demo_between))) = ["s2"].
Proof.
  destruct (index_linearizable demo_before demo_between (demo_end demo_before) (demo_end (demo_before ++ demo_between)) "alice") as (_ & b1 & b2 & Hb & Hr);
    [vm_compute; reflexivity..|exists b1, b2; split; [exact Hb|split; [|vm_compute; reflexivity]]].
  cbv zeta in Hr; destruct (index (fst (demo_end demo_before)) !! "alice") as [l|] eqn:Hl; [|vm_compute in Hl; discriminate].
  destruct Hr as [<- _]; assert (l = 0%nat) as -> by (vm_compute in Hl; congruence); vm_compute; reflexivity.
Defined.
Lemma unlocked_add_lost_witness : Get "phone" (Remove "phone" "s1" (Add "phone" "s2" (Add "phone" "s1" NewIndex))) = ["s2"] /\
  exists s', exec2 [(true, StartAdd "phone" "s2"); (false, StartRemove "phone" "s1"); (false, DoRemove); (false, DoLen); (true, DoAdd); (false, DoDelete)]
    (Add "phone" "s1" NewIndex) Idle Idle = Some (s', Idle, Idle) /\ Get "phone" s' = [].
Proof.
  destruct (Add_value "phone" "s1" NewIndex wf_new) as [Hw Hv].
  destruct (unlocked_add_lost (Add "phone" "s1" NewIndex) "phone" "s1" "s2") as (Hl & Hr & _); [discriminate|exact Hw|vm_compute; reflexivity|split; [exact Hr|exact Hl]].
Defined.
