(* ===== verification/CliProgress.v ===== *)
(** The progress bar and the spinner of the command line client: [internal/cli/output/progress.go]
    and [spinner.go].  What is drawn is the text written; a panic is [None]. *)

From Stdlib Require Import Ascii String SpecFloat.
From stdpp Require Import list strings.
From S2P Require Import Prelude GoStrings Strconv Float64 CliOutput.

Open Scope string_scope.
Open Scope Z_scope.

(** ** Sizes *)
Definition unit_ : Z := 1024.
(** The loop: [div] and [exp] for the size, by the quotient that is left. *)
Fixpoint unit_loop (fuel : nat) (n div exp : Z) : option (Z * Z) :=
  match fuel with
  | O => None
  | S fuel' => if n <? unit_ then Some (div, exp) else unit_loop fuel' (Z.quot n unit_) (i64 (div * unit_)) (exp + 1)
  end.
Definition units : string := "KMGTPE".
(** Six rounds are enough for 64 bits. *)
Definition formatBytes (b : Z) : option string :=
  if b <? unit_ then Some (FormatInt b +:+ " B")
  else
    '(div, exp) ← unit_loop 7 (Z.quot b unit_) unit_ 0;
    c ← String.get (Z.to_nat exp) units;
    Some (fixed_text 1 (f64_div (f64_of_Z b) (f64_of_Z div)) +:+ " " +:+ String c "B").

Example formatBytes_examples : map formatBytes [0; 1023; 1024; 1536; 1048575; 1048576; 2 ^ 63 - 1; -5] =
  map Some ["0 B"; "1023 B"; "1.0 KB"; "1.5 KB"; "1024.0 KB"; "1.0 MB"; "8.0 EB"; "-5 B"].
Proof. vm_compute; reflexivity. Qed.

Lemma unit_loop_S fuel n div exp :
  unit_loop (S fuel) n div exp = if n <? unit_ then Some (div, exp) else unit_loop fuel (Z.quot n unit_) (i64 (div * unit_)) (exp + 1).
Proof. done. Qed.
Lemma unit_loop_spec fuel n k : 0 <= n < 1024 ^ Z.of_nat fuel -> 0 <= k -> n * 1024 ^ k < 2 ^ 53 ->
  exists j, 0 <= j <= Z.of_nat fuel /\ unit_loop (S fuel) n (1024 ^ (k + 1)) k = Some (1024 ^ (k + j + 1), k + j) /\
    n < 1024 ^ (j + 1) /\ (1 <= n -> 1024 ^ j <= n).
Proof.
  revert n k; induction fuel as [|fuel IH]; intros n k Hn Hk Hf.
  { change (1024 ^ Z.of_nat 0) with 1 in Hn; exists 0; cbn [unit_loop]; unfold unit_; rewrite (proj2 (Z.ltb_lt _ _)) by lia.
    rewrite !Z.add_0_r; split_ands; (lia || done). }
  rewrite unit_loop_S; unfold unit_; destruct (Z.ltb_spec n 1024) as [Hlt|Hge].
  { exists 0; rewrite !Z.add_0_r; split_ands; (lia || done). }
  rewrite Z.quot_div_nonneg by lia; rewrite i64_id.
  2:{ rewrite Z.pow_add_r by lia; assert (1024 * 1024 ^ k <= n * 1024 ^ k) by (apply Z.mul_le_mono_nonneg_r; lia); unfold in_i64; lia. }
  replace (1024 ^ (k + 1) * 1024) with (1024 ^ (k + 1 + 1)) by (by rewrite (Z.pow_add_r 1024 (k + 1) 1) by lia).
  pose proof (Z.div_mod n 1024) as Hd; pose proof (Z.mod_pos_bound n 1024) as Hm.
  rewrite Nat2Z.inj_succ, Z.pow_succ_r in Hn by lia.
  destruct (IH (n / 1024) (k + 1)) as (j & Hj & He & Hu & Hl); [lia|lia| |].
  { rewrite Z.pow_add_r by lia; change (1024 ^ 1) with 1024; assert (n / 1024 * 1024 * 1024 ^ k <= n * 1024 ^ k) by (apply Z.mul_le_mono_nonneg_r; lia); lia. }
  exists (j + 1); replace (k + (j + 1)) with (k + 1 + j) by lia; rewrite He; split_ands; try (done || lia).
  - rewrite (Z.pow_add_r 1024 (j + 1) 1) by lia; lia.
  - intros _; assert (1024 ^ j <= n / 1024) by (apply Hl; lia); rewrite (Z.pow_add_r 1024 j 1) by lia; lia.
Qed.
(** A 64-bit size is always shown, without running past the units or out of the integers: below
    1024 as it is, otherwise in the largest unit it reaches. *)
Theorem formatBytes_unit (b : Z) (Hb : in_i64 b) :
  (b < 1024 -> formatBytes b = Some (FormatInt b +:+ " B")) /\
  (1024 <= b -> exists k c, 0 <= k < 6 /\ 1024 ^ (k + 1) <= b < 1024 ^ (k + 2) /\ String.get (Z.to_nat k) units = Some c /\
    formatBytes b = Some (fixed_text 1 (f64_div (f64_of_Z b) (f64_of_Z (1024 ^ (k + 1)))) +:+ " " +:+ String c "B")).
Proof.
  unfold formatBytes, unit_; split; intros H; [by rewrite (proj2 (Z.ltb_lt _ _))|].
  rewrite (proj2 (Z.ltb_ge _ _)), Z.quot_div_nonneg by lia; unfold in_i64 in Hb.
  pose proof (Z.div_mod b 1024) as Hd; pose proof (Z.mod_pos_bound b 1024) as Hm.
  destruct (unit_loop_spec 6 (b / 1024) 0) as (j & Hj & He & Hu & Hl); [lia..|].
  change (0 + 1) with 1 in He; change (1024 ^ 1) with 1024 in He; rewrite He; cbn [mbind option_bind].
  assert (j <> 6) by (intros ->; assert (1024 ^ 6 <= b / 1024) by (apply Hl; lia); lia).
  assert (exists c, String.get (Z.to_nat j) units = Some c) as [c Hc].
  { assert (j = 0 \/ j = 1 \/ j = 2 \/ j = 3 \/ j = 4 \/ j = 5) as Hcase by lia; by repeat destruct Hcase as [->|Hcase]; [eexists..|subst; eexists]. }
  exists j, c; rewrite !Z.add_0_l, Hc; split_ands; try done; try lia.
  - assert (1024 ^ j <= b / 1024) by (apply Hl; lia); rewrite (Z.pow_add_r 1024 j 1) by lia; lia.
  - replace (j + 2) with (j + 1 + 1) by lia; rewrite (Z.pow_add_r 1024 (j + 1) 1) by lia; lia.
Qed.

(** ** The bar *)
Record ProgressBar := MkBar { title : string; total : Z; current : Z; width : Z }.
Definition NewProgressBar (title : string) : ProgressBar := MkBar title 0 0 40.
(** [strings.Repeat] panics on a negative count. *)
Fixpoint repeat_text (s : string) (n : nat) : string := match n with O => "" | S n' => s +:+ repeat_text s n' end.
Definition Repeat (s : string) (n : Z) : option string := if n <? 0 then None else Some (repeat_text s (Z.to_nat n)).
Definition pad3 (s : string) : string := repeat_text " " (3 - String.length s) +:+ s.
Definition one : float64 := f64_of_Z 1.
Definition cr : string := String (Z_ascii 13) "".
Definition nl : string := String (Z_ascii 10) "".
Definition percent (p : ProgressBar) : float64 :=
  let x := f64_div (f64_of_Z (current p)) (f64_of_Z (total p)) in if f64_lt one x then one else x.
Definition filled (p : ProgressBar) : Z := f64_to_i64 (f64_mul (f64_of_Z (width p)) (percent p)).
Definition render (p : ProgressBar) : option string :=
  if total p <=? 0 then s ← formatBytes (current p); Some (cr +:+ title p +:+ " " +:+ s)
  else
    full ← Repeat "█" (filled p);
    empty ← Repeat "░" (width p - filled p);
    done_ ← formatBytes (current p);
    all ← formatBytes (total p);
    Some (cr +:+ title p +:+ " [" +:+ full +:+ empty +:+ "] " +:+ pad3 (fixed_text 0 (f64_mul (percent p) (f64_of_Z 100))) +:+ "% (" +:+ done_ +:+ "/" +:+ all +:+ ")").
Definition SetTotal (total : Z) (p : ProgressBar) : ProgressBar := MkBar (title p) total (current p) (width p).
(** The bar afterwards and what is written. *)
Definition Update (current total : Z) (p : ProgressBar) : ProgressBar * option string :=
  let p := MkBar (title p) total current (width p) in (p, render p).
Definition Increment (n : Z) (p : ProgressBar) : ProgressBar * option string :=
  let p := MkBar (title p) (total p) (i64 (current p + n)) (width p) in (p, render p).
Definition Finish (p : ProgressBar) : ProgressBar * option string :=
  let p := MkBar (title p) (total p) (total p) (width p) in (p, s ← render p; Some (s +:+ nl)).

Example halfway : snd (Update 512 1024 (NewProgressBar "restore")) =
  Some (cr +:+ "restore [" +:+ repeat_text "█" 20 +:+ repeat_text "░" 20 +:+ "]  50% (512 B/1.0 KB)").
Proof. vm_compute; reflexivity. Qed.
(** More than the total is shown as all of it; a negative amount panics from a fortieth on. *)
Example overshoot : filled (fst (Update 2000 1000 (NewProgressBar "restore"))) = 40.
Proof. vm_compute; reflexivity. Qed.
Example negative_panics : snd (Increment (-25) (SetTotal 1000 (NewProgressBar "restore"))) = None /\
  is_Some (snd (Increment (-24) (SetTotal 1000 (NewProgressBar "restore")))).
Proof. vm_compute; split; [reflexivity|by eexists]. Qed.
(** [Finish] without a total shows a bar of no bytes. *)
Example finish_without_total : snd (Finish (fst (Increment 4096 (NewProgressBar "restore")))) = Some (cr +:+ "restore 0 B" +:+ nl).
Proof. vm_compute; reflexivity. Qed.

(** ** The spinner *)
Definition frames : list string := ["⠋"; "⠙"; "⠹"; "⠸"; "⠼"; "⠴"; "⠦"; "⠧"; "⠇"; "⠏"].
Record Spinner := MkSpinner { message : string; closed : bool }.
Definition NewSpinner (message : string) : Spinner := MkSpinner message false.
Definition esc : string := String (Z_ascii 27) "".
(** The text of the [i]th round of [Start]. *)
Definition frame (sp : Spinner) (i : nat) : string := cr +:+ nth (i mod length frames) frames "" +:+ " " +:+ message sp.
(** Closing the channel a second time panics. *)
Definition finish_with (text : string) (sp : Spinner) : option (string * Spinner) :=
  if closed sp then None else Some (text, MkSpinner (message sp) true).
Definition Stop (sp : Spinner) : option (string * Spinner) := finish_with (cr +:+ esc +:+ "[K") sp.
Definition Success (message : string) (sp : Spinner) : option (string * Spinner) := finish_with (cr +:+ "✓ " +:+ message +:+ nl) sp.
Definition Fail_ (message : string) (sp : Spinner) : option (string * Spinner) := finish_with (cr +:+ "✗ " +:+ message +:+ nl) sp.

Lemma spinner_ends_once t1 t2 sp r sp' : finish_with t1 sp = Some (r, sp') -> finish_with t2 sp' = None.
Proof. unfold finish_with; destruct (closed sp); [done|]; by intros [= <- <-]. Qed.
