(* ===== verification/ClusterLoops.v ===== *)
(** The loops of a cluster node and the callbacks of its discovery: the rest of
    [internal/server/clusterserver/server.go], [raft.go] and [discovery.go].

    Time is an argument: what raft answers, and when a signal comes.  What is only logged is left
    out. *)

From Stdlib Require Import Ascii String.
From stdpp Require Import list strings gmap fin_maps.
From S2P Require Import Prelude Errors GoStrings Strconv ShardMap Fsm Cluster.
From S2P Require Import Rebalance RebalanceSpec.

Open Scope string_scope.
Open Scope Z_scope.

(** ** The monitor of the leader *)
Section Monitor.
Context {R : Type} `{Raft R}.

(** What the loop takes from its channels: whether the node is leader, with raft as it is when
    the change is handled, or the signal to stop. *)
Inductive Signal := LeaderCh (isLeader : bool) (r : R) | StopCh.
(** The server, and the shard maps the rebalances it started are given. *)
Record Monitor := MkMonitor { m_server : Server R; started : list ShardMap }.

(** Whether there is a manager of rebalances; the rebalance runs in a goroutine of its own. *)
Definition onBecomeLeader (manager : bool) (m : Monitor) : Monitor :=
  if manager then MkMonitor (m_server m) (started m ++ [GetShardMap (m_server m)]) else m.
Definition onLoseLeadership (m : Monitor) : Monitor := m.
Definition on_leader (manager : bool) (lead : bool) (r : R) (m : Monitor) : Monitor :=
  let wasLeader := isLeader (m_server m) in
  let m := MkMonitor (handleLeaderChange lead (with_raft r (m_server m))) (started m) in
  if lead && negb wasLeader then onBecomeLeader manager m
  else if negb lead && wasLeader then onLoseLeadership m
  else m.
Fixpoint leaderMonitorLoop (manager : bool) (sigs : list Signal) (m : Monitor) : Monitor :=
  match sigs with
  | [] => m
  | LeaderCh lead r :: sigs => leaderMonitorLoop manager sigs (on_leader manager lead r m)
  | StopCh :: _ => m
  end.

(** Where leadership begins, by what the loop was told so far. *)
Fixpoint elections (was : bool) (sigs : list Signal) : list R :=
  match sigs with
  | LeaderCh lead r :: sigs => ((if lead && negb was then [r] else []) ++ elections lead sigs)%list
  | _ => []
  end.
Fixpoint last_told (was : bool) (sigs : list Signal) : bool :=
  match sigs with LeaderCh lead _ :: sigs => last_told lead sigs | _ => was end.

(** The node takes itself for leader as it was last told, and has started one rebalance for
    each time it was elected, over the shard map it had then. *)
Lemma monitor_follows manager sigs m :
  isLeader (m_server (leaderMonitorLoop manager sigs m)) = last_told (isLeader (m_server m)) sigs /\
  started (leaderMonitorLoop manager sigs m) =
    (started m ++ if manager then map (fun r => Fsm.GetShardMap (raft_fsm r)) (elections (isLeader (m_server m)) sigs) else [])%list.
Proof.
  revert m; induction sigs as [|[lead r|] sigs IH]; intros m; cbn [leaderMonitorLoop last_told elections]; [by destruct manager; rewrite app_nil_r| |by destruct manager; rewrite app_nil_r].
  destruct (IH (on_leader manager lead r m)) as [-> ->]; unfold on_leader, onBecomeLeader, onLoseLeadership.
  destruct lead, (isLeader (m_server m)) eqn:Hw, manager; cbn; rewrite ?Hw; split; try done; by rewrite <- app_assoc.
Qed.

(** ** The rebalance a new leader starts *)
Definition stabilize : Z := 5 * Second.
(** What happens in its goroutine: the server stops within five seconds of the election, or
    both arguments of the rebalance are the map of the election. *)
Definition auto_rebalance {T} `{Streams T} (elected : Z) (stopped : option Z) (currentMap : ShardMap) (order : list Z -> list Z) :
    M (RebalanceManager T) (option (option error)) :=
  if match stopped with Some t => t <? elected + stabilize | None => false end then ret (Some None)
  else TriggerRebalance currentMap currentMap order.

(** However leadership moves, none of the rebalances the node starts moves a shard, or changes
    anything: the manager is as it was after all of them, one after the other. *)
Theorem elections_move_nothing {T} `{Streams T} (sigs : list Signal) (m : Monitor) (elected : Z) (stopped : option Z)
  (order : list Z -> list Z) (rm : RebalanceManager T) (e : env) (Hrun : running rm = false) (Hm : started m = []) :
  length (started (leaderMonitorLoop true sigs m)) = length (elections (isLeader (m_server m)) sigs) /\
  exists rs, for_collect (started (leaderMonitorLoop true sigs m))
    (fun currentMap => r <- auto_rebalance elected stopped currentMap order ;; ret (Some r)) rm e = (rs, rm, e) /\ Forall (fun r => r = Some None) rs.
Proof.
  destruct (monitor_follows true sigs m) as [_ ->]; rewrite Hm; cbn [app]; split; [apply length_map|].
  generalize (map (fun r => Fsm.GetShardMap (raft_fsm r)) (elections (isLeader (m_server m)) sigs)) as l.
  induction l as [|cur l (rs & Hr & Hf)]; [by exists []|]; exists (Some None :: rs); split; [|by constructor].
  assert (auto_rebalance elected stopped cur order rm e = (Some None, rm, e)) as Ha by
    (unfold auto_rebalance; case_match; [done|by apply leader_rebalance_idle]).
  cbn [for_collect]; erewrite bind_run; [|by erewrite bind_run; [|exact Ha]].
  by erewrite bind_run; [|exact Hr].
Qed.
End Monitor.
Arguments Signal : clear implicits.
Arguments Monitor : clear implicits.

(** ** Waiting for the first leader *)
Definition ErrLeaderTimeout : error := SimpleError "timeout waiting for leader election".
Definition poll : Z := 100 * 1000000.
(** The ticks of the ticker until the deadline, which wins a tie; [leader] is the address raft
    gives at a time from the start. *)
Fixpoint wait_ticks (leader : Z -> string) (timeout : Z) (fuel : nat) (now : Z) : option (option error) :=
  match fuel with
  | O => None
  | S fuel' =>
      if timeout <=? now + poll then Some (Some ErrLeaderTimeout)
      else if negb (String.eqb (leader (now + poll)) "") then Some None
      else wait_ticks leader timeout fuel' (now + poll)
  end.
Definition waitForLeader (leader : Z -> string) (timeout : Z) : option (option error) :=
  wait_ticks leader timeout (S (Z.to_nat (timeout / poll))) 0.
Lemma wait_ticks_spec leader timeout fuel now : timeout < now + Z.of_nat fuel * poll + poll ->
  exists r, wait_ticks leader timeout (S fuel) now = Some r /\
    (r = None <-> exists k, 1 <= k /\ now + k * poll < timeout /\ leader (now + k * poll) <> "").
Proof.
  revert now; induction fuel as [|fuel IH]; intros now Hf; unfold poll in *.
  { exists (Some ErrLeaderTimeout); cbn [wait_ticks]; rewrite (proj2 (Z.leb_le _ _)) by (unfold poll; lia); split; [done|].
    split; [done|]; intros (k & Hk & Ht & _); lia. }
  change (wait_ticks leader timeout (S (S fuel)) now) with
    (if timeout <=? now + poll then Some (Some ErrLeaderTimeout) else if negb (String.eqb (leader (now + poll)) "") then Some None
     else wait_ticks leader timeout (S fuel) (now + poll)); unfold poll.
  destruct (Z.leb_spec timeout (now + 100 * 1000000)) as [Hd|Hd].
  { eexists; split; [done|]; split; [done|]; intros (k & Hk & Ht & _); lia. }
  destruct (String.eqb_spec (leader (now + 100 * 1000000)) "") as [He|He]; cbn [negb].
  - destruct (IH (now + 100 * 1000000)) as (r & -> & Hr); [lia|]; exists r; split; [done|]; rewrite Hr; split.
    + intros (k & Hk & Ht & Hl); exists (k + 1); replace (now + (k + 1) * (100 * 1000000)) with (now + 100 * 1000000 + k * (100 * 1000000)) by lia; split_ands; [lia|done|done].
    + intros (k & Hk & Ht & Hl); destruct (decide (k = 1)) as [->|]; [rewrite Z.mul_1_l in Hl; done|].
      exists (k - 1); replace (now + 100 * 1000000 + (k - 1) * (100 * 1000000)) with (now + k * (100 * 1000000)) by lia; split_ands; [lia|done|done].
  - exists None; split; [done|]; split; [|done]; intros _; exists 1; rewrite Z.mul_1_l; split_ands; [lia|lia|done].
Qed.
(** The wait ends, with success exactly if there is a leader at one of the polls before the
    deadline. *)
Theorem wait_ends (leader : Z -> string) (timeout : Z) :
  exists r, waitForLeader leader timeout = Some r /\
    (r = None <-> exists k, 1 <= k /\ k * poll < timeout /\ leader (k * poll) <> "").
Proof.
  unfold waitForLeader; destruct (wait_ticks_spec leader timeout (Z.to_nat (timeout / poll)) 0) as (r & He & Hr).
  - unfold poll; pose proof (Z.div_mod timeout (100 * 1000000)); pose proof (Z.mod_pos_bound timeout (100 * 1000000)); lia.
  - by exists r.
Qed.

(** ** The monitor of the replicas *)
(** The checks of a run that is stopped after so many ticks of 30 seconds. *)
Definition replicationMonitorLoop {R} `{Raft R} (ticks : list (Server R)) : list (option (list Z * list Z)) := map checkReplicationHealth ticks.

(** ** The clients of a transfer *)
Record RPCClient := MkRPCClient { baseURL : string; uses_TLS : bool; client_Timeout : Z }.
Definition createRPCClient (TLSConfig : bool) (addr : string) : Res RPCClient :=
  let scheme := if TLSConfig then "https" else "http" in
  Ok (MkRPCClient (scheme +:+ "://" +:+ addr) TLSConfig (30 * Second)).

(** ** The discovery *)
Record memberNode := MkNode { mn_Name : string; mn_Addr : string; mn_Port : Z; mn_Meta : bytes }.
(** The callbacks as changes of a state; nil when they are not set. *)
Record Discovery (S : Type) := MkDiscovery {
  clusterID : string;
  onJoin : option (string -> string -> S -> S);
  onLeave : option (string -> S -> S);
  onUpdate : option (string -> S -> S);
}.
Arguments MkDiscovery {S} _ _ _ _.
Arguments clusterID {S} _.
Arguments onJoin {S} _.
Arguments onLeave {S} _.
Arguments onUpdate {S} _.
Section Delegate.
Context {S : Type}.
Implicit Types d : Discovery S.
Definition set_OnJoin (fn : string -> string -> S -> S) d : Discovery S := MkDiscovery (clusterID d) (Some fn) (onLeave d) (onUpdate d).
Definition set_OnLeave (fn : string -> S -> S) d : Discovery S := MkDiscovery (clusterID d) (onJoin d) (Some fn) (onUpdate d).
Definition set_OnUpdate (fn : string -> S -> S) d : Discovery S := MkDiscovery (clusterID d) (onJoin d) (onLeave d) (Some fn).
Definition JoinHostPort (host : string) (port : Z) : string :=
  (if Contains host ":" then "[" +:+ host +:+ "]" else host) +:+ ":" +:+ FormatInt port.
(** [NotifyJoin] of the delegate: the checks are in Cluster.v. *)
Definition notifyJoin d (node : memberNode) (s : S) : S :=
  match Cluster.NotifyJoin (clusterID d) (JoinHostPort (mn_Addr node) (mn_Port node)) (mn_Meta node), onJoin d with
  | Some raftAddr, Some fn => fn (mn_Name node) raftAddr s
  | _, _ => s
  end.
Definition NotifyLeave d (node : memberNode) (s : S) : S := match onLeave d with Some fn => fn (mn_Name node) s | None => s end.
Definition NotifyUpdate d (node : memberNode) (s : S) : S := match onUpdate d with Some fn => fn (mn_Name node) s | None => s end.
End Delegate.
(** [setupDiscoveryCallbacks]: an update is only logged. *)
Definition setupDiscoveryCallbacks {R} `{Raft R} (d : Discovery (Server R)) : Discovery (Server R) :=
  set_OnUpdate (fun _ s => s) (set_OnLeave OnLeave (set_OnJoin OnJoin d)).

(** Before the callbacks are set, and on a node that is not leader, the gossip changes nothing. *)
Theorem gossip_needs_leader {R} `{Raft R} (d : Discovery (Server R)) (node : memberNode) (s : Server R) (Hl : isLeader s = false) :
  let d' := setupDiscoveryCallbacks d in
  notifyJoin d' node s = s /\ NotifyLeave d' node s = s /\ NotifyUpdate d' node s = s.
Proof.
  unfold notifyJoin, NotifyLeave, NotifyUpdate, setupDiscoveryCallbacks; cbn; split_ands; try done.
  - case_match; [|done]; unfold OnJoin, IsLeader; by rewrite Hl.
  - unfold OnLeave, IsLeader; by rewrite Hl.
Qed.

(** ** Pass-through calls of raft and memberlist *)
Definition raft_Snapshot (answer : option error) : option error := wrap_err "snapshot" answer.
Definition GetConfiguration {C} (answer : Res C) : Res C := match answer with Ok c => Ok c | Err err => Err (WrapError "get configuration" err) end.
Definition Leave (memberList : option (option error)) : option error := match memberList with Some answer => answer | None => None end.
Definition Members {N} (memberList : option (list N)) : list N := default [] memberList.
